(* ===== verification/_CoqProject ===== *)
-Q . S2P
Prelude.v
Numeric.v
Text.v
JsArray.v
Stats.v
DataModel.v
Classifier.v
Benchmark.v
Facade.v
Monotone.v
Algorithms.v
Pipeline.v
Frontend.v
Harness.v
Legacy.v
Cli.v
FirstCli.v
