(* ===== verification/Prelude.v ===== *)
(** * A verification development for the Big O calculator

    The program (repository Aureliusf/bigOcalculator, JavaScript) estimates the
    asymptotic complexity class of a black-box function: it times the function
    on growing input sizes and fits the timings against five growth models.

    ** The program's parts, and the files that model them

    - [Prelude] (this file): the conventions of the development.  JavaScript
      exceptions are values of [res]; code that reads the clock and calls the
      candidate is a computation of [io], a state monad over [res].  Generic
      lemmas on rationals and lists, the tactics and the hint databases
      [bigo] and [bigo_rw] that the other files use.  [io_spec P c Q] is
      total correctness: from every world in [P] the computation [c]
      returns, in [Q]; its rules carry the proofs that a loop of the
      benchmarker returns.
    - [Numeric]: JavaScript numbers as [num], an exact rational or [NaN], with
      the operators the sources use ([+ - * /], [<], [||], [Math.max],
      [Math.min], [Math.round], [Math.ceil]).  [Math.sqrt] and [Math.log] are
      the two inexact library functions; they are the fields of the class
      [MathLib], with the laws [MathLibLaws] that every theorem is proved
      against, and the executable instance [RefMath] that discharges them.
    - [Text]: the conversions between numbers and text that the sources
      call on what the user types and on what they print: [parseInt] of a
      string (the numeric fields of App.js), [Number] of a string and
      [parseInt] of a number ([getNumberFromConsole]), the print of an
      integer and [toFixed] (the errors of the fits on screen).  They are
      functions of the language, modelled from its definition.
    - [JsArray]: the methods of [Array.prototype] the sources call: [sort]
      with a comparator (a stable insertion sort), [find], [reduce] with an
      index, and [Array.from({length: n}, (_, i) => i)].
    - [Stats]: the three functions of the simple-statistics package the
      sources call ([mean], [linearRegression], [linearRegressionLine]),
      modelled from their documented behaviour, with the least-squares facts
      the classifier relies on.
    - [DataModel]: the records the components exchange ([DataPoint],
      [Model], [Complexity]), the argument of a candidate ([Input]), the five
      labels of the catalog, and [valid_samples], the invariants the
      specification puts on a run's samples.
    - [Classifier]: [calculateRMSE] and [determineComplexity] of
      src/calculator.js (the third file of src/unnamed/part_000): the five
      model fits, the sort by RMSE, the ultra-fast override, the Occam loop and
      the confidence score.
    - [Benchmark]: [generateInputArray] and [runAnalysis] of the same file: the
      warm-up, the calibration loop with its iteration cap, the batch size,
      the measurement loop and the mean.  The clock and the candidate are
      interfaces: any world type [W] with a reading function (the class
      [Clock]), any candidate [Input -> io W E Input].  Three worlds are
      built on them: the ideal clock (a call costs what a cost function
      says), the frozen clock and the scripted clock.
    - [Facade]: [runSingleAnalysis] of src/utils/analysisRunner.js (the
      second file of src/unnamed/part_000), which composes the two.
    - [Monotone]: no code of its own; the interface of a clock that does
      not run backwards (the class [Monotone]: a measure [elapsed] of the
      time that has passed, which readings and calls never decrease), and
      the benchmarker over every world that implements it.
    - [Algorithms]: the four sample candidates of src/src/test_algorithms.js,
      each with the count of its loop iterations, so that its growth is a
      theorem and the benchmarker can be checked against it.
    - [Pipeline]: no code of its own; the composition of the benchmarker,
      the facade and the classifier on the ideal clock, for the sample
      candidates that lie on a regression model.
    - [Frontend]: the React component of src/web-frontend/src/App.js in the
      module [App]: the reducer, the sizes and the dispatches of
      [handleSubmit], the handlers of the form, what is rendered, and the
      component as a transition system ([step], [reachable]).
    - [Harness]: the scripts src/src/verify_all_algos.js ([tests], [verify]
      with its [catch] and its exit code) and src/verifyAlg.js (the
      strategies, [formatResult], the table of [main]).
    - [Legacy], module [V1]: the first version of src/calculator.js (the
      first file of src/unnamed/part_001): a benchmarker without
      calibration, one timed call per iteration, and a classifier that
      ranks four regressions by R squared.
    - [Cli], module [Index]: the console helpers of src/utils/input.js (the
      first file of src/unnamed/part_000) and the current src/index.js (the
      last file of src/unnamed/part_001): the choice of the source, the
      branch that loads a custom function from a file with its [try] and
      [catch], the wrapper of [logarithmicTime], the size strategies, the
      two analyses of [main], the rule for the high-precision run and what
      [displayAnalysis] prints.  The user is a record of answers
      ([Session]), one field per question [main] can ask: the text typed
      at the numeric questions, and what [require] gives for the file
      ([Exports], by what [typeof] says of it).
    - [FirstCli], module [IndexV1]: the first version of src/index.js (the
      second file of src/unnamed/part_001) and of src/utils/input.js (the
      second file of src/verifyAlg.js): the menu on the sample candidates,
      the earlier benchmarker and classifier, and the four scores printed.

    ** How the model corresponds to the code

    Every definition carries the name of the function, variable or expression
    it translates.  Numbers are exact: a finite JavaScript number is a
    rational, so rounding of binary64 arithmetic is not modelled, and
    [Infinity] is identified with [NaN] (the infinities the program can
    produce are [Math.log(0)], a division by a zero batch size and a
    regression on equal sizes; no theorem is stated on such inputs, see
    [Numeric]).  [RefMath] is a stand-in that satisfies the laws, used
    where a witness has to compute; it is not the library's square root
    and logarithm, and no property is stated of its values.  Objects that
    the code compares by identity (the five model records) are compared by
    their [complexity] rank, which is unique in the catalog.  A candidate
    returns the input object as the call left it, and the loops of the
    benchmarker pass that object on, so the reuse of one array across the
    calls of a batch is part of the model.  What a script prints is a list
    of structured lines; the numbers in them are printed by [toFixed]
    where the source calls it, and by the class [NumberFormat] in the
    harness, whose instance prints the integers that a confidence is.

    ** What the theorems show

    - Classifier: on valid samples the result lists the five models sorted
      by RMSE and the confidence is an integer between -22 and 100 (the
      simplicity loop promotes at most four times, each time within 15
      percent, see [Classifier.occam_within]); the ultra-fast regime;
      samples that lie exactly on a regression model are classified as
      that model with confidence 100 when the other models are clear of
      the loop's tolerance; samples that no model explains (the constant
      model within 15 percent of every regression, its error at least
      half the mean time) are answered O(1) with a confidence between -4
      and -1 ([Classifier.noisy_data_classified]); a single sample is
      classified as constant; the classifier throws on the empty array
      and on no other input.  The hypotheses of these theorems are on
      the errors of the fits, with a margin, so that they do not rest on
      two errors being equal by exact cancellation; the single sample,
      whose residuals are zero in the program too, is the exception.
    - Benchmark: one sample per size in order; the calibration loop stops by
      its own condition within its cap; the batch size is at least one on a
      clock that does not run backwards; exceptions of the candidate
      propagate; zero iterations throw; on the ideal clock the sample is the
      candidate's cost (the refinement of the benchmarker to its purpose);
      the batch size on a frozen clock; reproducibility on a scripted clock.
    - Monotone: on every clock that does not run backwards, for every
      candidate that returns, the samples of two or more distinct positive
      sizes are valid input of the classifier, so the precondition of the
      classifier's theorems is established by the benchmarker; and when a
      call takes between two bounds and a reading of the clock a bounded
      time, every sample lies between the bounds of a call, up to two
      readings ([Monotone.samples_between]).
    - Text: [parseInt] reads the print of an integer back and stops at the
      first character that is not a digit; [Number] reads the print of an
      integer back, and what [toFixed] printed to within half a unit of
      the last digit; [parseInt] of a number is its truncation exactly
      where the number is printed without an exponent, and elsewhere its
      first significant digit with its sign, the digit [d] with
      [d * 10 ^ e <= |x| < (d + 1) * 10 ^ e] ([Text.first_digit],
      [Text.parseInt_number_exponent]).
    - Facade: fewer than two sizes short-circuit without touching the
      world; otherwise the classifier cannot throw on what the benchmark
      returns.
    - Algorithms: the binary search is correct on sorted arrays and takes
      [floor(log2 (n + 1))] iterations in the worst case the harnesses
      measure; on the ideal clock [runAnalysis] reports for each candidate
      the growth it is named after.
    - Pipeline: on the ideal clock the whole analysis of [linearTime] and
      of [quadraticTime] returns the candidate's own class with confidence
      100, under the conditions of the classifier's theorem on exact data,
      stated on the expected samples (measured and expected times are
      equal as rationals, [Classifier.exact_data_classified_same]).
    - Frontend: a result and an error are never shown together in a
      reachable state; the threshold of the low-confidence notice; the
      linear size plan ends exactly when its step is positive, and a step
      typed as a fraction below 1 is the step 0; the outcome of a
      submission.
    - Harness: [verify] never throws and its exit code counts the passes;
      [main] returns for candidates that return, with the shape of its
      table; the threshold of [formatResult].
    - Legacy: on the ideal clock the batched benchmarker and the unbatched
      one of the first version return the same samples; the first
      classifier always answers one of its four regression models, and
      the logarithmic one on fewer than two samples.
    - Cli: an integer typed in decimal is read as itself, and a number
      that the language prints with an exponent as its first significant
      digit, whatever the exponent (0.0000005 is read as 5); a
      session in which an algorithm was selected, built-in or from a
      file, runs to its end on the powers of ten and prints one or two
      analyses when there is a size, and ends with an uncaught error when
      there is none; on a clock that does not run backwards the first
      analysis of such a session is the classification of valid samples
      ([Index.cli_session_valid]: console, strategy, benchmarker and
      classifier composed); a session on a file ends with the load error
      exactly in the four cases of [Index.LoadFails]; when the
      high-precision run
      is offered; the error of every fit is printed to within half a
      millionth; the sizes of the powers of ten are valid, those of a
      linear plan with step 0 are all equal.
    - FirstCli: a session of the first version runs to its end for every
      maximal power and answers one of the four regression models; with
      fewer than two sizes it answers O(log n) with all scores 1.0000.

    ** Bounds and fuel

    Three loops are not structural.  The calibration loop of [runAnalysis]
    is bounded in the source by [calCount < 1000000]; the model runs it with
    that many units of fuel and [Benchmark.calibrate_exit] and
    [Benchmark.calibrate_fuel] show that the fuel is never what stops it.
    The binary search halves an interval of indices; its model takes the
    length of the array as fuel, which [Algorithms.search_loop_enough] shows
    to be enough.  The loop of the linear size plan of the front end has no
    bound in the source; its model takes the fuel as an argument, and the
    theorems give the fuel that suffices for a positive step and show that
    none does otherwise.  In [Text] the digits of a number are produced
    on fuel one above its binary logarithm, which bounds the number of
    its decimal digits ([Text.log2_fuel], [Text.nat_toString_read]), and
    the first digit of a fraction is found on fuel two above the binary
    logarithm of its denominator, that of a large number on fuel one
    above its own ([Text.fraction_fuel], [Text.integer_fuel]).

    ** Not modelled

    Every function of the sources is modelled.  What is left out is what
    the sources only call: the chart ([createGraph]), the prompt for a
    file name ([getFileWithAutocomplete]) and the resolution of its path,
    whose modules are not among the sources, so the file name is an answer
    of the session and the chart is not part of what is printed; the HTTP
    server and the sandbox behind the web front end, which is a function
    from the request to a response; styling and the code editor, which
    are presentation.  Numbers are exact rationals: the rounding and the
    range of binary64 are not modelled, the print of a number that is not
    an integer is modelled only through [toFixed], and [toFixed] only
    below [1e21]; [Number] reads a literal exactly, where the program
    rounds it to the nearest binary64.  Inputs on which the program's
    answer is decided by rounding (two samples, equal sizes, samples
    with one time) are left without a theorem for that reason.  With a
    comparator that returns [NaN] the order [sort] gives is left to the
    engine; the stable insertion sort of [JsArray] is one such order,
    and the theorems that depend on the order sort finite keys.  [generateInputArray] builds a
    list of any length: the [RangeError] of [Array.from] above
    [2 ^ 32 - 1] elements is not modelled, so the sizes of the theorems
    are sizes the engine can allocate.  What a candidate throws is an
    error object; a thrown [null] or [undefined], on which the [catch]
    of src/src/verify_all_algos.js would throw when it reads
    [e.message], is not modelled.  The sizes a session passes to the
    benchmarker are integers; after the answer [Infinity] they are [NaN],
    an outcome of [main] that the model names ([Index.NaNSizes]) and does
    not follow further. *)

From Stdlib Require Import String.
From Stdlib Require Import QArith Qround Qminmax Lqa Lia ZArith List Bool.
From Stdlib Require Import Morphisms Setoid.
Import ListNotations.

Declare Scope js_scope.
Delimit Scope js_scope with js.

(** ** Exceptions as values *)

(** The outcome of a JavaScript call: it returns [a] or throws [e]. *)
Inductive res (E A : Type) : Type :=
| Ok (a : A)
| Throw (e : E).

Arguments Ok {E A} a.
Arguments Throw {E A} e.

Definition res_bind {E A B} (c : res E A) (k : A -> res E B) : res E B :=
  match c with
  | Ok a => k a
  | Throw e => Throw e
  end.

Definition res_map {E A B} (f : A -> B) (c : res E A) : res E B :=
  res_bind c (fun a => Ok (f a)).

Definition is_ok {E A} (c : res E A) : bool :=
  match c with Ok _ => true | Throw _ => false end.

(** The exceptions the program itself can raise: [new Error(msg)] thrown by
    a library function, and the [TypeError] of a property read on
    [undefined]. *)
Inductive jserror : Type :=
| Error (msg : string)
| TypeError (msg : string).

(** What a call into the candidate function can end with: an exception of
    the program's own, or whatever value [e] the candidate threw. *)
Inductive exn (E : Type) : Type :=
| Internal (err : jserror)
| Raised (e : E).

Arguments Internal {E} err.
Arguments Raised {E} e.

(** ** Code that runs in a world

    [io W E A] is a computation that reads and changes a world [W] (the
    clock, whatever the candidate touches) and returns [A] or throws [E].
    A thrown exception carries the world at the point of the throw, which
    is where a [catch] block resumes. *)
Definition io (W E A : Type) : Type := W -> res (E * W) (A * W).

Definition io_ret {W E A} (a : A) : io W E A := fun w => Ok (a, w).

Definition io_bind {W E A B} (c : io W E A) (k : A -> io W E B) : io W E B :=
  fun w => match c w with
           | Ok (a, w') => k a w'
           | Throw e => Throw e
           end.

Definition io_throw {W E A} (e : E) : io W E A := fun w => Throw (e, w).

Definition io_lift {W E A} (c : res E A) : io W E A :=
  fun w => match c with
           | Ok a => Ok (a, w)
           | Throw e => Throw (e, w)
           end.

(** [try { c } catch (e) { h(e) }]. *)
Definition io_catch {W E A} (c : io W E A) (h : E -> io W E A) : io W E A :=
  fun w => match c w with
           | Ok r => Ok r
           | Throw (e, w') => h e w'
           end.

Notation "x <- c ;; k" := (io_bind c (fun x => k))
  (at level 61, c at next level, right associativity) : js_scope.
Notation "c ;;; k" := (io_bind c (fun _ => k))
  (at level 61, right associativity) : js_scope.
Notation "'try' x <- c ;; k" := (res_bind c (fun x => k))
  (at level 61, x name, c at next level, right associativity) : js_scope.

(** [for (let i = 0; i < n; i++) body] where the body threads a value. *)
Fixpoint io_repeat {W E A} (n : nat) (body : A -> io W E A) (a : A) : io W E A :=
  match n with
  | O => io_ret a
  | S n' => io_bind (body a) (io_repeat n' body)
  end.

(** ** Tactics *)

Ltac inv H := inversion H; subst; clear H.

(** Case analysis on the first [match] or [if] scrutinee of the goal. *)
Ltac break_match :=
  match goal with
  | |- context [match ?x with _ => _ end] =>
      lazymatch x with
      | context [match _ with _ => _ end] => fail
      | _ => let E := fresh "E" in destruct x eqn:E
      end
  end.

Ltac break_match_hyp :=
  match goal with
  | H : context [match ?x with _ => _ end] |- _ =>
      lazymatch x with
      | context [match _ with _ => _ end] => fail
      | _ => let E := fresh "E" in destruct x eqn:E
      end
  end.

Create HintDb bigo.
Create Rewrite HintDb bigo_rw.

(** ** Laws of [io] *)

Section IoLaws.
Context {W E A B : Type}.
Implicit Types (c : io W E A) (k : A -> io W E B) (body : A -> io W E A).

Lemma io_bind_ok c k w a w' : c w = Ok (a, w') -> io_bind c k w = k a w'.
Proof. unfold io_bind. now intros ->. Qed.

Lemma io_bind_throw c k w e : c w = Throw e -> io_bind c k w = Throw e.
Proof. unfold io_bind. now intros ->. Qed.

Lemma io_bind_inv_ok c k w r :
  io_bind c k w = Ok r -> exists a w', c w = Ok (a, w') /\ k a w' = Ok r.
Proof.
  unfold io_bind. destruct (c w) as [[a w']|e]; [eauto | discriminate].
Qed.

Lemma io_bind_inv_throw c k w e :
  io_bind c k w = Throw e ->
  c w = Throw e \/ exists a w', c w = Ok (a, w') /\ k a w' = Throw e.
Proof.
  unfold io_bind. destruct (c w) as [[a w']|e']; [eauto | intros [= ->]; auto].
Qed.

End IoLaws.

Section IoRepeat.
Context {W E A : Type}.
Implicit Types (body : A -> io W E A).

(** A loop whose body keeps [P] keeps [P]; if the body also returns
    wherever [P] holds, so does the loop. *)
Lemma io_repeat_invariant (P : A -> W -> Prop) body :
  (forall a w a' w', P a w -> body a w = Ok (a', w') -> P a' w') ->
  forall n a w a' w',
    P a w -> io_repeat n body a w = Ok (a', w') -> P a' w'.
Proof.
  intros Hstep n. induction n as [|n IH]; cbn; intros a w a' w' HP H.
  - now inversion H; subst.
  - apply io_bind_inv_ok in H as (a1 & w1 & H1 & H2). eauto.
Qed.

Lemma io_repeat_total (P : A -> W -> Prop) body :
  (forall a w, P a w -> exists a' w', body a w = Ok (a', w') /\ P a' w') ->
  forall n a w,
    P a w -> exists a' w', io_repeat n body a w = Ok (a', w') /\ P a' w'.
Proof.
  intros Hstep n. induction n as [|n IH]; cbn; intros a w HP.
  - now exists a, w.
  - destruct (Hstep a w HP) as (a1 & w1 & H1 & HP1).
    rewrite (io_bind_ok _ _ _ _ _ H1). auto.
Qed.

Lemma io_repeat_throw body n a w e :
  body a w = Throw e -> io_repeat (S n) body a w = Throw e.
Proof. intros H. cbn. now apply io_bind_throw. Qed.

End IoRepeat.

#[export] Hint Rewrite @io_bind_ok @io_bind_throw using eassumption : bigo_rw.

(** ** Total correctness

    [io_spec P c Q]: from every world that satisfies [P] the computation
    [c] returns, with a value and a world that satisfy [Q]. *)

Definition io_spec {W E A} (P : W -> Prop) (c : io W E A) (Q : A -> W -> Prop)
  : Prop :=
  forall w, P w -> exists a w', c w = Ok (a, w') /\ Q a w'.

Section IoSpec.
Context {W E : Type}.

Lemma io_spec_ret {A} (P : W -> Prop) (a : A) :
  io_spec (E := E) P (io_ret a) (fun a' w => a' = a /\ P w).
Proof. intros w Hw. now exists a, w. Qed.

Lemma io_spec_bind {A B} (P : W -> Prop) (Q : A -> W -> Prop)
    (R : B -> W -> Prop) (c : io W E A) (k : A -> io W E B) :
  io_spec P c Q -> (forall a, io_spec (Q a) (k a) R) ->
  io_spec P (io_bind c k) R.
Proof.
  intros Hc Hk w Hw. destruct (Hc w Hw) as (a & w1 & H1 & HQ).
  rewrite (io_bind_ok _ _ _ _ _ H1). exact (Hk a w1 HQ).
Qed.

Lemma io_spec_weaken {A} (P P' : W -> Prop) (Q Q' : A -> W -> Prop)
    (c : io W E A) :
  io_spec P c Q -> (forall w, P' w -> P w) -> (forall a w, Q a w -> Q' a w) ->
  io_spec P' c Q'.
Proof.
  intros Hc HP HQ w Hw. destruct (Hc w (HP w Hw)) as (a & w' & H & Ha).
  exists a, w'. auto.
Qed.

(** A loop whose body keeps [P] returns and keeps [P]. *)
Lemma io_spec_repeat {A} (P : W -> Prop) (body : A -> io W E A) :
  (forall a, io_spec P (body a) (fun _ => P)) ->
  forall n a, io_spec P (io_repeat n body a) (fun _ => P).
Proof.
  intros Hbody n. induction n as [|n IH]; intros a; cbn [io_repeat].
  - intros w Hw. now exists a, w.
  - eapply io_spec_bind; [apply Hbody | exact IH].
Qed.

End IoSpec.

(** ** Rationals *)

Local Open Scope Q_scope.

(** The strict comparison as a boolean, for [if] conditions of the code. *)
Definition Qltb (x y : Q) : bool := negb (Qle_bool y x).

Lemma Qltb_lt x y : Qltb x y = true <-> x < y.
Proof.
  unfold Qltb. rewrite negb_true_iff. split; intros H.
  - apply Qnot_le_lt. intros Hle. apply Qle_bool_iff in Hle. congruence.
  - destruct (Qle_bool y x) eqn:E; [|reflexivity].
    apply Qle_bool_iff in E. lra.
Qed.

Lemma Qltb_ge x y : Qltb x y = false <-> y <= x.
Proof.
  unfold Qltb. rewrite negb_false_iff. apply Qle_bool_iff.
Qed.

Lemma Qltb_spec x y : reflect (x < y) (Qltb x y).
Proof.
  destruct (Qltb x y) eqn:E; constructor.
  - now apply Qltb_lt.
  - apply Qltb_ge in E. lra.
Qed.

Lemma Qeq_bool_spec x y : reflect (x == y) (Qeq_bool x y).
Proof.
  destruct (Qeq_bool x y) eqn:E; constructor.
  - now apply Qeq_bool_iff.
  - now apply Qeq_bool_neq.
Qed.

#[export] Instance Qltb_Proper : Proper (Qeq ==> Qeq ==> eq) Qltb.
Proof. intros x x' Hx y y' Hy. unfold Qltb. now rewrite Hx, Hy. Qed.

Lemma Qdiv_nonneg x y : 0 <= x -> 0 < y -> 0 <= x / y.
Proof. intros Hx Hy. apply Qle_shift_div_l; lra. Qed.

Lemma Qdiv_pos x y : 0 < x -> 0 < y -> 0 < x / y.
Proof. intros Hx Hy. apply Qlt_shift_div_l; lra. Qed.

Lemma Qdiv_le_1 x y : 0 < y -> x <= y -> x / y <= 1.
Proof. intros Hy Hxy. apply Qle_shift_div_r; lra. Qed.

Lemma Qdiv_lt_iff x y z : 0 < y -> (x / y < z <-> x < z * y).
Proof.
  intros Hy. split; intros H.
  - assert (Hx : x == x / y * y) by (field; lra).
    rewrite Hx. apply Qmult_lt_r; assumption.
  - apply Qlt_shift_div_r; assumption.
Qed.

Lemma Qdiv_le_iff x y z : 0 < y -> (x / y <= z <-> x <= z * y).
Proof.
  intros Hy. split; intros H.
  - assert (Hx : x == x / y * y) by (field; lra).
    rewrite Hx. apply Qmult_le_r; assumption.
  - apply Qle_shift_div_r; assumption.
Qed.

Lemma Qsquare_nonneg x : 0 <= x * x.
Proof. nra. Qed.

Lemma Qsquare_zero x : x * x == 0 -> x == 0.
Proof. intros H. nra. Qed.

#[export] Hint Resolve Qdiv_nonneg Qdiv_pos Qdiv_le_1 Qsquare_nonneg : bigo.

(** The sum of a list of rationals, left to right as [reduce] computes it. *)
Definition Qsum (l : list Q) : Q := fold_left Qplus l 0.

Lemma fold_left_Qplus_acc l a : fold_left Qplus l a == a + Qsum l.
Proof.
  unfold Qsum. revert a. induction l as [|x l IH]; intros a; simpl.
  - lra.
  - rewrite IH, (IH (0 + x)). lra.
Qed.

Lemma Qsum_cons x l : Qsum (x :: l) == x + Qsum l.
Proof. unfold Qsum at 1. simpl. rewrite fold_left_Qplus_acc. lra. Qed.

Lemma Qsum_nonneg l : Forall (fun x => 0 <= x) l -> 0 <= Qsum l.
Proof.
  induction 1 as [|x l Hx _ IH].
  - unfold Qsum; simpl; lra.
  - rewrite Qsum_cons. lra.
Qed.

Lemma Qsum_zero_all l :
  Forall (fun x => 0 <= x) l -> Qsum l == 0 -> Forall (fun x => x == 0) l.
Proof.
  induction 1 as [|x l Hx Hl IH]; intros Hs; constructor;
    rewrite Qsum_cons in Hs; pose proof (Qsum_nonneg l Hl).
  - lra.
  - apply IH. lra.
Qed.

Lemma Qsum_all_zero l : Forall (fun x => x == 0) l -> Qsum l == 0.
Proof.
  induction 1 as [|x l Hx _ IH].
  - reflexivity.
  - rewrite Qsum_cons, Hx, IH. lra.
Qed.

Lemma inject_Z_length_pos {A} (l : list A) :
  l <> [] -> 0 < inject_Z (Z.of_nat (length l)).
Proof.
  intros H. destruct l as [|x l]; [congruence|].
  change 0 with (inject_Z 0). rewrite <- Zlt_Qlt. simpl length. lia.
Qed.

(** ** Lists *)

Lemma Forall_map_iff {A B} (f : A -> B) (P : B -> Prop) l :
  Forall P (map f l) <-> Forall (fun x => P (f x)) l.
Proof.
  induction l as [|x l IH]; simpl; split; intros H; try constructor;
    inv H; try constructor; try tauto.
Qed.

Lemma Forall2_impl_r {A B} (P R : A -> B -> Prop) (Q : B -> Prop) l1 l2 :
  (forall a b, P a b -> Q b -> R a b) ->
  Forall2 P l1 l2 -> Forall Q l2 -> Forall2 R l1 l2.
Proof.
  intros H. induction 1 as [|a b l1 l2 Hab _ IH]; intros HQ; constructor.
  - apply H; [assumption | now apply Forall_inv in HQ].
  - apply IH. now apply Forall_inv_tail in HQ.
Qed.

Lemma nth_error_map_some{A B} (f : A -> B) l i x :
  nth_error l i = Some x -> nth_error (map f l) i = Some (f x).
Proof. intros H. rewrite nth_error_map, H. reflexivity. Qed.

(** Related lists stay related under maps, pairing and predicates. *)
Lemma Forall2_map_rel {A A' B B'} (R : A -> A' -> Prop) (S : B -> B' -> Prop)
    (f : A -> B) (g : A' -> B') l l' :
  (forall a a', R a a' -> S (f a) (g a')) ->
  Forall2 R l l' -> Forall2 S (map f l) (map g l').
Proof. intros H. induction 1; cbn [map]; constructor; auto. Qed.

Lemma Forall2_combine {A A' B B'} (R : A -> A' -> Prop) (S : B -> B' -> Prop)
    (l : list A) (l' : list A') (k : list B) (k' : list B') :
  Forall2 R l l' -> Forall2 S k k' ->
  Forall2 (fun p p' => R (fst p) (fst p') /\ S (snd p) (snd p'))
          (combine l k) (combine l' k').
Proof.
  intros H. revert k k'. induction H as [|a a' l l' Ha _ IH]; intros k k' Hk;
    [constructor|].
  destruct Hk as [|b b' k k' Hb Hk]; cbn [combine]; constructor; auto.
Qed.

Lemma Forall2_Forall {A A'} (R : A -> A' -> Prop) (P : A -> Prop) (P' : A' -> Prop)
    l l' :
  (forall a a', R a a' -> P a -> P' a') ->
  Forall2 R l l' -> Forall P l -> Forall P' l'.
Proof.
  intros H. induction 1 as [|a a' l l' Ha _ IH]; intros HP; constructor.
  - apply (H a a' Ha). now apply Forall_inv in HP.
  - apply IH. now apply Forall_inv_tail in HP.
Qed.
