(* ===== verification/Numeric.v ===== *)
(** * JavaScript numbers

    A number of the program is modelled as [num]: an exact rational or [NaN].
    Arithmetic on finite numbers is exact (binary64 rounding is not
    modelled).  [Infinity] is identified with [NaN]: in the sources a
    division has a zero divisor only in [linearRegression] (where the
    dividend is zero too, so JavaScript gives [NaN]) and in the division by
    [batchSize] (zero only on a clock that runs backwards), and
    [Math.log(0)] is [-Infinity] only for a size [n = 0], where the
    regression sums turn it into [NaN].

    [Math.sqrt] and [Math.log] are the fields of [MathLib]; the theorems of
    the development assume [MathLibLaws] only, which both the real functions
    and the executable instance [RefMath] satisfy. *)

From Stdlib Require Import QArith Qround Qminmax Lqa Lia ZArith List Bool.
From Stdlib Require Import Morphisms Setoid.
From S2P Require Import Prelude.
Import ListNotations.

Local Open Scope Q_scope.

Declare Scope num_scope.
Delimit Scope num_scope with num.

Inductive num : Type :=
| Fin (q : Q)
| NaN.

Bind Scope num_scope with num.

(** The numeric literal of an integer, as in [for (let i = 0; ...)]. *)
Definition of_Z (z : Z) : num := Fin (inject_Z z).

Definition of_nat (n : nat) : num := of_Z (Z.of_nat n).

(** ** Operators *)

Definition nadd (a b : num) : num :=
  match a, b with
  | Fin x, Fin y => Fin (x + y)
  | _, _ => NaN
  end.

Definition nsub (a b : num) : num :=
  match a, b with
  | Fin x, Fin y => Fin (x - y)
  | _, _ => NaN
  end.

Definition nmul (a b : num) : num :=
  match a, b with
  | Fin x, Fin y => Fin (x * y)
  | _, _ => NaN
  end.

(** [a / b]; a zero divisor gives [NaN] (see the header). *)
Definition ndiv (a b : num) : num :=
  match a, b with
  | Fin x, Fin y => if Qeq_bool y 0 then NaN else Fin (x / y)
  | _, _ => NaN
  end.

(** [a ** 2]. *)
Definition nsq (a : num) : num := nmul a a.

(** [a < b]: false as soon as an operand is [NaN]. *)
Definition nlt (a b : num) : bool :=
  match a, b with
  | Fin x, Fin y => Qltb x y
  | _, _ => false
  end.

(** [a > b]. *)
Definition ngt (a b : num) : bool := nlt b a.

(** [a <= b]: false as soon as an operand is [NaN]. *)
Definition nle (a b : num) : bool :=
  match a, b with
  | Fin x, Fin y => Qle_bool x y
  | _, _ => false
  end.

(** [a >= b]. *)
Definition nge (a b : num) : bool := nle b a.

(** Truthiness of a number: [0] and [NaN] are falsy. *)
Definition truthy (a : num) : bool :=
  match a with
  | Fin x => negb (Qeq_bool x 0)
  | NaN => false
  end.

(** [a || b] on numbers. *)
Definition nor (a b : num) : num := if truthy a then a else b.

(** [Math.max(a, b)] and [Math.min(a, b)]: [NaN] if an argument is. *)
Definition nmax (a b : num) : num :=
  match a, b with
  | Fin x, Fin y => Fin (if Qltb x y then y else x)
  | _, _ => NaN
  end.

Definition nmin (a b : num) : num :=
  match a, b with
  | Fin x, Fin y => Fin (if Qltb y x then y else x)
  | _, _ => NaN
  end.

(** [Math.round]: the nearest integer, halves towards plus infinity. *)
Definition nround (a : num) : num :=
  match a with
  | Fin x => of_Z (Qfloor (x + (1 # 2)))
  | NaN => NaN
  end.

(** [Math.ceil]. *)
Definition nceil (a : num) : num :=
  match a with
  | Fin x => of_Z (Qceiling x)
  | NaN => NaN
  end.

(** The number of iterations of [for (let i = 0; i < bound; i++)]. *)
Definition loop_count (bound : num) : nat :=
  match bound with
  | Fin x => Z.to_nat (Qceiling x)
  | NaN => O
  end.

Definition is_fin (a : num) : bool :=
  match a with Fin _ => true | NaN => false end.

Notation "a + b" := (nadd a b) : num_scope.
Notation "a - b" := (nsub a b) : num_scope.
Notation "a * b" := (nmul a b) : num_scope.
Notation "a / b" := (ndiv a b) : num_scope.
Notation "a <? b" := (nlt a b) : num_scope.
Notation "a >? b" := (ngt a b) : num_scope.
Notation "a <=? b" := (nle a b) : num_scope.
Notation "a >=? b" := (nge a b) : num_scope.
Notation "a || b" := (nor a b) : num_scope.

(** ** Equality of numbers up to the representation of the rational *)

Definition num_eq (a b : num) : Prop :=
  match a, b with
  | Fin x, Fin y => x == y
  | NaN, NaN => True
  | _, _ => False
  end.

Infix "=~" := num_eq (at level 70, no associativity) : num_scope.

#[export] Instance num_eq_Equivalence : Equivalence num_eq.
Proof.
  split.
  - intros [x|]; simpl; [reflexivity | exact I].
  - intros [x|] [y|]; simpl; auto. intros H; now symmetry.
  - intros [x|] [y|] [z|]; simpl; try tauto. intros H1 H2. now rewrite H1.
Qed.

(** The boolean test of [=~], for computing. *)
Definition num_eqb (a b : num) : bool :=
  match a, b with
  | Fin x, Fin y => Qeq_bool x y
  | NaN, NaN => true
  | _, _ => false
  end.

Lemma num_eqb_eq a b : num_eqb a b = true <-> num_eq a b.
Proof.
  destruct a as [x|], b as [y|]; simpl; try (split; [discriminate | tauto]).
  - apply Qeq_bool_iff.
  - tauto.
Qed.

Ltac num_cases :=
  repeat match goal with
         | a : num |- _ => destruct a as [?|]
         end; simpl in *; try tauto; try discriminate.

(** Opens a [Proper] goal on binary and unary operators of [num]. *)
Ltac num_proper2 :=
  intros [?x|] [?x'|] Ha [?y|] [?y'|] Hb; simpl in *; try tauto.
Ltac num_proper1 :=
  intros [?x|] [?x'|] Ha; simpl in *; try tauto.

#[export] Instance nadd_Proper : Proper (num_eq ==> num_eq ==> num_eq) nadd.
Proof. num_proper2. now rewrite Ha, Hb. Qed.

#[export] Instance nsub_Proper : Proper (num_eq ==> num_eq ==> num_eq) nsub.
Proof. num_proper2. now rewrite Ha, Hb. Qed.

#[export] Instance nmul_Proper : Proper (num_eq ==> num_eq ==> num_eq) nmul.
Proof. num_proper2. now rewrite Ha, Hb. Qed.

#[export] Instance ndiv_Proper : Proper (num_eq ==> num_eq ==> num_eq) ndiv.
Proof.
  num_proper2. rewrite <- Hb.
  destruct (Qeq_bool y 0); simpl; [exact I | now rewrite Ha, Hb].
Qed.

#[export] Instance nlt_Proper : Proper (num_eq ==> num_eq ==> eq) nlt.
Proof. num_proper2. now rewrite Ha, Hb. Qed.

#[export] Instance nle_Proper : Proper (num_eq ==> num_eq ==> eq) nle.
Proof. num_proper2. now rewrite Ha, Hb. Qed.

#[export] Instance truthy_Proper : Proper (num_eq ==> eq) truthy.
Proof. num_proper1. now rewrite Ha. Qed.

#[export] Instance nor_Proper : Proper (num_eq ==> num_eq ==> num_eq) nor.
Proof.
  intros a a' Ha b b' Hb. unfold nor. rewrite <- Ha.
  destruct (truthy a); assumption.
Qed.

#[export] Instance is_fin_Proper : Proper (num_eq ==> eq) is_fin.
Proof. num_proper1. Qed.

#[export] Instance nround_Proper : Proper (num_eq ==> eq) nround.
Proof.
  intros [x|] [x'|] Ha; try contradiction; [|reflexivity].
  cbn [num_eq] in Ha. unfold nround. f_equal. apply Qfloor_comp. now rewrite Ha.
Qed.

#[export] Instance nceil_Proper : Proper (num_eq ==> eq) nceil.
Proof.
  intros [x|] [x'|] Ha; try contradiction; [|reflexivity].
  cbn [num_eq] in Ha. unfold nceil. f_equal. now apply Qceiling_comp.
Qed.

(** ** Facts about the operators *)

Lemma nlt_Fin x y : nlt (Fin x) (Fin y) = true <-> x < y.
Proof. apply Qltb_lt. Qed.

Lemma nlt_Fin_false x y : nlt (Fin x) (Fin y) = false <-> y <= x.
Proof. apply Qltb_ge. Qed.

Lemma nlt_true_inv a b :
  nlt a b = true -> exists x y, a = Fin x /\ b = Fin y /\ x < y.
Proof.
  destruct a as [x|], b as [y|]; simpl; try discriminate.
  intros H. exists x, y. repeat split. now apply Qltb_lt.
Qed.

Lemma nlt_irrefl a : nlt a a = false.
Proof. destruct a as [x|]; simpl; [|reflexivity]. apply Qltb_ge. lra. Qed.

Lemma nlt_NaN_l b : nlt NaN b = false.
Proof. reflexivity. Qed.

Lemma nlt_NaN_r a : nlt a NaN = false.
Proof. destruct a; reflexivity. Qed.

Lemma truthy_Fin x : truthy (Fin x) = true <-> ~ x == 0.
Proof.
  simpl. rewrite negb_true_iff. split; intros H.
  - now apply Qeq_bool_neq.
  - destruct (Qeq_bool_spec x 0); [contradiction | reflexivity].
Qed.

Lemma nor_truthy a b : truthy (nor a b) = truthy a || truthy b.
Proof. unfold nor. destruct (truthy a) eqn:E; simpl; [exact E | reflexivity]. Qed.

(** [x || d] with a positive default [d] is positive when [x] is not
    negative: the guard the code puts under every division. *)
Lemma nor_pos x d :
  0 <= x -> 0 < d -> exists y, nor (Fin x) (Fin d) = Fin y /\ 0 < y
                               /\ (~ x == 0 -> y = x) /\ (x == 0 -> y = d).
Proof.
  intros Hx Hd. unfold nor. simpl.
  destruct (Qeq_bool_spec x 0) as [E|E]; simpl.
  - exists d. repeat split; auto. intros H; contradiction.
  - exists x. repeat split; auto; [lra | intros H; contradiction].
Qed.

Lemma ndiv_Fin x y : ~ y == 0 -> ndiv (Fin x) (Fin y) = Fin (x / y).
Proof.
  intros H. simpl. destruct (Qeq_bool_spec y 0); [contradiction | reflexivity].
Qed.

Lemma ndiv_zero x y : y == 0 -> ndiv (Fin x) (Fin y) = NaN.
Proof.
  intros H. simpl. destruct (Qeq_bool_spec y 0); [reflexivity | contradiction].
Qed.

Lemma nmax_Fin x y : exists z, nmax (Fin x) (Fin y) = Fin z /\ x <= z /\ y <= z
                               /\ (z = x \/ z = y).
Proof.
  simpl. destruct (Qltb_spec x y) as [H|H]; eexists; repeat split; eauto; lra.
Qed.

Lemma nmin_Fin x y : exists z, nmin (Fin x) (Fin y) = Fin z /\ z <= x /\ z <= y
                               /\ (z = x \/ z = y).
Proof.
  simpl. destruct (Qltb_spec y x) as [H|H]; eexists; repeat split; eauto; lra.
Qed.

(** [Math.round] is monotone and fixes the integers. *)
Lemma Qround_half_le x y : x <= y -> (Qfloor (x + (1#2)) <= Qfloor (y + (1#2)))%Z.
Proof. intros H. apply Qfloor_resp_le. lra. Qed.

Lemma Qround_half_Z (z : Z) : Qfloor (inject_Z z + (1#2)) = z.
Proof.
  pose proof (Qfloor_le (inject_Z z + (1#2))) as H1.
  pose proof (Qlt_floor (inject_Z z + (1#2))) as H2.
  set (f := Qfloor (inject_Z z + (1#2))) in *.
  rewrite inject_Z_plus in H2.
  assert (Ha : inject_Z f < inject_Z (z + 1)).
  { rewrite inject_Z_plus. change (inject_Z 1) with 1 in *. lra. }
  assert (Hb : inject_Z z < inject_Z (f + 1)).
  { rewrite inject_Z_plus. change (inject_Z 1) with 1 in *. lra. }
  rewrite <- Zlt_Qlt in Ha, Hb. lia.
Qed.

Lemma nround_bounds x (lo hi : Z) :
  inject_Z lo <= x -> x <= inject_Z hi ->
  exists z, nround (Fin x) = of_Z z /\ (lo <= z <= hi)%Z.
Proof.
  intros Hlo Hhi. exists (Qfloor (x + (1#2))). split; [reflexivity|].
  rewrite <- (Qround_half_Z lo), <- (Qround_half_Z hi).
  split; now apply Qround_half_le.
Qed.

Lemma loop_count_of_Z z : loop_count (of_Z z) = Z.to_nat z.
Proof. unfold loop_count, of_Z. now rewrite Qceiling_Z. Qed.

Lemma loop_count_of_nat n : loop_count (of_nat n) = n.
Proof. unfold of_nat. rewrite loop_count_of_Z. apply Nat2Z.id. Qed.

(** [Math.ceil] of a positive number is at least one. *)
Lemma Qceiling_pos x : 0 < x -> (1 <= Qceiling x)%Z.
Proof.
  intros H. pose proof (Qle_ceiling x) as Hc.
  assert (Hlt : inject_Z 0 < inject_Z (Qceiling x))
    by (change (inject_Z 0) with 0; lra).
  rewrite <- Zlt_Qlt in Hlt. lia.
Qed.

#[export] Hint Resolve Qceiling_pos : bigo.
#[export] Hint Rewrite loop_count_of_Z loop_count_of_nat : bigo_rw.

(** ** The inexact library functions

    [Math.sqrt] and [Math.log] on finite arguments.  A JavaScript engine, the
    real functions and the instance [RefMath] below all satisfy the laws;
    nothing else is assumed about them. *)

Class MathLib : Type := {
  Math_sqrt : Q -> Q;
  Math_log : Q -> Q
}.

Class MathLibLaws (M : MathLib) : Prop := {
  Math_sqrt_Proper :: Proper (Qeq ==> Qeq) Math_sqrt;
  Math_sqrt_0 : Math_sqrt 0 == 0;
  Math_sqrt_pos : forall x, 0 < x -> 0 < Math_sqrt x;
  Math_sqrt_mono : forall x y, 0 <= x -> x <= y -> Math_sqrt x <= Math_sqrt y;
  Math_log_Proper :: Proper (Qeq ==> Qeq) Math_log;
  Math_log_1 : Math_log 1 == 0;
  Math_log_mono : forall x y, 0 < x -> x < y -> Math_log x < Math_log y
}.


Section WithMath.
Context {M : MathLib}.

(** [Math.sqrt(a)]: [NaN] on a negative argument. *)
Definition nsqrt (a : num) : num :=
  match a with
  | Fin x => if Qltb x 0 then NaN else Fin (Math_sqrt x)
  | NaN => NaN
  end.

(** [Math.log(a)]: [NaN] on a negative argument, and on zero, where
    JavaScript gives [-Infinity] (see the header). *)
Definition nlog (a : num) : num :=
  match a with
  | Fin x => if Qle_bool x 0 then NaN else Fin (Math_log x)
  | NaN => NaN
  end.

Context {L : MathLibLaws M}.

Lemma Math_sqrt_nonneg x : 0 <= x -> 0 <= Math_sqrt x.
Proof.
  intros H. rewrite <- Math_sqrt_0. apply Math_sqrt_mono; [lra | assumption].
Qed.

Lemma Math_sqrt_zero_iff x : 0 <= x -> (Math_sqrt x == 0 <-> x == 0).
Proof.
  intros H. split; intros E.
  - destruct (Qlt_le_dec 0 x) as [Hp|Hp]; [|lra].
    pose proof (Math_sqrt_pos x Hp). lra.
  - rewrite E. apply Math_sqrt_0.
Qed.

Lemma Math_sqrt_lt_le x y : 0 <= x -> 0 <= y -> Math_sqrt x < Math_sqrt y -> x < y.
Proof.
  intros Hx Hy H. destruct (Qlt_le_dec x y) as [Hlt|Hle]; [assumption|].
  pose proof (Math_sqrt_mono y x Hy Hle). lra.
Qed.

Lemma nsqrt_Fin x : 0 <= x -> nsqrt (Fin x) = Fin (Math_sqrt x).
Proof.
  intros H. simpl. destruct (Qltb_spec x 0); [lra | reflexivity].
Qed.

Lemma nlog_Fin x : 0 < x -> nlog (Fin x) = Fin (Math_log x).
Proof.
  intros H. simpl. destruct (Qle_bool x 0) eqn:E; [|reflexivity].
  apply Qle_bool_iff in E. lra.
Qed.

Lemma nlog_nonpos x : x <= 0 -> nlog (Fin x) = NaN.
Proof.
  intros H. simpl. apply Qle_bool_iff in H. now rewrite H.
Qed.

Lemma Math_log_nonneg x : 1 <= x -> 0 <= Math_log x.
Proof.
  intros H. destruct (Qlt_le_dec 1 x) as [Hlt|Hle].
  - pose proof (Math_log_mono 1 x ltac:(lra) Hlt). rewrite Math_log_1 in H0. lra.
  - assert (E : x == 1) by lra. rewrite E, Math_log_1. lra.
Qed.

Lemma Math_log_inj x y : 0 < x -> 0 < y -> Math_log x == Math_log y -> x == y.
Proof.
  intros Hx Hy E.
  destruct (Qlt_le_dec x y) as [H1|H1].
  - pose proof (Math_log_mono x y Hx H1). lra.
  - destruct (Qlt_le_dec y x) as [H2|H2]; [|lra].
    pose proof (Math_log_mono y x Hy H2). lra.
Qed.

End WithMath.

(** ** An executable instance

    [ref_sqrt] rounds the square root up to a multiple of [1 / sqrt_scale];
    [ref_log] interpolates the binary logarithm linearly between powers of
    two.  Both are monotone, which is all the laws ask. *)

Definition sqrt_scale : Z := 2 ^ 20.

Definition ref_sqrt (x : Q) : Q :=
  if Qle_bool x 0 then 0
  else inject_Z (Z.sqrt_up (Qceiling (x * inject_Z (sqrt_scale * sqrt_scale))))
       / inject_Z sqrt_scale.

Definition ln2 : Q := 0.693147.

(** log2 on [1, oo): k + (x / 2^k - 1) with k = floor (log2 x) *)
Definition ref_log2_ge1 (x : Q) : Q :=
  let k := Z.log2 (Qfloor x) in
  inject_Z k + (x / inject_Z (2 ^ k) - 1).

Definition ref_log (x : Q) : Q :=
  if Qle_bool 1 x then ln2 * ref_log2_ge1 x
  else - (ln2 * ref_log2_ge1 (/ x)).


Lemma sqrt_scale_pos : 0 < inject_Z sqrt_scale.
Proof. reflexivity. Qed.

Lemma ref_sqrt_Proper : Proper (Qeq ==> Qeq) ref_sqrt.
Proof.
  intros x y H. unfold ref_sqrt. rewrite H.
  destruct (Qle_bool y 0); [reflexivity|].
  assert (E : Qceiling (x * inject_Z (sqrt_scale * sqrt_scale))
              = Qceiling (y * inject_Z (sqrt_scale * sqrt_scale)))
    by (apply Qceiling_comp; now rewrite H).
  rewrite E. reflexivity.
Qed.

Lemma ref_sqrt_nonneg x : 0 <= ref_sqrt x.
Proof.
  unfold ref_sqrt. destruct (Qle_bool x 0); [lra|].
  apply Qdiv_nonneg; [|apply sqrt_scale_pos].
  change 0 with (inject_Z 0). rewrite <- Zle_Qle. apply Z.sqrt_up_nonneg.
Qed.

Lemma ref_sqrt_pos x : 0 < x -> 0 < ref_sqrt x.
Proof.
  intros Hx. unfold ref_sqrt.
  destruct (Qle_bool x 0) eqn:E; [apply Qle_bool_iff in E; lra|].
  apply Qdiv_pos; [|apply sqrt_scale_pos].
  change 0 with (inject_Z 0). rewrite <- Zlt_Qlt.
  apply Z.sqrt_up_pos. 
  assert (0 < x * inject_Z (sqrt_scale * sqrt_scale)).
  { apply Qmult_lt_0_compat; [assumption | reflexivity]. }
  pose proof (Qceiling_pos _ H). lia.
Qed.

(** The least positive value of [ref_sqrt]: one unit of its scale. *)
Lemma ref_sqrt_floor x : 0 < x -> 1 / inject_Z sqrt_scale <= ref_sqrt x.
Proof.
  intros Hx. unfold ref_sqrt.
  destruct (Qle_bool x 0) eqn:E; [apply Qle_bool_iff in E; lra|].
  apply Qmult_le_compat_r; [|apply Qlt_le_weak, Qinv_lt_0_compat, sqrt_scale_pos].
  change 1 with (inject_Z 1). rewrite <- Zle_Qle.
  assert (H : 0 < x * inject_Z (sqrt_scale * sqrt_scale))
    by (apply Qmult_lt_0_compat; [assumption | reflexivity]).
  pose proof (Qceiling_pos _ H).
  pose proof (Z.sqrt_up_pos (Qceiling (x * inject_Z (sqrt_scale * sqrt_scale)))).
  lia.
Qed.

Lemma ref_sqrt_mono x y : 0 <= x -> x <= y -> ref_sqrt x <= ref_sqrt y.
Proof.
  intros Hx Hxy. unfold ref_sqrt at 1.
  destruct (Qle_bool x 0) eqn:Ex; [apply ref_sqrt_nonneg|].
  unfold ref_sqrt.
  destruct (Qle_bool y 0) eqn:Ey.
  { apply Qle_bool_iff in Ey. 
    assert (Qle_bool x 0 = true) by (apply Qle_bool_iff; lra). congruence. }
  apply Qmult_le_compat_r; [|apply Qlt_le_weak, Qinv_lt_0_compat, sqrt_scale_pos].
  rewrite <- Zle_Qle. apply Z.sqrt_up_le_mono, Qceiling_resp_le.
  apply Qmult_le_compat_r; [assumption | discriminate].
Qed.

Lemma pow2_bracket x :
  1 <= x ->
  let k := Z.log2 (Qfloor x) in
  (0 <= k)%Z /\ inject_Z (2 ^ k) <= x /\ x < inject_Z (2 ^ (k + 1)).
Proof.
  intros Hx k.
  assert (Hf : (1 <= Qfloor x)%Z).
  { rewrite <- (Qfloor_Z 1). now apply Qfloor_resp_le. }
  destruct (Z.log2_spec (Qfloor x)) as [Hlo Hhi]; [lia|].
  fold k in Hlo, Hhi. replace (Z.succ k) with (k + 1)%Z in Hhi by lia.
  split; [apply Z.log2_nonneg|]. split.
  - apply Qle_trans with (inject_Z (Qfloor x)); [now rewrite <- Zle_Qle | apply Qfloor_le].
  - apply Qlt_le_trans with (inject_Z (Qfloor x + 1)); [apply Qlt_floor|].
    rewrite <- Zle_Qle. lia.
Qed.

Lemma inject_Z_pow2_pos k : (0 <= k)%Z -> 0 < inject_Z (2 ^ k).
Proof.
  intros H. change 0 with (inject_Z 0). rewrite <- Zlt_Qlt.
  apply Z.pow_pos_nonneg; lia.
Qed.

Lemma inject_Z_pow2_succ k :
  (0 <= k)%Z -> inject_Z (2 ^ (k + 1)) == 2 * inject_Z (2 ^ k).
Proof.
  intros H. rewrite Z.pow_add_r by lia. rewrite inject_Z_mult.
  change (inject_Z (2 ^ 1)) with 2. lra.
Qed.

Lemma ref_log2_ge1_bounds x :
  1 <= x ->
  inject_Z (Z.log2 (Qfloor x)) <= ref_log2_ge1 x
  /\ ref_log2_ge1 x < inject_Z (Z.log2 (Qfloor x)) + 1.
Proof.
  intros Hx. destruct (pow2_bracket x Hx) as (Hk & Hlo & Hhi).
  unfold ref_log2_ge1. set (k := Z.log2 (Qfloor x)) in *.
  pose proof (inject_Z_pow2_pos k Hk) as Hp.
  rewrite inject_Z_pow2_succ in Hhi by assumption.
  split.
  - assert (1 <= x / inject_Z (2 ^ k)) by (apply Qle_shift_div_l; lra). lra.
  - assert (x / inject_Z (2 ^ k) < 2) by (apply Qlt_shift_div_r; lra). lra.
Qed.

Lemma ref_log2_ge1_mono x y :
  1 <= x -> x < y -> ref_log2_ge1 x < ref_log2_ge1 y.
Proof.
  intros Hx Hxy.
  assert (Hy : 1 <= y) by lra.
  assert (Hk : (Z.log2 (Qfloor x) <= Z.log2 (Qfloor y))%Z).
  { apply Z.log2_le_mono, Qfloor_resp_le. lra. }
  destruct (Z.eq_dec (Z.log2 (Qfloor x)) (Z.log2 (Qfloor y))) as [E|E].
  - unfold ref_log2_ge1. rewrite E.
    destruct (pow2_bracket y Hy) as (Hk0 & _ & _).
    pose proof (inject_Z_pow2_pos _ Hk0) as Hp.
    assert (x / inject_Z (2 ^ Z.log2 (Qfloor y)) < y / inject_Z (2 ^ Z.log2 (Qfloor y))).
    { apply Qmult_lt_compat_r; [apply Qinv_lt_0_compat|]; assumption. }
    lra.
  - destruct (ref_log2_ge1_bounds x Hx) as [_ Hux].
    destruct (ref_log2_ge1_bounds y Hy) as [Hly _].
    assert (Hz : inject_Z (Z.log2 (Qfloor x)) + 1 <= inject_Z (Z.log2 (Qfloor y))).
    { change 1 with (inject_Z 1). rewrite <- inject_Z_plus, <- Zle_Qle. lia. }
    lra.
Qed.

Lemma ref_log2_ge1_1 : ref_log2_ge1 1 == 0.
Proof. reflexivity. Qed.

Lemma ref_log2_ge1_Proper : Proper (Qeq ==> Qeq) ref_log2_ge1.
Proof.
  intros x y H. unfold ref_log2_ge1. rewrite (Qfloor_comp _ _ H), H. reflexivity.
Qed.

Lemma ln2_pos : 0 < ln2.
Proof. reflexivity. Qed.

Lemma ref_log_Proper : Proper (Qeq ==> Qeq) ref_log.
Proof.
  intros x y H. unfold ref_log. rewrite H.
  destruct (Qle_bool 1 y).
  - now rewrite (ref_log2_ge1_Proper _ _ H).
  - assert (H' : / x == / y) by now rewrite H.
    now rewrite (ref_log2_ge1_Proper _ _ H').
Qed.

Lemma ref_log_ge1 x : 1 <= x -> ref_log x == ln2 * ref_log2_ge1 x.
Proof.
  intros H. unfold ref_log.
  destruct (Qle_bool 1 x) eqn:E; [reflexivity|].
  apply Qle_bool_iff in H. congruence.
Qed.

Lemma ref_log_lt1 x : x < 1 -> ref_log x == - (ln2 * ref_log2_ge1 (/ x)).
Proof.
  intros H. unfold ref_log.
  destruct (Qle_bool 1 x) eqn:E; [|reflexivity].
  apply Qle_bool_iff in E. lra.
Qed.

Lemma Qinv_gt_1 x : 0 < x -> x < 1 -> 1 < / x.
Proof.
  intros H0 H1. assert (H : 1 / 1 < 1 / x).
  { apply Qlt_shift_div_l; [assumption|]. 
    assert (E : 1 / 1 * x == x) by (field). rewrite E. assumption. }
  assert (E1 : 1 / x == / x) by (field; lra).
  rewrite E1 in H. exact H.
Qed.

Lemma Qinv_lt_contravar_pos x y : 0 < x -> x < y -> / y < / x.
Proof.
  intros Hx Hxy. 
  assert (Hy : 0 < y) by lra.
  assert (E1 : / y == x / (x * y)) by (field; lra).
  assert (E2 : / x == y / (x * y)) by (field; lra).
  rewrite E1, E2. apply Qmult_lt_compat_r; [|assumption].
  apply Qinv_lt_0_compat. nra.
Qed.

Lemma ref_log_mono x y : 0 < x -> x < y -> ref_log x < ref_log y.
Proof.
  intros Hx Hxy. pose proof ln2_pos as Hl.
  destruct (Qlt_le_dec x 1) as [Hx1|Hx1]; destruct (Qlt_le_dec y 1) as [Hy1|Hy1].
  - rewrite (ref_log_lt1 x Hx1), (ref_log_lt1 y Hy1).
    pose proof (ref_log2_ge1_mono (/ y) (/ x)
                  (Qlt_le_weak _ _ (Qinv_gt_1 y ltac:(lra) Hy1))
                  (Qinv_lt_contravar_pos x y Hx Hxy)).
    nra.
  - rewrite (ref_log_lt1 x Hx1), (ref_log_ge1 y Hy1).
    destruct (ref_log2_ge1_bounds y Hy1) as [Hly _].
    destruct (pow2_bracket y Hy1) as (Hk & _ & _).
    assert (0 <= inject_Z (Z.log2 (Qfloor y))) by (change 0 with (inject_Z 0); now rewrite <- Zle_Qle).
    pose proof (ref_log2_ge1_mono 1 (/ x) ltac:(lra) (Qinv_gt_1 x Hx Hx1)) as Hm.
    rewrite ref_log2_ge1_1 in Hm. nra.
  - lra.
  - rewrite (ref_log_ge1 x Hx1), (ref_log_ge1 y Hy1).
    pose proof (ref_log2_ge1_mono x y Hx1 Hxy). nra.
Qed.

#[export] Instance RefMath : MathLib := {| Math_sqrt := ref_sqrt; Math_log := ref_log |}.

#[export] Instance RefMath_laws : MathLibLaws RefMath.
Proof.
  split.
  - exact ref_sqrt_Proper.
  - reflexivity.
  - exact ref_sqrt_pos.
  - exact ref_sqrt_mono.
  - exact ref_log_Proper.
  - reflexivity.
  - exact ref_log_mono.
Qed.
