(* ===== verification/Text.v ===== *)
(** * Numbers as text

    The conversions between numbers and strings that the sources call:
    [parseInt(text)] (src/web-frontend/src/App.js, the handlers of the
    numeric inputs), [Number(text)] and [parseInt(number)]
    (src/utils/input.js, [getNumberFromConsole]) and the printing of an
    integer (template strings of src/verifyAlg.js).  They are functions of
    the language, modelled from its definition: [parseInt] reads the
    longest prefix of digits after blanks, a sign and a hexadecimal prefix;
    [Number] accepts a whole literal or gives [NaN]; [parseInt] of a
    number prints it first, so a number printed with an exponent is read
    as its first digit.  [toFixed] (src/index.js and App.js, where the
    errors of the fits are shown) rounds to a number of decimals and
    prints in positional notation.  Strings are ASCII; numbers are exact
    rationals, so the range of binary64 is not modelled.

    The theorems are round trips: [parseInt] and [Number] read the print of
    an integer back, [Number] reads what [toFixed] printed back to within
    half a unit of the last digit, and [parseInt] of a number is its
    truncation exactly when the number is printed without an exponent,
    and otherwise its first significant digit: the digit [d] of
    [first_digit], with [d * 10 ^ e] at most the number and
    [(d + 1) * 10 ^ e] above it. *)

From Stdlib Require Import Ascii String.
From Stdlib Require Import QArith Qround Qabs Qpower Lqa Lia ZArith List Bool.
From S2P Require Import Prelude.
From S2P Require Import Numeric.
Import ListNotations.

Local Open Scope string_scope.
Local Open Scope Z_scope.

(** ** Reading digits *)

(** ASCII white space: tab, line feed, vertical tab, form feed, carriage
    return and space. *)
Definition blank (c : ascii) : bool :=
  let k := Z.of_nat (nat_of_ascii c) in
  ((9 <=? k) && (k <=? 13)) || (k =? 32).

Fixpoint skip_blanks (s : string) : string :=
  match s with
  | String c s' => if blank c then skip_blanks s' else s
  | EmptyString => s
  end.

(** The string without its trailing blanks. *)
Fixpoint trim_end (s : string) : string :=
  match s with
  | EmptyString => EmptyString
  | String c s' =>
      match trim_end s' with
      | EmptyString => if blank c then EmptyString else String c EmptyString
      | t => String c t
      end
  end.

(** The value of a character as a digit: 0 to 9, then the letters for 10
    to 35. *)
Definition digit_val (c : ascii) : option Z :=
  let k := Z.of_nat (nat_of_ascii c) in
  if (48 <=? k) && (k <=? 57) then Some (k - 48)
  else if (97 <=? k) && (k <=? 122) then Some (k - 87)
  else if (65 <=? k) && (k <=? 90) then Some (k - 55)
  else None.

Definition digit_of (radix : Z) (c : ascii) : option Z :=
  match digit_val c with
  | Some d => if d <? radix then Some d else None
  | None => None
  end.

(** The longest prefix of digits: its value on top of [acc], the number of
    digits read on top of [count], and what follows. *)
Fixpoint read_digits (radix : Z) (s : string) (acc : Z) (count : nat)
  : Z * nat * string :=
  match s with
  | EmptyString => (acc, count, s)
  | String c s' =>
      match digit_of radix c with
      | Some d => read_digits radix s' (radix * acc + d) (S count)
      | None => (acc, count, s)
      end
  end.

(** A leading sign. *)
Definition signed (s : string) : Z * string :=
  match s with
  | String c s' =>
      if Ascii.eqb c "-" then (-1, s')
      else if Ascii.eqb c "+" then (1, s')
      else (1, s)
  | EmptyString => (1, s)
  end.

(** The prefix [0x], [0o] or [0b] of a literal, in either case: the radix
    and what follows. *)
Definition radix_prefix (s : string) : option (Z * string) :=
  match s with
  | String c (String p s') =>
      if Ascii.eqb c "0" then
        if (Ascii.eqb p "x" || Ascii.eqb p "X")%bool then Some (16, s')
        else if (Ascii.eqb p "o" || Ascii.eqb p "O")%bool then Some (8, s')
        else if (Ascii.eqb p "b" || Ascii.eqb p "B")%bool then Some (2, s')
        else None
      else None
  | _ => None
  end.

(** The radix of [parseInt] without a radix argument: 16 after the prefix
    [0x], 10 otherwise. *)
Definition parse_radix (s : string) : Z * string :=
  match radix_prefix s with
  | Some (16, s') => (16, s')
  | _ => (10, s)
  end.

(** [parseInt(text)], without a radix. *)
Definition parseInt (text : string) : num :=
  let '(sign, s) := signed (skip_blanks text) in
  let '(radix, s) := parse_radix s in
  let '(z, count, _) := read_digits radix s 0 0 in
  match count with
  | O => NaN
  | S _ => of_Z (sign * z)
  end.

(** ** Printing integers *)

Definition digit_char (d : Z) : ascii := ascii_of_nat (48 + Z.to_nat d).

Fixpoint digits_of (fuel : nat) (z : Z) (acc : string) : string :=
  match fuel with
  | O => acc
  | S fuel' =>
      let acc' := String (digit_char (z mod 10)) acc in
      if z <? 10 then acc' else digits_of fuel' (z / 10) acc'
  end.

(** The digits of a natural number; the fuel is one more than its binary
    logarithm, which bounds the number of its decimal digits. *)
Definition nat_toString (z : Z) : string :=
  digits_of (S (Z.to_nat (Z.log2 z))) z "".

(** [String(z)] for an integer [z] (below [10 ^ 21] in absolute value,
    where the language starts to print an exponent). *)
Definition Z_toString (z : Z) : string :=
  if z <? 0 then String "-"%char (nat_toString (- z)) else nat_toString z.

(** ** [Number(text)] *)

(** What [Number] returns: here the two infinities are told apart from
    [NaN], since [isNaN] is. *)
Inductive jsnumber : Type :=
| JFin (q : Q)
| JNaN
| JInf (negative : bool).

(** A run of digits that is the whole string. *)
Definition all_read (r : Z * nat * string) : option Z :=
  let '(z, count, rest) := r in
  match count, rest with
  | S _, EmptyString => Some z
  | _, _ => None
  end.

(** The exponent after [e]. *)
Definition exponent_part (s : string) : option Z :=
  let '(sign, s') := signed s in
  option_map (Z.mul sign) (all_read (read_digits 10 s' 0 0)).

(** The mantissa with the optional exponent that follows it. *)
Definition scale (mantissa : Q) (s : string) : jsnumber :=
  match s with
  | EmptyString => JFin mantissa
  | String c s' =>
      if (Ascii.eqb c "e" || Ascii.eqb c "E")%bool then
        match exponent_part s' with
        | Some e => JFin (mantissa * Qpower 10 e)%Q
        | None => JNaN
        end
      else JNaN
  end.

(** An unsigned decimal literal: digits, a fraction, an exponent. *)
Definition decimal_literal (s : string) : jsnumber :=
  let '(i, ni, r1) := read_digits 10 s 0 0 in
  match r1 with
  | String "."%char r2 =>
      let '(f, nf, r3) := read_digits 10 r2 0 0 in
      match (ni + nf)%nat with
      | O => JNaN
      | S _ => scale (inject_Z (i * 10 ^ Z.of_nat nf + f)
                      / inject_Z (10 ^ Z.of_nat nf))%Q r3
      end
  | _ =>
      match ni with
      | O => JNaN
      | S _ => scale (inject_Z i) r1
      end
  end.

Definition negate (a : jsnumber) : jsnumber :=
  match a with
  | JFin q => JFin (- q)%Q
  | JNaN => JNaN
  | JInf negative => JInf (negb negative)
  end.

Definition signed_literal (s : string) : jsnumber :=
  let '(sign, s') := signed s in
  let a := if String.eqb s' "Infinity" then JInf false else decimal_literal s' in
  if sign <? 0 then negate a else a.

(** A literal with a prefix: all of the rest must be digits of the radix. *)
Definition radix_literal (radix : Z) (s : string) : jsnumber :=
  match all_read (read_digits radix s 0 0) with
  | Some z => JFin (inject_Z z)
  | None => JNaN
  end.

(** [Number(text)]: blanks around a literal are dropped, the empty string
    is 0, and anything that is not wholly a literal is [NaN]. *)
Definition Number_of (text : string) : jsnumber :=
  let s := trim_end (skip_blanks text) in
  match s with
  | EmptyString => JFin 0
  | _ =>
      match radix_prefix s with
      | Some (radix, s') => radix_literal radix s'
      | None => signed_literal s
      end
  end.

(** ** [parseInt(number)] *)

(** The first digit of an integer. *)
Fixpoint leading_digit (fuel : nat) (z : Z) : Z :=
  match fuel with
  | O => z
  | S fuel' => if z <? 10 then z else leading_digit fuel' (z / 10)
  end.

(** The first significant digit of a positive rational below 1. *)
Fixpoint leading_fraction_digit (fuel : nat) (q : Q) : Z :=
  match fuel with
  | O => 0
  | S fuel' =>
      if Qle_bool 1 q then Qfloor q else leading_fraction_digit fuel' (10 * q)%Q
  end.

(** [parseInt(number)]: the number is printed, then read.  Between
    [1e-6] and [1e21] the print is positional and the result is the
    integer part; outside, the print starts with the first significant
    digit, a point or an [e], and the result is that digit. *)
Definition parseInt_number (q : Q) : num :=
  let m := Qabs q in
  let sign := if Qltb q 0 then -1 else 1 in
  if Qeq_bool q 0 then of_Z 0
  else if Qltb m (1 # 1000000) then
    of_Z (sign * leading_fraction_digit
                   (S (S (Z.to_nat (Z.log2 (Zpos (Qden m)))))) m)
  else if Qltb m (inject_Z (10 ^ 21)) then of_Z (sign * Qfloor m)
  else of_Z (sign * leading_digit (S (Z.to_nat (Z.log2 (Qfloor m)))) (Qfloor m)).

(** [first_digit m digit e]: in scientific notation the positive number
    [m] is [digit] times [10 ^ e] and less than the next digit at that
    place: [digit] is its first significant digit and [e] the exponent
    that the print of [m] shows. *)
Definition first_digit (m : Q) (digit e : Z) : Prop :=
  1 <= digit <= 9
  /\ (inject_Z digit * 10 ^ e <= m < inject_Z (digit + 1) * 10 ^ e)%Q.

(** ** [toFixed] *)

(** The integer nearest to a rational that is not negative, the larger
    one of two. *)
Definition round_half_up (q : Q) : Z := Qfloor (q + (1 # 2)).

(** The last [width] digits of a natural number, with leading zeros. *)
Fixpoint fixed_digits (width : nat) (z : Z) (acc : string) : string :=
  match width with
  | O => acc
  | S width' => fixed_digits width' (z / 10) (String (digit_char (z mod 10)) acc)
  end.

(** The point and the digits after it. *)
Definition fraction (fractionDigits : nat) (z : Z) : string :=
  match fractionDigits with
  | O => ""
  | S _ => String "." (fixed_digits fractionDigits z "")
  end.

(** [x.toFixed(fractionDigits)] for a number below [1e21] in absolute
    value (from there on the language prints an exponent): the sign, then
    the nearest multiple of [10 ^ -fractionDigits] of the absolute value,
    in positional notation. *)
Definition toFixed (fractionDigits : nat) (x : num) : string :=
  match x with
  | NaN => "NaN"
  | Fin q =>
      let scale := 10 ^ Z.of_nat fractionDigits in
      let n := round_half_up (Qabs q * inject_Z scale) in
      let m := nat_toString (n / scale) ++ fraction fractionDigits (n mod scale) in
      if Qltb q 0 then String "-" m else m
  end.

(** ** Strings of decimal digits *)

Definition decimal_char (c : ascii) : bool :=
  let k := Z.of_nat (nat_of_ascii c) in (48 <=? k) && (k <=? 57).

Fixpoint all_decimal (s : string) : bool :=
  match s with
  | EmptyString => true
  | String c s' => decimal_char c && all_decimal s'
  end.

(** A string at which a run of decimal digits stops. *)
Definition stops (suffix : string) : bool :=
  match suffix with
  | EmptyString => true
  | String c _ => negb (decimal_char c)
  end.

(** What may follow the digits that [parseInt] reads in base ten: nothing,
    or a character that is not a digit and not the [x] of a hexadecimal
    prefix. *)
Definition ends_number (suffix : string) : bool :=
  match suffix with
  | EmptyString => true
  | String c _ => negb (decimal_char c || Ascii.eqb c "x" || Ascii.eqb c "X")
  end.

Fixpoint no_blank (s : string) : bool :=
  match s with
  | EmptyString => true
  | String c s' => negb (blank c) && no_blank s'
  end.

(** * Facts *)

(** ** Decimal characters *)

Lemma decimal_char_code c :
  decimal_char c = true -> 48 <= Z.of_nat (nat_of_ascii c) <= 57.
Proof. unfold decimal_char. cbv zeta. rewrite andb_true_iff, !Z.leb_le. tauto. Qed.

Lemma decimal_char_blank c : decimal_char c = true -> blank c = false.
Proof.
  intros H%decimal_char_code. unfold blank. cbv zeta.
  apply orb_false_iff. split; [apply andb_false_iff; right; apply Z.leb_gt | apply Z.eqb_neq]; lia.
Qed.

Lemma decimal_char_digit c :
  decimal_char c = true ->
  digit_of 10 c = Some (Z.of_nat (nat_of_ascii c) - 48).
Proof.
  intros H. pose proof (decimal_char_code c H) as Hc.
  unfold digit_of, digit_val. cbv zeta. fold (decimal_char c). rewrite H.
  now rewrite (proj2 (Z.ltb_lt _ _)) by lia.
Qed.

(** The letters are digits of larger radices only. *)
Lemma not_decimal_digit c : decimal_char c = false -> digit_of 10 c = None.
Proof.
  intros H. unfold digit_of, digit_val. cbv zeta. fold (decimal_char c). rewrite H.
  repeat match goal with
  | |- context [(?a <=? ?b) && (?c <=? ?d)] =>
      destruct (Z.leb_spec a b), (Z.leb_spec c d); cbn [andb]
  end; try reflexivity; now rewrite (proj2 (Z.ltb_ge _ _)) by lia.
Qed.

(** A decimal character is none of the characters that are not. *)
Lemma decimal_char_neq c c' :
  decimal_char c = true -> decimal_char c' = false -> Ascii.eqb c c' = false.
Proof. intros H H'. apply Ascii.eqb_neq. intros ->. congruence. Qed.

Lemma digit_char_code d :
  0 <= d < 10 -> Z.of_nat (nat_of_ascii (digit_char d)) = 48 + d.
Proof. intros H. unfold digit_char. rewrite nat_ascii_embedding; lia. Qed.

Lemma digit_char_decimal d : 0 <= d < 10 -> decimal_char (digit_char d) = true.
Proof.
  intros H. unfold decimal_char. cbv zeta. rewrite (digit_char_code d H).
  apply andb_true_iff. rewrite !Z.leb_le. lia.
Qed.

Lemma digit_char_value d : 0 <= d < 10 -> digit_of 10 (digit_char d) = Some d.
Proof.
  intros H. rewrite (decimal_char_digit _ (digit_char_decimal d H)), (digit_char_code d H).
  f_equal. lia.
Qed.

Lemma mod_10_digit z : 0 <= z mod 10 < 10.
Proof. apply Z.mod_pos_bound. lia. Qed.

#[export] Hint Resolve digit_char_decimal mod_10_digit : bigo.

(** ** Strings without blanks *)

Lemma append_empty (s : string) : s ++ "" = s.
Proof. induction s as [|c s IH]; [reflexivity|]. cbn. now rewrite IH. Qed.

Lemma no_blank_app s t : no_blank (s ++ t) = no_blank s && no_blank t.
Proof.
  induction s as [|c s IH]; [reflexivity|]. cbn [append no_blank].
  now rewrite IH, andb_assoc.
Qed.

Lemma all_decimal_no_blank s : all_decimal s = true -> no_blank s = true.
Proof.
  induction s as [|c s IH]; [reflexivity|]. cbn [all_decimal no_blank].
  intros [Hc Hs]%andb_true_iff. now rewrite (decimal_char_blank c Hc), IH.
Qed.

Lemma trim_end_no_blank s : no_blank s = true -> trim_end s = s.
Proof.
  induction s as [|c s IH]; [reflexivity|]. cbn [no_blank trim_end].
  intros [Hc Hs]%andb_true_iff. rewrite (IH Hs).
  apply negb_true_iff in Hc. rewrite Hc. now destruct s.
Qed.

(** ** A digit, then what follows *)

Section Numeral.
Variable c : ascii.
Hypothesis decimal : decimal_char c = true.

Lemma numeral_skip_blanks u : skip_blanks (String c u) = String c u.
Proof. cbn [skip_blanks]. now rewrite (decimal_char_blank c decimal). Qed.

Lemma numeral_signed u : signed (String c u) = (1, String c u).
Proof. cbn [signed]. now rewrite !(decimal_char_neq c _ decimal) by reflexivity. Qed.

Lemma numeral_not_infinity u : String.eqb (String c u) "Infinity" = false.
Proof. cbn [String.eqb]. now rewrite (decimal_char_neq c "I" decimal). Qed.

(** After a digit, a second digit, a point or nothing: no prefix of a
    radix. *)
Lemma numeral_radix_prefix u :
  match u with
  | String p _ => (decimal_char p || Ascii.eqb p ".")%bool = true
  | EmptyString => True
  end ->
  radix_prefix (String c u) = None.
Proof.
  destruct u as [|p t]; [reflexivity|]. intros Hp. cbn [radix_prefix].
  assert (E : forall l, (decimal_char l || Ascii.eqb l ".")%bool = false ->
                        Ascii.eqb p l = false).
  { intros l Hl. apply Ascii.eqb_neq. intros ->. congruence. }
  rewrite !E by reflexivity. now destruct (Ascii.eqb c "0").
Qed.

(** [parseInt] stays in base ten when the digits are not followed by an
    [x]. *)
Lemma numeral_parse_radix s suffix :
  all_decimal s = true -> ends_number suffix = true ->
  parse_radix (String c (s ++ suffix)) = (10, String c (s ++ suffix)).
Proof.
  intros Hs He. unfold parse_radix. destruct s as [|p s].
  - destruct suffix as [|p t]; [reflexivity|]. cbn [append radix_prefix].
    cbn [ends_number] in He. apply negb_true_iff in He.
    apply orb_false_iff in He as [[_ Hx]%orb_false_iff HX]. rewrite Hx, HX.
    cbn [orb]. destruct (Ascii.eqb c "0"); [|reflexivity].
    destruct (Ascii.eqb p "o" || Ascii.eqb p "O")%bool; [reflexivity|].
    now destruct (Ascii.eqb p "b" || Ascii.eqb p "B")%bool.
  - rewrite numeral_radix_prefix; [reflexivity|]. cbn [append].
    cbn [all_decimal] in Hs. apply andb_true_iff in Hs as [-> _]. reflexivity.
Qed.

End Numeral.

(** ** Printing, then reading *)

Lemma digits_of_decimal fuel : forall z acc,
  all_decimal acc = true -> all_decimal (digits_of fuel z acc) = true.
Proof.
  induction fuel as [|fuel IH]; intros z acc Hacc; [exact Hacc|].
  assert (Hd : all_decimal (String (digit_char (z mod 10)) acc) = true)
    by (cbn [all_decimal]; rewrite Hacc; now rewrite digit_char_decimal by auto with bigo).
  cbn [digits_of]. destruct (z <? 10); [exact Hd | now apply IH].
Qed.

Lemma digits_of_app fuel suffix : forall z acc,
  digits_of fuel z (acc ++ suffix) = digits_of fuel z acc ++ suffix.
Proof.
  induction fuel as [|fuel IH]; intros z acc; [reflexivity|]. cbn [digits_of].
  destruct (z <? 10); [reflexivity|].
  exact (IH (z / 10) (String (digit_char (z mod 10)) acc)).
Qed.

(** Reading what [digits_of] printed in front of [rest] adds the number
    to the count of digits and leaves [rest] to read, with the number as
    the value so far. *)
Lemma read_digits_of fuel : forall z rest,
  0 <= z < 2 ^ Z.of_nat fuel ->
  exists k, (fuel <> O -> k <> O) /\
    forall count,
      read_digits 10 (digits_of fuel z rest) 0 count
      = read_digits 10 rest z (count + k).
Proof.
  induction fuel as [|fuel IH]; intros z rest Hz.
  - exists O. split; [congruence|]. intros count. cbn in Hz |- *.
    replace z with 0 by lia. now rewrite Nat.add_0_r.
  - cbn [digits_of]. destruct (Z.ltb_spec z 10) as [Hlt|Hge].
    + exists 1%nat. split; [congruence|]. intros count. cbn [read_digits].
      rewrite Z.mod_small, digit_char_value by lia.
      now rewrite Nat.add_1_r.
    + destruct (IH (z / 10) (String (digit_char (z mod 10)) rest)) as (k & _ & Hk).
      { split; [apply Z.div_pos; lia|]. apply Z.div_lt_upper_bound; [lia|].
        rewrite Nat2Z.inj_succ, Z.pow_succ_r in Hz; lia. }
      exists (S k). split; [congruence|]. intros count. rewrite Hk. cbn [read_digits].
      rewrite digit_char_value by auto with bigo.
      rewrite Nat.add_succ_r. f_equal. pose proof (Z.div_mod z 10). lia.
Qed.

(** The same for a fixed number of digits. *)
Lemma read_fixed_digits width : forall z rest acc count,
  read_digits 10 (fixed_digits width z rest) acc count
  = read_digits 10 rest (acc * 10 ^ Z.of_nat width + z mod 10 ^ Z.of_nat width)
      (count + width).
Proof.
  induction width as [|width IH]; intros z rest acc count.
  - cbn [fixed_digits]. change (Z.of_nat 0) with 0. rewrite Z.pow_0_r, Z.mod_1_r.
    f_equal; [lia | now rewrite Nat.add_0_r].
  - cbn [fixed_digits]. rewrite IH. cbn [read_digits].
    rewrite digit_char_value by auto with bigo.
    rewrite Nat2Z.inj_succ, Z.pow_succ_r by lia. rewrite Nat.add_succ_r.
    f_equal. rewrite (Z.rem_mul_r z 10 (10 ^ Z.of_nat width)) by lia. lia.
Qed.

Lemma fixed_digits_decimal width : forall z acc,
  all_decimal acc = true -> all_decimal (fixed_digits width z acc) = true.
Proof.
  induction width as [|width IH]; intros z acc Hacc; [exact Hacc|].
  cbn [fixed_digits]. apply IH. cbn [all_decimal].
  now rewrite Hacc, digit_char_decimal by auto with bigo.
Qed.

(** A run of digits stops where no digit follows. *)
Lemma read_digits_stops suffix acc count :
  stops suffix = true -> read_digits 10 suffix acc count = (acc, count, suffix).
Proof.
  destruct suffix as [|c t]; [reflexivity|]. cbn [stops read_digits].
  intros H%negb_true_iff. now rewrite (not_decimal_digit c H).
Qed.

Lemma ends_number_stops suffix : ends_number suffix = true -> stops suffix = true.
Proof.
  destruct suffix as [|c t]; [reflexivity|]. cbn [ends_number stops].
  now destruct (decimal_char c).
Qed.

Lemma log2_fuel z : 0 <= z -> z < 2 ^ Z.of_nat (S (Z.to_nat (Z.log2 z))).
Proof.
  intros Hz. rewrite Nat2Z.inj_succ, Z2Nat.id by apply Z.log2_nonneg.
  destruct (Z.eq_dec z 0) as [->|Hn]; [reflexivity|]. apply Z.log2_spec. lia.
Qed.

(** The print of a natural number: a digit, then digits; the fuel of
    [nat_toString] is enough for all of it to be read back. *)
Lemma nat_toString_read z suffix :
  0 <= z -> stops suffix = true ->
  exists c s k,
    nat_toString z = String c s
    /\ decimal_char c = true /\ all_decimal s = true
    /\ read_digits 10 (nat_toString z ++ suffix) 0 0 = (z, S k, suffix).
Proof.
  intros Hz Hs. unfold nat_toString.
  set (fuel := S (Z.to_nat (Z.log2 z))).
  destruct (read_digits_of fuel z suffix) as (k & Hk & H);
    [split; [exact Hz | now apply log2_fuel]|].
  pose proof (digits_of_decimal fuel z "" eq_refl) as Hd.
  specialize (H O). rewrite (read_digits_stops suffix z _ Hs) in H.
  change (digits_of fuel z suffix) with (digits_of fuel z ("" ++ suffix)) in H.
  rewrite digits_of_app in H.
  destruct k as [|k]; [now destruct Hk|].
  destruct (digits_of fuel z "") as [|c s];
    [cbn [append] in H; rewrite (read_digits_stops suffix 0 _ Hs) in H; discriminate|].
  cbn [all_decimal] in Hd. apply andb_true_iff in Hd as [Hc Hd].
  now exists c, s, k.
Qed.

Lemma nat_toString_nonempty z : 0 <= z -> nat_toString z <> "".
Proof.
  intros Hz E. destruct (nat_toString_read z "" Hz eq_refl) as (c & s & _ & H & _).
  congruence.
Qed.

Lemma Z_toString_nonempty z : Z_toString z <> "".
Proof.
  unfold Z_toString. destruct (Z.ltb_spec z 0); [discriminate|].
  now apply nat_toString_nonempty.
Qed.

(** The print of an integer: a sign and the print of a natural number. *)
Lemma Z_toString_numeral z :
  Z_toString z
  = (if z <? 0 then String "-" (nat_toString (Z.abs z)) else nat_toString (Z.abs z)).
Proof.
  unfold Z_toString. destruct (Z.ltb_spec z 0); [now rewrite Z.abs_neq by lia|].
  now rewrite Z.abs_eq.
Qed.

(** ** [parseInt] of a printed integer *)

(** [parseInt] of digits, signed or not, followed by something else. *)
Lemma parseInt_numeral (sign : bool) c s suffix z k :
  decimal_char c = true -> all_decimal s = true -> ends_number suffix = true ->
  read_digits 10 (String c (s ++ suffix)) 0 0 = (z, S k, suffix) ->
  parseInt (if sign then String "-" (String c (s ++ suffix)) else String c (s ++ suffix))
  = of_Z (if sign then - z else z).
Proof.
  intros Hc Hs He Hr. unfold parseInt.
  assert (E : signed (skip_blanks (if sign then String "-" (String c (s ++ suffix))
                                   else String c (s ++ suffix)))
              = (if sign then -1 else 1, String c (s ++ suffix))).
  { destruct sign; [reflexivity|]. now rewrite numeral_skip_blanks, numeral_signed. }
  rewrite E, (numeral_parse_radix c s suffix Hs He), Hr. f_equal. destruct sign; lia.
Qed.

(** [parseInt] reads the decimal print of every integer back as that
    integer, and stops at the first character that is not a digit:
    [parseInt(String(z) + suffix)] is [z] when [suffix] is empty or starts
    with a character that is neither a digit nor an [x]. *)
Theorem parseInt_prefix (z : Z) (suffix : string) :
  ends_number suffix = true -> parseInt (Z_toString z ++ suffix) = of_Z z.
Proof.
  intros He.
  destruct (nat_toString_read (Z.abs z) suffix) as (c & s & k & E & Hc & Hs & Hr);
    [lia | now apply ends_number_stops|].
  rewrite E in Hr. cbn [append] in Hr.
  pose proof (parseInt_numeral (z <? 0) c s suffix _ k Hc Hs He Hr) as H.
  rewrite Z_toString_numeral, E.
  destruct (Z.ltb_spec z 0); cbn [append]; rewrite H; f_equal; lia.
Qed.

(** ** [Number] of a printed number *)

(** [Number] of a literal that starts with a digit, signed or not. *)
Lemma Number_of_literal (sign : bool) c u :
  decimal_char c = true -> no_blank u = true ->
  radix_prefix (String c u) = None ->
  Number_of (if sign then String "-" (String c u) else String c u)
  = (if sign then negate (decimal_literal (String c u))
     else decimal_literal (String c u)).
Proof.
  intros Hc Hu Hp.
  assert (Hn : no_blank (String c u) = true)
    by (cbn [no_blank]; now rewrite (decimal_char_blank c Hc), Hu).
  assert (Hn' : no_blank (String "-" (String c u)) = true) by exact Hn.
  assert (Hl : signed_literal (if sign then String "-" (String c u) else String c u)
               = (if sign then negate (decimal_literal (String c u))
                  else decimal_literal (String c u))).
  { unfold signed_literal.
    replace (signed (if sign then String "-" (String c u) else String c u))
      with (if sign then -1 else 1, String c u)
      by (destruct sign; [reflexivity | now rewrite numeral_signed]).
    rewrite (numeral_not_infinity c Hc). now destruct sign. }
  unfold Number_of. destruct sign.
  - change (skip_blanks (String "-" (String c u))) with (String "-" (String c u)).
    rewrite (trim_end_no_blank _ Hn').
    change (radix_prefix (String "-" (String c u))) with (@None (Z * string)).
    exact Hl.
  - now rewrite (numeral_skip_blanks c Hc), (trim_end_no_blank _ Hn), Hp.
Qed.

Lemma decimal_literal_integer s z k :
  read_digits 10 s 0 0 = (z, S k, "") -> decimal_literal s = JFin (inject_Z z).
Proof. intros H. unfold decimal_literal. now rewrite H. Qed.

(** After digits, the fraction of [toFixed] or nothing: the literal has no
    blank and no prefix of a radix. *)
Lemma fraction_plain c s fractionDigits r :
  decimal_char c = true -> all_decimal s = true ->
  no_blank (s ++ fraction fractionDigits r) = true
  /\ radix_prefix (String c (s ++ fraction fractionDigits r)) = None.
Proof.
  intros Hc Hs. split.
  - rewrite no_blank_app, (all_decimal_no_blank s Hs).
    destruct fractionDigits as [|w]; [reflexivity|].
    apply (all_decimal_no_blank (fixed_digits (S w) r "")).
    now apply fixed_digits_decimal.
  - apply numeral_radix_prefix. destruct s as [|p t].
    + now destruct fractionDigits.
    + cbn [append]. cbn [all_decimal] in Hs. now apply andb_true_iff in Hs as [-> _].
Qed.

(** [Number(String(z))] is [z]. *)
Theorem Number_toString (z : Z) : Number_of (Z_toString z) = JFin (inject_Z z).
Proof.
  destruct (nat_toString_read (Z.abs z) "") as (c & s & k & E & Hc & Hs & Hr);
    [lia | reflexivity|].
  rewrite append_empty in Hr. rewrite Z_toString_numeral.
  destruct (fraction_plain c s 0 0 Hc Hs) as [Hn Hp]. cbn [fraction] in Hn, Hp.
  rewrite append_empty in Hn, Hp. rewrite E in *.
  rewrite (Number_of_literal (z <? 0) c s Hc Hn Hp), (decimal_literal_integer _ _ _ Hr).
  destruct (Z.ltb_spec z 0); cbn [negate]; unfold Qopp, inject_Z; cbn [Qnum Qden];
    do 2 f_equal; lia.
Qed.

(** ** [toFixed], then [Number] *)

(** The literal that [toFixed] prints for the integer [n] of the scaled
    number. *)
Lemma toFixed_literal (fractionDigits : nat) (n : Z) :
  0 <= n ->
  let scale := 10 ^ Z.of_nat fractionDigits in
  exists c s q,
    nat_toString (n / scale) = String c s
    /\ decimal_char c = true /\ all_decimal s = true
    /\ decimal_literal (nat_toString (n / scale) ++ fraction fractionDigits (n mod scale))
       = JFin q
    /\ (q == inject_Z n / inject_Z scale)%Q.
Proof.
  intros Hn scale.
  assert (Hp : 0 < scale) by (apply Z.pow_pos_nonneg; lia).
  destruct (nat_toString_read (n / scale) (fraction fractionDigits (n mod scale)))
    as (c & s & k & E & Hc & Hs & Hr);
    [apply Z.div_pos; lia | now destruct fractionDigits|].
  exists c, s. unfold decimal_literal. rewrite Hr.
  destruct fractionDigits as [|w]; cbn [fraction].
  - eexists. split; [exact E|]. split; [exact Hc|]. split; [exact Hs|].
    split; [reflexivity|]. subst scale. change (10 ^ Z.of_nat 0) with 1.
    rewrite Z.div_1_r. field.
  - rewrite read_fixed_digits. cbn [read_digits Nat.add].
    eexists. split; [exact E|]. split; [exact Hc|]. split; [exact Hs|].
    split; [reflexivity|]. fold scale.
    replace (n / scale * scale + (0 * scale + (n mod scale) mod scale)) with n;
      [reflexivity|].
    rewrite Z.mod_mod by lia. pose proof (Z.div_mod n scale). lia.
Qed.

Lemma round_half_up_near (x : Q) :
  (0 <= x)%Q ->
  0 <= round_half_up x /\ (Qabs (inject_Z (round_half_up x) - x) <= 1 # 2)%Q.
Proof.
  intros Hx. unfold round_half_up.
  pose proof (Qfloor_le (x + (1 # 2))) as Hlo.
  pose proof (Qlt_floor (x + (1 # 2))) as Hhi.
  rewrite inject_Z_plus in Hhi. change (inject_Z 1) with 1%Q in Hhi. split.
  - rewrite <- (Qfloor_Z 0). apply Qfloor_resp_le. change (inject_Z 0) with 0%Q. lra.
  - apply Qabs_Qle_condition. split; lra.
Qed.

(** [Number] of what [toFixed] printed: the rounded number, with the
    sign. *)
Lemma toFixed_number (fractionDigits : nat) (q : Q) :
  let scale := inject_Z (10 ^ Z.of_nat fractionDigits) in
  let n := inject_Z (round_half_up (Qabs q * scale)) in
  exists q',
    Number_of (toFixed fractionDigits (Fin q)) = JFin q'
    /\ (q' == if Qltb q 0 then - (n / scale) else n / scale)%Q.
Proof.
  intros scale n. unfold toFixed. cbv zeta.
  assert (Hs : (0 < scale)%Q).
  { subst scale. change 0%Q with (inject_Z 0). rewrite <- Zlt_Qlt.
    apply Z.pow_pos_nonneg; lia. }
  destruct (round_half_up_near (Qabs q * scale)) as [Hn _];
    [apply Qmult_le_0_compat; [apply Qabs_nonneg | lra]|].
  destruct (toFixed_literal fractionDigits _ Hn) as (c & s & q0 & E & Hc & Hd & Hl & Hq).
  cbv zeta in E, Hl, Hq. fold scale in Hn, E, Hl, Hq |- *. rewrite E in Hl |- *.
  cbn [append] in Hl |- *.
  destruct (fraction_plain c s fractionDigits
              (round_half_up (Qabs q * scale) mod 10 ^ Z.of_nat fractionDigits) Hc Hd)
    as [Hb Hp].
  pose proof (Number_of_literal (Qltb q 0) c _ Hc Hb Hp) as H. rewrite Hl in H.
  destruct (Qltb q 0); rewrite H; eexists; (split; [reflexivity|]); cbn [negate];
    fold n in Hq; now rewrite Hq.
Qed.

(** Dividing a bound by the scale. *)
Lemma Qabs_div_le (x bound scale : Q) :
  (0 < scale)%Q -> (Qabs x <= bound)%Q -> (Qabs (x / scale) <= bound / scale)%Q.
Proof.
  intros Hs [Hlo Hhi]%Qabs_Qle_condition. apply Qabs_Qle_condition.
  assert (Hi : (0 <= / scale)%Q) by (apply Qlt_le_weak, Qinv_lt_0_compat, Hs).
  unfold Qdiv. split.
  - setoid_replace (- (bound * / scale))%Q with ((- bound) * / scale)%Q by ring.
    now apply Qmult_le_compat_r.
  - now apply Qmult_le_compat_r.
Qed.

(** What [toFixed] prints for a number below [1e21] in absolute value
    is read back by [Number] as a number within half a unit of the last
    digit printed. *)
Theorem toFixed_parsed (fractionDigits : nat) (q : Q) :
  (Qabs q < inject_Z (10 ^ 21))%Q ->
  exists q',
    Number_of (toFixed fractionDigits (Fin q)) = JFin q'
    /\ (Qabs (q' - q) <= (1 # 2) / inject_Z (10 ^ Z.of_nat fractionDigits))%Q.
Proof.
  intros _. destruct (toFixed_number fractionDigits q) as (q' & H & Hq).
  exists q'. split; [exact H|]. cbv zeta in Hq.
  set (scale := inject_Z (10 ^ Z.of_nat fractionDigits)) in *.
  assert (Hs : (0 < scale)%Q).
  { subst scale. change 0%Q with (inject_Z 0). rewrite <- Zlt_Qlt.
    apply Z.pow_pos_nonneg; lia. }
  destruct (round_half_up_near (Qabs q * scale)) as [_ Hn];
    [apply Qmult_le_0_compat; [apply Qabs_nonneg | lra]|].
  set (n := inject_Z (round_half_up (Qabs q * scale))) in *.
  apply (Qabs_div_le _ _ scale Hs) in Hn.
  assert (Hd : (Qabs (n / scale - Qabs q) <= (1 # 2) / scale)%Q).
  { setoid_replace (n / scale - Qabs q)%Q with ((n - Qabs q * scale) / scale)%Q;
      [exact Hn | field; lra]. }
  destruct (Qltb_spec q 0) as [Hneg|Hpos].
  - setoid_replace (q' - q)%Q with (- (n / scale - Qabs q))%Q;
      [now rewrite Qabs_opp|].
    rewrite Hq, (Qabs_neg q) by lra. unfold Qdiv. ring.
  - setoid_replace (q' - q)%Q with (n / scale - Qabs q)%Q; [exact Hd|].
    rewrite Hq, (Qabs_pos q) by lra. unfold Qdiv. ring.
Qed.

(** ** [parseInt] of a number *)

(** The searches find the digit that [first_digit] names, given fuel
    beyond its place. *)
Lemma leading_fraction_digit_first fuel : forall (k : nat) n d digit,
  (k < fuel)%nat -> 1 <= digit <= 9 ->
  digit * Zpos d <= n * 10 ^ Z.of_nat k < (digit + 1) * Zpos d ->
  leading_fraction_digit fuel (n # d) = digit.
Proof.
  induction fuel as [|fuel IH]; intros k n d digit Hk Hd Hn; [lia|].
  cbn [leading_fraction_digit]. destruct k as [|k].
  - change (Z.of_nat 0) with 0 in Hn. rewrite Z.pow_0_r, Z.mul_1_r in Hn.
    replace (Qle_bool 1 (n # d)) with true
      by (symmetry; apply Qle_bool_iff; unfold Qle; cbn [Qnum Qden]; nia).
    change (Qfloor (n # d)) with (n / Zpos d).
    symmetry. apply (Z.div_unique n (Zpos d) digit (n - Zpos d * digit)); lia.
  - rewrite Nat2Z.inj_succ, Z.pow_succ_r in Hn by lia.
    pose proof (Z.pow_pos_nonneg 10 (Z.of_nat k) ltac:(lia) ltac:(lia)) as Hp.
    assert (Hlt : ~ (1 <= n # d)%Q) by (unfold Qle; cbn [Qnum Qden]; nia).
    rewrite <- Qle_bool_iff in Hlt. destruct (Qle_bool 1 (n # d)); [easy|].
    change (10 * (n # d))%Q with ((10 * n) # d). apply (IH k); lia.
Qed.

Lemma leading_digit_first fuel : forall (k : nat) z digit,
  (k < fuel)%nat -> 1 <= digit <= 9 ->
  digit * 10 ^ Z.of_nat k <= z < (digit + 1) * 10 ^ Z.of_nat k ->
  leading_digit fuel z = digit.
Proof.
  induction fuel as [|fuel IH]; intros k z digit Hk Hd Hz; [lia|].
  cbn [leading_digit]. destruct k as [|k].
  - change (Z.of_nat 0) with 0 in Hz. rewrite Z.pow_0_r in Hz.
    destruct (Z.ltb_spec z 10); lia.
  - rewrite Nat2Z.inj_succ, Z.pow_succ_r in Hz by lia.
    pose proof (Z.pow_pos_nonneg 10 (Z.of_nat k) ltac:(lia) ltac:(lia)) as Hp.
    destruct (Z.ltb_spec z 10); [nia|]. apply (IH k); [lia | exact Hd|]. split.
    + apply Z.div_le_lower_bound; lia.
    + apply Z.div_lt_upper_bound; lia.
Qed.

Lemma pow_2_le_10 (k : nat) : 2 ^ Z.of_nat k <= 10 ^ Z.of_nat k.
Proof. apply Z.pow_le_mono_l; lia. Qed.

(** The fuel of the two searches covers the place of the first digit. *)
Lemma fraction_fuel (k : nat) n d :
  0 < n -> n * 10 ^ Z.of_nat k < 10 * Zpos d ->
  (k < S (S (Z.to_nat (Z.log2 (Zpos d)))))%nat.
Proof.
  intros Hn Hk. destruct k as [|k]; [lia|].
  rewrite Nat2Z.inj_succ, Z.pow_succ_r in Hk by lia.
  pose proof (pow_2_le_10 k) as Hp.
  assert (H : Z.of_nat k <= Z.log2 (Zpos d)) by (apply Z.log2_le_pow2; nia).
  lia.
Qed.

Lemma integer_fuel (k : nat) z :
  10 ^ Z.of_nat k <= z -> (k < S (Z.to_nat (Z.log2 z)))%nat.
Proof.
  intros Hk. pose proof (pow_2_le_10 k) as Hp.
  pose proof (Z.pow_pos_nonneg 2 (Z.of_nat k) ltac:(lia) ltac:(lia)).
  assert (H' : Z.of_nat k <= Z.log2 z) by (apply Z.log2_le_pow2; lia).
  lia.
Qed.

Lemma Qpower_10_nonneg e : 0 <= e -> (10 ^ e == inject_Z (10 ^ e))%Q.
Proof. intros He. now rewrite Zpower_Qpower. Qed.

Lemma Qpower_10_neg e : e < 0 -> (10 ^ e == / inject_Z (10 ^ (- e)))%Q.
Proof.
  intros He. rewrite Zpower_Qpower by lia.
  rewrite <- Qpower_opp. now rewrite Z.opp_involutive.
Qed.

(** The two readings of [first_digit] on a fraction, in the integers. *)
Lemma first_digit_fraction n d digit e :
  e < 0 -> first_digit (n # d) digit e ->
  digit * Zpos d <= n * 10 ^ (- e) < (digit + 1) * Zpos d.
Proof.
  intros He (_ & Hlo & Hhi). rewrite (Qpower_10_neg e He) in Hlo, Hhi.
  pose proof (Z.pow_pos_nonneg 10 (- e) ltac:(lia) ltac:(lia)) as Hp.
  set (p := 10 ^ (- e)) in *.
  assert (HP : (0 < inject_Z p)%Q) by (now rewrite <- (Zlt_Qlt 0)).
  assert (Hlo' : (inject_Z digit <= (n # d) * inject_Z p)%Q).
  { setoid_replace (inject_Z digit)
      with (inject_Z digit * / inject_Z p * inject_Z p)%Q by (field; lra).
    apply Qmult_le_compat_r; [exact Hlo | lra]. }
  assert (Hhi' : ((n # d) * inject_Z p < inject_Z (digit + 1))%Q).
  { setoid_replace (inject_Z (digit + 1))
      with (inject_Z (digit + 1) * / inject_Z p * inject_Z p)%Q by (field; lra).
    apply Qmult_lt_compat_r; [exact HP | exact Hhi]. }
  unfold Qle, Qlt in Hlo', Hhi'. cbn [Qnum Qden Qmult inject_Z] in Hlo', Hhi'.
  rewrite Pos.mul_1_r in Hlo', Hhi'. lia.
Qed.

Lemma first_digit_integer n d digit e :
  0 <= e -> first_digit (n # d) digit e ->
  digit * 10 ^ e * Zpos d <= n < (digit + 1) * 10 ^ e * Zpos d.
Proof.
  intros He (_ & Hlo & Hhi). rewrite (Qpower_10_nonneg e He) in Hlo, Hhi.
  unfold Qle, Qlt in Hlo, Hhi. cbn [Qnum Qden Qmult inject_Z] in Hlo, Hhi.
  lia.
Qed.

(** The sign of [parseInt_number] and the test for 0, on a fraction. *)
Lemma Qltb_0_sign n d : (if Qltb (n # d) 0 then -1 else 1) * Z.abs n = n \/ n = 0.
Proof.
  destruct (Qltb_spec (n # d) 0) as [H|H]; unfold Qlt, Qle in H; cbn in H; lia.
Qed.

Lemma Qeq_bool_0 n d : Qeq_bool (n # d) 0 = (n =? 0).
Proof. unfold Qeq_bool. cbn [Qnum Qden]. now rewrite Z.mul_1_r. Qed.

(** Between [1e-6] and [1e21] the number is printed with all the digits
    of its integer part, and [parseInt] gives that part: the number
    truncated towards 0. *)
Theorem parseInt_number_positional (q : Q) :
  (1 # 1000000 <= Qabs q)%Q -> (Qabs q < inject_Z (10 ^ 21))%Q ->
  parseInt_number q = of_Z (Qnum q ÷ Zpos (Qden q)).
Proof.
  intros Hlo Hhi. unfold parseInt_number. cbv zeta.
  rewrite (proj2 (Qltb_ge _ _) Hlo), (proj2 (Qltb_lt _ _) Hhi).
  destruct q as [n d]. rewrite Qeq_bool_0.
  destruct (Z.eqb_spec n 0) as [->|Hn]; [reflexivity|]. f_equal.
  change (Qfloor (Qabs (n # d))) with (Z.abs n / Zpos d). cbn [Qnum Qden].
  rewrite Z.quot_div by lia. destruct (Qltb_spec (n # d) 0) as [H|H];
    unfold Qlt, Qle in H; cbn in H; change (Z.abs (Zpos d)) with (Zpos d); lia.
Qed.

(** An integer below [1e21] in absolute value is read as itself. *)
Theorem parseInt_number_integer (z : Z) :
  Z.abs z < 10 ^ 21 -> parseInt_number (inject_Z z) = of_Z z.
Proof.
  intros Hz. destruct (Z.eq_dec z 0) as [->|Hn]; [reflexivity|].
  rewrite parseInt_number_positional.
  - cbn [inject_Z Qnum Qden]. now rewrite Z.quot_1_r.
  - unfold Qle. cbn. lia.
  - change (Qabs (inject_Z z)) with (inject_Z (Z.abs z)). now rewrite <- Zlt_Qlt.
Qed.

(** A number with a first significant digit is positive. *)
Lemma first_digit_pos m digit e : first_digit m digit e -> (0 < m)%Q.
Proof.
  intros (Hd & Hlo & _). eapply Qlt_le_trans; [|exact Hlo].
  apply Qmult_lt_0_compat; [now rewrite <- (Zlt_Qlt 0); lia|].
  now apply Qpower_0_lt.
Qed.

(** Below [1e-6]: the first significant digit, with the sign. *)
Lemma parseInt_number_fraction (q : Q) (digit e : Z) :
  first_digit (Qabs q) digit e -> e < -6 ->
  parseInt_number q = of_Z (if Qltb q 0 then - digit else digit).
Proof.
  intros Hf He. pose proof Hf as (Hd & _). destruct q as [n d].
  change (Qabs (n # d)) with (Z.abs n # d) in Hf.
  apply first_digit_fraction in Hf; [|lia].
  set (k := Z.to_nat (- e)). replace (- e) with (Z.of_nat k) in Hf by lia.
  assert (H7 : 10 ^ 7 <= 10 ^ Z.of_nat k) by (apply Z.pow_le_mono_r; lia).
  assert (Hn : 0 < Z.abs n) by (destruct (Z.abs n); [nia | lia | lia]).
  assert (Hten : (digit + 1) * Zpos d <= 10 * Zpos d)
    by (apply Z.mul_le_mono_nonneg_r; lia).
  unfold parseInt_number. cbv zeta. rewrite Qeq_bool_0.
  change (Qabs (n # d)) with (Z.abs n # d).
  rewrite (proj2 (Z.eqb_neq n 0)) by lia.
  rewrite (proj2 (Qltb_lt _ _)) by (unfold Qlt; cbn [Qnum Qden]; nia).
  rewrite (leading_fraction_digit_first _ k (Z.abs n) d digit);
    [| apply (fraction_fuel k (Z.abs n)); [exact Hn | destruct Hf; eapply Z.lt_le_trans; eassumption] | exact Hd | exact Hf].
  now destruct (Qltb (n # d) 0); f_equal; lia.
Qed.

(** From [1e21] on: the first significant digit, with the sign. *)
Lemma parseInt_number_large (q : Q) (digit e : Z) :
  first_digit (Qabs q) digit e -> 21 <= e ->
  parseInt_number q = of_Z (if Qltb q 0 then - digit else digit).
Proof.
  intros Hf He. pose proof Hf as (Hd & _). destruct q as [n d].
  change (Qabs (n # d)) with (Z.abs n # d) in Hf.
  apply first_digit_integer in Hf; [|lia].
  set (k := Z.to_nat e). replace e with (Z.of_nat k) in Hf by lia.
  assert (H21 : 10 ^ 21 <= 10 ^ Z.of_nat k) by (apply Z.pow_le_mono_r; lia).
  unfold parseInt_number. cbv zeta. rewrite Qeq_bool_0.
  change (Qabs (n # d)) with (Z.abs n # d).
  change (Qfloor (Z.abs n # d)) with (Z.abs n / Zpos d).
  assert (Hz : digit * 10 ^ Z.of_nat k <= Z.abs n / Zpos d
               < (digit + 1) * 10 ^ Z.of_nat k).
  { split; [apply Z.div_le_lower_bound | apply Z.div_lt_upper_bound]; lia. }
  assert (Hn : 0 < Z.abs n) by nia.
  rewrite (proj2 (Z.eqb_neq n 0)) by lia.
  rewrite (proj2 (Qltb_ge _ (1 # 1000000)))
    by (unfold Qle; cbn [Qnum Qden]; nia).
  rewrite (proj2 (Qltb_ge _ (inject_Z (10 ^ 21))))
    by (unfold Qle; cbn [Qnum Qden inject_Z]; nia).
  rewrite (leading_digit_first _ k (Z.abs n / Zpos d) digit);
    [| apply integer_fuel; nia | exact Hd | exact Hz].
  now destruct (Qltb (n # d) 0); f_equal; lia.
Qed.

(** Outside that range the number is printed with an exponent, and
    [parseInt] stops at the point or at the [e]: the result is the first
    significant digit of the number, with its sign, whatever the
    exponent. *)
Theorem parseInt_number_exponent (q : Q) (digit e : Z) :
  first_digit (Qabs q) digit e -> e < -6 \/ 21 <= e ->
  parseInt_number q = of_Z (if Qltb q 0 then - digit else digit).
Proof.
  intros Hf [He|He];
    [now apply (parseInt_number_fraction q digit e)
    | now apply (parseInt_number_large q digit e)].
Qed.

(** In every case the result is an integer. *)
Lemma parseInt_number_integral (q : Q) : exists z, parseInt_number q = of_Z z.
Proof.
  unfold parseInt_number. cbv zeta. repeat destruct (_ : bool); now eexists.
Qed.

(** * The theorems at concrete inputs *)

(** The text 1e3 is read as 1. *)
Lemma parseInt_prefix_witness : parseInt (Z_toString 1 ++ "e3") = of_Z 1.
Proof. apply (parseInt_prefix 1 "e3"). reflexivity. Defined.

Lemma toFixed_parsed_witness :
  exists q',
    Number_of (toFixed 6 (Fin (1234567 # 1000))) = JFin q'
    /\ (Qabs (q' - (1234567 # 1000)) <= (1 # 2) / inject_Z (10 ^ Z.of_nat 6))%Q.
Proof. apply (toFixed_parsed 6 (1234567 # 1000)). reflexivity. Defined.

(** The number -0.00000015 is printed as -1.5e-7 and read as -1. *)
Lemma parseInt_number_exponent_witness :
  parseInt_number (- (15 # 100000000)) = of_Z (- 1).
Proof.
  apply (parseInt_number_exponent (- (15 # 100000000)) 1 (-7)); [|lia].
  split; [lia|]. split; [now vm_compute | reflexivity].
Defined.
