(* ===== verification/JsArray.v ===== *)
(** * Arrays

    The methods of [Array.prototype] and the array expressions that the
    sources use, on lists.  [sort] is specified by ECMAScript as a stable
    sort that treats a [NaN] comparator result as zero; it is modelled as the
    stable insertion sort, which every stable sort agrees with when the
    comparator is consistent.  These functions belong to the language, not
    to the repository: they are modelled from their specification. *)

From Stdlib Require Import String.
From Stdlib Require Import QArith Lqa Lia ZArith List Bool.
From Stdlib Require Import Sorted Permutation Morphisms.
From S2P Require Import Prelude.
From S2P Require Import Numeric.
Import ListNotations.

Local Open Scope Q_scope.

(** ** [sort] *)

Section Sort.
Context {A : Type}.
Variable cmp : A -> A -> num.

(** [x] moves behind [y] when the comparator is positive on [(x, y)]. *)
Definition sorts_after (x y : A) : bool := ngt (cmp x y) (of_Z 0).

Fixpoint js_insert (x : A) (l : list A) : list A :=
  match l with
  | [] => [x]
  | y :: l' => if sorts_after x y then y :: js_insert x l' else x :: y :: l'
  end.

(** [l.sort(cmp)]. *)
Definition js_sort (l : list A) : list A := fold_right js_insert [] l.

Lemma js_insert_perm x l : Permutation (js_insert x l) (x :: l).
Proof.
  induction l as [|y l IH]; simpl; [reflexivity|].
  destruct (sorts_after x y); [|reflexivity].
  rewrite IH. apply perm_swap.
Qed.

Lemma js_sort_perm l : Permutation (js_sort l) l.
Proof.
  induction l as [|x l IH]; simpl; [reflexivity|].
  rewrite js_insert_perm. now constructor.
Qed.

Lemma js_sort_length l : length (js_sort l) = length l.
Proof. apply Permutation_length, js_sort_perm. Qed.

Lemma js_sort_In x l : In x (js_sort l) <-> In x l.
Proof.
  split; apply Permutation_in; [|symmetry]; apply js_sort_perm.
Qed.

Lemma js_sort_Forall (P : A -> Prop) l : Forall P l -> Forall P (js_sort l).
Proof.
  intros H. eapply Permutation_Forall; [symmetry; apply js_sort_perm | exact H].
Qed.

(** An array on which the comparator is never positive from an element to
    a later one is left as it is: sorting twice is sorting once. *)
Lemma js_insert_head x l :
  Forall (fun y => sorts_after x y = false) l -> js_insert x l = x :: l.
Proof.
  destruct l as [|y l]; simpl; [reflexivity|].
  intros H. inv H. now rewrite H2.
Qed.

Lemma js_sort_fixed l :
  StronglySorted (fun x y => sorts_after x y = false) l -> js_sort l = l.
Proof.
  induction 1 as [|x l Hl IH Hx]; simpl; [reflexivity|].
  rewrite IH. now apply js_insert_head.
Qed.

End Sort.

(** ** Sorting by a numeric key: [l.sort((a, b) => key(a) - key(b))] *)

Section SortByKey.
Context {A : Type}.
Variable key : A -> num.

Definition by_key (a b : A) : num := nsub (key a) (key b).

(** The order on finite keys. *)
Definition key_le (a b : A) : Prop :=
  match key a, key b with
  | Fin x, Fin y => x <= y
  | _, _ => False
  end.

Definition fin_key (a : A) : Prop := is_fin (key a) = true.

Lemma sorts_after_by_key x y a b :
  key a = Fin x -> key b = Fin y ->
  sorts_after by_key a b = Qltb y x.
Proof.
  intros Ha Hb. unfold sorts_after, by_key, ngt. rewrite Ha, Hb. simpl.
  destruct (Qltb_spec y x) as [H|H].
  - apply Qltb_lt. change (inject_Z 0) with 0. lra.
  - apply Qltb_ge. change (inject_Z 0) with 0. lra.
Qed.

Lemma sorts_after_false_key_le a b :
  fin_key a -> fin_key b ->
  (sorts_after by_key a b = false <-> key_le a b).
Proof.
  unfold fin_key, key_le. intros Ha Hb.
  destruct (key a) as [x|] eqn:Ea; [|discriminate].
  destruct (key b) as [y|] eqn:Eb; [|discriminate].
  rewrite (sorts_after_by_key x y) by assumption. apply Qltb_ge.
Qed.

Lemma key_le_trans a b c : key_le a b -> key_le b c -> key_le a c.
Proof.
  unfold key_le. destruct (key a), (key b), (key c); try tauto. lra.
Qed.

Lemma key_le_total a b : fin_key a -> fin_key b -> key_le a b \/ key_le b a.
Proof.
  unfold fin_key, key_le. destruct (key a), (key b); try discriminate.
  intros _ _. lra.
Qed.

Lemma js_insert_key_sorted x l :
  fin_key x -> Forall fin_key l ->
  StronglySorted key_le l -> StronglySorted key_le (js_insert by_key x l).
Proof.
  intros Hx Hfin Hs. induction Hs as [|y l Hl IH Hy]; simpl.
  - repeat constructor.
  - inv Hfin. destruct (sorts_after by_key x y) eqn:E.
    + constructor; [now apply IH|].
      eapply Permutation_Forall; [symmetry; apply js_insert_perm|].
      constructor; [|assumption].
      destruct (key_le_total y x) as [H|H]; try assumption.
      apply sorts_after_false_key_le in H; [congruence | assumption..].
    + apply sorts_after_false_key_le in E; try assumption.
      constructor; [now constructor|].
      constructor; [assumption|].
      eapply Forall_impl; [|exact Hy]. intros z Hz. eapply key_le_trans; eauto.
Qed.

(** Sorting an array of finite keys gives non-decreasing keys. *)
Lemma js_sort_key_sorted l :
  Forall fin_key l -> StronglySorted key_le (js_sort by_key l).
Proof.
  induction 1 as [|x l Hx Hl IH]; simpl; [constructor|].
  apply js_insert_key_sorted; try assumption.
  now apply js_sort_Forall.
Qed.

(** A sorted array of finite keys is not changed by a second sort. *)
Lemma js_sort_key_idem l :
  Forall fin_key l -> js_sort by_key (js_sort by_key l) = js_sort by_key l.
Proof.
  intros H. apply js_sort_fixed.
  pose proof (js_sort_key_sorted l H) as Hs.
  pose proof (js_sort_Forall by_key fin_key l H) as Hf.
  induction Hs as [|x s Hs IH Hx]; constructor.
  - inv Hf. now apply IH.
  - inv Hf. rewrite Forall_forall in *. intros y Hy.
    apply sorts_after_false_key_le; auto.
Qed.

(** The first element of the sorted array has the least key. *)
Lemma js_sort_key_head x s l :
  Forall fin_key l -> js_sort by_key l = x :: s ->
  forall y, In y l -> key_le x y.
Proof.
  intros Hf E y Hy. pose proof (js_sort_key_sorted l Hf) as Hs.
  rewrite E in Hs. inv Hs.
  apply js_sort_In with (cmp := by_key) in Hy. rewrite E in Hy.
  destruct Hy as [->|Hy].
  - assert (Hx : fin_key y).
    { pose proof (js_sort_Forall by_key fin_key l Hf) as H. rewrite E in H. now inv H. }
    destruct (key_le_total y y Hx Hx); assumption.
  - rewrite Forall_forall in H2. auto.
Qed.

(** When no comparison is positive (say, all keys but one are [NaN]) the
    array is left as it is, as by any stable sort. *)
Lemma js_sort_all_incomparable l :
  (forall a b, In a l -> In b l -> sorts_after by_key a b = false) ->
  js_sort by_key l = l.
Proof.
  intros H. apply js_sort_fixed.
  induction l as [|x l IH]; constructor.
  - apply IH. intros a b Ha Hb. apply H; now right.
  - rewrite Forall_forall. intros y Hy. apply H; [now left | now right].
Qed.

End SortByKey.

(** ** [find], [includes], indexing *)

(** [l.find(p)]: the first element that satisfies [p], or [undefined]. *)
Definition js_find {A} (p : A -> bool) (l : list A) : option A := find p l.

(** [s.includes(sub)] on strings. *)
Definition includes (s sub : string) : bool :=
  match index 0 sub s with
  | Some _ => true
  | None => false
  end.

(** [l[i]] in a numeric expression: [undefined] becomes [NaN]. *)
Definition arr_get (l : list num) (i : nat) : num := nth i l NaN.

(** [l.reduce((acc, val, i) => f(acc, val, i), init)]. *)
Fixpoint reduce_from {A B} (f : B -> A -> nat -> B) (i : nat) (l : list A) (acc : B) : B :=
  match l with
  | [] => acc
  | x :: l' => reduce_from f (S i) l' (f acc x i)
  end.

Definition reduce {A B} (f : B -> A -> nat -> B) (l : list A) (init : B) : B :=
  reduce_from f 0 l init.

(** [Array.from({length: n}, (_, i) => f(i))]; a negative length is empty. *)
Definition array_from {A} (n : Z) (f : nat -> A) : list A :=
  map f (seq 0 (Z.to_nat n)).

Lemma array_from_length {A} n (f : nat -> A) :
  length (array_from n f) = Z.to_nat n.
Proof. unfold array_from. now rewrite length_map, length_seq. Qed.

Lemma array_from_nth {A} n (f : nat -> A) i :
  (i < Z.to_nat n)%nat -> nth_error (array_from n f) i = Some (f i).
Proof.
  intros H. unfold array_from. rewrite nth_error_map, nth_error_seq.
  destruct (Nat.ltb_spec i (Z.to_nat n)); [reflexivity | lia].
Qed.

Lemma array_from_nonpos {A} n (f : nat -> A) : (n <= 0)%Z -> array_from n f = [].
Proof. intros H. unfold array_from. now replace (Z.to_nat n) with O by lia. Qed.

Lemma reduce_from_combine {A B} (f : B -> A -> nat -> B) i l acc :
  reduce_from f i l acc
  = fold_left (fun a '(k, x) => f a x k) (combine (seq i (length l)) l) acc.
Proof.
  revert i acc. induction l as [|x l IH]; intros i acc; simpl; [reflexivity|].
  apply IH.
Qed.
