(* ===== verification/Stats.v ===== *)
(** * The simple-statistics functions

    [mean], [linearRegression] and [linearRegressionLine] of the
    simple-statistics package, which src/calculator.js calls as [ss.mean],
    [ss.linearRegression] and [ss.linearRegressionLine].  The package is not
    part of the repository: the definitions follow its documented behaviour
    (the compensated summation of [sum] is exact in this model, so it is the
    plain sum).

    Each function on [num] has a mirror on [Q] that it equals on finite
    input ([mean_fin], [linearRegression_fin]); the least-squares facts are
    proved on the mirror. *)

From Stdlib Require Import String.
From Stdlib Require Import QArith Lqa Lia ZArith List Bool.
From Stdlib Require Import Morphisms Setoid.
From S2P Require Import Prelude.
From S2P Require Import Numeric.
Import ListNotations.

Local Open Scope Q_scope.

(** ** On JavaScript numbers *)

(** [sum(x)]. *)
Definition ss_sum (x : list num) : num := fold_left nadd x (of_Z 0).

(** [mean(x)]: throws on an empty array. *)
Definition mean (x : list num) : res jserror num :=
  match length x with
  | O => Throw (Error "mean requires at least one data point")
  | _ => Ok (ndiv (ss_sum x) (of_nat (length x)))
  end.

(** The object [{ m, b }] that [linearRegression] returns. *)
Record MB : Type := { mb_m : num; mb_b : num }.

(** The running sums [sumX, sumY, sumXX, sumXY] of the regression loop. *)
Definition sums_step (s : num * num * num * num) (p : num * num)
  : num * num * num * num :=
  let '(sumX, sumY, sumXX, sumXY) := s in
  let '(x, y) := p in
  (nadd sumX x, nadd sumY y, nadd sumXX (nmul x x), nadd sumXY (nmul x y)).

(** [linearRegression(data)] on an array of [[x, y]] pairs. *)
Definition linearRegression (data : list (num * num)) : MB :=
  if (length data =? 1)%nat then
    {| mb_m := of_Z 0; mb_b := snd (nth 0 data (NaN, NaN)) |}
  else
    let '(sumX, sumY, sumXX, sumXY) :=
      fold_left sums_step data (of_Z 0, of_Z 0, of_Z 0, of_Z 0) in
    let dataLength := of_nat (length data) in
    let m := ndiv (nsub (nmul dataLength sumXY) (nmul sumX sumY))
                  (nsub (nmul dataLength sumXX) (nmul sumX sumX)) in
    let b := nsub (ndiv sumY dataLength) (ndiv (nmul m sumX) dataLength) in
    {| mb_m := m; mb_b := b |}.

(** [linearRegressionLine(mb)(x)]. *)
Definition linearRegressionLine (mb : MB) (x : num) : num :=
  nadd (mb_b mb) (nmul (mb_m mb) x).

(** ** The mirror on rationals *)

Definition Qmean (x : list Q) : Q := Qsum x / inject_Z (Z.of_nat (length x)).

Definition Qsums_step (s : Q * Q * Q * Q) (p : Q * Q) : Q * Q * Q * Q :=
  let '(sumX, sumY, sumXX, sumXY) := s in
  let '(x, y) := p in
  (sumX + x, sumY + y, sumXX + x * x, sumXY + x * y).

Definition Qsums (data : list (Q * Q)) : Q * Q * Q * Q :=
  fold_left Qsums_step data (0, 0, 0, 0).

(** The divisor of the slope: [n * sumXX - sumX * sumX]. *)
Definition Qdenom (data : list (Q * Q)) : Q :=
  let '(sumX, _, sumXX, _) := Qsums data in
  inject_Z (Z.of_nat (length data)) * sumXX - sumX * sumX.

Definition Qslope (data : list (Q * Q)) : Q :=
  let '(sumX, sumY, sumXX, sumXY) := Qsums data in
  let len := inject_Z (Z.of_nat (length data)) in
  (len * sumXY - sumX * sumY) / (len * sumXX - sumX * sumX).

Definition Qintercept (data : list (Q * Q)) : Q :=
  let '(sumX, sumY, _, _) := Qsums data in
  let len := inject_Z (Z.of_nat (length data)) in
  sumY / len - (Qslope data * sumX) / len.

Definition fin_pt (p : Q * Q) : num * num := (Fin (fst p), Fin (snd p)).

Definition fin4 (s : Q * Q * Q * Q) : num * num * num * num :=
  let '(a, b, c, d) := s in (Fin a, Fin b, Fin c, Fin d).

(** ** The functions agree with their mirrors on finite input *)

Lemma ss_sum_fin_acc (x : list Q) (a : Q) :
  fold_left nadd (map Fin x) (Fin a) = Fin (fold_left Qplus x a).
Proof.
  revert a. induction x as [|y x IH]; intros a; simpl; [reflexivity|].
  apply IH.
Qed.

Lemma ss_sum_fin (x : list Q) : ss_sum (map Fin x) = Fin (Qsum x).
Proof. apply ss_sum_fin_acc. Qed.

Lemma of_nat_length_nonzero {A} (l : list A) :
  l <> [] -> Qeq_bool (inject_Z (Z.of_nat (length l))) 0 = false.
Proof.
  intros H. pose proof (inject_Z_length_pos l H) as Hp.
  destruct (Qeq_bool_spec (inject_Z (Z.of_nat (length l))) 0); [lra | reflexivity].
Qed.

Lemma mean_fin (x : list Q) : x <> [] -> mean (map Fin x) = Ok (Fin (Qmean x)).
Proof.
  intros H. unfold mean. rewrite length_map.
  destruct (length x) eqn:E; [destruct x; simpl in E; congruence|].
  rewrite <- E, ss_sum_fin. unfold of_nat, of_Z, ndiv.
  now rewrite (of_nat_length_nonzero x) by assumption.
Qed.

Lemma mean_empty : mean [] = Throw (Error "mean requires at least one data point").
Proof. reflexivity. Qed.

Lemma mean_ok_iff (x : list num) : is_ok (mean x) = true <-> x <> [].
Proof.
  unfold mean. destruct x; simpl; split; congruence.
Qed.

Lemma sums_fin (data : list (Q * Q)) (s : Q * Q * Q * Q) :
  fold_left sums_step (map fin_pt data) (fin4 s)
  = fin4 (fold_left Qsums_step data s).
Proof.
  revert s. induction data as [|[x y] data IH]; intros [[[a b] c] d];
    simpl; [reflexivity|].
  apply (IH (a + x, b + y, c + x * x, d + x * y)).
Qed.

Lemma linearRegression_unfold (data : list (Q * Q)) :
  (2 <= length data)%nat ->
  linearRegression (map fin_pt data)
  = let '(sumX, sumY, sumXX, sumXY) := fin4 (Qsums data) in
    let dataLength := of_nat (length data) in
    let m := ndiv (nsub (nmul dataLength sumXY) (nmul sumX sumY))
                  (nsub (nmul dataLength sumXX) (nmul sumX sumX)) in
    let b := nsub (ndiv sumY dataLength) (ndiv (nmul m sumX) dataLength) in
    {| mb_m := m; mb_b := b |}.
Proof.
  intros Hlen. unfold linearRegression. rewrite length_map.
  destruct (Nat.eqb_spec (length data) 1) as [E|_]; [lia|].
  change (of_Z 0, of_Z 0, of_Z 0, of_Z 0) with (fin4 (0, 0, 0, 0)).
  now rewrite sums_fin.
Qed.

(** With at least two points and a non-zero divisor the regression is the
    textbook one. *)
Lemma linearRegression_fin (data : list (Q * Q)) :
  (2 <= length data)%nat -> ~ Qdenom data == 0 ->
  linearRegression (map fin_pt data)
  = {| mb_m := Fin (Qslope data); mb_b := Fin (Qintercept data) |}.
Proof.
  intros Hlen Hden. rewrite linearRegression_unfold by assumption.
  assert (Hl : Qeq_bool (inject_Z (Z.of_nat (length data))) 0 = false).
  { apply of_nat_length_nonzero. destruct data; simpl in *; [lia | congruence]. }
  unfold Qintercept, Qslope, Qdenom in *.
  destruct (Qsums data) as [[[sx sy] sxx] sxy].
  unfold fin4, of_nat, of_Z. cbn [nmul nsub].
  rewrite ndiv_Fin by assumption. cbn [nmul].
  unfold ndiv. now rewrite Hl.
Qed.

(** With a zero divisor the slope and the intercept are [NaN]. *)
Lemma linearRegression_degenerate (data : list (Q * Q)) :
  (2 <= length data)%nat -> Qdenom data == 0 ->
  linearRegression (map fin_pt data) = {| mb_m := NaN; mb_b := NaN |}.
Proof.
  intros Hlen Hden. rewrite linearRegression_unfold by assumption.
  unfold Qdenom in Hden.
  destruct (Qsums data) as [[[sx sy] sxx] sxy].
  unfold fin4, of_nat, of_Z. cbn [nmul nsub].
  rewrite ndiv_zero by assumption. cbn [nmul ndiv].
  now destruct (Qeq_bool _ 0).
Qed.

(** A single point gives the flat line through it, whatever its abscissa. *)
Lemma linearRegression_single (x y : num) :
  linearRegression [(x, y)] = {| mb_m := of_Z 0; mb_b := y |}.
Proof. reflexivity. Qed.

Lemma linearRegressionLine_fin (m b x : Q) :
  linearRegressionLine {| mb_m := Fin m; mb_b := Fin b |} (Fin x) = Fin (b + m * x).
Proof. reflexivity. Qed.

Lemma linearRegressionLine_NaN (mb : MB) (x : num) :
  mb_m mb = NaN -> linearRegressionLine mb x = NaN.
Proof.
  intros H. unfold linearRegressionLine. rewrite H.
  destruct (mb_b mb); reflexivity.
Qed.

(** ** Least squares on rationals *)

Definition SX (data : list (Q * Q)) : Q := Qsum (map fst data).
Definition SY (data : list (Q * Q)) : Q := Qsum (map snd data).
Definition SXX (data : list (Q * Q)) : Q := Qsum (map (fun p => fst p * fst p) data).
Definition SXY (data : list (Q * Q)) : Q := Qsum (map (fun p => fst p * snd p) data).
Definition QN (data : list (Q * Q)) : Q := inject_Z (Z.of_nat (length data)).

Lemma QN_cons p data : QN (p :: data) == 1 + QN data.
Proof.
  unfold QN. cbn [length]. rewrite Nat2Z.inj_succ, <- Z.add_1_l, inject_Z_plus.
  reflexivity.
Qed.

Lemma QN_nonneg data : 0 <= QN data.
Proof. unfold QN. change 0 with (inject_Z 0). rewrite <- Zle_Qle. lia. Qed.

Lemma QN_pos data : data <> [] -> 0 < QN data.
Proof. apply inject_Z_length_pos. Qed.

Lemma SX_cons p data : SX (p :: data) == fst p + SX data.
Proof. apply Qsum_cons. Qed.

Lemma SY_cons p data : SY (p :: data) == snd p + SY data.
Proof. apply Qsum_cons. Qed.

Lemma SXX_cons p data : SXX (p :: data) == fst p * fst p + SXX data.
Proof. apply Qsum_cons. Qed.

Lemma SXY_cons p data : SXY (p :: data) == fst p * snd p + SXY data.
Proof. apply Qsum_cons. Qed.

Lemma Qsums_acc data a b c d :
  let '(a', b', c', d') := fold_left Qsums_step data (a, b, c, d) in
  a' == a + SX data /\ b' == b + SY data
  /\ c' == c + SXX data /\ d' == d + SXY data.
Proof.
  revert a b c d. induction data as [|[x y] data IH]; intros a b c d.
  - cbn. unfold SX, SY, SXX, SXY, Qsum. cbn. repeat split; lra.
  - cbn [fold_left Qsums_step].
    specialize (IH (a + x) (b + y) (c + x * x) (d + x * y)).
    destruct (fold_left Qsums_step data _) as [[[a' b'] c'] d'].
    rewrite SX_cons, SY_cons, SXX_cons, SXY_cons. cbn [fst snd].
    destruct IH as (Ha & Hb & Hc & Hd). repeat split; lra.
Qed.

Lemma Qsums_spec data :
  let '(a, b, c, d) := Qsums data in
  a == SX data /\ b == SY data /\ c == SXX data /\ d == SXY data.
Proof.
  pose proof (Qsums_acc data 0 0 0 0) as H. unfold Qsums.
  destruct (fold_left Qsums_step data _) as [[[a b] c] d].
  destruct H as (Ha & Hb & Hc & Hd). repeat split; lra.
Qed.

Lemma Qdenom_spec data : Qdenom data == QN data * SXX data - SX data * SX data.
Proof.
  pose proof (Qsums_spec data) as H. unfold Qdenom, QN.
  destruct (Qsums data) as [[[a b] c] d]. destruct H as (Ha & _ & Hc & _).
  now rewrite Ha, Hc.
Qed.

Lemma Qslope_spec data :
  Qslope data == (QN data * SXY data - SX data * SY data)
                 / (QN data * SXX data - SX data * SX data).
Proof.
  pose proof (Qsums_spec data) as H. unfold Qslope, QN.
  destruct (Qsums data) as [[[a b] c] d]. destruct H as (Ha & Hb & Hc & Hd).
  now rewrite Ha, Hb, Hc, Hd.
Qed.

Lemma Qintercept_spec data :
  Qintercept data == SY data / QN data - Qslope data * SX data / QN data.
Proof.
  pose proof (Qsums_spec data) as H. unfold Qintercept, QN.
  destruct (Qsums data) as [[[a b] c] d]. destruct H as (Ha & Hb & _ & _).
  now rewrite Ha, Hb.
Qed.

(** The sum of squared deviations from [c]. *)
Definition SSD (c : Q) (data : list (Q * Q)) : Q :=
  Qsum (map (fun p => (fst p - c) * (fst p - c)) data).

Lemma SSD_cons c p data : SSD c (p :: data) == (fst p - c) * (fst p - c) + SSD c data.
Proof. apply Qsum_cons. Qed.

Lemma SSD_expand c data :
  SSD c data == SXX data - 2 * c * SX data + QN data * (c * c).
Proof.
  induction data as [|p data IH].
  - unfold SSD, SXX, SX, QN, Qsum. cbn. ring.
  - rewrite SSD_cons, SXX_cons, SX_cons, QN_cons, IH. ring.
Qed.

Lemma SSD_nonneg c data : 0 <= SSD c data.
Proof.
  apply Qsum_nonneg. apply Forall_map_iff, Forall_forall.
  intros p _. apply Qsquare_nonneg.
Qed.

Lemma SSD_pos c data p q :
  In p data -> In q data -> ~ fst p == fst q -> 0 < SSD c data.
Proof.
  intros Hp Hq Hne.
  destruct (Qlt_le_dec 0 (SSD c data)) as [H|H]; [assumption|exfalso].
  assert (Hz : SSD c data == 0) by (pose proof (SSD_nonneg c data); lra).
  apply Qsum_zero_all in Hz.
  2:{ apply Forall_map_iff, Forall_forall. intros r _. apply Qsquare_nonneg. }
  rewrite Forall_map_iff, Forall_forall in Hz.
  pose proof (Qsquare_zero _ (Hz p Hp)). pose proof (Qsquare_zero _ (Hz q Hq)).
  apply Hne. lra.
Qed.

(** The divisor of the slope is [n] times the sum of squared deviations
    from the mean abscissa. *)
Lemma Qdenom_SSD data :
  data <> [] -> Qdenom data == QN data * SSD (SX data / QN data) data.
Proof.
  intros Hne. pose proof (QN_pos data Hne) as Hn.
  rewrite Qdenom_spec, SSD_expand. field. lra.
Qed.

Lemma Qdenom_nonneg data : 0 <= Qdenom data.
Proof.
  destruct data as [|p data].
  - rewrite Qdenom_spec. unfold QN, SXX, SX, Qsum. cbn. lra.
  - rewrite Qdenom_SSD by congruence.
    apply Qmult_le_0_compat; [apply QN_nonneg | apply SSD_nonneg].
Qed.

(** Two points with different abscissas make the divisor positive. *)
Lemma Qdenom_pos data p q :
  In p data -> In q data -> ~ fst p == fst q -> 0 < Qdenom data.
Proof.
  intros Hp Hq Hne.
  assert (Hd : data <> []) by (destruct data; [contradiction | congruence]).
  rewrite Qdenom_SSD by assumption.
  apply Qmult_lt_0_compat; [now apply QN_pos|].
  apply (SSD_pos _ data p q); assumption.
Qed.

Lemma SX_all_equal data x :
  Forall (fun p => fst p == x) data -> SX data == QN data * x.
Proof.
  induction 1 as [|r l Hr _ IH].
  - change (SX []) with 0. change (QN []) with 0. ring.
  - rewrite SX_cons, QN_cons, IH, Hr. ring.
Qed.

(** When all abscissas are equal the divisor is zero. *)
Lemma Qdenom_zero data x :
  Forall (fun p => fst p == x) data -> Qdenom data == 0.
Proof.
  intros H. destruct data as [|p data].
  - rewrite Qdenom_spec. unfold QN, SXX, SX, Qsum. cbn. lra.
  - pose proof (QN_pos (p :: data) ltac:(congruence)) as Hn.
    assert (Hm : SX (p :: data) / QN (p :: data) == x).
    { rewrite (SX_all_equal _ x H). field. lra. }
    rewrite Qdenom_SSD by congruence.
    assert (Hz : SSD (SX (p :: data) / QN (p :: data)) (p :: data) == 0).
    { apply Qsum_all_zero, Forall_map_iff. eapply Forall_impl; [|exact H].
      intros r Hr. cbn beta. rewrite Hm, Hr. ring. }
    rewrite Hz. ring.
Qed.

(** Exact data: when every ordinate is [a * x + c], least squares finds
    [a] and [c]. *)
Definition on_line (a c : Q) (p : Q * Q) : Prop := snd p == a * fst p + c.

Lemma exact_SY a c data :
  Forall (on_line a c) data -> SY data == a * SX data + QN data * c.
Proof.
  induction 1 as [|p l Hp _ IH].
  - change (SY []) with 0. change (SX []) with 0. change (QN []) with 0. ring.
  - red in Hp. rewrite SY_cons, SX_cons, QN_cons, IH, Hp. ring.
Qed.

Lemma exact_SXY a c data :
  Forall (on_line a c) data -> SXY data == a * SXX data + c * SX data.
Proof.
  induction 1 as [|p l Hp _ IH].
  - change (SXY []) with 0. change (SXX []) with 0. change (SX []) with 0. ring.
  - red in Hp. rewrite SXY_cons, SXX_cons, SX_cons, IH, Hp. ring.
Qed.

Section Exact.
Context (a c : Q) (data : list (Q * Q)).
Hypothesis Hline : Forall (on_line a c) data.
Hypothesis Hden : 0 < Qdenom data.

Lemma exact_slope : Qslope data == a.
Proof.
  rewrite Qslope_spec, (exact_SY a c), (exact_SXY a c) by assumption.
  rewrite Qdenom_spec in Hden. field. lra.
Qed.

Lemma exact_intercept : Qintercept data == c.
Proof.
  assert (Hn : 0 < QN data).
  { apply QN_pos. intros E. rewrite E in Hden. rewrite Qdenom_spec in Hden.
    change (QN []) with 0 in Hden. change (SX []) with 0 in Hden. lra. }
  rewrite Qintercept_spec, exact_slope, (exact_SY a c) by assumption.
  field. lra.
Qed.

(** The fitted line passes through every point. *)
Lemma exact_prediction p :
  In p data -> Qintercept data + Qslope data * fst p == snd p.
Proof.
  intros Hp. rewrite exact_intercept, exact_slope.
  rewrite Forall_forall in Hline. pose proof (Hline p Hp) as E. red in E.
  rewrite E. ring.
Qed.

End Exact.

(** The mean as a sum. *)
Lemma Qmean_spec (x : list Q) :
  x <> [] -> Qmean x * inject_Z (Z.of_nat (length x)) == Qsum x.
Proof.
  intros H. unfold Qmean. field.
  pose proof (inject_Z_length_pos x H). lra.
Qed.

Lemma Qmean_nonneg (x : list Q) :
  Forall (fun t => 0 <= t) x -> 0 <= Qmean x.
Proof.
  intros H. destruct x as [|t x].
  - discriminate.
  - apply Qdiv_nonneg; [now apply Qsum_nonneg | now apply inject_Z_length_pos].
Qed.

(** The mean of samples that all equal [c] is [c]. *)
Lemma Qsum_const (c : Q) (x : list Q) :
  Forall (fun t => t == c) x -> Qsum x == inject_Z (Z.of_nat (length x)) * c.
Proof.
  induction 1 as [|t x Ht _ IH].
  - change (Qsum []) with 0. cbn. ring.
  - cbv beta in Ht. cbn [length]. rewrite Qsum_cons, IH, Ht.
    rewrite Nat2Z.inj_succ, <- Z.add_1_r, inject_Z_plus.
    change (inject_Z 1) with 1. ring.
Qed.

Lemma Qmean_const (c : Q) (x : list Q) :
  x <> [] -> Forall (fun t => t == c) x -> Qmean x == c.
Proof.
  intros Hne H. unfold Qmean. rewrite (Qsum_const c x H).
  pose proof (inject_Z_length_pos x Hne). field. lra.
Qed.

(** The mean of samples between two bounds lies between them. *)
Lemma Qsum_between (a b : Q) (x : list Q) :
  Forall (fun t => a <= t <= b) x ->
  inject_Z (Z.of_nat (length x)) * a <= Qsum x
  /\ Qsum x <= inject_Z (Z.of_nat (length x)) * b.
Proof.
  induction 1 as [|t x Ht _ IH].
  - change (Qsum []) with 0. change (inject_Z (Z.of_nat (length (@nil Q)))) with 0. lra.
  - cbn [length]. rewrite Qsum_cons, Nat2Z.inj_succ, <- Z.add_1_r, inject_Z_plus.
    change (inject_Z 1) with 1. destruct IH. split; nra.
Qed.

Lemma Qmean_between (a b : Q) (x : list Q) :
  x <> [] -> Forall (fun t => a <= t <= b) x -> a <= Qmean x <= b.
Proof.
  intros Hne H. destruct (Qsum_between a b x H) as [Hlo Hhi].
  pose proof (inject_Z_length_pos x Hne) as Hp. unfold Qmean. split.
  - apply Qle_shift_div_l; [exact Hp | lra].
  - apply Qle_shift_div_r; [exact Hp | lra].
Qed.

(** ** Data that agree up to the equality of rationals

    A measured time is a rational that equals the expected one without
    being the same fraction; the sums and the regression do not tell them
    apart. *)

Lemma Qsum_map_Forall2 {A} (R : A -> A -> Prop) (f : A -> Q) (l l' : list A) :
  (forall a a', R a a' -> f a == f a') -> Forall2 R l l' ->
  Qsum (map f l) == Qsum (map f l').
Proof.
  intros Hf. induction 1 as [|a a' l l' Ha _ IH]; [reflexivity|].
  cbn [map]. now rewrite !Qsum_cons, (Hf a a' Ha), IH.
Qed.

Lemma Qsum_Forall2 (l l' : list Q) : Forall2 Qeq l l' -> Qsum l == Qsum l'.
Proof.
  intros H. rewrite <- (map_id l), <- (map_id l').
  now apply (Qsum_map_Forall2 Qeq).
Qed.

Lemma Qmean_Forall2 (l l' : list Q) : Forall2 Qeq l l' -> Qmean l == Qmean l'.
Proof.
  intros H. unfold Qmean. now rewrite (Qsum_Forall2 _ _ H), (Forall2_length H).
Qed.

(** Points with equal coordinates. *)
Definition same_point (p p' : Q * Q) : Prop := fst p == fst p' /\ snd p == snd p'.

Section SameData.
Variables data data' : list (Q * Q).
Hypothesis same : Forall2 same_point data data'.

Lemma QN_same : QN data == QN data'.
Proof. unfold QN. now rewrite (Forall2_length same). Qed.

Lemma SX_same : SX data == SX data'.
Proof. apply (Qsum_map_Forall2 same_point); [|exact same]. now intros a a' [H _]. Qed.

Lemma SY_same : SY data == SY data'.
Proof. apply (Qsum_map_Forall2 same_point); [|exact same]. now intros a a' [_ H]. Qed.

Lemma SXX_same : SXX data == SXX data'.
Proof.
  apply (Qsum_map_Forall2 same_point); [|exact same]. intros a a' [H _]. now rewrite H.
Qed.

Lemma SXY_same : SXY data == SXY data'.
Proof.
  apply (Qsum_map_Forall2 same_point); [|exact same]. intros a a' [H H'].
  now rewrite H, H'.
Qed.

Lemma Qslope_same : Qslope data == Qslope data'.
Proof. now rewrite !Qslope_spec, QN_same, SX_same, SY_same, SXX_same, SXY_same. Qed.

Lemma Qintercept_same : Qintercept data == Qintercept data'.
Proof. now rewrite !Qintercept_spec, Qslope_same, QN_same, SX_same, SY_same. Qed.

End SameData.
