(* ===== verification/DataModel.v ===== *)
(** * The data that travels between the components

    [DataPoint] is what [runAnalysis] produces and [determineComplexity]
    consumes; [Model] is an entry of the [models] array of
    [determineComplexity]; [Complexity] is the object it returns; [Input] is
    the argument handed to the candidate function. *)

From Stdlib Require Import String.
From Stdlib Require Import QArith ZArith List.
From S2P Require Import Prelude.
From S2P Require Import Numeric.
Import ListNotations.

(** [{ n, time }]: an input size and the mean time of one call. *)
Record DataPoint : Type := { n : Z; time : num }.

(** [{ type, rmse, complexity }]: a model, its fit and its simplicity rank. *)
Record Model : Type := { type : string; rmse : num; complexity : Z }.

(** [{ bestFit, confidence, results }]; an entry of [results] is the pair
    [{ type, rmse }]. *)
Record Complexity : Type := {
  bestFit : string;
  confidence : num;
  results : list (string * num)
}.

(** The argument of the candidate: the array [[0, ..., n-1]] or [n]. *)
Inductive Input : Type :=
| InArray (a : list Z)
| InNumber (k : Z).

(** The five labels of the model catalog. *)
Definition O_1 : string := "O(1) - Constant".
Definition O_log_n : string := "O(log n) - Logarithmic".
Definition O_n : string := "O(n) - Linear".
Definition O_n_log_n : string := "O(n log n) - Linear-ithmic".
Definition O_n2 : string := "O(n^2) - Quadratic".

Definition labels : list string := [O_1; O_log_n; O_n; O_n_log_n; O_n2].

(** Data points whose times are finite, from sizes and rationals. *)
Definition dataPoint (p : Z * Q) : DataPoint := {| n := fst p; time := Fin (snd p) |}.

Definition sizes (dataPoints : list DataPoint) : list Z := map n dataPoints.

(** The invariants the specification puts on a run's samples: at least two
    of them, finite non-negative times, distinct positive sizes. *)
Record valid_samples (pts : list (Z * Q)) : Prop := {
  vs_two : (2 <= length pts)%nat;
  vs_times : Forall (fun p => (0 <= snd p)%Q) pts;
  vs_sizes : Forall (fun p => (0 < fst p)%Z) pts;
  vs_distinct : NoDup (map fst pts)
}.
