(* ===== verification/Classifier.v ===== *)
(** * The complexity classifier

    [calculateRMSE] and [determineComplexity] of src/calculator.js
    (src/unnamed/part_000, lines 165 to 285).  The body of
    [determineComplexity] is split into the definitions [fits] (the five
    model records), [ultraFast] (the override for tiny mean times),
    [occam_step] and [standard] (the simplicity loop and the confidence),
    which [determineComplexity] composes in the order of the source. *)

From Stdlib Require Import String.
From Stdlib Require Import QArith Qround Lqa Lia ZArith List Bool.
From Stdlib Require Import Sorted Permutation Morphisms Setoid.
From S2P Require Import Prelude.
From S2P Require Import Numeric.
From S2P Require Import JsArray.
From S2P Require Import Stats.
From S2P Require Import DataModel.
Import ListNotations.

Local Open Scope Q_scope.
Local Open Scope js_scope.

(** ** Squared errors on rationals *)

(** The mirror of the [reduce] of [calculateRMSE]. *)
Definition Qsse (actual predicted : list Q) : Q :=
  reduce (fun sum val i => sum + (val - nth i predicted 0) * (val - nth i predicted 0))
         actual 0.

(** The same sum, pair by pair. *)
Definition Qsse_pairs (actual predicted : list Q) : Q :=
  Qsum (map (fun p => (fst p - snd p) * (fst p - snd p)) (combine actual predicted)).

Lemma arr_get_fin (p : list Q) (i : nat) :
  (i < length p)%nat -> arr_get (map Fin p) i = Fin (nth i p 0).
Proof.
  intros H. unfold arr_get. rewrite <- (map_nth Fin).
  apply nth_indep. now rewrite length_map.
Qed.

Lemma sse_fin_from (actual predicted : list Q) (i : nat) (acc : Q) :
  (i + length actual <= length predicted)%nat ->
  reduce_from (fun sum val i => nadd sum (nsq (nsub val (arr_get (map Fin predicted) i))))
              i (map Fin actual) (Fin acc)
  = Fin (reduce_from
           (fun sum val i => sum + (val - nth i predicted 0) * (val - nth i predicted 0))
           i actual acc).
Proof.
  revert i acc. induction actual as [|x actual IH]; intros i acc H; simpl in *;
    [reflexivity|].
  rewrite arr_get_fin by lia. cbn [nsub nsq nmul nadd].
  apply IH. lia.
Qed.

Lemma Qsse_from_pairs (actual predicted pre : list Q) (acc : Q) :
  (length actual <= length predicted)%nat ->
  reduce_from
    (fun sum val i => sum + (val - nth i (pre ++ predicted) 0)
                            * (val - nth i (pre ++ predicted) 0))
    (length pre) actual acc
  == acc + Qsse_pairs actual predicted.
Proof.
  revert predicted pre acc.
  induction actual as [|x actual IH]; intros predicted pre acc H; simpl.
  - unfold Qsse_pairs, Qsum. simpl. lra.
  - destruct predicted as [|y predicted]; simpl in H; [lia|].
    rewrite app_nth2, Nat.sub_diag by lia. cbn [nth].
    replace (pre ++ y :: predicted) with ((pre ++ [y]) ++ predicted)
      by (now rewrite <- app_assoc).
    replace (S (length pre)) with (length (pre ++ [y]))
      by (rewrite length_app; simpl; lia).
    rewrite IH by lia.
    unfold Qsse_pairs. cbn [combine map fst snd]. rewrite Qsum_cons.
    cbn [fst snd]. lra.
Qed.

Lemma Qsse_pairs_eq (actual predicted : list Q) :
  (length actual <= length predicted)%nat ->
  Qsse actual predicted == Qsse_pairs actual predicted.
Proof.
  intros H. unfold Qsse, reduce.
  rewrite (Qsse_from_pairs actual predicted [] 0 H). lra.
Qed.

Lemma Qsse_pairs_nonneg actual predicted : 0 <= Qsse_pairs actual predicted.
Proof.
  apply Qsum_nonneg, Forall_map_iff, Forall_forall.
  intros p _. apply Qsquare_nonneg.
Qed.

Lemma Qsse_nonneg actual predicted :
  (length actual <= length predicted)%nat -> 0 <= Qsse actual predicted.
Proof. intros H. rewrite Qsse_pairs_eq by assumption. apply Qsse_pairs_nonneg. Qed.

(** The error is zero exactly when every prediction is the observation. *)
Lemma Qsse_zero_iff actual predicted :
  length actual = length predicted ->
  (Qsse actual predicted == 0 <-> Forall2 Qeq actual predicted).
Proof.
  intros Hlen. rewrite Qsse_pairs_eq by lia. unfold Qsse_pairs.
  revert predicted Hlen.
  induction actual as [|x actual IH]; intros [|y predicted] Hlen;
    simpl in Hlen; try discriminate.
  - split; [constructor | reflexivity].
  - cbn [combine map fst snd]. rewrite Qsum_cons.
    pose proof (Qsse_pairs_nonneg actual predicted) as Hnn.
    unfold Qsse_pairs in Hnn. specialize (IH predicted ltac:(lia)).
    pose proof (Qsquare_nonneg (x - y)) as Hsq.
    split; intros H.
    + constructor.
      * assert (Hz : (x - y) * (x - y) == 0) by lra.
        apply Qsquare_zero in Hz. lra.
      * apply IH. lra.
    + inv H. apply IH in H5. rewrite H5, H3. ring.
Qed.

Section Classifier.
Context {M : MathLib}.

(** [calculateRMSE(actual, predicted)]. *)
Definition calculateRMSE (actual predicted : list num) : num :=
  let sumSquaredErrors :=
    reduce (fun sum val i => nadd sum (nsq (nsub val (arr_get predicted i))))
           actual (of_Z 0) in
  nsqrt (ndiv sumSquaredErrors (of_nat (length actual))).

(** The helper [getRegressionRMSE(transformFn)] of [determineComplexity],
    with the [dataPoints] it closes over as an argument. *)
Definition getRegressionRMSE (dataPoints : list DataPoint)
    (transformFn : num -> num) : num :=
  let timeValues := map time dataPoints in
  let data := map (fun d => (transformFn (of_Z (n d)), time d)) dataPoints in
  let model := linearRegression data in
  let line := linearRegressionLine model in
  let predictions := map (fun d => line (transformFn (of_Z (n d)))) dataPoints in
  calculateRMSE timeValues predictions.

(** The four covariate transforms. *)
Definition t_linear (x : num) : num := x.
Definition t_quadratic (x : num) : num := nsq x.
Definition t_log (x : num) : num := nlog x.
Definition t_nlogn (x : num) : num := nmul x (nlog x).

(** The RMSE of the constant model: the mean as a flat predictor. *)
Definition constantRMSE (dataPoints : list DataPoint) (meanTime : num) : num :=
  let nValues := map (fun d => of_Z (n d)) dataPoints in
  let timeValues := map time dataPoints in
  let constantPredictions := map (fun _ => meanTime) nValues in
  calculateRMSE timeValues constantPredictions.

(** The [models] array before it is sorted. *)
Definition fits (dataPoints : list DataPoint) (meanTime : num) : list Model :=
  let constantRMSE := constantRMSE dataPoints meanTime in
  let linearRMSE := getRegressionRMSE dataPoints t_linear in
  let quadraticRMSE := getRegressionRMSE dataPoints t_quadratic in
  let logRMSE := getRegressionRMSE dataPoints t_log in
  let nLogNRMSE := getRegressionRMSE dataPoints t_nlogn in
  [ {| type := O_1; rmse := constantRMSE; complexity := 1 |};
    {| type := O_log_n; rmse := logRMSE; complexity := 2 |};
    {| type := O_n; rmse := linearRMSE; complexity := 3 |};
    {| type := O_n_log_n; rmse := nLogNRMSE; complexity := 4 |};
    {| type := O_n2; rmse := quadraticRMSE; complexity := 5 |} ].

(** The comparator [(a, b) => a.rmse - b.rmse]. *)
Definition by_rmse : Model -> Model -> num := by_key rmse.

(** The ultra-fast branch: the better of the constant and the logarithmic
    model, with the fixed confidence 95. *)
Definition ultraFast (models : list Model) : option Model * num :=
  let o1Model := js_find (fun m => includes (type m) "O(1)") models in
  let logModel := js_find (fun m => includes (type m) "O(log n)") models in
  let bestModel :=
    match logModel, o1Model with
    | Some lm, Some om => if nlt (rmse lm) (rmse om) then logModel else o1Model
    | _, _ => o1Model
    end in
  (bestModel, of_Z 95).

(** One iteration of the simplicity loop. *)
Definition occam_step (bestModel candidate : Model) : Model :=
  if (complexity candidate <? complexity bestModel)%Z then
    let diff := ndiv (nsub (rmse candidate) (rmse bestModel))
                     (nor (rmse bestModel) (Fin 1e-9)) in
    if nlt diff (Fin 0.15) then candidate else bestModel
  else bestModel.

(** The loop [for (let i = 1; i < models.length; i++)] from [models[0]]. *)
Definition occam (m0 : Model) (rest : list Model) : Model :=
  fold_left occam_step rest m0.

(** [secondBest === bestModel]: the five records are told apart by their
    rank. *)
Definition same_model (a b : Model) : bool :=
  (complexity a =? complexity b)%Z.

(** [signalMagnitude]: the mean time, or 1 when it is not positive. *)
Definition signalMagnitude (meanTime : num) : num :=
  if ngt meanTime (of_Z 0) then meanTime else of_Z 1.

(** [fitQuality]: one minus twice the error relative to the signal. *)
Definition fitQuality (meanTime : num) (bestModel : Model) : num :=
  let normalizedError := ndiv (rmse bestModel) (signalMagnitude meanTime) in
  nmax (of_Z 0) (nsub (of_Z 1) (nmul normalizedError (of_Z 2))).

(** [secondBest]: the first record of the array sorted again, or the
    second when the first is the best model. *)
Definition secondBest (models : list Model) (bestModel : Model) : option Model :=
  let sortedByFit := js_sort by_rmse models in
  match nth_error sortedByFit 0 with
  | Some sb => if same_model sb bestModel then nth_error sortedByFit 1
               else Some sb
  | None => None
  end.

(** [separation]: the relative distance to the second best, at most 1. *)
Definition separation (models : list Model) (bestModel : Model) : num :=
  match secondBest models bestModel with
  | Some sb =>
      nmin (of_Z 1) (ndiv (nsub (rmse sb) (rmse bestModel))
                          (nor (rmse sb) (of_Z 1)))
  | None => of_Z 0
  end.

(** The confidence of the standard branch. *)
Definition standard_confidence (meanTime : num) (models : list Model)
    (bestModel : Model) : num :=
  nmul (nadd (nmul (fitQuality meanTime bestModel) (Fin 0.7))
             (nmul (separation models bestModel) (Fin 0.3)))
       (of_Z 100).

(** The standard branch: the simplicity loop, then the confidence. *)
Definition standard (meanTime : num) (models : list Model)
  : option Model * num :=
  match models with
  | [] => (None, NaN)
  | m0 :: rest =>
      let bestModel := occam m0 rest in
      (Some bestModel, standard_confidence meanTime models bestModel)
  end.

(** What [determineComplexity] does once [models] is sorted: the choice of
    the regime, the second sort of [results] and the returned object. *)
Definition conclude (meanTime : num) (models : list Model)
  : res jserror Complexity :=
  let isUltraFast := nlt meanTime (Fin 1e-4) in
  let '(bestModel, confidence) :=
    if isUltraFast then ultraFast models else standard meanTime models in
  let results :=
    js_sort (by_key snd) (map (fun m => (type m, rmse m)) models) in
  match bestModel with
  | None => Throw (TypeError "Cannot read properties of undefined")
  | Some best =>
      Ok {| bestFit := type best;
            confidence := nround confidence;
            results := results |}
  end.

(** [determineComplexity(dataPoints)]. *)
Definition determineComplexity (dataPoints : list DataPoint)
  : res jserror Complexity :=
  try meanTime <- mean (map time dataPoints) ;;
  let models := js_sort by_rmse (fits dataPoints meanTime) in
  conclude meanTime models.

(** ** The fits of finite data *)

Section Fits.
Context {L : MathLibLaws M}.

(** The mean squared error under the root. *)
Definition Qmse (actual predicted : list Q) : Q :=
  Qsse actual predicted / inject_Z (Z.of_nat (length actual)).

Lemma Qmse_nonneg actual predicted :
  (length actual <= length predicted)%nat -> 0 <= Qmse actual predicted.
Proof.
  intros H. unfold Qmse. destruct actual as [|x actual]; [discriminate|].
  apply Qdiv_nonneg; [now apply Qsse_nonneg | now apply inject_Z_length_pos].
Qed.

Lemma Qmse_zero_iff actual predicted :
  actual <> [] -> length actual = length predicted ->
  (Qmse actual predicted == 0 <-> Forall2 Qeq actual predicted).
Proof.
  intros Hne Hlen. rewrite <- Qsse_zero_iff by assumption. unfold Qmse.
  pose proof (inject_Z_length_pos actual Hne) as Hn.
  split; intros H.
  - assert (E : Qsse actual predicted
                == Qsse actual predicted / inject_Z (Z.of_nat (length actual))
                   * inject_Z (Z.of_nat (length actual))) by (field; lra).
    rewrite E, H. ring.
  - rewrite H. field. lra.
Qed.

(** [calculateRMSE] on finite arrays of the same length. *)
Lemma calculateRMSE_fin (actual predicted : list Q) :
  actual <> [] -> (length actual <= length predicted)%nat ->
  calculateRMSE (map Fin actual) (map Fin predicted)
  = Fin (Math_sqrt (Qmse actual predicted)).
Proof.
  intros Hne Hlen. unfold calculateRMSE, reduce.
  change (of_Z 0) with (Fin 0). rewrite sse_fin_from by (simpl; lia).
  rewrite length_map. unfold of_nat, of_Z.
  rewrite ndiv_Fin by (pose proof (inject_Z_length_pos actual Hne); lra).
  apply nsqrt_Fin. now apply Qmse_nonneg.
Qed.

(** A [NaN] prediction makes the whole error [NaN]. *)
Lemma sse_NaN_from (actual : list num) (predicted : list num) i :
  reduce_from (fun sum val i => nadd sum (nsq (nsub val (arr_get predicted i))))
              i actual NaN = NaN.
Proof.
  revert i. induction actual as [|x actual IH]; intros i; simpl; [reflexivity|].
  apply IH.
Qed.

Lemma calculateRMSE_NaN_head (actual predicted : list num) x :
  calculateRMSE (x :: actual) (NaN :: predicted) = NaN.
Proof.
  unfold calculateRMSE, reduce. cbn [reduce_from].
  change (arr_get (NaN :: predicted) 0) with NaN.
  replace (nadd (of_Z 0) (nsq (nsub x NaN))) with NaN
    by (destruct x; reflexivity).
  now rewrite sse_NaN_from.
Qed.

End Fits.

(** ** The five fits of finite samples, in closed form *)

Section ClosedForm.
Context {L : MathLibLaws M}.

(** The covariates on rationals. *)
Definition q_linear (z : Z) : Q := inject_Z z.
Definition q_quadratic (z : Z) : Q := inject_Z z * inject_Z z.
Definition q_log (z : Z) : Q := Math_log (inject_Z z).
Definition q_nlogn (z : Z) : Q := inject_Z z * Math_log (inject_Z z).

Definition Qtimes (pts : list (Z * Q)) : list Q := map snd pts.

Definition Qdata (tq : Z -> Q) (pts : list (Z * Q)) : list (Q * Q) :=
  map (fun p => (tq (fst p), snd p)) pts.

Definition Qpredictions (tq : Z -> Q) (pts : list (Z * Q)) : list Q :=
  map (fun p => Qintercept (Qdata tq pts) + Qslope (Qdata tq pts) * tq (fst p)) pts.

(** The RMSE of the regression on the covariate [tq], and of the mean. *)
Definition Qrmse_reg (tq : Z -> Q) (pts : list (Z * Q)) : Q :=
  Math_sqrt (Qmse (Qtimes pts) (Qpredictions tq pts)).

Definition Qrmse_const (pts : list (Z * Q)) : Q :=
  Math_sqrt (Qmse (Qtimes pts) (map (fun _ => Qmean (Qtimes pts)) pts)).

(** A transform of the code computes the covariate [tq] on the sizes. *)
Definition computes (tf : num -> num) (tq : Z -> Q) (pts : list (Z * Q)) : Prop :=
  forall p, In p pts -> tf (of_Z (fst p)) = Fin (tq (fst p)).

Lemma computes_linear pts : computes t_linear q_linear pts.
Proof. intros p _. reflexivity. Qed.

Lemma computes_quadratic pts : computes t_quadratic q_quadratic pts.
Proof. intros p _. reflexivity. Qed.

Lemma inject_Z_pos z : (0 < z)%Z -> 0 < inject_Z z.
Proof. intros H. change 0 with (inject_Z 0). now rewrite <- Zlt_Qlt. Qed.

Lemma computes_log pts :
  Forall (fun p => (0 < fst p)%Z) pts -> computes t_log q_log pts.
Proof.
  intros H p Hp. rewrite Forall_forall in H.
  unfold t_log, of_Z, q_log. apply nlog_Fin, inject_Z_pos, H, Hp.
Qed.

Lemma computes_nlogn pts :
  Forall (fun p => (0 < fst p)%Z) pts -> computes t_nlogn q_nlogn pts.
Proof.
  intros H p Hp. rewrite Forall_forall in H.
  unfold t_nlogn, of_Z, q_nlogn. rewrite nlog_Fin by apply inject_Z_pos, H, Hp.
  reflexivity.
Qed.

Lemma times_dataPoint pts : map time (map dataPoint pts) = map Fin (Qtimes pts).
Proof. unfold Qtimes. now rewrite !map_map. Qed.

Lemma data_dataPoint tf tq pts :
  computes tf tq pts ->
  map (fun d => (tf (of_Z (n d)), time d)) (map dataPoint pts)
  = map fin_pt (Qdata tq pts).
Proof.
  intros H. unfold Qdata. rewrite !map_map. apply map_ext_in.
  intros p Hp. cbn. now rewrite (H p Hp).
Qed.

Lemma Qdata_length tq pts : length (Qdata tq pts) = length pts.
Proof. apply length_map. Qed.

Lemma Qtimes_length pts : length (Qtimes pts) = length pts.
Proof. apply length_map. Qed.

Lemma Qpredictions_length tq pts : length (Qpredictions tq pts) = length pts.
Proof. apply length_map. Qed.

Lemma mean_dataPoint pts :
  pts <> [] -> mean (map time (map dataPoint pts)) = Ok (Fin (Qmean (Qtimes pts))).
Proof.
  intros H. rewrite times_dataPoint. apply mean_fin.
  unfold Qtimes. destruct pts; [congruence | discriminate].
Qed.

(** The RMSE of a regression whose divisor is not zero. *)
Lemma getRegressionRMSE_fin tf tq pts :
  computes tf tq pts -> (2 <= length pts)%nat ->
  ~ Qdenom (Qdata tq pts) == 0 ->
  getRegressionRMSE (map dataPoint pts) tf = Fin (Qrmse_reg tq pts).
Proof.
  intros Hc Hlen Hden. unfold getRegressionRMSE.
  rewrite (data_dataPoint tf tq) by assumption.
  rewrite linearRegression_fin by (rewrite ?Qdata_length; assumption).
  rewrite times_dataPoint.
  replace (map _ (map dataPoint pts)) with (map Fin (Qpredictions tq pts)).
  - apply calculateRMSE_fin.
    + unfold Qtimes. destruct pts; simpl in *; [lia | discriminate].
    + rewrite Qtimes_length, Qpredictions_length. lia.
  - unfold Qpredictions. rewrite !map_map. apply map_ext_in.
    intros p Hp. cbn [dataPoint n]. rewrite (Hc p Hp).
    now rewrite linearRegressionLine_fin.
Qed.

(** The RMSE of the constant model. *)
Lemma constantRMSE_fin pts :
  pts <> [] ->
  constantRMSE (map dataPoint pts) (Fin (Qmean (Qtimes pts)))
  = Fin (Qrmse_const pts).
Proof.
  intros Hne. unfold constantRMSE. rewrite times_dataPoint.
  replace (map _ (map _ (map dataPoint pts)))
    with (map Fin (map (fun _ => Qmean (Qtimes pts)) pts))
    by (now rewrite !map_map).
  apply calculateRMSE_fin.
  - unfold Qtimes. destruct pts; [congruence | discriminate].
  - rewrite Qtimes_length, length_map. lia.
Qed.

Lemma Qrmse_reg_nonneg tq pts : 0 <= Qrmse_reg tq pts.
Proof.
  apply Math_sqrt_nonneg, Qmse_nonneg.
  rewrite Qtimes_length, Qpredictions_length. lia.
Qed.

Lemma Qrmse_const_nonneg pts : 0 <= Qrmse_const pts.
Proof.
  apply Math_sqrt_nonneg, Qmse_nonneg. rewrite Qtimes_length, length_map. lia.
Qed.

End ClosedForm.

(** ** Valid samples give five finite fits *)

Section ValidFits.
Context {L : MathLibLaws M}.

(** A covariate that tells positive sizes apart. *)
Definition separates (tq : Z -> Q) : Prop :=
  forall z1 z2, (0 < z1)%Z -> (0 < z2)%Z -> z1 <> z2 -> ~ tq z1 == tq z2.

Lemma inject_Z_inj z1 z2 : inject_Z z1 == inject_Z z2 -> z1 = z2.
Proof. apply inject_Z_injective. Qed.

Lemma separates_linear : separates q_linear.
Proof.
  intros z1 z2 _ _ Hne E. apply Hne. unfold q_linear in E.
  now apply inject_Z_inj in E.
Qed.

Lemma separates_quadratic : separates q_quadratic.
Proof.
  intros z1 z2 H1 H2 Hne E. apply Hne. unfold q_quadratic in E.
  rewrite <- !inject_Z_mult in E. apply inject_Z_inj in E. nia.
Qed.

Lemma separates_log : separates q_log.
Proof.
  intros z1 z2 H1 H2 Hne E. apply Hne. unfold q_log in E.
  apply Math_log_inj in E; try now apply inject_Z_pos.
  now apply inject_Z_inj in E.
Qed.

Lemma q_nlogn_mono z1 z2 : (0 < z1)%Z -> (z1 < z2)%Z -> q_nlogn z1 < q_nlogn z2.
Proof.
  intros H1 H12. unfold q_nlogn.
  assert (Hx1 : 1 <= inject_Z z1).
  { change 1 with (inject_Z 1). rewrite <- Zle_Qle. lia. }
  assert (Hx12 : inject_Z z1 < inject_Z z2) by now rewrite <- Zlt_Qlt.
  pose proof (Math_log_nonneg _ Hx1) as Hl1.
  assert (Hx0 : 0 < inject_Z z1) by lra.
  pose proof (Math_log_mono _ _ Hx0 Hx12) as Hl12.
  nra.
Qed.

Lemma separates_nlogn : separates q_nlogn.
Proof.
  intros z1 z2 H1 H2 Hne E.
  destruct (Z.lt_total z1 z2) as [H|[H|H]]; [|contradiction|].
  - pose proof (q_nlogn_mono z1 z2 H1 H). lra.
  - pose proof (q_nlogn_mono z2 z1 H2 H). lra.
Qed.

Lemma Qdenom_valid tq pts :
  valid_samples pts -> separates tq -> 0 < Qdenom (Qdata tq pts).
Proof.
  intros [Htwo _ Hpos Hnd] Hsep.
  destruct pts as [|p [|q pts]]; simpl in Htwo; try lia.
  apply (Qdenom_pos _ (tq (fst p), snd p) (tq (fst q), snd q)).
  - now left.
  - right. now left.
  - cbn [fst]. pose proof (Forall_inv Hpos) as Hp.
    pose proof (Forall_inv (Forall_inv_tail Hpos)) as Hq.
    cbn [map] in Hnd. apply NoDup_cons_iff in Hnd as [Hin _].
    apply Hsep; try assumption. intros E. apply Hin. now left.
Qed.

(** The [models] array of valid samples. *)
Definition Qfits (pts : list (Z * Q)) : list Model :=
  [ {| type := O_1; rmse := Fin (Qrmse_const pts); complexity := 1 |};
    {| type := O_log_n; rmse := Fin (Qrmse_reg q_log pts); complexity := 2 |};
    {| type := O_n; rmse := Fin (Qrmse_reg q_linear pts); complexity := 3 |};
    {| type := O_n_log_n; rmse := Fin (Qrmse_reg q_nlogn pts); complexity := 4 |};
    {| type := O_n2; rmse := Fin (Qrmse_reg q_quadratic pts); complexity := 5 |} ].

Lemma fits_fin pts :
  valid_samples pts ->
  fits (map dataPoint pts) (Fin (Qmean (Qtimes pts))) = Qfits pts.
Proof.
  intros Hv. pose proof Hv as [Htwo _ Hpos _].
  assert (Hne : pts <> []) by (destruct pts; simpl in *; [lia | congruence]).
  unfold fits, Qfits.
  rewrite constantRMSE_fin by assumption.
  rewrite (getRegressionRMSE_fin t_linear q_linear);
    [|apply computes_linear | assumption
     | pose proof (Qdenom_valid q_linear pts Hv separates_linear); lra].
  rewrite (getRegressionRMSE_fin t_quadratic q_quadratic);
    [|apply computes_quadratic | assumption
     | pose proof (Qdenom_valid q_quadratic pts Hv separates_quadratic); lra].
  rewrite (getRegressionRMSE_fin t_log q_log);
    [|now apply computes_log | assumption
     | pose proof (Qdenom_valid q_log pts Hv separates_log); lra].
  rewrite (getRegressionRMSE_fin t_nlogn q_nlogn);
    [|now apply computes_nlogn | assumption
     | pose proof (Qdenom_valid q_nlogn pts Hv separates_nlogn); lra].
  reflexivity.
Qed.

Lemma Qfits_fin_key pts : Forall (fin_key rmse) (Qfits pts).
Proof. unfold Qfits. repeat (apply Forall_cons; [reflexivity|]). apply Forall_nil. Qed.

Lemma Qfits_types pts : map type (Qfits pts) = labels.
Proof. reflexivity. Qed.

Lemma fits_types dataPoints meanTime : map type (fits dataPoints meanTime) = labels.
Proof. reflexivity. Qed.

Lemma Qfits_nonneg pts :
  Forall (fun m => exists q, rmse m = Fin q /\ 0 <= q) (Qfits pts).
Proof.
  unfold Qfits.
  repeat (apply Forall_cons; [eexists; split; [reflexivity|]|]);
    [apply Qrmse_const_nonneg | apply Qrmse_reg_nonneg .. | apply Forall_nil].
Qed.

End ValidFits.

(** ** The sorted [models] array and the lookups by label *)

Section Models.
Context {L : MathLibLaws M}.

Lemma js_find_unique {A} (p : A -> bool) (l : list A) (x : A) :
  In x l -> p x = true -> (forall y, In y l -> p y = true -> y = x) ->
  js_find p l = Some x.
Proof.
  unfold js_find. induction l as [|y l IH]; intros Hin Hp Huniq; [contradiction|].
  simpl. destruct (p y) eqn:E.
  - f_equal. apply Huniq; [now left | assumption].
  - destruct Hin as [->|Hin]; [congruence|].
    apply IH; auto. intros z Hz. apply Huniq. now right.
Qed.

(** An array of five records that carry the five labels in some order. *)
Definition catalogued (models : list Model) : Prop :=
  Permutation (map type models) labels.

Lemma fits_catalogued dataPoints meanTime :
  catalogued (js_sort by_rmse (fits dataPoints meanTime)).
Proof.
  unfold catalogued. rewrite <- (fits_types dataPoints meanTime).
  apply Permutation_map, js_sort_perm.
Qed.

Lemma catalogued_has models label :
  catalogued models -> In label labels ->
  exists m, In m models /\ type m = label.
Proof.
  intros Hc Hl. apply (Permutation_in _ (Permutation_sym Hc)) in Hl.
  apply in_map_iff in Hl as (m & Hm & Hin). eauto.
Qed.

Lemma catalogued_types models m :
  catalogued models -> In m models -> In (type m) labels.
Proof.
  intros Hc Hm. apply (Permutation_in _ Hc). now apply in_map.
Qed.

Lemma catalogued_unique models m1 m2 :
  catalogued models -> In m1 models -> In m2 models -> type m1 = type m2 ->
  m1 = m2.
Proof.
  intros Hc H1 H2 E.
  assert (Hnd : NoDup (map type models)).
  { apply (Permutation_NoDup (Permutation_sym Hc)).
    unfold labels. repeat constructor; simpl; intuition discriminate. }
  apply in_split in H1 as (l1 & l2 & ->).
  apply in_app_or in H2 as [H2|[H2|H2]]; [exfalso|assumption|exfalso];
    rewrite map_app in Hnd; cbn [map] in Hnd;
    apply NoDup_remove_2 in Hnd; apply Hnd, in_or_app;
    [left|right]; rewrite E; now apply in_map.
Qed.

(** The substring tests of the ultra-fast branch select one label each. *)
Lemma includes_O1 label :
  In label labels -> (includes label "O(1)" = true <-> label = O_1).
Proof.
  unfold labels. simpl. intros [<-|[<-|[<-|[<-|[<-|[]]]]]];
    split; intros H; (reflexivity || discriminate H).
Qed.

Lemma includes_Olog label :
  In label labels -> (includes label "O(log n)" = true <-> label = O_log_n).
Proof.
  unfold labels. simpl. intros [<-|[<-|[<-|[<-|[<-|[]]]]]];
    split; intros H; (reflexivity || discriminate H).
Qed.

Lemma find_by_label models (sub label : string) :
  catalogued models -> In label labels ->
  (forall l, In l labels -> (includes l sub = true <-> l = label)) ->
  exists m, js_find (fun m => includes (type m) sub) models = Some m
            /\ In m models /\ type m = label.
Proof.
  intros Hc Hl Hsub. destruct (catalogued_has models label Hc Hl) as (m & Hm & Ht).
  exists m. repeat split; try assumption.
  apply js_find_unique; try assumption.
  - rewrite Ht. now apply Hsub.
  - intros y Hy Hp. apply (catalogued_unique models); try assumption.
    rewrite Ht. apply Hsub; [now apply (catalogued_types models)|assumption].
Qed.

(** The ultra-fast branch returns the constant or the logarithmic model. *)
Lemma ultraFast_spec models :
  catalogued models ->
  exists om lm, In om models /\ In lm models
    /\ type om = O_1 /\ type lm = O_log_n
    /\ ultraFast models
       = (Some (if nlt (rmse lm) (rmse om) then lm else om), of_Z 95).
Proof.
  intros Hc.
  destruct (find_by_label models "O(1)" O_1 Hc) as (om & Eo & Ho & Hto);
    [unfold labels; simpl; tauto | apply includes_O1 |].
  destruct (find_by_label models "O(log n)" O_log_n Hc) as (lm & El & Hl & Htl);
    [unfold labels; simpl; tauto | apply includes_Olog |].
  exists om, lm. repeat split; try assumption.
  unfold ultraFast. rewrite Eo, El. now destruct (nlt (rmse lm) (rmse om)).
Qed.

(** The simplicity loop returns an element of the array, never of a
    higher rank than the one it starts from. *)
Lemma occam_step_cases best cand :
  occam_step best cand = best
  \/ (occam_step best cand = cand /\ (complexity cand < complexity best)%Z).
Proof.
  unfold occam_step. destruct (Z.ltb_spec (complexity cand) (complexity best));
    [|now left].
  destruct (nlt _ _); [now right | now left].
Qed.

Lemma occam_In m0 rest : In (occam m0 rest) (m0 :: rest).
Proof.
  unfold occam. revert m0. induction rest as [|c rest IH]; intros m0; simpl.
  - now left.
  - destruct (occam_step_cases m0 c) as [E|[E _]]; rewrite E.
    + destruct (IH m0) as [H|H]; [left | right; right]; assumption.
    + right. apply IH.
Qed.

Lemma occam_complexity m0 rest :
  (complexity (occam m0 rest) <= complexity m0)%Z.
Proof.
  unfold occam. revert m0. induction rest as [|c rest IH]; intros m0; simpl.
  - lia.
  - destruct (occam_step_cases m0 c) as [E|[E Hlt]]; rewrite E.
    + apply IH.
    + specialize (IH c). lia.
Qed.

End Models.

(** ** The two regimes *)

Section Regimes.
Context {L : MathLibLaws M}.

(** A record whose RMSE is a non-negative rational. *)
Definition nonneg_rmse (m : Model) : Prop :=
  exists q, rmse m = Fin q /\ 0 <= q.

Lemma nonneg_rmse_fin_key m : nonneg_rmse m -> fin_key rmse m.
Proof. intros (q & E & _). unfold fin_key. now rewrite E. Qed.

Definition results_of (models : list Model) : list (string * num) :=
  js_sort (by_key snd) (map (fun m => (type m, rmse m)) models).

(** What [conclude] returns, regime by regime. *)
Lemma conclude_cases meanTime models :
  catalogued models ->
  exists best conf,
    In best models
    /\ conclude meanTime models
       = Ok {| bestFit := type best; confidence := nround conf;
               results := results_of models |}
    /\ ((nlt meanTime (Fin 1e-4) = true
         /\ ultraFast models = (Some best, conf))
        \/ (nlt meanTime (Fin 1e-4) = false
            /\ exists m0 rest, models = m0 :: rest /\ best = occam m0 rest
               /\ conf = standard_confidence meanTime models best)).
Proof.
  intros Hc. unfold conclude. destruct (nlt meanTime (Fin 1e-4)) eqn:E.
  - destruct (ultraFast_spec models Hc) as (om & lm & Ho & Hl & _ & _ & Eu).
    rewrite Eu. eexists _, _. split; [|split; [reflexivity | left; split; reflexivity]].
    now destruct (nlt (rmse lm) (rmse om)).
  - destruct models as [|m0 rest].
    + apply Permutation_length in Hc. discriminate Hc.
    + cbn [standard]. eexists _, _.
      split; [apply occam_In|]. split; [reflexivity|].
      right. split; [reflexivity|]. now exists m0, rest.
Qed.

Lemma results_of_perm models :
  catalogued models -> Permutation (map fst (results_of models)) labels.
Proof.
  intros Hc. unfold results_of.
  rewrite (Permutation_map fst (js_sort_perm _ _)), map_map. exact Hc.
Qed.

Lemma results_of_sorted models :
  Forall (fin_key rmse) models -> StronglySorted (key_le snd) (results_of models).
Proof.
  intros H. apply js_sort_key_sorted, Forall_map_iff. exact H.
Qed.

Lemma signalMagnitude_pos mu :
  exists s, signalMagnitude (Fin mu) = Fin s /\ 0 < s
            /\ (0 < mu -> s = mu) /\ (mu <= 0 -> s = 1).
Proof.
  unfold signalMagnitude, ngt, of_Z. cbn [nlt].
  change (inject_Z 0) with 0. change (inject_Z 1) with 1.
  destruct (Qltb_spec 0 mu) as [H|H].
  - exists mu. split; [reflexivity|]. split; [assumption|].
    split; [reflexivity | intros H'; exfalso; lra].
  - exists 1. split; [reflexivity|]. split; [lra|].
    split; [intros H'; exfalso; lra | reflexivity].
Qed.

(** [fitQuality] is a rational between 0 and 1. *)
Lemma fitQuality_range mu best :
  nonneg_rmse best ->
  exists fq, fitQuality (Fin mu) best = Fin fq /\ 0 <= fq <= 1.
Proof.
  intros (rb & Erb & Hrb). unfold fitQuality. rewrite Erb.
  destruct (signalMagnitude_pos mu) as (s & -> & Hs & _).
  rewrite ndiv_Fin by lra. unfold of_Z. cbn [nmul nsub].
  destruct (nmax_Fin (inject_Z 0) (inject_Z 1 - rb / s * inject_Z 2))
    as (fq & -> & Hfq0 & Hfq1 & Hfq).
  exists fq. split; [reflexivity|].
  pose proof (Qdiv_nonneg rb s Hrb Hs).
  change (inject_Z 0) with 0 in *. change (inject_Z 1) with 1 in *.
  change (inject_Z 2) with 2 in *. destruct Hfq as [->| ->]; lra.
Qed.

Lemma secondBest_In models best sb :
  secondBest models best = Some sb -> In sb models.
Proof.
  unfold secondBest. intros H. apply (js_sort_In by_rmse).
  destruct (nth_error (js_sort by_rmse models) 0) as [sb0|] eqn:E0;
    [|discriminate].
  destruct (same_model sb0 best).
  - eapply nth_error_In; eauto.
  - inv H. eapply nth_error_In; eauto.
Qed.

(** [separation] is a rational, at most 1. *)
Lemma separation_le_1 models best :
  Forall nonneg_rmse models -> nonneg_rmse best ->
  exists sep, separation models best = Fin sep /\ sep <= 1.
Proof.
  intros Hnn (rb & Erb & Hrb). unfold separation.
  destruct (secondBest models best) as [sb|] eqn:E.
  - apply secondBest_In in E. rewrite Forall_forall in Hnn.
    destruct (Hnn sb E) as (rs & -> & Hrs). rewrite Erb.
    destruct (nor_pos rs (inject_Z 1) Hrs ltac:(reflexivity)) as (y & Ey & Hy & _).
    unfold of_Z. rewrite Ey. cbn [nsub]. rewrite ndiv_Fin by lra.
    destruct (nmin_Fin (inject_Z 1) ((rs - rb) / y)) as (z & -> & Hz & _).
    exists z. split; [reflexivity|]. exact Hz.
  - exists 0. split; [reflexivity | lra].
Qed.

(** The confidence of the standard branch is a rational, at most 100. *)
Lemma standard_confidence_le mu models best :
  Forall nonneg_rmse models -> In best models ->
  exists c, standard_confidence (Fin mu) models best = Fin c /\ c <= 100.
Proof.
  intros Hnn Hbest.
  assert (Hb : nonneg_rmse best) by (rewrite Forall_forall in Hnn; auto).
  unfold standard_confidence.
  destruct (fitQuality_range mu best Hb) as (fq & -> & Hfq).
  destruct (separation_le_1 models best Hnn Hb) as (sep & -> & Hsep).
  unfold of_Z. cbn [nmul nadd]. eexists. split; [reflexivity|].
  change (inject_Z 100) with 100. lra.
Qed.

Lemma nround_le x (hi : Z) :
  x <= inject_Z hi -> exists z, nround (Fin x) = of_Z z /\ (z <= hi)%Z.
Proof.
  intros H. exists (Qfloor (x + (1#2))). split; [reflexivity|].
  rewrite <- (Qround_half_Z hi). now apply Qround_half_le.
Qed.

Lemma nround_between x (lo hi : Z) :
  inject_Z lo - (1 # 2) <= x -> x <= inject_Z hi ->
  exists z, nround (Fin x) = of_Z z /\ (lo <= z <= hi)%Z.
Proof.
  intros Hlo Hhi. exists (Qfloor (x + (1#2))). split; [reflexivity|]. split.
  - rewrite <- (Qfloor_Z lo). apply Qfloor_resp_le. lra.
  - rewrite <- (Qround_half_Z hi). now apply Qround_half_le.
Qed.

(** The same with a strict upper bound, half a unit above [hi]. *)
Lemma nround_within x (lo hi : Z) :
  inject_Z lo - (1 # 2) <= x -> x < inject_Z hi + (1 # 2) ->
  exists z, nround (Fin x) = of_Z z /\ (lo <= z <= hi)%Z.
Proof.
  intros Hlo Hhi. exists (Qfloor (x + (1#2))). split; [reflexivity|]. split.
  - rewrite <- (Qfloor_Z lo). apply Qfloor_resp_le. lra.
  - pose proof (Qfloor_le (x + (1 # 2))) as Hf.
    apply Z.lt_succ_r. rewrite Zlt_Qlt. unfold Z.succ.
    rewrite inject_Z_plus. change (inject_Z 1) with 1. lra.
Qed.

Lemma nround_of_Z z : nround (of_Z z) = of_Z z.
Proof. unfold nround, of_Z. now rewrite Qround_half_Z. Qed.

End Regimes.

(** ** How far the simplicity loop can move from the best fit *)

Section Promotion.
Context {L : MathLibLaws M}.

(** The factor of one promotion, [k] times over. *)
Fixpoint slack (k : nat) : Q :=
  match k with
  | O => 1
  | S k' => (115 # 100) * slack k'
  end.

(** The ranks of the catalog, and the promotions left above a rank. *)
Definition ranked (m : Model) : Prop := (1 <= complexity m <= 5)%Z.
Definition rank_gap (m : Model) : nat := Z.to_nat (5 - complexity m).

Lemma slack_ge_1 k : 1 <= slack k.
Proof. induction k as [|k IH]; cbn [slack]; lra. Qed.

Lemma slack_mono k k' : (k <= k')%nat -> slack k <= slack k'.
Proof.
  induction 1 as [|k' _ IH]; [lra|].
  cbn [slack]. pose proof (slack_ge_1 k'). lra.
Qed.

Lemma slack_le_4 m : ranked m -> slack (rank_gap m) <= slack 4.
Proof. intros Hr. apply slack_mono. unfold rank_gap, ranked in *. lia. Qed.

(** One iteration of the loop, with the bound a promotion implies. *)
Lemma occam_step_promoted best cand b q :
  rmse best = Fin b -> rmse cand = Fin q -> 0 <= b ->
  occam_step best cand = best
  \/ (occam_step best cand = cand
      /\ (complexity cand < complexity best)%Z
      /\ (~ b == 0 -> q < (115 # 100) * b)
      /\ (b == 0 -> q < 0.15 * 1e-9)).
Proof.
  intros Hb Hq Hnn. unfold occam_step.
  destruct (Z.ltb_spec (complexity cand) (complexity best)) as [Hlt|_]; [|now left].
  rewrite Hb, Hq. cbn [nsub].
  assert (Heps : 0 < 1e-9) by reflexivity. set (eps := 1e-9) in *.
  destruct (nor_pos b eps Hnn Heps) as (y & -> & Hy & Hne & Hz).
  rewrite ndiv_Fin by lra. cbn [nlt].
  destruct (Qltb_spec ((q - b) / y) 0.15) as [Hd|_]; [right | now left].
  apply Qdiv_lt_iff in Hd; [|exact Hy].
  repeat split; [exact Hlt | intros E | intros E].
  - rewrite (Hne E) in Hd. lra.
  - rewrite (Hz E) in Hd. lra.
Qed.

Variables (m0 : Model) (rest : list Model) (x0 : Q).
Hypothesis head_rmse : rmse m0 = Fin x0.
Hypothesis head_nonneg : 0 <= x0.
Hypothesis head_least : Forall (fun m => exists q, rmse m = Fin q /\ x0 <= q) rest.
Hypothesis ranks : Forall ranked (m0 :: rest).
Hypothesis sorted : js_sort by_rmse (m0 :: rest) = m0 :: rest.

(** The error the bounds are relative to: the least RMSE, or the floor
    [0.15 * 1e-9] of the loop when the least RMSE is zero. *)
Definition base : Q := if Qeq_bool x0 0 then 0.15 * 1e-9 else x0.

Lemma base_pos : 0 < base.
Proof.
  unfold base. destruct (Qeq_bool_spec x0 0) as [E|E]; [reflexivity | lra].
Qed.

(** What the loop keeps: the best model is the first one or one of a
    lower rank, and its RMSE is within the slack of its rank. *)
Definition within (best : Model) : Prop :=
  (best = m0 \/ (complexity best < complexity m0)%Z)
  /\ ranked best
  /\ exists b, rmse best = Fin b /\ x0 <= b /\ b <= base * slack (rank_gap best).

Lemma within_head : within m0.
Proof.
  split; [now left|]. split; [now inversion ranks|].
  exists x0. split; [exact head_rmse|]. split; [lra|].
  pose proof (slack_ge_1 (rank_gap m0)) as Hs. pose proof base_pos as Hb.
  unfold base in *. destruct (Qeq_bool_spec x0 0) as [E|E]; [nra | nra].
Qed.

Lemma occam_step_within best cand :
  within best -> ranked cand -> (exists q, rmse cand = Fin q /\ x0 <= q) ->
  within (occam_step best cand).
Proof.
  intros (Hpos & Hr & b & Hb & Hxb & Hbb) Hrc (q & Hq & Hxq).
  destruct (occam_step_promoted best cand b q Hb Hq ltac:(lra))
    as [->|(-> & Hlt & Hne & Hz)];
    [exact (conj Hpos (conj Hr (ex_intro _ b (conj Hb (conj Hxb Hbb)))))|].
  split; [right; destruct Hpos as [->|]; lia|]. split; [exact Hrc|].
  exists q. split; [exact Hq|]. split; [exact Hxq|].
  assert (Hs : (115 # 100) * slack (rank_gap best) <= slack (rank_gap cand)).
  { change ((115 # 100) * slack (rank_gap best)) with (slack (S (rank_gap best))).
    apply slack_mono. unfold rank_gap, ranked in *. lia. }
  pose proof base_pos as Hbase. pose proof (slack_ge_1 (rank_gap cand)) as H1.
  destruct (Qeq_bool_spec b 0) as [E|E].
  - specialize (Hz E). unfold base in *.
    destruct (Qeq_bool_spec x0 0) as [E0|E0]; [nra | lra].
  - specialize (Hne E). nra.
Qed.

Lemma fold_within l : forall best,
  Forall ranked l -> Forall (fun m => exists q, rmse m = Fin q /\ x0 <= q) l ->
  within best -> within (fold_left occam_step l best).
Proof.
  induction l as [|cand l IH]; intros best Hr Hl Hw; [exact Hw|].
  cbn [fold_left]. inversion Hr; inversion Hl; subst.
  apply IH; try assumption. now apply occam_step_within.
Qed.

Lemma occam_within : within (occam m0 rest).
Proof.
  apply fold_within; [now inversion ranks | exact head_least | exact within_head].
Qed.

Lemma within_nonneg best : within best -> nonneg_rmse best.
Proof. intros (_ & _ & b & Hb & Hxb & _). exists b. split; [exact Hb | lra]. Qed.

(** The separation of a model the loop can return is at least
    [1 - 1.15 ^ 4]. *)
Lemma separation_ge best :
  within best ->
  exists sep, separation (m0 :: rest) best = Fin sep /\ 1 - slack 4 <= sep.
Proof.
  intros (Hpos & Hr & b & Hb & Hxb & Hbb).
  pose proof (slack_ge_1 4) as H4. pose proof (slack_le_4 best Hr) as Hs.
  pose proof (slack_ge_1 (rank_gap best)) as H1.
  unfold separation, secondBest. rewrite sorted. cbn [nth_error]. unfold same_model.
  destruct Hpos as [->|Hlt].
  - rewrite Z.eqb_refl.
    destruct rest as [|m1 rest']; [exists 0; split; [reflexivity | lra]|].
    cbn [nth_error]. inversion head_least as [|? ? (q & Hq & Hxq) _]; subst.
    rewrite Hq, head_rmse.
    destruct (nor_pos q (inject_Z 1) ltac:(lra) ltac:(reflexivity)) as (y & Ey & Hy & _).
    unfold of_Z. rewrite Ey. cbn [nsub]. rewrite ndiv_Fin by lra.
    destruct (nmin_Fin (inject_Z 1) ((q - x0) / y)) as (z & -> & _ & _ & Hz).
    exists z. split; [reflexivity|].
    pose proof (Qdiv_nonneg (q - x0) y ltac:(lra) Hy).
    change (inject_Z 1) with 1 in Hz. destruct Hz as [->| ->]; lra.
  - replace (complexity m0 =? complexity best)%Z with false
      by (symmetry; apply Z.eqb_neq; lia).
    rewrite head_rmse, Hb.
    destruct (nor_pos x0 (inject_Z 1) head_nonneg ltac:(reflexivity))
      as (y & Ey & Hy & Hne & Hz).
    unfold of_Z. rewrite Ey. cbn [nsub]. rewrite ndiv_Fin by lra.
    destruct (nmin_Fin (inject_Z 1) ((x0 - b) / y)) as (z & -> & _ & _ & Hz').
    exists z. split; [reflexivity|].
    assert (Hv : 1 - slack 4 <= (x0 - b) / y).
    { apply Qle_shift_div_l; [exact Hy|]. unfold base in Hbb.
      destruct (Qeq_bool_spec x0 0) as [E|E].
      - rewrite (Hz E). change (inject_Z 1) with 1.
        assert (He : 0.15 * 1e-9 <= 1 # 10) by (apply Qle_bool_imp_le; reflexivity).
        assert (Hc : slack 4 == 174900625 # 100000000) by reflexivity.
        set (eps := 0.15 * 1e-9) in *. nra.
      - rewrite (Hne E). nra. }
    change (inject_Z 1) with 1 in Hz'. destruct Hz' as [->| ->]; lra.
Qed.

Lemma standard_confidence_ge mu best :
  within best ->
  exists c, standard_confidence (Fin mu) (m0 :: rest) best = Fin c
    /\ (1 - slack 4) * 30 <= c.
Proof.
  intros Hw. unfold standard_confidence.
  destruct (fitQuality_range mu best (within_nonneg best Hw)) as (fq & -> & Hfq).
  destruct (separation_ge best Hw) as (sep & -> & Hsep).
  unfold of_Z. cbn [nmul nadd]. eexists. split; [reflexivity|].
  change (inject_Z 100) with 100. lra.
Qed.

End Promotion.

(** ** Theorems on valid samples *)

Section Theorems.
Context {L : MathLibLaws M}.

Lemma determineComplexity_valid pts :
  valid_samples pts ->
  determineComplexity (map dataPoint pts)
  = conclude (Fin (Qmean (Qtimes pts))) (js_sort by_rmse (Qfits pts)).
Proof.
  intros Hv. unfold determineComplexity.
  rewrite mean_dataPoint
    by (destruct Hv as [H _ _ _]; destruct pts; simpl in *; [lia | congruence]).
  cbn [res_bind]. now rewrite fits_fin.
Qed.

Lemma Qfits_sorted_catalogued pts : catalogued (js_sort by_rmse (Qfits pts)).
Proof.
  unfold catalogued. rewrite (Permutation_map type (js_sort_perm _ _)).
  reflexivity.
Qed.

Lemma Qfits_sorted_nonneg pts :
  Forall nonneg_rmse (js_sort by_rmse (Qfits pts)).
Proof. apply js_sort_Forall, Qfits_nonneg. Qed.

(** C1. On valid samples [determineComplexity] returns, and its [results]
    are the five catalog labels, each once, in order of non-decreasing
    RMSE. *)
Theorem results_sorted pts :
  valid_samples pts ->
  exists r, determineComplexity (map dataPoint pts) = Ok r
    /\ StronglySorted (key_le snd) (results r)
    /\ Permutation (map fst (results r)) labels.
Proof.
  intros Hv. rewrite determineComplexity_valid by assumption.
  pose proof (Qfits_sorted_catalogued pts) as Hc.
  destruct (conclude_cases (Fin (Qmean (Qtimes pts))) _ Hc)
    as (best & conf & _ & -> & _).
  eexists. split; [reflexivity|]. cbn [results]. split.
  - apply results_of_sorted.
    eapply Forall_impl; [apply nonneg_rmse_fin_key | apply Qfits_sorted_nonneg].
  - now apply results_of_perm.
Qed.

(** The array of sorted fits is a head of least RMSE and a rest. *)
Lemma sorted_fits_shape pts m0 rest :
  js_sort by_rmse (Qfits pts) = m0 :: rest ->
  exists x0, rmse m0 = Fin x0 /\ 0 <= x0
    /\ Forall (fun m => exists q, rmse m = Fin q /\ x0 <= q) rest
    /\ Forall ranked (m0 :: rest)
    /\ js_sort by_rmse (m0 :: rest) = m0 :: rest.
Proof.
  intros Hs.
  pose proof (Qfits_sorted_nonneg pts) as Hnn. rewrite Hs in Hnn.
  inversion Hnn as [|? ? (x0 & E & Hx) _]; subst.
  exists x0. split; [exact E|]. split; [exact Hx|]. split; [|split].
  - pose proof (js_sort_key_sorted rmse (Qfits pts) (Qfits_fin_key pts)) as Hsd.
    fold by_rmse in Hsd. rewrite Hs in Hsd. inversion Hsd as [|? ? _ Hle]; subst.
    eapply Forall_impl; [|exact Hle]. intros m Hm. unfold key_le in Hm.
    rewrite E in Hm. destruct (rmse m) as [q|]; [now exists q | contradiction].
  - rewrite <- Hs. apply js_sort_Forall. unfold Qfits, ranked.
    repeat (apply Forall_cons; [cbn; lia|]). apply Forall_nil.
  - rewrite <- Hs. apply js_sort_key_idem, Qfits_fin_key.
Qed.

(** C2. On valid samples the confidence is an integer between -22 and
    100: the simplicity loop can promote a model whose RMSE is up to
    [1.15 ^ 4] times the least one, which makes the separation negative;
    the confidence is not bounded below by 0. *)
Theorem confidence_bounds pts :
  valid_samples pts ->
  exists r z, determineComplexity (map dataPoint pts) = Ok r
    /\ confidence r = of_Z z /\ (-22 <= z <= 100)%Z.
Proof.
  intros Hv. rewrite determineComplexity_valid by assumption.
  pose proof (Qfits_sorted_catalogued pts) as Hc.
  pose proof (Qfits_sorted_nonneg pts) as Hnn.
  destruct (conclude_cases (Fin (Qmean (Qtimes pts))) _ Hc)
    as (best & conf & Hbest & -> & [[_ Hu]|[_ (m0 & rest & Hs & -> & ->)]]).
  - destruct (ultraFast_spec _ Hc) as (om & lm & _ & _ & _ & _ & Eu).
    rewrite Eu in Hu. inv Hu.
    eexists _, 95%Z. split; [reflexivity|]. cbn [confidence].
    split; [apply nround_of_Z | lia].
  - rewrite Hs in *.
    destruct (sorted_fits_shape pts m0 rest Hs) as (x0 & E & Hx & Hl & Hr & Hsd).
    pose proof (occam_within m0 rest x0 E Hx Hl Hr) as Hw.
    destruct (standard_confidence_le (Qmean (Qtimes pts)) _ _ Hnn Hbest)
      as (c & Ec & Hhi).
    edestruct (standard_confidence_ge m0 rest x0)
      with (mu := Qmean (Qtimes pts)) (best := occam m0 rest)
      as (c' & Ec' & Hlo); try eassumption.
    rewrite Ec in Ec'. injection Ec' as <-.
    destruct (nround_between c (-22) 100) as (z & Ez & Hz); [|exact Hhi|].
    + assert (Hc4 : slack 4 == 174900625 # 100000000) by reflexivity.
      change (inject_Z (-22)) with (-22 # 1). lra.
    + eexists _, z. split; [reflexivity|]. cbn [confidence]. rewrite Ec. now split.
Qed.

End Theorems.

End Classifier.

(** ** Theorems on any samples *)

Section AnySamples.
Context {M : MathLib}.

Lemma fits_rmse_by_type dataPoints meanTime m :
  In m (fits dataPoints meanTime) ->
  (type m = O_1 -> rmse m = constantRMSE dataPoints meanTime)
  /\ (type m = O_log_n -> rmse m = getRegressionRMSE dataPoints t_log).
Proof.
  unfold fits. cbn [In]. intros [<-|[<-|[<-|[<-|[<-|[]]]]]]; cbn [type rmse];
    split; intros E; (reflexivity || discriminate E).
Qed.

(** With at least one sample the classifier returns: the catalog is fixed,
    so [find] never misses and nothing can throw after the mean. *)
Lemma determineComplexity_labelled dataPoints :
  dataPoints <> [] ->
  exists r, determineComplexity dataPoints = Ok r
    /\ In (bestFit r) labels
    /\ Permutation (map fst (results r)) labels.
Proof.
  intros Hne. unfold determineComplexity.
  destruct (mean (map time dataPoints)) as [meanTime|e] eqn:Hm.
  - cbn [res_bind].
    pose proof (fits_catalogued dataPoints meanTime) as Hc.
    destruct (conclude_cases meanTime _ Hc) as (best & conf & Hb & -> & _).
    eexists. split; [reflexivity|]. split; [|now apply results_of_perm].
    cbn [bestFit]. eapply Permutation_in; [exact Hc | now apply in_map].
  - assert (H : is_ok (mean (map time dataPoints)) = true)
      by (apply mean_ok_iff; destruct dataPoints; [congruence | discriminate]).
    rewrite Hm in H. discriminate H.
Qed.

Lemma determineComplexity_returns dataPoints :
  dataPoints <> [] ->
  exists r, determineComplexity dataPoints = Ok r
    /\ Permutation (map fst (results r)) labels.
Proof.
  intros Hne.
  destruct (determineComplexity_labelled dataPoints Hne) as (r & E & _ & Hp).
  now exists r.
Qed.

(** C3. When the mean time is below [1e-4] the confidence is 95 and the
    answer is the logarithmic model if its RMSE is smaller than the constant
    model's, the constant model otherwise, whatever the samples are. *)
Theorem determineComplexity_ultra_fast dataPoints meanTime :
  mean (map time dataPoints) = Ok meanTime ->
  nlt meanTime (Fin 1e-4) = true ->
  exists r, determineComplexity dataPoints = Ok r
    /\ confidence r = of_Z 95
    /\ bestFit r = if nlt (getRegressionRMSE dataPoints t_log)
                          (constantRMSE dataPoints meanTime)
                   then O_log_n else O_1.
Proof.
  intros Hmean Hfast. unfold determineComplexity. rewrite Hmean. cbn [res_bind].
  pose proof (fits_catalogued dataPoints meanTime) as Hc.
  destruct (conclude_cases meanTime _ Hc)
    as (best & conf & _ & -> & [[_ Hu]|[Hslow _]]); [|congruence].
  destruct (ultraFast_spec _ Hc) as (om & lm & Ho & Hl & Hto & Htl & Eu).
  rewrite Eu in Hu. inv Hu.
  apply js_sort_In in Ho, Hl.
  destruct (fits_rmse_by_type _ _ _ Ho) as [Eo _].
  destruct (fits_rmse_by_type _ _ _ Hl) as [_ El].
  rewrite (Eo Hto), (El Htl).
  eexists. split; [reflexivity|]. cbn [confidence bestFit].
  split; [apply nround_of_Z|].
  destruct (nlt (getRegressionRMSE dataPoints t_log) _); assumption.
Qed.

(** C16. [determineComplexity] throws on one input only, the empty array,
    where [ss.mean] raises its error; on every other array of samples,
    whatever their sizes and times, numbers or [NaN], it returns a result
    whose [bestFit] is one of the five labels and whose [results] list
    the five labels, each once. *)
Theorem determineComplexity_total dataPoints :
  match dataPoints with
  | [] => determineComplexity dataPoints
          = Throw (Error "mean requires at least one data point")
  | _ :: _ => exists r, determineComplexity dataPoints = Ok r
                /\ In (bestFit r) labels
                /\ Permutation (map fst (results r)) labels
  end.
Proof.
  destruct dataPoints as [|p dataPoints]; [reflexivity|].
  destruct (determineComplexity_labelled (p :: dataPoints)) as (r & E & Hb & Hp);
    [discriminate|].
  now exists r.
Qed.

End AnySamples.

(** ** Exact data *)

Section ExactData.
Context {M : MathLib} {L : MathLibLaws M}.

Lemma Forall2_Qeq_map {A} (f g : A -> Q) (l : list A) :
  (forall x, In x l -> f x == g x) -> Forall2 Qeq (map f l) (map g l).
Proof.
  induction l as [|x l IH]; intros H; cbn [map]; constructor.
  - apply H. now left.
  - apply IH. intros y Hy. apply H. now right.
Qed.

(** Samples that lie on a line over the covariate [tq] are fitted without
    error. *)
Lemma Qrmse_reg_exact tq pts a c :
  valid_samples pts -> separates tq ->
  Forall (fun p => snd p == a * tq (fst p) + c) pts ->
  Qrmse_reg tq pts == 0.
Proof.
  intros Hv Hsep Hline. pose proof (Qdenom_valid tq pts Hv Hsep) as Hden.
  assert (Hne : pts <> [])
    by (destruct Hv as [H _ _ _]; destruct pts; simpl in *; [lia | congruence]).
  unfold Qrmse_reg. rewrite <- Math_sqrt_0. apply Math_sqrt_Proper.
  apply Qmse_zero_iff.
  - unfold Qtimes. destruct pts; [congruence | discriminate].
  - now rewrite Qtimes_length, Qpredictions_length.
  - unfold Qtimes, Qpredictions. apply Forall2_Qeq_map. intros p Hp.
    symmetry.
    apply (exact_prediction a c (Qdata tq pts)) with (p := (tq (fst p), snd p)).
    + unfold Qdata. apply Forall_map_iff. exact Hline.
    + exact Hden.
    + unfold Qdata. now apply in_map with (f := fun p => (tq (fst p), snd p)).
Qed.

(** When the samples lie exactly on a line [time = a * n + c], the
    linear model's RMSE is zero. *)
Theorem linear_fit_exact pts a c :
  valid_samples pts ->
  Forall (fun p => snd p == a * inject_Z (fst p) + c) pts ->
  exists r, getRegressionRMSE (map dataPoint pts) t_linear = Fin r /\ r == 0.
Proof.
  intros Hv Hline. exists (Qrmse_reg q_linear pts). split.
  - apply getRegressionRMSE_fin; [apply computes_linear | apply Hv |].
    pose proof (Qdenom_valid q_linear pts Hv separates_linear). lra.
  - now apply (Qrmse_reg_exact q_linear pts a c Hv separates_linear).
Qed.

End ExactData.

(** ** A best model that fits without error *)

Section ExactFit.
Context {M : MathLib} {L : MathLibLaws M}.

(** A model whose RMSE is at least [0.15 * 1e-9]: against a best model of
    RMSE zero, the relative difference of the simplicity loop is at least
    the tolerance. *)
Definition clear (m : Model) : Prop :=
  exists q, rmse m = Fin q /\ 0.15 * 1e-9 <= q.

Lemma clear_pos m : clear m -> exists q, rmse m = Fin q /\ 0 < q.
Proof.
  intros (q & Hq & Hb). exists q. split; [exact Hq|].
  eapply Qlt_le_trans; [|exact Hb]. reflexivity.
Qed.

(** A loop in which no candidate is promoted. *)
Lemma occam_fixed m0 rest :
  Forall (fun cand => occam_step m0 cand = m0) rest -> occam m0 rest = m0.
Proof.
  unfold occam. induction 1 as [|cand rest Hc _ IH]; [reflexivity|].
  cbn [fold_left]. now rewrite Hc.
Qed.

Lemma fitQuality_exact mu best x :
  rmse best = Fin x -> x == 0 -> 0 < mu ->
  exists f, fitQuality (Fin mu) best = Fin f /\ f == 1.
Proof.
  intros Hr Hx Hmu. unfold fitQuality. rewrite Hr.
  destruct (signalMagnitude_pos mu) as (s & -> & Hs & Heq & _).
  rewrite (Heq Hmu). rewrite ndiv_Fin by lra.
  unfold of_Z. cbn [nmul nsub nmax].
  change (inject_Z 0) with 0. change (inject_Z 1) with 1. change (inject_Z 2) with 2.
  assert (E : 1 - x / mu * 2 == 1) by (rewrite Hx; field; lra).
  destruct (Qltb_spec 0 (1 - x / mu * 2)) as [H|H]; [|lra].
  eexists. split; [reflexivity | exact E].
Qed.

Variables (m0 m1 : Model) (rest : list Model) (x : Q).
Hypothesis best_exact : rmse m0 = Fin x.
Hypothesis x_zero : x == 0.
Hypothesis rest_kept :
  Forall (fun cand => (complexity m0 <= complexity cand)%Z \/ clear cand) (m1 :: rest).
Hypothesis sorted : js_sort by_rmse (m0 :: m1 :: rest) = m0 :: m1 :: rest.

Lemma occam_step_keeps cand :
  (complexity m0 <= complexity cand)%Z \/ clear cand -> occam_step m0 cand = m0.
Proof.
  intros Hc. unfold occam_step.
  destruct (Z.ltb_spec (complexity cand) (complexity m0)) as [Hlt|_]; [|reflexivity].
  destruct Hc as [Hge|(q & Hq & Hb)]; [lia|].
  rewrite Hq, best_exact. unfold nor, truthy.
  rewrite (proj2 (Qeq_bool_iff x 0) x_zero). cbn [negb nsub].
  rewrite ndiv_Fin by (apply Qnot_eq_sym, Qlt_not_eq; reflexivity).
  assert (E : q - x == q) by (rewrite x_zero; ring).
  replace (nlt _ _) with false; [reflexivity|]. symmetry.
  apply nlt_Fin_false, Qle_shift_div_l; [reflexivity | now rewrite E].
Qed.

Lemma occam_keeps : occam m0 (m1 :: rest) = m0.
Proof.
  apply occam_fixed. eapply Forall_impl; [|exact rest_kept].
  exact occam_step_keeps.
Qed.

(** The separation is 1 when the second model has an error, 0 when it
    fits without error too. *)
Lemma separation_exact q :
  rmse m1 = Fin q -> 0 <= q ->
  exists s, separation (m0 :: m1 :: rest) m0 = Fin s
    /\ s == if Qeq_bool q 0 then 0 else 1.
Proof.
  intros Hq Hpos. unfold separation, secondBest. rewrite sorted.
  cbn [nth_error]. unfold same_model. rewrite Z.eqb_refl.
  rewrite Hq, best_exact. unfold nor, truthy, of_Z. cbn [nsub].
  destruct (Qeq_bool_spec q 0) as [E|E]; cbn [negb].
  - rewrite ndiv_Fin by (change (inject_Z 1) with 1; lra). cbn [nmin].
    change (inject_Z 1) with 1.
    assert (E' : (q - x) / 1 == 0) by (rewrite E, x_zero; field).
    destruct (Qltb_spec ((q - x) / 1) 1) as [H|H]; [|lra].
    eexists. split; [reflexivity | exact E'].
  - rewrite ndiv_Fin by exact E. cbn [nmin]. change (inject_Z 1) with 1.
    assert (E' : (q - x) / q == 1) by (rewrite x_zero; field; exact E).
    destruct (Qltb_spec ((q - x) / q) 1) as [H|H]; [lra|].
    eexists. split; reflexivity.
Qed.

Lemma confidence_exact mu q :
  rmse m1 = Fin q -> 0 <= q -> 0 < mu ->
  nround (standard_confidence (Fin mu) (m0 :: m1 :: rest) m0)
  = of_Z (if Qeq_bool q 0 then 70 else 100).
Proof.
  intros Hq Hpos Hmu. unfold standard_confidence.
  destruct (fitQuality_exact mu m0 x best_exact x_zero Hmu) as (f & -> & Hf).
  destruct (separation_exact q Hq Hpos) as (s & -> & Hs).
  unfold of_Z. cbn [nmul nadd nround]. unfold of_Z. do 2 f_equal.
  rewrite <- (Qround_half_Z (if Qeq_bool q 0 then 70 else 100)%Z).
  apply Qfloor_comp. rewrite Hf, Hs. change (inject_Z 100) with 100.
  destruct (Qeq_bool q 0); reflexivity.
Qed.

(** What [conclude] returns when the first model fits without error and
    no other one is promoted. *)
Lemma conclude_exact mu q :
  rmse m1 = Fin q -> 0 <= q -> 1e-4 <= mu ->
  conclude (Fin mu) (m0 :: m1 :: rest)
  = Ok {| bestFit := type m0;
          confidence := of_Z (if Qeq_bool q 0 then 70 else 100);
          results := results_of (m0 :: m1 :: rest) |}.
Proof.
  intros Hq Hpos Hmu. unfold conclude.
  replace (nlt (Fin mu) (Fin 1e-4)) with false
    by (symmetry; now apply nlt_Fin_false).
  cbn [standard]. rewrite occam_keeps, (confidence_exact mu q Hq Hpos); [reflexivity|].
  eapply Qlt_le_trans; [|exact Hmu]. reflexivity.
Qed.

End ExactFit.

(** ** Samples that lie exactly on a model *)

Section ExactModel.
Context {M : MathLib} {L : MathLibLaws M}.

(** The four regression models with their covariates. *)
Definition regressions : list (string * (Z -> Q)) :=
  [(O_log_n, q_log); (O_n, q_linear); (O_n_log_n, q_nlogn); (O_n2, q_quadratic)].

Lemma regression_fit pts label tq :
  In (label, tq) regressions ->
  separates tq
  /\ exists k, In {| type := label; rmse := Fin (Qrmse_reg tq pts); complexity := k |}
                  (Qfits pts).
Proof.
  intros [E|[E|[E|[E|[]]]]]; injection E as <- <-;
    (split;
     [auto using separates_log, separates_linear, separates_nlogn, separates_quadratic
     | eexists; unfold Qfits; repeat first [left; reflexivity | right]]).
Qed.

(** In a catalogued array no later record has the type of the first. *)
Lemma catalogued_tail m0 rest cand :
  catalogued (m0 :: rest) -> In cand rest -> type cand <> type m0.
Proof.
  intros Hc Hin E.
  assert (Hnd : NoDup (map type (m0 :: rest))).
  { eapply Permutation_NoDup; [symmetry; exact Hc|].
    unfold labels. repeat (constructor; [cbn; intuition discriminate|]). constructor. }
  inversion Hnd as [|? ? Hnot _]; subst. apply Hnot. rewrite <- E. now apply in_map.
Qed.

Variables (pts : list (Z * Q)) (label : string) (tq : Z -> Q) (a c : Q).
Hypothesis valid : valid_samples pts.
Hypothesis regression : In (label, tq) regressions.
Hypothesis on_model : Forall (fun p => snd p == a * tq (fst p) + c) pts.
Hypothesis others_clear : Forall (fun m => type m <> label -> clear m) (Qfits pts).

Lemma Qfits_catalogued : catalogued (Qfits pts).
Proof. unfold catalogued. now rewrite Qfits_types. Qed.

(** The first record after the sort is the model the samples lie on. *)
Lemma exact_head m0 rest :
  js_sort by_rmse (Qfits pts) = m0 :: rest ->
  type m0 = label /\ exists x, rmse m0 = Fin x /\ x == 0.
Proof.
  intros Hs. destruct (regression_fit pts label tq regression) as (Hsep & k & HT).
  pose proof (Qrmse_reg_exact tq pts a c valid Hsep on_model) as Hx.
  pose proof (js_sort_key_head rmse m0 rest (Qfits pts) (Qfits_fin_key pts) Hs _ HT)
    as Hle.
  assert (Hm0 : In m0 (Qfits pts))
    by (eapply Permutation_in; [apply js_sort_perm | rewrite Hs; now left]).
  assert (Ht : type m0 = label).
  { destruct (string_dec (type m0) label) as [E|E]; [exact E | exfalso].
    destruct (proj1 (Forall_forall _ _) others_clear m0 Hm0 E) as (q & Hq & Hb).
    unfold key_le in Hle. rewrite Hq in Hle. cbn [rmse] in Hle.
    assert (0 < 0.15 * 1e-9) by reflexivity. lra. }
  split; [exact Ht|].
  rewrite (catalogued_unique (Qfits pts) m0 _ Qfits_catalogued Hm0 HT Ht).
  now eexists.
Qed.

Lemma exact_rest m0 rest :
  js_sort by_rmse (Qfits pts) = m0 :: rest -> Forall clear rest /\ rest <> [].
Proof.
  intros Hs. destruct (exact_head m0 rest Hs) as (Ht & _).
  pose proof (js_sort_perm by_rmse (Qfits pts)) as Hp. rewrite Hs in Hp.
  split.
  - apply Forall_forall. intros cand Hin.
    apply (proj1 (Forall_forall _ _) others_clear).
    + eapply Permutation_in; [exact Hp | now right].
    + rewrite <- Ht. apply (catalogued_tail m0 rest); [|exact Hin].
      pose proof (Qfits_sorted_catalogued pts) as Hc. now rewrite Hs in Hc.
  - apply Permutation_length in Hp. destruct rest; [discriminate Hp | discriminate].
Qed.

(** C15. Samples that lie exactly on one of the four regression models,
    with a mean time out of the ultra-fast regime and every other model's
    RMSE at least [0.15 * 1e-9], are classified as that model with
    confidence 100. *)
Theorem exact_data_classified :
  1e-4 <= Qmean (Qtimes pts) ->
  exists r, determineComplexity (map dataPoint pts) = Ok r
    /\ bestFit r = label /\ confidence r = of_Z 100.
Proof.
  intros Hmu. rewrite (determineComplexity_valid pts valid).
  assert (Hidem : js_sort by_rmse (js_sort by_rmse (Qfits pts))
                 = js_sort by_rmse (Qfits pts))
    by apply js_sort_key_idem, Qfits_fin_key.
  destruct (js_sort by_rmse (Qfits pts)) as [|m0 rest] eqn:Hs.
  - pose proof (js_sort_perm by_rmse (Qfits pts)) as Hp. rewrite Hs in Hp.
    apply Permutation_length in Hp. discriminate Hp.
  - destruct (exact_head m0 rest Hs) as (Ht & x & Hx & Hz).
    destruct (exact_rest m0 rest Hs) as (Hc & Hne).
    destruct rest as [|m1 rest]; [contradiction|].
    destruct (clear_pos m1) as (q & Hq & Hpos); [now inversion Hc|].
    rewrite (conclude_exact m0 m1 rest x Hx Hz) with (q := q);
      [|eapply Forall_impl; [|exact Hc]; now right | exact Hidem | exact Hq | lra
       | exact Hmu].
    eexists. split; [reflexivity|]. split; [exact Ht|]. cbn [confidence].
    now destruct (Qeq_bool_spec q 0) as [E|_]; [lra|].
Qed.

End ExactModel.

(** ** Samples that agree up to the equality of rationals

    The benchmarker returns times that equal the expected ones as
    rationals; the fits of the two are equal in the same sense, so what is
    required of the expected samples holds of the measured ones. *)

Section SameSamples.
Context {M : MathLib} {L : MathLibLaws M}.

Definition same_measure (p p' : Z * Q) : Prop := fst p = fst p' /\ snd p == snd p'.

Lemma Qsse_same (a a' p p' : list Q) :
  Forall2 Qeq a a' -> Forall2 Qeq p p' -> (length a <= length p)%nat ->
  Qsse a p == Qsse a' p'.
Proof.
  intros Ha Hp Hlen.
  rewrite !Qsse_pairs_eq
    by (rewrite <- ?(Forall2_length Ha), <- ?(Forall2_length Hp); exact Hlen).
  unfold Qsse_pairs. eapply Qsum_map_Forall2; [|exact (Forall2_combine _ _ _ _ _ _ Ha Hp)].
  cbv beta. intros x x' [H1 H2]. now rewrite H1, H2.
Qed.

Lemma Qmse_same (a a' p p' : list Q) :
  Forall2 Qeq a a' -> Forall2 Qeq p p' -> (length a <= length p)%nat ->
  Qmse a p == Qmse a' p'.
Proof.
  intros Ha Hp Hlen. unfold Qmse.
  now rewrite (Qsse_same a a' p p' Ha Hp Hlen), (Forall2_length Ha).
Qed.

Lemma map_fst_same l l' : Forall2 same_measure l l' -> map fst l = map fst l'.
Proof.
  induction 1 as [|p p' l l' [H _] _ IH]; [reflexivity|]. cbn [map]. now rewrite H, IH.
Qed.

Variables pts pts' : list (Z * Q).
Hypothesis same : Forall2 same_measure pts pts'.

Lemma Qtimes_same : Forall2 Qeq (Qtimes pts) (Qtimes pts').
Proof.
  unfold Qtimes. eapply Forall2_map_rel; [|exact same]. now intros p p' [_ H].
Qed.

Lemma sizes_same : map fst pts = map fst pts'.
Proof. exact (map_fst_same pts pts' same). Qed.

Lemma Qdata_same tq : Forall2 same_point (Qdata tq pts) (Qdata tq pts').
Proof.
  unfold Qdata. eapply Forall2_map_rel; [|exact same].
  intros p p' [H1 H2]. split; cbn [fst snd]; [now rewrite H1 | exact H2].
Qed.

Lemma Qpredictions_same tq :
  Forall2 Qeq (Qpredictions tq pts) (Qpredictions tq pts').
Proof.
  unfold Qpredictions. eapply Forall2_map_rel; [|exact same].
  intros p p' [H1 _]. cbv beta.
  now rewrite (Qslope_same _ _ (Qdata_same tq)), (Qintercept_same _ _ (Qdata_same tq)), H1.
Qed.

Lemma Qmean_same : Qmean (Qtimes pts) == Qmean (Qtimes pts').
Proof. apply Qmean_Forall2, Qtimes_same. Qed.

Lemma Qrmse_reg_same tq : Qrmse_reg tq pts == Qrmse_reg tq pts'.
Proof.
  unfold Qrmse_reg. apply Math_sqrt_Proper, Qmse_same.
  - exact Qtimes_same.
  - apply Qpredictions_same.
  - now rewrite Qtimes_length, Qpredictions_length.
Qed.

Lemma Qrmse_const_same : Qrmse_const pts == Qrmse_const pts'.
Proof.
  unfold Qrmse_const. apply Math_sqrt_Proper, Qmse_same.
  - exact Qtimes_same.
  - eapply Forall2_map_rel; [|exact same]. intros p p' _. exact Qmean_same.
  - now rewrite Qtimes_length, length_map.
Qed.

(** The two arrays of fits, record by record. *)
Definition same_fit (m m' : Model) : Prop :=
  type m = type m'
  /\ exists q q', rmse m = Fin q /\ rmse m' = Fin q' /\ q == q'.

Lemma Qfits_same : Forall2 same_fit (Qfits pts) (Qfits pts').
Proof.
  unfold Qfits.
  repeat (apply Forall2_cons; [split; [reflexivity|]; eexists _, _;
                               split; [reflexivity|]; split; [reflexivity|]|]);
    [apply Qrmse_const_same | apply Qrmse_reg_same .. | apply Forall2_nil].
Qed.

Lemma others_clear_same label :
  Forall (fun m => type m <> label -> clear m) (Qfits pts) ->
  Forall (fun m => type m <> label -> clear m) (Qfits pts').
Proof.
  apply (Forall2_Forall same_fit); [|exact Qfits_same].
  intros m m' (Ht & q & q' & Hq & Hq' & E) Hc Hne.
  destruct (Hc ltac:(now rewrite Ht)) as (x & Hx & Hb).
  exists q'. split; [exact Hq'|]. rewrite Hq in Hx. injection Hx as <-. now rewrite <- E.
Qed.

Lemma valid_samples_same : valid_samples pts -> valid_samples pts'.
Proof.
  intros [H2 Ht Hs Hd]. constructor.
  - now rewrite <- (Forall2_length same).
  - eapply (Forall2_Forall same_measure); [|exact same | exact Ht].
    cbv beta. intros p p' [_ E] H. now rewrite <- E.
  - eapply (Forall2_Forall same_measure); [|exact same | exact Hs].
    cbv beta. intros p p' [E _] H. now rewrite <- E.
  - now rewrite <- sizes_same.
Qed.

(** Samples that equal, as rationals, samples on a regression model are
    classified as that model. *)
Lemma exact_data_classified_same label tq a c :
  valid_samples pts -> In (label, tq) regressions ->
  Forall (fun p => snd p == a * tq (fst p) + c) pts ->
  Forall (fun m => type m <> label -> clear m) (Qfits pts) ->
  1e-4 <= Qmean (Qtimes pts) ->
  exists r, determineComplexity (map dataPoint pts') = Ok r
    /\ bestFit r = label /\ confidence r = of_Z 100.
Proof.
  intros Hv Hreg Hline Hclear Hmu.
  apply (exact_data_classified pts' label tq a c);
    [now apply valid_samples_same | exact Hreg | | now apply others_clear_same
    | now rewrite <- Qmean_same].
  eapply (Forall2_Forall same_measure); [|exact same | exact Hline].
  cbv beta. intros p p' [E1 E2] H. now rewrite <- E1, <- E2.
Qed.

End SameSamples.

(** ** A single sample *)

Section SingleSample.
Context {M : MathLib} {L : MathLibLaws M}.

(** The catalog with the RMSEs [r 1], ..., [r 5], in catalog order. *)
Definition models_of (r : Z -> Q) : list Model :=
  [ {| type := O_1; rmse := Fin (r 1%Z); complexity := 1 |};
    {| type := O_log_n; rmse := Fin (r 2%Z); complexity := 2 |};
    {| type := O_n; rmse := Fin (r 3%Z); complexity := 3 |};
    {| type := O_n_log_n; rmse := Fin (r 4%Z); complexity := 4 |};
    {| type := O_n2; rmse := Fin (r 5%Z); complexity := 5 |} ].

Variable r : Z -> Q.
Hypothesis r_zero : forall k, r k == 0.

Lemma zero_models_sorted : js_sort by_rmse (models_of r) = models_of r.
Proof.
  apply js_sort_all_incomparable. intros a b Ha Hb. unfold sorts_after, by_key.
  cbn [In models_of] in Ha, Hb.
  destruct Ha as [<-|[<-|[<-|[<-|[<-|[]]]]]];
    destruct Hb as [<-|[<-|[<-|[<-|[<-|[]]]]]]; cbn [rmse nsub];
    unfold ngt, of_Z; apply nlt_Fin_false; change (inject_Z 0) with 0;
    rewrite !r_zero; lra.
Qed.

(** What [conclude] returns on fits that are all zero. *)
Lemma conclude_zero mu :
  0 <= mu ->
  exists c, conclude (Fin mu) (models_of r) = Ok c
    /\ bestFit c = O_1
    /\ confidence c = if Qltb mu 1e-4 then of_Z 95 else of_Z 70.
Proof.
  intros Hmu. destruct (Qltb mu 1e-4) eqn:Hreg.
  - unfold conclude. cbn [nlt]. rewrite Hreg. unfold ultraFast.
    assert (E : nlt (Fin (r 2%Z)) (Fin (r 1%Z)) = false)
      by (apply nlt_Fin_false; rewrite !r_zero; lra).
    eexists. split; [vm_compute js_find; cbn [rmse]; rewrite E; reflexivity|].
    cbn [bestFit confidence type]. split; [reflexivity | apply nround_of_Z].
  - apply Qltb_ge in Hreg. unfold models_of.
    rewrite (conclude_exact _ _ _ (r 1%Z)) with (q := r 2%Z);
      [| reflexivity | apply r_zero
       | repeat (apply Forall_cons; [left; cbn; lia|]); apply Forall_nil
       | exact zero_models_sorted | reflexivity | rewrite r_zero; lra | exact Hreg].
    rewrite (proj2 (Qeq_bool_iff _ _) (r_zero 2%Z)).
    eexists. split; [reflexivity|]. now split.
Qed.

End SingleSample.

(** ** The fits of a single sample *)

Section SingleFits.
Context {M : MathLib} {L : MathLibLaws M}.

(** The root of the error of one prediction that equals the observation. *)
Lemma rmse_one_exact (t p : Q) : p == t -> Math_sqrt (Qmse [t] [p]) == 0.
Proof.
  intros E. transitivity (Math_sqrt 0); [|apply Math_sqrt_0].
  apply Math_sqrt_Proper.
  apply Qmse_zero_iff; [discriminate | reflexivity|].
  constructor; [now symmetry | constructor].
Qed.

(** The regression through one point predicts its ordinate. *)
Lemma getRegressionRMSE_single tf (x : Q) size t :
  tf (of_Z size) = Fin x ->
  getRegressionRMSE [dataPoint (size, t)] tf
  = Fin (Math_sqrt (Qmse [t] [t + inject_Z 0 * x])).
Proof.
  intros H. unfold getRegressionRMSE. cbn [map dataPoint n time fst snd].
  rewrite H, linearRegression_single. unfold of_Z.
  rewrite linearRegressionLine_fin.
  now apply (calculateRMSE_fin [t] [t + inject_Z 0 * x]).
Qed.

Lemma single_fits size t :
  (0 < size)%Z ->
  exists r, (forall k, r k == 0)
    /\ fits [dataPoint (size, t)] (Fin (Qmean [t])) = models_of r.
Proof.
  intros Hsize.
  assert (Hpos : Forall (fun p : Z * Q => (0 < fst p)%Z) [(size, t)])
    by (repeat constructor; exact Hsize).
  assert (Hin : In (size, t) [(size, t)]) by now left.
  exists (fun k =>
    if (k =? 1)%Z then Math_sqrt (Qmse [t] [Qmean [t]])
    else if (k =? 2)%Z then Math_sqrt (Qmse [t] [t + inject_Z 0 * q_log size])
    else if (k =? 3)%Z then Math_sqrt (Qmse [t] [t + inject_Z 0 * q_linear size])
    else if (k =? 4)%Z then Math_sqrt (Qmse [t] [t + inject_Z 0 * q_nlogn size])
    else Math_sqrt (Qmse [t] [t + inject_Z 0 * q_quadratic size])).
  split.
  - intros k.
    assert (Hm : Qmean [t] == t) by (unfold Qmean, Qsum; cbn; field).
    change (inject_Z 0) with 0.
    repeat (destruct (_ =? _)%Z); apply rmse_one_exact; (exact Hm || ring).
  - unfold fits, models_of. cbn [Z.eqb Pos.eqb].
    rewrite (getRegressionRMSE_single t_linear (q_linear size)),
            (getRegressionRMSE_single t_quadratic (q_quadratic size)),
            (getRegressionRMSE_single t_log (q_log size)),
            (getRegressionRMSE_single t_nlogn (q_nlogn size)).
    + do 2 f_equal.
      apply (calculateRMSE_fin [t] [Qmean [t]]); [discriminate | reflexivity].
    + exact (computes_nlogn _ Hpos _ Hin).
    + exact (computes_log _ Hpos _ Hin).
    + reflexivity.
    + reflexivity.
Qed.

(** C14. On a single sample [determineComplexity] does not return a
    degenerate result: every model fits without error, the answer is the
    constant model, and the confidence is 70 (95 when the time is below
    [1e-4]). *)
Theorem determineComplexity_single_sample size t :
  (0 < size)%Z -> 0 <= t ->
  exists c, determineComplexity [dataPoint (size, t)] = Ok c
    /\ bestFit c = O_1
    /\ confidence c = if Qltb t 1e-4 then of_Z 95 else of_Z 70.
Proof.
  intros Hsize Ht. unfold determineComplexity.
  change (map time [dataPoint (size, t)]) with (map Fin [t]).
  rewrite mean_fin by discriminate. cbn [res_bind].
  destruct (single_fits size t Hsize) as (r & Hr & ->).
  rewrite (zero_models_sorted r Hr).
  assert (Hm : Qmean [t] == t) by (unfold Qmean, Qsum; cbn; field).
  destruct (conclude_zero r Hr (Qmean [t])) as (c & -> & Hb & Hc); [lra|].
  exists c. split; [reflexivity|]. split; [exact Hb|].
  rewrite Hc. now rewrite Hm.
Qed.

End SingleFits.

(** ** Samples that no model explains *)

Section Noise.
Context {M : MathLib} {L : MathLibLaws M}.

(** A record that the constant model is within the tolerance of: its
    rank is above 1 and its RMSE [q] is positive with [c < 1.15 * q]. *)
Definition tolerates (c : Q) (m : Model) : Prop :=
  (1 < complexity m)%Z
  /\ exists q, rmse m = Fin q /\ 0 < q /\ c < (115 # 100) * q.

Variables (cm : Model) (c : Q).
Hypothesis constant_rank : complexity cm = 1%Z.
Hypothesis constant_rmse : rmse cm = Fin c.

(** The constant model replaces a model that tolerates it. *)
Lemma occam_step_constant best : tolerates c best -> occam_step best cm = cm.
Proof.
  intros (Hk & q & Hq & Hpos & Htol). unfold occam_step.
  rewrite constant_rank, (proj2 (Z.ltb_lt _ _) Hk), constant_rmse, Hq.
  cbn [nsub].
  destruct (nor_pos q 1e-9 ltac:(lra) ltac:(reflexivity)) as (y & -> & _ & Hne & _).
  rewrite (Hne ltac:(lra)), ndiv_Fin by lra.
  replace (nlt _ _) with true; [reflexivity|]. symmetry.
  apply nlt_Fin, Qdiv_lt_iff; [exact Hpos | lra].
Qed.

(** Once the constant model is the best one it stays: no rank is below 1. *)
Lemma fold_lowest l : Forall ranked l -> fold_left occam_step l cm = cm.
Proof.
  induction 1 as [|cand l Hc _ IH]; [reflexivity|]. cbn [fold_left].
  unfold occam_step at 2. rewrite constant_rank.
  now rewrite (proj2 (Z.ltb_ge _ _) (proj1 Hc)).
Qed.

Lemma fold_constant l : forall best,
  tolerates c best -> In cm l ->
  Forall (fun m => m = cm \/ tolerates c m) l -> Forall ranked l ->
  fold_left occam_step l best = cm.
Proof.
  induction l as [|cand l IH]; intros best Hb Hin Hl Hr; [contradiction|].
  inversion Hl as [|? ? Hc Hl']; inversion Hr as [|? ? Hrc Hr']; subst.
  cbn [fold_left]. destruct Hc as [->|Hc].
  - rewrite (occam_step_constant best Hb). now apply fold_lowest.
  - apply IH; [| | exact Hl' | exact Hr'].
    + now destruct (occam_step_cases best cand) as [->|[-> _]].
    + destruct Hin as [->|Hin]; [|exact Hin]. destruct Hc as (Hk & _). lia.
Qed.

(** The confidence when the error of the constant model is at least half
    the mean time. *)
Lemma fitQuality_poor mu :
  0 < mu -> mu <= 2 * c -> exists f, fitQuality (Fin mu) cm = Fin f /\ f == 0.
Proof.
  intros Hmu Hp. unfold fitQuality. rewrite constant_rmse.
  destruct (signalMagnitude_pos mu) as (s & -> & Hs & Heq & _). rewrite (Heq Hmu).
  rewrite ndiv_Fin by lra. unfold of_Z. cbn [nmul nsub].
  destruct (nmax_Fin (inject_Z 0) (inject_Z 1 - c / mu * inject_Z 2))
    as (f & -> & H0 & _ & Hf).
  exists f. split; [reflexivity|].
  assert (Hh : 1 # 2 <= c / mu) by (apply Qle_shift_div_l; lra).
  change (inject_Z 0) with 0 in *. change (inject_Z 1) with 1 in *.
  change (inject_Z 2) with 2 in *. destruct Hf as [->| ->]; lra.
Qed.

Variables (m0 : Model) (rest : list Model) (x0 : Q).
Hypothesis head_rmse : rmse m0 = Fin x0.
Hypothesis head_rank : complexity m0 <> 1%Z.
Hypothesis head_pos : 0 < x0.
Hypothesis head_near : c < (115 # 100) * x0.
Hypothesis head_better : (61 # 60) * x0 < c.
Hypothesis sorted : js_sort by_rmse (m0 :: rest) = m0 :: rest.

(** The constant model is compared with the best-fitting one, which makes
    the separation negative. *)
Lemma separation_noise :
  exists sep, separation (m0 :: rest) cm = Fin sep
    /\ - (15 # 100) < sep < - (1 # 60).
Proof.
  unfold separation, secondBest. rewrite sorted. cbn [nth_error]. unfold same_model.
  rewrite constant_rank, (proj2 (Z.eqb_neq _ _) head_rank), head_rmse, constant_rmse.
  destruct (nor_pos x0 (inject_Z 1) ltac:(lra) ltac:(reflexivity))
    as (y & Ey & _ & Hne & _).
  unfold of_Z. rewrite Ey, (Hne ltac:(lra)). cbn [nsub]. rewrite ndiv_Fin by lra.
  destruct (nmin_Fin (inject_Z 1) ((x0 - c) / x0)) as (z & -> & _ & Hzy & Hz).
  exists z. split; [reflexivity|].
  assert (Hlo : - (15 # 100) < (x0 - c) / x0) by (apply Qlt_shift_div_l; lra).
  assert (Hhi : (x0 - c) / x0 < - (1 # 60)) by (apply Qlt_shift_div_r; lra).
  change (inject_Z 1) with 1 in *. destruct Hz as [->| ->]; lra.
Qed.

Lemma confidence_noise mu :
  0 < mu -> mu <= 2 * c ->
  exists z, nround (standard_confidence (Fin mu) (m0 :: rest) cm) = of_Z z
    /\ (-4 <= z <= -1)%Z.
Proof.
  intros Hmu Hp. unfold standard_confidence.
  destruct (fitQuality_poor mu Hmu Hp) as (f & -> & Hf).
  destruct separation_noise as (sep & -> & Hs).
  unfold of_Z. cbn [nmul nadd]. apply nround_within.
  - change (inject_Z 100) with 100. change (inject_Z (-4)) with (-4 # 1). lra.
  - change (inject_Z 100) with 100. change (inject_Z (-1)) with (-1 # 1). lra.
Qed.

(** What [conclude] returns when the loop ends on the constant model. *)
Lemma conclude_noise mu :
  1e-4 <= mu -> mu <= 2 * c -> occam m0 rest = cm ->
  exists z, conclude (Fin mu) (m0 :: rest)
            = Ok {| bestFit := type cm; confidence := of_Z z;
                    results := results_of (m0 :: rest) |}
    /\ (-4 <= z <= -1)%Z.
Proof.
  intros Hmu Hp Ho.
  assert (Hpos : 0 < mu) by (eapply Qlt_le_trans; [|exact Hmu]; reflexivity).
  destruct (confidence_noise mu Hpos Hp) as (z & Ez & Hz).
  exists z. split; [|exact Hz]. unfold conclude.
  replace (nlt (Fin mu) (Fin 1e-4)) with false
    by (symmetry; now apply nlt_Fin_false).
  cbn [standard]. now rewrite Ho, Ez.
Qed.

End Noise.

Section NoisyData.
Context {M : MathLib} {L : MathLibLaws M}.
Variable pts : list (Z * Q).
Hypothesis valid : valid_samples pts.
Hypothesis tolerance :
  forall label tq, In (label, tq) regressions ->
    Qrmse_const pts < (115 # 100) * Qrmse_reg tq pts.
Hypothesis better :
  exists label tq, In (label, tq) regressions
    /\ (61 # 60) * Qrmse_reg tq pts < Qrmse_const pts.

(** The record of the constant model. *)
Definition constant_fit : Model :=
  {| type := O_1; rmse := Fin (Qrmse_const pts); complexity := 1 |}.

(** Every other record tolerates the constant one. *)
Lemma Qfits_tolerate :
  Forall (fun m => m = constant_fit \/ tolerates (Qrmse_const pts) m) (Qfits pts).
Proof.
  pose proof (Qrmse_const_nonneg pts) as Hc. unfold Qfits.
  apply Forall_cons; [now left|].
  repeat (apply Forall_cons;
          [right; split; [cbn; lia|]; eexists; split; [reflexivity|];
           match goal with
           | |- context [Qrmse_reg ?tq pts] =>
               assert (Ht : Qrmse_const pts < (115 # 100) * Qrmse_reg tq pts)
                 by (eapply tolerance; unfold regressions;
                     repeat first [left; reflexivity | right])
           end; split; lra|]).
  apply Forall_nil.
Qed.

(** After the sort the first record is a regression, and its error is
    below the constant one by more than a sixtieth. *)
Lemma noise_head m0 rest :
  js_sort by_rmse (Qfits pts) = m0 :: rest ->
  tolerates (Qrmse_const pts) m0
  /\ exists x0, rmse m0 = Fin x0 /\ (61 # 60) * x0 < Qrmse_const pts.
Proof.
  intros Hs. destruct better as (label & tq & Hin & Hb).
  destruct (regression_fit pts label tq Hin) as (_ & k & HT).
  pose proof (js_sort_key_head rmse m0 rest (Qfits pts) (Qfits_fin_key pts) Hs _ HT)
    as Hle.
  pose proof Qfits_tolerate as Hall. apply (js_sort_Forall by_rmse) in Hall.
  rewrite Hs in Hall. inversion Hall as [|? ? [->|Ht] _]; subst.
  - exfalso. unfold key_le in Hle. cbn [rmse constant_fit] in Hle.
    pose proof (tolerance label tq Hin). lra.
  - split; [exact Ht|]. destruct Ht as (_ & x0 & E & _ & _).
    exists x0. split; [exact E|]. unfold key_le in Hle. rewrite E in Hle.
    cbn [rmse] in Hle. lra.
Qed.

(** The simplicity loop ends on the constant model. *)
Lemma noise_occam m0 rest :
  js_sort by_rmse (Qfits pts) = m0 :: rest -> occam m0 rest = constant_fit.
Proof.
  intros Hs. destruct (noise_head m0 rest Hs) as (Ht & _).
  pose proof Qfits_tolerate as Hall. apply (js_sort_Forall by_rmse) in Hall.
  rewrite Hs in Hall.
  destruct (sorted_fits_shape pts m0 rest Hs) as (_ & _ & _ & _ & Hr & _).
  apply (fold_constant constant_fit (Qrmse_const pts) eq_refl eq_refl);
    [exact Ht | | now inversion Hall | now inversion Hr].
  assert (Hin : In constant_fit (m0 :: rest)).
  { rewrite <- Hs. eapply Permutation_in; [symmetry; apply js_sort_perm | now left]. }
  destruct Hin as [->|Hin]; [|exact Hin]. destruct Ht as (Hk & _). cbn in Hk. lia.
Qed.

(** C10. Samples that no model explains get the answer O(1) with a
    negative confidence.  When the mean time is out of the ultra-fast
    regime, the error of the constant model is at least half the mean
    time, it is within 15% of the error of each of the four regressions
    and more than a sixtieth above the error of one of them, then
    [determineComplexity] returns O(1), the simplicity loop having promoted
    the constant model over every better fit, and a confidence between
    -4 and -1: the quality of the fit is 0 and the separation is measured
    against the best fit, which the answer is not. *)
Theorem noisy_data_classified :
  1e-4 <= Qmean (Qtimes pts) -> Qmean (Qtimes pts) <= 2 * Qrmse_const pts ->
  exists r z, determineComplexity (map dataPoint pts) = Ok r
    /\ bestFit r = O_1 /\ confidence r = of_Z z /\ (-4 <= z <= -1)%Z.
Proof.
  intros Hmu Hp. rewrite (determineComplexity_valid pts valid).
  assert (Hidem : js_sort by_rmse (js_sort by_rmse (Qfits pts))
                 = js_sort by_rmse (Qfits pts))
    by apply js_sort_key_idem, Qfits_fin_key.
  destruct (js_sort by_rmse (Qfits pts)) as [|m0 rest] eqn:Hs.
  - pose proof (js_sort_perm by_rmse (Qfits pts)) as Hperm. rewrite Hs in Hperm.
    apply Permutation_length in Hperm. discriminate Hperm.
  - destruct (noise_head m0 rest Hs) as ((Hk & q & Hq & Hpos & Hnear) & x0 & Hx & Hb).
    rewrite Hq in Hx. injection Hx as <-.
    destruct (conclude_noise constant_fit (Qrmse_const pts) eq_refl eq_refl
                m0 rest q Hq ltac:(lia) Hpos Hnear Hb Hidem
                (Qmean (Qtimes pts)) Hmu Hp (noise_occam m0 rest Hs))
      as (z & -> & Hz).
    eexists _, z. split; [reflexivity|]. now split.
Qed.

End NoisyData.

(** ** Witnesses on the reference instance *)

(** Three samples with a large scatter, and three tiny ones. *)
Definition sample3 : list (Z * Q) := [(1%Z, 0); (2%Z, 4); (3%Z, 1)].

Definition tiny3 : list DataPoint :=
  map dataPoint [(10%Z, 0.00001); (100%Z, 0.00002); (1000%Z, 0.00003)].

Ltac solve_valid :=
  constructor;
  [ simpl; lia
  | repeat (apply Forall_cons; [simpl; lra|]); apply Forall_nil
  | repeat (apply Forall_cons; [simpl; lia|]); apply Forall_nil
  | simpl; repeat (apply NoDup_cons; [simpl; intuition lia|]); apply NoDup_nil ].

Lemma sample3_valid : valid_samples sample3.
Proof. solve_valid. Qed.

Lemma results_sorted_witness :
  valid_samples sample3
  /\ exists r, determineComplexity (map dataPoint sample3) = Ok r
       /\ StronglySorted (key_le snd) (results r)
       /\ Permutation (map fst (results r)) labels.
Proof. split; [exact sample3_valid | exact (results_sorted sample3 sample3_valid)]. Defined.

Lemma confidence_bounds_witness :
  valid_samples sample3
  /\ exists r z, determineComplexity (map dataPoint sample3) = Ok r
       /\ confidence r = of_Z z /\ (-22 <= z <= 100)%Z.
Proof. split; [exact sample3_valid | exact (confidence_bounds sample3 sample3_valid)]. Defined.

Lemma determineComplexity_ultra_fast_witness :
  exists r, determineComplexity tiny3 = Ok r
    /\ confidence r = of_Z 95
    /\ bestFit r = if nlt (getRegressionRMSE tiny3 t_log)
                          (constantRMSE tiny3 (Fin (Qmean [0.00001; 0.00002; 0.00003])))
                   then O_log_n else O_1.
Proof.
  apply (determineComplexity_ultra_fast tiny3 (Fin (Qmean [0.00001; 0.00002; 0.00003])));
    reflexivity.
Defined.

Definition line3 : list (Z * Q) := [(1000%Z, 1); (2000%Z, 2); (4000%Z, 4)].

Lemma linear_fit_exact_witness :
  exists r, getRegressionRMSE (map dataPoint line3) t_linear = Fin r /\ r == 0.
Proof.
  apply (linear_fit_exact line3 (1 # 1000) 0); [solve_valid|].
  repeat (apply Forall_cons; [reflexivity|]). apply Forall_nil.
Defined.

Lemma determineComplexity_single_sample_witness :
  exists c, determineComplexity [dataPoint (1000%Z, 2)] = Ok c
    /\ bestFit c = O_1
    /\ confidence c = if Qltb 2 1e-4 then of_Z 95 else of_Z 70.
Proof. apply (determineComplexity_single_sample 1000 2); [lia | lra]. Defined.

(** With the reference square root, a positive mean squared error is
    clear of the tolerance of the simplicity loop. *)
Lemma ref_sqrt_clear x : 0 < x -> 0.15 * 1e-9 <= ref_sqrt x.
Proof.
  intros Hx. eapply Qle_trans; [|now apply ref_sqrt_floor].
  apply Qle_bool_imp_le. reflexivity.
Qed.

Lemma ref_clear (m : Model) x : rmse m = Fin (ref_sqrt x) -> 0 < x -> clear m.
Proof. intros Hm Hx. exists (ref_sqrt x). split; [exact Hm | now apply ref_sqrt_clear]. Qed.

Lemma exact_data_classified_witness :
  exists r, determineComplexity (map dataPoint line3) = Ok r
    /\ bestFit r = O_n /\ confidence r = of_Z 100.
Proof.
  apply (exact_data_classified line3 O_n q_linear (1 # 1000) 0);
    [solve_valid | right; left; reflexivity | | | vm_compute; discriminate].
  - repeat (apply Forall_cons; [reflexivity|]). apply Forall_nil.
  - unfold Qfits.
    repeat (apply Forall_cons;
            [intros H;
             first [exfalso; apply H; reflexivity
                   | eapply ref_clear; [reflexivity | vm_compute; reflexivity]]|]).
    apply Forall_nil.
Defined.

(** With the reference instance the errors of the five fits of
    [sample3] are these multiples of [1 / sqrt_scale]. *)
Lemma sample3_errors :
  Qrmse_const sample3 = 1782237 # 1048576
  /\ Qrmse_reg q_log sample3 = 1617988 # 1048576
  /\ Qrmse_reg q_linear sample3 = 1730063 # 1048576
  /\ Qrmse_reg q_nlogn sample3 = 1753919 # 1048576
  /\ Qrmse_reg q_quadratic sample3 = 1773472 # 1048576.
Proof. split; [|split; [|split; [|split]]]; vm_compute; reflexivity. Qed.

(** On [(1, 0), (2, 4), (3, 1)] the answer is O(1) with a negative
    confidence. *)
Lemma noisy_data_classified_witness :
  exists r z, determineComplexity (map dataPoint sample3) = Ok r
    /\ bestFit r = O_1 /\ confidence r = of_Z z /\ (-4 <= z <= -1)%Z.
Proof.
  destruct sample3_errors as (Ec & El & En & Eg & Eq).
  apply (noisy_data_classified sample3 sample3_valid).
  - intros label tq [E|[E|[E|[E|[]]]]]; injection E as <- <-;
      rewrite Ec, ?El, ?En, ?Eg, ?Eq; reflexivity.
  - exists O_n, q_linear. split; [right; left; reflexivity|].
    rewrite Ec, En. reflexivity.
  - vm_compute. discriminate.
  - rewrite Ec. vm_compute. discriminate.
Defined.
