(* ===== verification/Benchmark.v ===== *)
(** * The benchmarker

    [generateInputArray] and [runAnalysis] of src/calculator.js
    (src/unnamed/part_000, lines 87 to 163).  The clock and the candidate
    are the two things [runAnalysis] does not own: the clock is any state
    [W] with a reading function ([Clock]), the candidate any function from
    an input to a computation in that state that returns the input object as
    the call left it (so that a candidate which sorts its array in place is
    modelled, and the reuse of one array across calls is visible).

    The body of [runAnalysis] is split into [warmup], [calibrate] (the
    [while] loop), [batch_size], [measure_once] and [measure] (the two [for]
    loops) and [analyse_size] (one iteration of the loop over the sizes). *)

From Stdlib Require Import String.
From Stdlib Require Import QArith Qround Lqa Lia ZArith List Bool.
From Stdlib Require Import Morphisms Setoid.
From S2P Require Import Prelude.
From S2P Require Import Numeric.
From S2P Require Import JsArray.
From S2P Require Import Stats.
From S2P Require Import DataModel.
Import ListNotations.

Local Open Scope Q_scope.
Local Open Scope js_scope.

(** [performance.now()]: a reading in milliseconds and the state after it. *)
Class Clock (W : Type) : Type := performance_now : W -> Q * W.

(** [generateInputArray(n)]: the array [[0, ..., n - 1]]. *)
Definition generateInputArray (size : Z) : list Z := array_from size Z.of_nat.

(** [inputMode === 'number' ? n : generateInputArray(n)]. *)
Definition make_input (inputMode : string) (size : Z) : Input :=
  if String.eqb inputMode "number" then InNumber size
  else InArray (generateInputArray size).

(** The cap of the calibration loop and its two durations. *)
Definition CAL_LIMIT : Z := 1000000.
Definition CAL_MIN_MS : Q := 5.
Definition TARGET_MS : Z := 15.

Section Benchmark.
Context {W E : Type} {clock : Clock W}.

(** A candidate: it may change the world and its argument, or throw. *)
Definition Algorithm : Type := Input -> io W (exn E) Input.

Definition now : io W (exn E) Q := fun w => Ok (performance_now w).

Variable algorithm : Algorithm.

(** The warm-up: 100 calls on the input of the first size. *)
Definition warmup (inputSizes : list Z) (inputMode : string)
  : io W (exn E) unit :=
  match inputSizes with
  | [] => io_ret tt
  | warmupSize :: _ =>
      let warmupInput := make_input inputMode warmupSize in
      _ <- io_repeat 100 algorithm warmupInput ;;
      io_ret tt
  end.

(** The condition of the calibration loop. *)
Definition cal_continue (calStart calEnd : Q) (calCount : Z) : bool :=
  Qltb (calEnd - calStart) CAL_MIN_MS && (calCount <? CAL_LIMIT)%Z.

(** The calibration loop: call, count, read the clock, until 5 ms have
    passed or the cap is reached. *)
Fixpoint calibrate (fuel : nat) (calStart calEnd : Q) (calCount : Z)
    (calibrationInput : Input) : io W (exn E) (Q * Z) :=
  if cal_continue calStart calEnd calCount then
    match fuel with
    | O => io_ret (calEnd, calCount)
    | S fuel' =>
        input' <- algorithm calibrationInput ;;
        calEnd' <- now ;;
        calibrate fuel' calStart calEnd' (calCount + 1) input'
    end
  else io_ret (calEnd, calCount).

(** [batchSize] from the calibration's duration and count. *)
Definition batch_size (calDuration : Q) (calCount : Z) : num :=
  if (calCount >? 1)%Z then
    nceil (ndiv (nmul (of_Z TARGET_MS) (of_Z calCount))
                (nor (Fin calDuration) (Fin 0.001)))
  else of_Z 1.

(** One measurement: a fresh input, [batchSize] calls between two readings
    of the clock, the time per call. *)
Definition measure_once (inputMode : string) (size : Z) (batchSize : num)
  : io W (exn E) num :=
  let inputForAlgorithm := make_input inputMode size in
  start <- now ;;
  _ <- io_repeat (loop_count batchSize) algorithm inputForAlgorithm ;;
  end_ <- now ;;
  io_ret (ndiv (Fin (end_ - start)) batchSize).

(** The loop [for (let i = 0; i < iterations; i++)] that fills [times]. *)
Fixpoint measure (k : nat) (inputMode : string) (size : Z) (batchSize : num)
    (times : list num) : io W (exn E) (list num) :=
  match k with
  | O => io_ret times
  | S k' =>
      t <- measure_once inputMode size batchSize ;;
      measure k' inputMode size batchSize (times ++ [t])
  end.

(** The body of the loop over the sizes. *)
Definition analyse_size (iterations : num) (inputMode : string) (size : Z)
  : io W (exn E) DataPoint :=
  let calibrationInput := make_input inputMode size in
  calStart <- now ;;
  cal <- calibrate (Z.to_nat CAL_LIMIT) calStart calStart 0 calibrationInput ;;
  let calDuration := fst cal - calStart in
  let batchSize := batch_size calDuration (snd cal) in
  times <- measure (loop_count iterations) inputMode size batchSize [] ;;
  match mean times with
  | Ok avgTime => io_ret {| n := size; time := avgTime |}
  | Throw err => io_throw (Internal err)
  end.

(** The loop [for (const n of inputSizes)] that fills [dataPoints]. *)
Fixpoint analyse_all (iterations : num) (inputMode : string)
    (inputSizes : list Z) (dataPoints : list DataPoint)
  : io W (exn E) (list DataPoint) :=
  match inputSizes with
  | [] => io_ret dataPoints
  | size :: rest =>
      d <- analyse_size iterations inputMode size ;;
      analyse_all iterations inputMode rest (dataPoints ++ [d])
  end.

(** [runAnalysis(algorithm, inputSizes, iterations, inputMode)]. *)
Definition runAnalysis (inputSizes : list Z) (iterations : num)
    (inputMode : string) : io W (exn E) (list DataPoint) :=
  _ <- warmup inputSizes inputMode ;;
  analyse_all iterations inputMode inputSizes [].

End Benchmark.

(** The defaults [iterations = 10] and [inputMode = 'array']. *)
Definition default_iterations : num := of_Z 10.
Definition default_inputMode : string := "array".

(** * Facts that hold for every clock and every candidate *)

Section BenchmarkFacts.
Context {W E : Type} {clock : Clock W}.
Variable algorithm : Algorithm (W := W) (E := E).

Lemma generateInputArray_length size :
  length (generateInputArray size) = Z.to_nat size.
Proof. apply array_from_length. Qed.

Lemma generateInputArray_nth size i :
  (i < Z.to_nat size)%nat ->
  nth_error (generateInputArray size) i = Some (Z.of_nat i).
Proof. apply array_from_nth. Qed.

Lemma cal_continue_cap calStart calEnd calCount :
  (CAL_LIMIT <= calCount)%Z -> cal_continue calStart calEnd calCount = false.
Proof.
  intros H. unfold cal_continue. apply andb_false_iff. right.
  now apply Z.ltb_ge.
Qed.

Lemma cal_continue_false calStart calEnd calCount :
  cal_continue calStart calEnd calCount = false <->
  CAL_MIN_MS <= calEnd - calStart \/ (CAL_LIMIT <= calCount)%Z.
Proof.
  unfold cal_continue. rewrite andb_false_iff, Qltb_ge, Z.ltb_ge. tauto.
Qed.

(** With fuel for the iterations that the cap leaves, the calibration loop
    returns only by its own condition, and its count is within the cap. *)
Lemma calibrate_exit fuel calStart : forall calEnd calCount input w r w',
  (CAL_LIMIT - calCount <= Z.of_nat fuel)%Z ->
  calibrate algorithm fuel calStart calEnd calCount input w = Ok (r, w') ->
  cal_continue calStart (fst r) (snd r) = false /\ (calCount <= snd r)%Z.
Proof.
  induction fuel as [|fuel IH]; intros calEnd calCount input w r w' Hf H;
    cbn [calibrate] in H;
    destruct (cal_continue calStart calEnd calCount) eqn:Hc;
    try (inv H; cbn; split; [assumption | lia]).
  - rewrite cal_continue_cap in Hc by lia. discriminate.
  - apply io_bind_inv_ok in H as (input' & w1 & _ & H).
    apply io_bind_inv_ok in H as (calEnd' & w2 & _ & H).
    apply IH in H; [|lia]. intuition lia.
Qed.

(** More fuel than the cap leaves changes nothing. *)
Lemma calibrate_fuel fuel calStart : forall fuel' calEnd calCount input w,
  (CAL_LIMIT - calCount <= Z.of_nat fuel)%Z -> (fuel <= fuel')%nat ->
  calibrate algorithm fuel' calStart calEnd calCount input w =
  calibrate algorithm fuel calStart calEnd calCount input w.
Proof.
  induction fuel as [|fuel IH]; intros fuel' calEnd calCount input w Hf Hle;
    destruct fuel' as [|fuel'']; cbn [calibrate]; try lia; try reflexivity;
    destruct (cal_continue calStart calEnd calCount) eqn:Hc; try reflexivity.
  - rewrite cal_continue_cap in Hc by lia. discriminate.
  - unfold io_bind. destruct (algorithm input w) as [[input' w1]|e]; [|reflexivity].
    destruct (now w1) as [[calEnd' w2]|e]; [|reflexivity].
    apply IH; lia.
Qed.

(** The count that the loop returns is at most the cap. *)
Lemma calibrate_count_le fuel calStart : forall calEnd calCount input w r w',
  (calCount <= CAL_LIMIT)%Z ->
  calibrate algorithm fuel calStart calEnd calCount input w = Ok (r, w') ->
  (snd r <= CAL_LIMIT)%Z.
Proof.
  induction fuel as [|fuel IH]; intros calEnd calCount input w r w' Hle H;
    cbn [calibrate] in H;
    destruct (cal_continue calStart calEnd calCount) eqn:Hc;
    try (inv H; cbn; assumption).
  apply io_bind_inv_ok in H as (input' & w1 & _ & H).
  apply io_bind_inv_ok in H as (calEnd' & w2 & _ & H).
  apply IH in H; [assumption|].
  unfold cal_continue in Hc. apply andb_true_iff in Hc as [_ Hc].
  apply Z.ltb_lt in Hc. lia.
Qed.

(** ** The batch size *)

Lemma batch_size_small calDuration calCount :
  (calCount <= 1)%Z -> batch_size calDuration calCount = of_Z 1.
Proof.
  intros H. unfold batch_size.
  now destruct (Z.gtb_spec calCount 1); [lia|].
Qed.

Lemma batch_size_large calDuration calCount :
  (1 < calCount)%Z ->
  batch_size calDuration calCount =
  of_Z (Qceiling (inject_Z (TARGET_MS * calCount) /
                  (if Qeq_bool calDuration 0 then 0.001 else calDuration))).
Proof.
  intros H. unfold batch_size.
  destruct (Z.gtb_spec calCount 1); [|lia].
  unfold nor, truthy, of_Z, nmul. rewrite <- inject_Z_mult.
  destruct (Qeq_bool calDuration 0) eqn:Hd; cbn [negb]; unfold ndiv.
  - reflexivity.
  - now rewrite Hd.
Qed.

(** On a clock that has not run backwards the batch size is a positive
    integer. *)
Lemma batch_size_pos calDuration calCount :
  0 <= calDuration ->
  exists z, batch_size calDuration calCount = of_Z z /\ (1 <= z)%Z.
Proof.
  intros Hd. destruct (Z.le_gt_cases calCount 1) as [H|H].
  - exists 1%Z. split; [now apply batch_size_small | lia].
  - rewrite batch_size_large by assumption. eexists. split; [reflexivity|].
    apply Qceiling_pos. apply Qdiv_pos.
    + change 0 with (inject_Z 0). rewrite <- Zlt_Qlt. unfold TARGET_MS. lia.
    + destruct (Qeq_bool_spec calDuration 0); lra.
Qed.

(** ** A candidate that returns *)

(** If the candidate returns on every input, the calibration loop returns. *)
Lemma calibrate_total fuel calStart :
  (forall i w0, exists i' w1, algorithm i w0 = Ok (i', w1)) ->
  forall calEnd calCount input w, exists r w',
    calibrate algorithm fuel calStart calEnd calCount input w = Ok (r, w').
Proof.
  intros Halg. induction fuel as [|fuel IH]; intros calEnd calCount input w;
    cbn [calibrate]; destruct (cal_continue calStart calEnd calCount);
    try (now eexists _, _).
  destruct (Halg input w) as (input' & w1 & H1).
  rewrite (io_bind_ok _ _ _ _ _ H1). unfold now at 1.
  destruct (performance_now w1) as [calEnd' w2] eqn:Hn.
  erewrite io_bind_ok by (unfold now; rewrite Hn; reflexivity).
  apply IH.
Qed.

Lemma warmup_total :
  (forall i w0, exists i' w1, algorithm i w0 = Ok (i', w1)) ->
  forall inputSizes inputMode w,
    exists w', warmup algorithm inputSizes inputMode w = Ok (tt, w').
Proof.
  intros Halg [|size rest] inputMode w; cbn [warmup]; [now eexists|].
  destruct (io_repeat_total (fun _ _ => True) algorithm) with
    (n := 100%nat) (a := make_input inputMode size) (w := w)
    as (i1 & w1 & H1 & _); [|exact I|].
  - intros a w0 _. destruct (Halg a w0) as (a' & w' & H). eauto.
  - rewrite (io_bind_ok _ _ _ _ _ H1). now eexists.
Qed.

(** ** The samples *)

Lemma analyse_size_n iterations inputMode size w d w' :
  analyse_size algorithm iterations inputMode size w = Ok (d, w') -> n d = size.
Proof.
  unfold analyse_size. intros H.
  apply io_bind_inv_ok in H as (calStart & w1 & _ & H).
  apply io_bind_inv_ok in H as (cal & w2 & _ & H).
  apply io_bind_inv_ok in H as (times & w3 & _ & H).
  destruct (mean times); inv H. reflexivity.
Qed.

Lemma analyse_all_sizes iterations inputMode inputSizes :
  forall dataPoints w r w',
    analyse_all algorithm iterations inputMode inputSizes dataPoints w = Ok (r, w') ->
    map n r = map n dataPoints ++ inputSizes.
Proof.
  induction inputSizes as [|size rest IH]; intros dataPoints w r w' H;
    cbn [analyse_all] in H.
  - inv H. now rewrite app_nil_r.
  - apply io_bind_inv_ok in H as (d & w1 & Hd & H).
    apply IH in H. apply analyse_size_n in Hd.
    now rewrite H, map_app, <- app_assoc, <- Hd.
Qed.

Lemma runAnalysis_sizes_length inputSizes iterations inputMode w r w' :
  runAnalysis algorithm inputSizes iterations inputMode w = Ok (r, w') ->
  length r = length inputSizes.
Proof.
  unfold runAnalysis. intros H.
  apply io_bind_inv_ok in H as (u & w1 & _ & H).
  apply analyse_all_sizes in H. cbn [map app] in H.
  now rewrite <- H, length_map.
Qed.

(** The measurement loop adds [k] samples. *)
Lemma measure_length k inputMode size batchSize :
  forall times w r w',
    measure algorithm k inputMode size batchSize times w = Ok (r, w') ->
    length r = (length times + k)%nat.
Proof.
  induction k as [|k IH]; intros times w r w' H; cbn [measure] in H.
  - inv H. lia.
  - apply io_bind_inv_ok in H as (t & w1 & _ & H).
    apply IH in H. rewrite H, length_app. cbn. lia.
Qed.

(** ** Totality: a candidate that returns makes the benchmark return *)

Section Total.
Hypothesis returns : forall i w0, exists i' w1, algorithm i w0 = Ok (i', w1).

Lemma repeat_total k input w :
  exists input' w', io_repeat k algorithm input w = Ok (input', w').
Proof.
  destruct (io_repeat_total (fun _ _ => True) algorithm) with
    (n := k) (a := input) (w := w) as (i1 & w1 & H1 & _); [|exact I|eauto].
  intros a w0 _. destruct (returns a w0) as (a' & w' & H). eauto.
Qed.

Lemma measure_once_total inputMode size batchSize w :
  exists t w', measure_once algorithm inputMode size batchSize w = Ok (t, w').
Proof.
  unfold measure_once, io_bind at 1. unfold now at 1.
  destruct (performance_now w) as [start w1].
  destruct (repeat_total (loop_count batchSize) (make_input inputMode size) w1)
    as (i' & w2 & H).
  rewrite (io_bind_ok _ _ _ _ _ H). unfold io_bind, now.
  destruct (performance_now w2) as [end_ w3]. now eexists _, _.
Qed.

Lemma measure_total k inputMode size batchSize : forall times w,
  exists r w', measure algorithm k inputMode size batchSize times w = Ok (r, w').
Proof.
  induction k as [|k IH]; intros times w; cbn [measure]; [now eexists _, _|].
  destruct (measure_once_total inputMode size batchSize w) as (t & w1 & H).
  rewrite (io_bind_ok _ _ _ _ _ H). apply IH.
Qed.

Lemma analyse_size_total (iterations : Z) inputMode size w :
  (1 <= iterations)%Z ->
  exists d w', analyse_size algorithm (of_Z iterations) inputMode size w = Ok (d, w').
Proof.
  intros Hit. unfold analyse_size, io_bind at 1. unfold now at 1.
  destruct (performance_now w) as [calStart w1].
  destruct (calibrate_total (Z.to_nat CAL_LIMIT) calStart returns calStart 0%Z
              (make_input inputMode size) w1) as (cal & w2 & Hcal).
  rewrite (io_bind_ok _ _ _ _ _ Hcal).
  destruct (measure_total (loop_count (of_Z iterations)) inputMode size
              (batch_size (fst cal - calStart) (snd cal)) [] w2) as (times & w3 & Hm).
  rewrite (io_bind_ok _ _ _ _ _ Hm).
  apply measure_length in Hm. rewrite loop_count_of_Z in Hm.
  destruct (mean times) as [avgTime|e] eqn:Hmean; [now eexists _, _|].
  assert (Hok : is_ok (mean times) = true)
    by (apply mean_ok_iff; destruct times; [cbn in Hm; lia | discriminate]).
  rewrite Hmean in Hok. discriminate Hok.
Qed.

Lemma analyse_all_total (iterations : Z) inputMode inputSizes :
  (1 <= iterations)%Z ->
  forall dataPoints w, exists r w',
    analyse_all algorithm (of_Z iterations) inputMode inputSizes dataPoints w
      = Ok (r, w').
Proof.
  intros Hit. induction inputSizes as [|size rest IH]; intros dataPoints w;
    cbn [analyse_all]; [now eexists _, _|].
  destruct (analyse_size_total iterations inputMode size w Hit) as (d & w1 & H).
  rewrite (io_bind_ok _ _ _ _ _ H). apply IH.
Qed.

Lemma runAnalysis_total inputSizes (iterations : Z) inputMode w :
  (1 <= iterations)%Z ->
  exists r w',
    runAnalysis algorithm inputSizes (of_Z iterations) inputMode w = Ok (r, w').
Proof.
  intros Hit. unfold runAnalysis.
  destruct (warmup_total returns inputSizes inputMode w) as (w1 & H).
  rewrite (io_bind_ok _ _ _ _ _ H). now apply analyse_all_total.
Qed.

End Total.

(** ** Exceptions *)

Lemma warmup_throws size rest inputMode w e :
  algorithm (make_input inputMode size) w = Throw e ->
  warmup algorithm (size :: rest) inputMode w = Throw e.
Proof.
  intros H. unfold warmup. apply io_bind_throw. now apply io_repeat_throw.
Qed.

End BenchmarkFacts.

(** * An ideal clock

    The world is the time; reading the clock is free and a call of the
    candidate on [input] takes [cost input] milliseconds and leaves its
    argument alone.  On this world [runAnalysis] must measure [cost]. *)

Definition ideal_clock : Clock Q := fun t => (t, t).

Definition ideal_algorithm (cost : Input -> Q)
  : Algorithm (W := Q) (E := Empty_set) :=
  fun input t => Ok (input, t + cost input).

Section Ideal.
Variable cost : Input -> Q.
Hypothesis cost_nonneg : forall input, 0 <= cost input.

#[local] Existing Instance ideal_clock.

Lemma ideal_repeat k input t :
  exists t', io_repeat k (ideal_algorithm cost) input t = Ok (input, t')
    /\ t' == t + inject_Z (Z.of_nat k) * cost input.
Proof.
  revert t. induction k as [|k IH]; intros t.
  - exists t. split; [reflexivity|]. cbn. ring.
  - destruct (IH (t + cost input)) as (t' & H & Ht').
    exists t'. split; [exact H|]. rewrite Ht'.
    rewrite Nat2Z.inj_succ, <- Z.add_1_r, inject_Z_plus.
    change (inject_Z 1) with 1. ring.
Qed.

Lemma ideal_calibrate fuel calStart input :
  forall calEnd calCount t, calStart <= calEnd -> calStart <= t ->
  exists r t', calibrate (ideal_algorithm cost) fuel calStart calEnd calCount input t = Ok (r, t')
    /\ calStart <= fst r.
Proof.
  induction fuel as [|fuel IH]; intros calEnd calCount t Hend Ht;
    cbn [calibrate]; destruct (cal_continue calStart calEnd calCount);
    try (now eexists _, _; split; [reflexivity | exact Hend]).
  pose proof (cost_nonneg input).
  apply (IH (t + cost input) (calCount + 1)%Z (t + cost input)); lra.
Qed.

Lemma ideal_measure_once inputMode size (B : Z) t :
  (1 <= B)%Z ->
  exists q t', measure_once (ideal_algorithm cost) inputMode size (of_Z B) t = Ok (Fin q, t')
    /\ q == cost (make_input inputMode size).
Proof.
  intros HB. unfold measure_once.
  destruct (ideal_repeat (loop_count (of_Z B)) (make_input inputMode size) t)
    as (t' & H & Ht').
  assert (HBq : 0 < inject_Z B)
    by (change 0 with (inject_Z 0); rewrite <- Zlt_Qlt; lia).
  exists ((t' - t) / inject_Z B), t'. split.
  - unfold io_bind at 1. unfold now at 1.
    change (performance_now t) with (t, t). cbn iota beta.
    rewrite (io_bind_ok _ _ _ _ _ H). unfold io_bind, now, io_ret.
    change (performance_now t') with (t', t'). cbn iota beta.
    unfold of_Z. rewrite ndiv_Fin by lra. reflexivity.
  - rewrite Ht', loop_count_of_Z, Z2Nat.id by lia. field. lra.
Qed.

Lemma ideal_measure inputMode size (B : Z) k :
  (1 <= B)%Z ->
  forall qs t, Forall (fun q => q == cost (make_input inputMode size)) qs ->
  exists qs' t',
    measure (ideal_algorithm cost) k inputMode size (of_Z B) (map Fin qs) t = Ok (map Fin qs', t')
    /\ Forall (fun q => q == cost (make_input inputMode size)) qs'
    /\ length qs' = (length qs + k)%nat.
Proof.
  intros HB. induction k as [|k IH]; intros qs t Hqs; cbn [measure].
  - exists qs, t. repeat split; [assumption | lia].
  - destruct (ideal_measure_once inputMode size B t HB) as (q & t1 & H & Hq).
    rewrite (io_bind_ok _ _ _ _ _ H).
    change [Fin q] with (map Fin [q]). rewrite <- map_app.
    destruct (IH (qs ++ [q]) t1) as (qs' & t' & H' & Hall & Hlen).
    + apply Forall_app. split; [assumption | now constructor].
    + exists qs', t'. repeat split; try assumption.
      rewrite Hlen, length_app. cbn. lia.
Qed.

Lemma ideal_analyse_size (iterations : Z) inputMode size t :
  (1 <= iterations)%Z ->
  exists q t',
    analyse_size (ideal_algorithm cost) (of_Z iterations) inputMode size t
      = Ok ({| n := size; time := Fin q |}, t')
    /\ q == cost (make_input inputMode size).
Proof.
  intros Hit. unfold analyse_size.
  destruct (ideal_calibrate (Z.to_nat CAL_LIMIT) t (make_input inputMode size)
              t 0%Z t) as (r & t1 & Hcal & Hr); try lra.
  unfold io_bind at 1. unfold now at 1.
  change (performance_now t) with (t, t). cbn iota beta.
  rewrite (io_bind_ok _ _ _ _ _ Hcal).
  destruct (batch_size_pos (fst r - t) (snd r)) as (B & -> & HB); [lra|].
  destruct (ideal_measure inputMode size B (loop_count (of_Z iterations)) HB
              [] t1 (Forall_nil _)) as (qs & t' & Hm & Hall & Hlen).
  change (@nil num) with (map Fin []).
  rewrite (io_bind_ok _ _ _ _ _ Hm).
  assert (Hne : qs <> []).
  { rewrite loop_count_of_Z in Hlen. destruct qs; [cbn in Hlen; lia | congruence]. }
  rewrite (mean_fin qs Hne). eexists _, t'. split; [reflexivity|].
  now apply Qmean_const.
Qed.

Lemma ideal_warmup inputSizes inputMode t :
  exists t', warmup (ideal_algorithm cost) inputSizes inputMode t = Ok (tt, t').
Proof.
  destruct inputSizes as [|size rest]; cbn [warmup]; [now eexists|].
  destruct (ideal_repeat 100 (make_input inputMode size) t) as (t' & H & _).
  rewrite (io_bind_ok _ _ _ _ _ H). now eexists.
Qed.

(** What [runAnalysis] must return on the ideal clock: the sizes in order,
    each with the cost of one call. *)
Definition measures_cost (inputMode : string) (d : DataPoint) (size : Z) : Prop :=
  n d = size /\ exists q, time d = Fin q /\ q == cost (make_input inputMode size).

Lemma ideal_analyse_all (iterations : Z) inputMode inputSizes :
  (1 <= iterations)%Z ->
  forall dataPoints t, exists r t',
    analyse_all (ideal_algorithm cost) (of_Z iterations) inputMode inputSizes
      dataPoints t = Ok (dataPoints ++ r, t')
    /\ Forall2 (measures_cost inputMode) r inputSizes.
Proof.
  intros Hit. induction inputSizes as [|size rest IH]; intros dataPoints t;
    cbn [analyse_all].
  - exists [], t. rewrite app_nil_r. now split.
  - destruct (ideal_analyse_size iterations inputMode size t Hit)
      as (q & t1 & H & Hq).
    rewrite (io_bind_ok _ _ _ _ _ H).
    destruct (IH (dataPoints ++ [{| n := size; time := Fin q |}]) t1)
      as (r & t' & H' & Hall).
    exists ({| n := size; time := Fin q |} :: r), t'. split.
    + now rewrite H', <- app_assoc.
    + constructor; [|assumption]. split; [reflexivity | now exists q].
Qed.

End Ideal.

(** * The properties of the benchmarker *)

Section BenchmarkTheorems.
Context {W E : Type} {clock : Clock W}.
Variable algorithm : Algorithm (W := W) (E := E).

(** C6. When [runAnalysis] returns, it returns one data point per requested
    size, in the order of [inputSizes], each carrying its size. *)
Theorem runAnalysis_sizes inputSizes iterations inputMode w r w' :
  runAnalysis algorithm inputSizes iterations inputMode w = Ok (r, w') ->
  map n r = inputSizes.
Proof.
  unfold runAnalysis. intros H.
  apply io_bind_inv_ok in H as (u & w1 & _ & H).
  now apply analyse_all_sizes in H.
Qed.

(** C5. For a candidate that returns, the calibration loop of [runAnalysis]
    returns; it has then stopped by its own condition (5 ms have passed or
    the count has reached the cap of 1000000), never for lack of fuel, and
    any larger amount of fuel gives the same result. *)
Theorem calibrate_stops calStart input w :
  (forall i w0, exists i' w1, algorithm i w0 = Ok (i', w1)) ->
  exists r w',
    (forall fuel, (Z.to_nat CAL_LIMIT <= fuel)%nat ->
       calibrate algorithm fuel calStart calStart 0 input w = Ok (r, w'))
    /\ cal_continue calStart (fst r) (snd r) = false
    /\ (0 <= snd r <= CAL_LIMIT)%Z.
Proof.
  intros Halg.
  destruct (calibrate_total algorithm (Z.to_nat CAL_LIMIT) calStart Halg
              calStart 0%Z input w) as (r & w' & H).
  exists r, w'. split; [|split].
  - intros fuel Hf. rewrite <- H. apply calibrate_fuel; [|exact Hf].
    rewrite Z2Nat.id; unfold CAL_LIMIT; lia.
  - eapply calibrate_exit; [|exact H]. rewrite Z2Nat.id; unfold CAL_LIMIT; lia.
  - split.
    + eapply calibrate_exit; [|exact H]. rewrite Z2Nat.id; unfold CAL_LIMIT; lia.
    + eapply calibrate_count_le; [|exact H]. unfold CAL_LIMIT. lia.
Qed.

(** C7. If the clock did not run backwards during calibration, the batch
    size is an integer that is at least 1, so every measurement calls the
    candidate at least once and divides by a positive number. *)
Theorem batch_size_ge_1 calStart calEnd calCount :
  calStart <= calEnd ->
  exists z, batch_size (calEnd - calStart) calCount = of_Z z
    /\ (1 <= z)%Z /\ (1 <= loop_count (of_Z z))%nat.
Proof.
  intros H. destruct (batch_size_pos (calEnd - calStart) calCount) as (z & Hz & Hz1);
    [lra|].
  exists z. rewrite loop_count_of_Z. repeat split; [assumption | lia..].
Qed.

(** C8. An exception thrown by the candidate on its first call leaves
    [runAnalysis] as that exception: nothing is caught, no data is returned. *)
Theorem runAnalysis_candidate_throws size rest iterations inputMode w e :
  algorithm (make_input inputMode size) w = Throw e ->
  runAnalysis algorithm (size :: rest) iterations inputMode w = Throw e.
Proof.
  intros H. unfold runAnalysis. apply io_bind_throw. now apply warmup_throws.
Qed.

(** With no size to measure, [runAnalysis] returns the empty list
    without calling the candidate or reading the clock. *)
Theorem runAnalysis_no_sizes iterations inputMode w :
  runAnalysis algorithm [] iterations inputMode w = Ok ([], w).
Proof. reflexivity. Qed.

(** C17. With [iterations = 0] and a candidate that returns, no time is
    sampled and the mean of the empty list throws: [runAnalysis] ends with
    the error of the statistics library. *)
Theorem runAnalysis_zero_iterations size rest inputMode w :
  (forall i w0, exists i' w1, algorithm i w0 = Ok (i', w1)) ->
  exists w',
    runAnalysis algorithm (size :: rest) (of_Z 0) inputMode w
    = Throw (Internal (Error "mean requires at least one data point"), w').
Proof.
  intros Halg. unfold runAnalysis.
  destruct (warmup_total algorithm Halg (size :: rest) inputMode w) as (w1 & H1).
  rewrite (io_bind_ok _ _ _ _ _ H1). cbn [analyse_all].
  destruct (performance_now w1) as [calStart w2] eqn:Hn.
  destruct (calibrate_total algorithm (Z.to_nat CAL_LIMIT) calStart Halg
              calStart 0%Z (make_input inputMode size) w2) as (r & w3 & H).
  exists w3. apply io_bind_throw. unfold analyse_size, io_bind at 1.
  unfold now at 1. rewrite Hn.
  now rewrite (io_bind_ok _ _ _ _ _ H).
Qed.

End BenchmarkTheorems.

(** C4. On the ideal clock, where a call on [input] takes [cost input]
    milliseconds and nothing else takes time, [runAnalysis] returns, and the
    data point of every size carries exactly the cost of one call on the
    input of that size. *)
Theorem runAnalysis_ideal (cost : Input -> Q) inputSizes (iterations : Z)
    inputMode t0 :
  (forall input, 0 <= cost input) -> (1 <= iterations)%Z ->
  exists r t',
    runAnalysis (clock := ideal_clock) (ideal_algorithm cost) inputSizes
      (of_Z iterations) inputMode t0 = Ok (r, t')
    /\ Forall2 (measures_cost cost inputMode) r inputSizes.
Proof.
  intros Hcost Hit. unfold runAnalysis.
  destruct (ideal_warmup cost inputSizes inputMode t0) as (t1 & H1).
  rewrite (io_bind_ok _ _ _ _ _ H1).
  destruct (ideal_analyse_all cost Hcost iterations inputMode inputSizes Hit [] t1)
    as (r & t' & H & Hall).
  now exists r, t'.
Qed.

(** * A clock that does not advance, a clock that is scripted *)

(** A candidate that takes no time at all. *)
Definition instant {W E : Type} : Algorithm (W := W) (E := E) :=
  fun input w => Ok (input, w).

Lemma calibrate_frozen (t : Q) input : forall fuel calCount,
  (calCount + Z.of_nat fuel = CAL_LIMIT)%Z ->
  calibrate (clock := ideal_clock) (E := Empty_set) instant fuel t t calCount input t
  = Ok ((t, CAL_LIMIT), t).
Proof.
  assert (Hd : Qltb (t - t) CAL_MIN_MS = true)
    by (apply Qltb_lt; unfold CAL_MIN_MS; lra).
  induction fuel as [|fuel IH]; intros calCount Hc; cbn [calibrate];
    unfold cal_continue; rewrite Hd; cbn [andb].
  - destruct (Z.ltb_spec calCount CAL_LIMIT); [lia|].
    now replace calCount with CAL_LIMIT by lia.
  - destruct (Z.ltb_spec calCount CAL_LIMIT); [|lia].
    apply (IH (calCount + 1)%Z). lia.
Qed.

(** C38. If the clock never advances, the calibration loop runs to its
    cap of 1000000 calls, and the batch size computed from it is
    15000000000: every measurement then makes that many calls. *)
Theorem frozen_clock_batch (t : Q) input :
  calibrate (clock := ideal_clock) (E := Empty_set) instant
    (Z.to_nat CAL_LIMIT) t t 0 input t = Ok ((t, CAL_LIMIT), t)
  /\ batch_size (t - t) CAL_LIMIT = of_Z 15000000000.
Proof.
  split.
  - apply calibrate_frozen. rewrite Z2Nat.id; unfold CAL_LIMIT; lia.
  - rewrite batch_size_large by (unfold CAL_LIMIT; lia).
    assert (E : Qeq_bool (t - t) 0 = true) by (apply Qeq_bool_iff; ring).
    rewrite E. reflexivity.
Qed.

(** A clock that reads off a list of prepared readings (and 0 after the
    last one). *)
Definition scripted_clock : Clock (list Q) := fun readings =>
  match readings with
  | [] => (0, [])
  | t :: rest => (t, rest)
  end.

(** On a scripted clock the benchmark of one size is reproducible:
    with the readings 0, 2, 6 for the calibration (two calls in 6 ms, hence
    a batch of 5) and 10, 40, 50, 80 for two measurements, the sample is
    6 ms per call and all readings are consumed. *)
Theorem scripted_clock_sample :
  exists d,
    analyse_size (clock := scripted_clock) (E := Empty_set) instant (of_Z 2)
      "array" 1000 [0; 2; 6; 10; 40; 50; 80] = Ok (d, [])
    /\ n d = 1000%Z /\ num_eqb (time d) (of_Z 6) = true.
Proof. eexists. split; [vm_compute; reflexivity|]. split; reflexivity. Qed.

(** * The theorems at concrete inputs *)

(** A candidate that takes 5 ms per call, and one that throws. *)
Definition cost5 : Input -> Q := fun _ => 5.

Definition throwing : Algorithm (W := Q) (E := string) :=
  fun _ t => Throw (Raised "boom"%string, t).

Lemma runAnalysis_ideal_witness :
  exists r t',
    runAnalysis (clock := ideal_clock) (ideal_algorithm cost5) [2; 3]%Z
      (of_Z 1) "array" 0 = Ok (r, t')
    /\ Forall2 (measures_cost cost5 "array") r [2; 3]%Z.
Proof.
  apply (runAnalysis_ideal cost5 [2; 3]%Z 1 "array" 0).
  - intros input. unfold cost5. lra.
  - lia.
Defined.

Lemma calibrate_stops_witness :
  exists r w',
    (forall fuel, (Z.to_nat CAL_LIMIT <= fuel)%nat ->
       calibrate (clock := ideal_clock) (ideal_algorithm cost5) fuel 0 0 0
         (InNumber 1) 0 = Ok (r, w'))
    /\ cal_continue 0 (fst r) (snd r) = false
    /\ (0 <= snd r <= CAL_LIMIT)%Z.
Proof.
  apply (calibrate_stops (clock := ideal_clock) (ideal_algorithm cost5) 0
           (InNumber 1) 0).
  intros i w0. now eexists _, _.
Defined.

Lemma runAnalysis_sizes_witness :
  exists r w',
    runAnalysis (clock := ideal_clock) (ideal_algorithm cost5) [2; 3]%Z
      (of_Z 1) "array" 0 = Ok (r, w')
    /\ map n r = [2; 3]%Z.
Proof.
  eexists _, _. split; [vm_compute; reflexivity|].
  eapply (runAnalysis_sizes (clock := ideal_clock) (ideal_algorithm cost5)
            [2; 3]%Z (of_Z 1) "array" 0).
  vm_compute. reflexivity.
Defined.

Lemma batch_size_ge_1_witness :
  exists z, batch_size (5 - 0) 1000 = of_Z z
    /\ (1 <= z)%Z /\ (1 <= loop_count (of_Z z))%nat.
Proof. apply (batch_size_ge_1 0 5 1000). lra. Defined.

Lemma runAnalysis_candidate_throws_witness :
  runAnalysis (clock := ideal_clock) throwing [2; 3]%Z (of_Z 10) "array" 0
    = Throw (Raised "boom"%string, 0).
Proof.
  apply (runAnalysis_candidate_throws (clock := ideal_clock) throwing).
  reflexivity.
Defined.

Lemma runAnalysis_zero_iterations_witness :
  exists t',
    runAnalysis (clock := ideal_clock) (ideal_algorithm cost5) [2; 3]%Z
      (of_Z 0) "array" 0
    = Throw (Internal (Error "mean requires at least one data point"), t').
Proof.
  apply (runAnalysis_zero_iterations (clock := ideal_clock)
           (ideal_algorithm cost5)).
  intros i w0. now eexists _, _.
Defined.
