(* ===== verification/Facade.v ===== *)
(** * The analysis facade

    [runSingleAnalysis] of src/utils/analysisRunner.js (src/unnamed/part_000,
    lines 61 to 73): the guard on the number of sizes, then the benchmarker,
    then the classifier.  An exception of the classifier leaves the facade
    as it is thrown. *)

From Stdlib Require Import String.
From Stdlib Require Import QArith Lqa Lia ZArith List Bool Permutation.
From S2P Require Import Prelude.
From S2P Require Import Numeric.
From S2P Require Import JsArray.
From S2P Require Import Stats.
From S2P Require Import DataModel.
From S2P Require Import Classifier.
From S2P Require Import Benchmark.
Import ListNotations.

Local Open Scope Q_scope.
Local Open Scope js_scope.

(** The object returned when there are fewer than two sizes. *)
Definition not_enough_data : Complexity :=
  {| bestFit := "N/A"; confidence := of_Z 0; results := [] |}.

Section Facade.
Context {M : MathLib} {W E : Type} {clock : Clock W}.
Variable algorithm : Algorithm (W := W) (E := E).

(** [runSingleAnalysis(algorithm, inputSizes, iterations, inputMode)]. *)
Definition runSingleAnalysis (inputSizes : list Z) (iterations : num)
    (inputMode : string) : io W (exn E) Complexity :=
  if (length inputSizes <? 2)%nat then io_ret not_enough_data
  else
    dataPoints <- runAnalysis algorithm inputSizes iterations inputMode ;;
    match determineComplexity dataPoints with
    | Ok complexity => io_ret complexity
    | Throw err => io_throw (Internal err)
    end.

Lemma runSingleAnalysis_run inputSizes iterations inputMode w dataPoints w' :
  (2 <= length inputSizes)%nat ->
  runAnalysis algorithm inputSizes iterations inputMode w = Ok (dataPoints, w') ->
  runSingleAnalysis inputSizes iterations inputMode w =
  match determineComplexity dataPoints with
  | Ok complexity => Ok (complexity, w')
  | Throw err => Throw (Internal err, w')
  end.
Proof.
  intros Hlen H. unfold runSingleAnalysis.
  destruct (Nat.ltb_spec (length inputSizes) 2); [lia|].
  rewrite (io_bind_ok _ _ _ _ _ H). now destruct (determineComplexity dataPoints).
Qed.

(** For a candidate that returns, the facade returns. *)
Lemma runSingleAnalysis_total inputSizes (iterations : Z) inputMode w :
  (forall i w0, exists i' w1, algorithm i w0 = Ok (i', w1)) ->
  (1 <= iterations)%Z ->
  exists r w',
    runSingleAnalysis inputSizes (of_Z iterations) inputMode w = Ok (r, w').
Proof.
  intros Hret Hit.
  destruct (Nat.ltb_spec (length inputSizes) 2) as [Hlt|Hge].
  - unfold runSingleAnalysis.
    destruct (Nat.ltb_spec (length inputSizes) 2); [now eexists _, _ | lia].
  - destruct (runAnalysis_total algorithm Hret inputSizes iterations inputMode w Hit)
      as (dataPoints & w' & H).
    rewrite (runSingleAnalysis_run _ _ _ _ _ _ Hge H).
    destruct (determineComplexity_returns dataPoints) as (r & -> & _);
      [|now eexists _, _].
    apply runAnalysis_sizes_length in H. destruct dataPoints; [cbn in H; lia | congruence].
Qed.

End Facade.

(** * The properties of the facade *)

Section FacadeTheorems.
Context {M : MathLib} {W E : Type} {clock : Clock W}.
Variable algorithm : Algorithm (W := W) (E := E).

(** C9. With fewer than two sizes the facade returns the fixed object
    [{bestFit: 'N/A', confidence: 0, results: []}]; the candidate is not
    called and the clock is not read, so the world is unchanged. *)
Theorem runSingleAnalysis_degenerate inputSizes iterations inputMode w :
  (length inputSizes < 2)%nat ->
  runSingleAnalysis algorithm inputSizes iterations inputMode w
    = Ok (not_enough_data, w).
Proof.
  intros H. unfold runSingleAnalysis.
  now destruct (Nat.ltb_spec (length inputSizes) 2); [|lia].
Qed.

(** C39. With two sizes or more, whenever the benchmark returns, the facade
    returns the classification of the measured data points: the classifier
    cannot throw on them, and the result lists the five catalog labels. *)
Theorem runSingleAnalysis_returns inputSizes iterations inputMode w dataPoints w' :
  (2 <= length inputSizes)%nat ->
  runAnalysis algorithm inputSizes iterations inputMode w = Ok (dataPoints, w') ->
  exists r,
    runSingleAnalysis algorithm inputSizes iterations inputMode w = Ok (r, w')
    /\ determineComplexity dataPoints = Ok r
    /\ Permutation (map fst (results r)) labels.
Proof.
  intros Hlen H. rewrite (runSingleAnalysis_run _ _ _ _ _ _ _ Hlen H).
  destruct (determineComplexity_returns dataPoints) as (r & -> & Hp).
  - apply runAnalysis_sizes_length in H. destruct dataPoints; [|congruence].
    cbn in H. lia.
  - now exists r.
Qed.

(** An exception of the candidate passes through the facade
    unchanged. *)
Theorem runSingleAnalysis_candidate_throws size size' rest iterations inputMode w e :
  algorithm (make_input inputMode size) w = Throw e ->
  runSingleAnalysis algorithm (size :: size' :: rest) iterations inputMode w
    = Throw e.
Proof.
  intros H. unfold runSingleAnalysis. cbn [length Nat.ltb Nat.leb].
  apply io_bind_throw. unfold runAnalysis. apply io_bind_throw.
  now apply warmup_throws.
Qed.

End FacadeTheorems.

(** * The theorems at concrete inputs *)

Lemma runSingleAnalysis_degenerate_witness :
  runSingleAnalysis (clock := ideal_clock) (ideal_algorithm cost5) [1000%Z]
    (of_Z 10) "array" 0 = Ok (not_enough_data, 0).
Proof.
  apply (runSingleAnalysis_degenerate (clock := ideal_clock)
           (ideal_algorithm cost5)).
  simpl. lia.
Defined.

Lemma runSingleAnalysis_returns_witness :
  exists dataPoints w' r,
    runAnalysis (clock := ideal_clock) (ideal_algorithm cost5) [2; 3]%Z
      (of_Z 1) "array" 0 = Ok (dataPoints, w')
    /\ runSingleAnalysis (clock := ideal_clock) (ideal_algorithm cost5)
         [2; 3]%Z (of_Z 1) "array" 0 = Ok (r, w')
    /\ determineComplexity dataPoints = Ok r
    /\ Permutation (map fst (results r)) labels.
Proof.
  assert (H : exists dataPoints w',
             runAnalysis (clock := ideal_clock) (ideal_algorithm cost5)
               [2; 3]%Z (of_Z 1) "array" 0 = Ok (dataPoints, w'))
    by (eexists _, _; vm_compute; reflexivity).
  destruct H as (dataPoints & w' & H). exists dataPoints, w'.
  destruct (runSingleAnalysis_returns (clock := ideal_clock)
              (ideal_algorithm cost5) [2; 3]%Z (of_Z 1) "array" 0
              dataPoints w') as (r & H1 & H2 & H3);
    [simpl; lia | exact H |].
  exists r. auto.
Defined.

Lemma runSingleAnalysis_candidate_throws_witness :
  runSingleAnalysis (clock := ideal_clock) throwing [2; 3]%Z (of_Z 10)
    "array" 0 = Throw (Raised "boom"%string, 0).
Proof.
  apply (runSingleAnalysis_candidate_throws (clock := ideal_clock) throwing).
  reflexivity.
Defined.
