(* ===== verification/Monotone.v ===== *)
(** * The analysis on a clock that does not run backwards

    [runAnalysis] subtracts readings of [performance.now()] and divides by
    the batch size; the classifier expects times that are finite and not
    negative.  This file states the interface under which the benchmarker
    keeps that promise: a world with a measure of the time that has
    passed ([elapsed]), which a reading of the clock and a call of the
    candidate never decrease.  Under it [runAnalysis] returns valid
    samples of the requested sizes and [runSingleAnalysis] returns their
    classification.  When, besides, a reading of the clock takes a bounded
    time and a call of the candidate takes between two bounds, every
    sample lies between the bounds of a call, up to two readings
    (section [Accuracy]). *)

From Stdlib Require Import String.
From Stdlib Require Import QArith Lqa Lia ZArith List Bool.
From S2P Require Import Prelude.
From S2P Require Import Numeric.
From S2P Require Import JsArray.
From S2P Require Import Stats.
From S2P Require Import DataModel.
From S2P Require Import Classifier.
From S2P Require Import Benchmark.
From S2P Require Import Facade.
Import ListNotations.

Local Open Scope Q_scope.
Local Open Scope js_scope.

(** A clock whose readings lie between the time that had passed before
    the reading and the time that has passed after it. *)
Class Monotone (W : Type) {clock : Clock W} : Type := {
  elapsed : W -> Q;
  reading_after : forall w, elapsed w <= fst (performance_now w);
  reading_before : forall w, fst (performance_now w) <= elapsed (snd (performance_now w))
}.

(** The ideal clock is monotone. *)
#[export] Instance ideal_monotone : Monotone Q (clock := ideal_clock).
Proof. refine {| elapsed := fun t => t |}; intros t; cbn; apply Qle_refl. Defined.

(** A time that is a rational and not negative. *)
Definition nonneg_time (t : num) : Prop := exists q, t = Fin q /\ 0 <= q.

Lemma nonneg_times_fin (times : list num) :
  Forall nonneg_time times ->
  exists qs, times = map Fin qs /\ Forall (fun q => 0 <= q) qs.
Proof.
  induction 1 as [|t times (q & -> & Hq) _ (qs & -> & Hqs)].
  - now exists [].
  - exists (q :: qs). split; [reflexivity | now constructor].
Qed.

Section MonotoneBenchmark.
Context {W E : Type} {clock : Clock W} {mono : Monotone W}.
Variable algorithm : Algorithm (W := W) (E := E).

(** At least [lo] has passed. *)
Definition since (lo : Q) (w : W) : Prop := lo <= elapsed w.

(** The candidate returns, and time does not go back during a call. *)
Hypothesis advances : forall lo input,
  io_spec (since lo) (algorithm input) (fun _ => since lo).

Lemma since_le lo lo' w : lo <= lo' -> since lo' w -> since lo w.
Proof. unfold since. lra. Qed.

Lemma now_spec lo :
  io_spec (E := exn E) (since lo) now (fun t w' => lo <= t /\ since t w').
Proof.
  intros w Hw. unfold now. exists (fst (performance_now w)), (snd (performance_now w)).
  split; [now destruct (performance_now w)|].
  pose proof (reading_after w). pose proof (reading_before w).
  unfold since in *. split; [lra | assumption].
Qed.

Lemma repeat_spec lo k input :
  io_spec (since lo) (io_repeat k algorithm input) (fun _ => since lo).
Proof. apply io_spec_repeat. intros a. apply advances. Qed.

(** One measurement with a positive batch size is a time that is not
    negative. *)
Lemma measure_once_spec lo inputMode size (z : Z) :
  (1 <= z)%Z ->
  io_spec (since lo) (measure_once algorithm inputMode size (of_Z z))
          (fun t w' => nonneg_time t /\ since lo w').
Proof.
  intros Hz w Hw. unfold measure_once.
  destruct (now_spec lo w Hw) as (start & w1 & H1 & Hs & Hw1).
  rewrite (io_bind_ok _ _ _ _ _ H1).
  destruct (repeat_spec start (loop_count (of_Z z)) (make_input inputMode size) w1 Hw1)
    as (i & w2 & H2 & Hw2).
  rewrite (io_bind_ok _ _ _ _ _ H2).
  destruct (now_spec start w2 Hw2) as (end_ & w3 & H3 & He & Hw3).
  rewrite (io_bind_ok _ _ _ _ _ H3). eexists _, w3. split; [reflexivity|].
  assert (Hzq : 0 < inject_Z z) by (change 0 with (inject_Z 0); rewrite <- Zlt_Qlt; lia).
  split; [|apply (since_le lo end_); [lra | exact Hw3]].
  unfold of_Z. rewrite ndiv_Fin by lra. eexists. split; [reflexivity|].
  apply Qdiv_nonneg; lra.
Qed.

Lemma measure_spec lo inputMode size (z : Z) k :
  (1 <= z)%Z -> forall times,
  Forall nonneg_time times ->
  io_spec (since lo) (measure algorithm k inputMode size (of_Z z) times)
          (fun r w' => Forall nonneg_time r /\ length r = (length times + k)%nat
                       /\ since lo w').
Proof.
  intros Hz. induction k as [|k IH]; intros times Ht w Hw; cbn [measure].
  - exists times, w. split; [reflexivity|]. split; [exact Ht|]. split; [lia | exact Hw].
  - destruct (measure_once_spec lo inputMode size z Hz w Hw) as (t & w1 & H1 & Hn & Hw1).
    rewrite (io_bind_ok _ _ _ _ _ H1).
    destruct (IH (times ++ [t])) with (w := w1) as (r & w2 & H2 & Hr & Hlen & Hw2);
      [apply Forall_app; split; [exact Ht | now constructor] | exact Hw1|].
    exists r, w2. split; [exact H2|]. split; [exact Hr|]. split; [|exact Hw2].
    rewrite Hlen, length_app. cbn [length]. lia.
Qed.

(** The calibration never ends before it started. *)
Lemma calibrate_spec fuel calStart : forall calEnd calCount input,
  calStart <= calEnd ->
  io_spec (since calStart) (calibrate algorithm fuel calStart calEnd calCount input)
          (fun r w' => calStart <= fst r /\ since calStart w').
Proof.
  induction fuel as [|fuel IH]; intros calEnd calCount input Hle w Hw;
    cbn [calibrate]; destruct (cal_continue calStart calEnd calCount);
    try (eexists _, w; split; [reflexivity | now split]).
  destruct (advances calStart input w Hw) as (input' & w1 & H1 & Hw1).
  rewrite (io_bind_ok _ _ _ _ _ H1).
  destruct (now_spec calStart w1 Hw1) as (calEnd' & w2 & H2 & He & Hw2).
  rewrite (io_bind_ok _ _ _ _ _ H2).
  exact (IH calEnd' (calCount + 1)%Z input' He w2 (since_le _ _ _ He Hw2)).
Qed.

(** The sample of one size. *)
Lemma analyse_size_spec lo (iterations : Z) inputMode size :
  (1 <= iterations)%Z ->
  io_spec (since lo) (analyse_size algorithm (of_Z iterations) inputMode size)
          (fun d w' => n d = size /\ nonneg_time (time d) /\ since lo w').
Proof.
  intros Hit w Hw. unfold analyse_size.
  destruct (now_spec lo w Hw) as (calStart & w1 & H1 & Hs & Hw1).
  rewrite (io_bind_ok _ _ _ _ _ H1).
  destruct (calibrate_spec (Z.to_nat CAL_LIMIT) calStart calStart 0%Z
              (make_input inputMode size) (Qle_refl _) w1 Hw1)
    as (cal & w2 & H2 & Hcal & Hw2).
  rewrite (io_bind_ok _ _ _ _ _ H2).
  destruct (batch_size_pos (fst cal - calStart) (snd cal)) as (z & -> & Hz); [lra|].
  destruct (measure_spec calStart inputMode size z (loop_count (of_Z iterations)) Hz []
              (Forall_nil _) w2 Hw2) as (times & w3 & H3 & Ht & Hlen & Hw3).
  rewrite (io_bind_ok _ _ _ _ _ H3). rewrite loop_count_of_Z in Hlen.
  destruct (nonneg_times_fin times Ht) as (qs & -> & Hqs).
  rewrite mean_fin by (destruct qs; [cbn in Hlen; lia | discriminate]).
  eexists _, w3. split; [reflexivity|]. cbn [n time].
  split; [reflexivity|]. split; [|apply (since_le lo calStart); assumption].
  eexists. split; [reflexivity | now apply Qmean_nonneg].
Qed.

(** The samples of all sizes, in order. *)
Lemma analyse_all_spec lo (iterations : Z) inputMode inputSizes :
  (1 <= iterations)%Z -> forall dataPoints,
  io_spec (since lo)
          (analyse_all algorithm (of_Z iterations) inputMode inputSizes dataPoints)
          (fun r _ => exists pts, r = dataPoints ++ map dataPoint pts
                        /\ map fst pts = inputSizes
                        /\ Forall (fun p => 0 <= snd p) pts).
Proof.
  intros Hit. induction inputSizes as [|size rest IH]; intros dataPoints w Hw;
    cbn [analyse_all].
  - exists dataPoints, w. split; [reflexivity|]. exists []. now rewrite app_nil_r.
  - destruct (analyse_size_spec lo iterations inputMode size Hit w Hw)
      as ([dn dt] & w1 & H1 & Hn & (q & Hq & Hpos) & Hw1).
    cbn [n time] in Hn, Hq. subst dn dt. rewrite (io_bind_ok _ _ _ _ _ H1).
    destruct (IH (dataPoints ++ [dataPoint (size, q)]) w1 Hw1)
      as (r & w2 & H2 & pts & -> & Hs & Hp).
    exists (dataPoints ++ map dataPoint ((size, q) :: pts)), w2.
    split; [etransitivity; [exact H2 | now rewrite <- app_assoc]|].
    exists ((size, q) :: pts). split; [reflexivity|].
    split; [cbn [map fst]; now rewrite Hs | now constructor].
Qed.

(** [runAnalysis] returns one sample per size, with the size it was asked
    for and a time that is not negative. *)
Lemma runAnalysis_spec inputSizes (iterations : Z) inputMode w :
  (1 <= iterations)%Z ->
  exists pts w',
    runAnalysis algorithm inputSizes (of_Z iterations) inputMode w
    = Ok (map dataPoint pts, w')
    /\ map fst pts = inputSizes /\ Forall (fun p => 0 <= snd p) pts.
Proof.
  intros Hit. unfold runAnalysis.
  assert (Hw : since (elapsed w) w) by apply Qle_refl.
  destruct (warmup_total algorithm) with (inputSizes := inputSizes)
    (inputMode := inputMode) (w := w) as (w1 & H1).
  { intros i w0. destruct (advances (elapsed w0) i w0 (Qle_refl _)) as (i' & w' & H & _).
    now exists i', w'. }
  rewrite (io_bind_ok _ _ _ _ _ H1).
  destruct (analyse_all_spec (elapsed w1) iterations inputMode inputSizes Hit [] w1
              (Qle_refl _)) as (r & w2 & H2 & pts & -> & Hs & Hp).
  now exists pts, w2.
Qed.

(** C11. On a clock that does not run backwards, for a candidate that
    returns, at least one iteration and at least two distinct positive
    sizes, the benchmarker returns valid samples of the requested sizes
    and the facade returns their classification: the precondition of the
    classifier is established by the benchmarker. *)
Theorem analysis_of_valid_sizes inputSizes (iterations : Z) inputMode w :
  (1 <= iterations)%Z -> (2 <= length inputSizes)%nat ->
  Forall (fun size => (0 < size)%Z) inputSizes -> NoDup inputSizes ->
  forall {M : MathLib},
  exists pts r w',
    valid_samples pts /\ map fst pts = inputSizes
    /\ runAnalysis algorithm inputSizes (of_Z iterations) inputMode w
       = Ok (map dataPoint pts, w')
    /\ runSingleAnalysis algorithm inputSizes (of_Z iterations) inputMode w
       = Ok (r, w')
    /\ determineComplexity (map dataPoint pts) = Ok r.
Proof.
  intros Hit Hlen Hpos Hnd M.
  destruct (runAnalysis_spec inputSizes iterations inputMode w Hit)
    as (pts & w' & Hrun & Hs & Hp).
  destruct (determineComplexity_returns (map dataPoint pts)) as (r & Hr & _).
  { destruct pts; [subst inputSizes; cbn in Hlen; lia | discriminate]. }
  exists pts, r, w'. split; [|split; [exact Hs|]; split; [exact Hrun|]; split; [|exact Hr]].
  - rewrite <- Hs in Hlen, Hpos, Hnd. rewrite length_map in Hlen.
    constructor; [exact Hlen | exact Hp | exact (proj1 (Forall_map_iff _ _ _) Hpos) | exact Hnd].
  - now rewrite (runSingleAnalysis_run _ _ _ _ _ _ _ Hlen Hrun), Hr.
Qed.

End MonotoneBenchmark.

(** * How far a sample is from the cost of a call

    The section above says that the times are not negative; this one says
    what they measure.  A call on an input of a size takes between
    [lo size] and [hi size], and a reading of the clock takes at most
    [read_cost].  Then the time of every sample lies between [lo size] and
    [hi size + 2 * read_cost]: batches and the mean never leave the bounds
    of a single call, and the two readings around a batch are all that the
    measurement adds. *)

(** A time between two bounds. *)
Definition time_between (a b : Q) (t : num) : Prop :=
  exists q, t = Fin q /\ a <= q <= b.

Lemma times_between_fin (a b : Q) (times : list num) :
  Forall (time_between a b) times ->
  exists qs, times = map Fin qs /\ Forall (fun q => a <= q <= b) qs.
Proof.
  induction 1 as [|t times (q & -> & Hq) _ (qs & -> & Hqs)].
  - now exists [].
  - exists (q :: qs). split; [reflexivity | now constructor].
Qed.

Section Accuracy.
Context {W E : Type} {clock : Clock W} {mono : Monotone W}.
Variable algorithm : Algorithm (W := W) (E := E).
Variable inputMode : string.

Hypothesis advances : forall lo input,
  io_spec (since lo) (algorithm input) (fun _ => since lo).

(** A reading of the clock takes at most [read_cost]. *)
Variable read_cost : Q.
Hypothesis reading_within :
  forall w, elapsed (snd (performance_now w)) <= elapsed w + read_cost.

(** The inputs of a size, which a call keeps, and the bounds of the cost
    of a call on them. *)
Variable inputs_of : Z -> Input -> Prop.
Variables lo hi : Z -> Q.
Hypothesis generated : forall size, inputs_of size (make_input inputMode size).
Hypothesis cost_between : forall size input e,
  inputs_of size input ->
  io_spec (fun w => elapsed w = e) (algorithm input)
          (fun input' w' =>
             inputs_of size input' /\ e + lo size <= elapsed w' <= e + hi size).

Lemma now_between e :
  io_spec (E := exn E) (fun w => elapsed w = e) now
          (fun t w' => e <= t <= elapsed w' /\ elapsed w' <= e + read_cost).
Proof.
  intros w <-. unfold now. exists (fst (performance_now w)), (snd (performance_now w)).
  split; [now destruct (performance_now w)|].
  pose proof (reading_after w). pose proof (reading_before w).
  pose proof (reading_within w). lra.
Qed.

(** A batch of [k] calls takes between [k] times the least and [k] times
    the greatest cost. *)
Lemma repeat_between size k : forall input e,
  inputs_of size input ->
  io_spec (fun w => elapsed w = e) (io_repeat k algorithm input)
          (fun _ w' => e + inject_Z (Z.of_nat k) * lo size <= elapsed w'
                       /\ elapsed w' <= e + inject_Z (Z.of_nat k) * hi size).
Proof.
  induction k as [|k IH]; intros input e Hin w <-; cbn [io_repeat].
  - exists input, w. split; [reflexivity|]. change (inject_Z (Z.of_nat 0)) with 0. lra.
  - destruct (cost_between size input _ Hin w eq_refl) as (i1 & w1 & H1 & Hin1 & Hc).
    rewrite (io_bind_ok _ _ _ _ _ H1).
    destruct (IH i1 (elapsed w1) Hin1 w1 eq_refl) as (i2 & w2 & H2 & Hr).
    exists i2, w2. split; [exact H2|].
    rewrite Nat2Z.inj_succ, <- Z.add_1_r, inject_Z_plus. change (inject_Z 1) with 1.
    lra.
Qed.

(** One measurement: the time per call is within the bounds of a call, up
    to the two readings of the clock. *)
Lemma measure_once_between size (z : Z) :
  (1 <= z)%Z ->
  io_spec (fun _ => True) (measure_once algorithm inputMode size (of_Z z))
          (fun t _ => time_between (lo size) (hi size + 2 * read_cost) t).
Proof.
  intros Hz w _. unfold measure_once.
  destruct (now_between (elapsed w) w eq_refl) as (start & w1 & H1 & Hs & Hd1).
  rewrite (io_bind_ok _ _ _ _ _ H1).
  destruct (repeat_between size (loop_count (of_Z z)) _ (elapsed w1) (generated size)
              w1 eq_refl) as (i & w2 & H2 & Hlo & Hhi).
  rewrite (io_bind_ok _ _ _ _ _ H2).
  destruct (now_between (elapsed w2) w2 eq_refl) as (end_ & w3 & H3 & He & Hd3).
  rewrite (io_bind_ok _ _ _ _ _ H3). eexists _, w3. split; [reflexivity|].
  rewrite loop_count_of_Z, Z2Nat.id in Hlo, Hhi by lia.
  assert (Hzq : 1 <= inject_Z z) by (change 1 with (inject_Z 1); rewrite <- Zle_Qle; lia).
  unfold of_Z. rewrite ndiv_Fin by lra. eexists. split; [reflexivity|]. split.
  - apply Qle_shift_div_l; [lra | nra].
  - apply Qle_shift_div_r; [lra | nra].
Qed.

Lemma measure_between size (z : Z) k :
  (1 <= z)%Z -> forall times,
  Forall (time_between (lo size) (hi size + 2 * read_cost)) times ->
  io_spec (fun _ => True) (measure algorithm k inputMode size (of_Z z) times)
          (fun r _ => Forall (time_between (lo size) (hi size + 2 * read_cost)) r
                      /\ length r = (length times + k)%nat).
Proof.
  intros Hz. induction k as [|k IH]; intros times Ht w _; cbn [measure].
  - exists times, w. split; [reflexivity|]. split; [exact Ht | lia].
  - destruct (measure_once_between size z Hz w I) as (t & w1 & H1 & Hb).
    rewrite (io_bind_ok _ _ _ _ _ H1).
    destruct (IH (times ++ [t])) with (w := w1) as (r & w2 & H2 & Hr & Hlen);
      [apply Forall_app; split; [exact Ht | now constructor] | exact I|].
    exists r, w2. split; [exact H2|]. split; [exact Hr|].
    rewrite Hlen, length_app. cbn [length]. lia.
Qed.

(** The sample of one size. *)
Lemma analyse_size_between (iterations : Z) size :
  (1 <= iterations)%Z ->
  io_spec (fun _ => True) (analyse_size algorithm (of_Z iterations) inputMode size)
          (fun d _ => n d = size
                      /\ time_between (lo size) (hi size + 2 * read_cost) (time d)).
Proof.
  intros Hit w _. unfold analyse_size.
  destruct (now_spec (E := E) (elapsed w) w (Qle_refl _)) as (calStart & w1 & H1 & _ & Hw1).
  rewrite (io_bind_ok _ _ _ _ _ H1).
  destruct (calibrate_spec algorithm advances (Z.to_nat CAL_LIMIT) calStart calStart 0%Z
              (make_input inputMode size) (Qle_refl _) w1 Hw1)
    as (cal & w2 & H2 & Hcal & _).
  rewrite (io_bind_ok _ _ _ _ _ H2).
  destruct (batch_size_pos (fst cal - calStart) (snd cal)) as (z & -> & Hz); [lra|].
  destruct (measure_between size z (loop_count (of_Z iterations)) Hz [] (Forall_nil _) w2 I)
    as (times & w3 & H3 & Ht & Hlen).
  rewrite (io_bind_ok _ _ _ _ _ H3). rewrite loop_count_of_Z in Hlen.
  destruct (times_between_fin _ _ times Ht) as (qs & -> & Hqs).
  assert (Hne : qs <> []) by (destruct qs; [cbn in Hlen; lia | discriminate]).
  rewrite (mean_fin qs Hne). eexists _, w3. split; [reflexivity|]. cbn [n time].
  split; [reflexivity|]. eexists. split; [reflexivity | now apply Qmean_between].
Qed.

Lemma analyse_all_between (iterations : Z) inputSizes :
  (1 <= iterations)%Z -> forall dataPoints,
  io_spec (fun _ => True)
          (analyse_all algorithm (of_Z iterations) inputMode inputSizes dataPoints)
          (fun r _ => exists ds, r = dataPoints ++ ds
                        /\ Forall2 (fun size d =>
                             n d = size
                             /\ time_between (lo size) (hi size + 2 * read_cost) (time d))
                           inputSizes ds).
Proof.
  intros Hit. induction inputSizes as [|size rest IH]; intros dataPoints w _;
    cbn [analyse_all].
  - exists dataPoints, w. split; [reflexivity|]. exists []. now rewrite app_nil_r.
  - destruct (analyse_size_between iterations size Hit w I) as (d & w1 & H1 & Hd).
    rewrite (io_bind_ok _ _ _ _ _ H1).
    destruct (IH (dataPoints ++ [d]) w1 I) as (r & w2 & H2 & ds & -> & Hds).
    exists (dataPoints ++ d :: ds), w2.
    split; [etransitivity; [exact H2 | now rewrite <- app_assoc]|].
    exists (d :: ds). split; [reflexivity | now constructor].
Qed.

(** C12. On a clock that does not run backwards and whose readings take at
    most [read_cost], if a call on an input of a size takes between
    [lo size] and [hi size], then [runAnalysis] returns one sample per
    size, in order, whose time lies between [lo size] and
    [hi size + 2 * read_cost]: calibration, batches and the mean add no
    error of their own. *)
Theorem samples_between inputSizes (iterations : Z) w :
  (1 <= iterations)%Z ->
  exists r w',
    runAnalysis algorithm inputSizes (of_Z iterations) inputMode w = Ok (r, w')
    /\ Forall2 (fun size d =>
                  n d = size
                  /\ time_between (lo size) (hi size + 2 * read_cost) (time d))
               inputSizes r.
Proof.
  intros Hit. unfold runAnalysis.
  destruct (warmup_total algorithm) with (inputSizes := inputSizes)
    (inputMode := inputMode) (w := w) as (w1 & H1).
  { intros i w0. destruct (advances (elapsed w0) i w0 (Qle_refl _)) as (i' & w' & H & _).
    now exists i', w'. }
  rewrite (io_bind_ok _ _ _ _ _ H1).
  destruct (analyse_all_between iterations inputSizes Hit [] w1 I)
    as (r & w2 & H2 & ds & -> & Hds).
  now exists ds, w2.
Qed.

End Accuracy.

#[local] Existing Instance ideal_clock.

(** On the ideal clock a candidate with a cost that is not negative
    advances. *)
Lemma ideal_advances (cost : Input -> Q) :
  (forall input, 0 <= cost input) ->
  forall lo input,
    io_spec (since lo) (ideal_algorithm cost input) (fun _ => since lo).
Proof.
  intros Hcost lo input t Ht. exists input, (t + cost input). split; [reflexivity|].
  unfold since in *. cbn [elapsed ideal_monotone] in *. specialize (Hcost input). lra.
Qed.

(** * The theorem at a concrete input *)

Lemma analysis_of_valid_sizes_witness :
  exists pts r w',
    valid_samples pts /\ map fst pts = [10; 20; 40]%Z
    /\ runAnalysis (clock := ideal_clock) (ideal_algorithm (fun _ => 1))
         [10; 20; 40]%Z (of_Z 10) "array" 0 = Ok (map dataPoint pts, w')
    /\ runSingleAnalysis (clock := ideal_clock) (ideal_algorithm (fun _ => 1))
         [10; 20; 40]%Z (of_Z 10) "array" 0 = Ok (r, w')
    /\ determineComplexity (map dataPoint pts) = Ok r.
Proof.
  assert (Hcost : forall input : Input, 0 <= (fun _ : Input => 1) input)
    by (intros input; cbv beta; lra).
  apply (analysis_of_valid_sizes (ideal_algorithm (fun _ => 1))
           (ideal_advances (fun _ => 1) Hcost)
           [10; 20; 40]%Z 10 "array" 0);
    [lia | cbn; lia | repeat (apply Forall_cons; [lia|]); apply Forall_nil |].
  repeat (apply NoDup_cons; [cbn; intuition lia|]). apply NoDup_nil.
Defined.

(** A clock whose readings take a microsecond, and a candidate that takes
    a millisecond for each element of its array. *)
Definition slow_clock : Clock Q := fun t => (t, t + (1 # 1000)).

#[local] Instance slow_monotone : Monotone Q (clock := slow_clock).
Proof. refine {| elapsed := fun t => t |}; intros t; cbn; lra. Defined.

Definition length_cost (input : Input) : Q :=
  match input with
  | InArray a => inject_Z (Z.of_nat (length a))
  | InNumber _ => 1
  end.

Lemma length_cost_nonneg input : 0 <= length_cost input.
Proof.
  destruct input as [a|k]; cbn [length_cost]; [|lra].
  change 0 with (inject_Z 0). rewrite <- Zle_Qle. lia.
Qed.

Lemma samples_between_witness :
  exists r w',
    runAnalysis (clock := slow_clock) (ideal_algorithm length_cost)
      [10; 20; 40]%Z (of_Z 10) "array" 0 = Ok (r, w')
    /\ Forall2 (fun size d =>
                  n d = size
                  /\ time_between (length_cost (make_input "array" size))
                       (length_cost (make_input "array" size) + 2 * (1 # 1000)) (time d))
               [10; 20; 40]%Z r.
Proof.
  apply (samples_between (clock := slow_clock) (mono := slow_monotone)
           (ideal_algorithm length_cost) "array")
    with (inputs_of := fun size input => input = make_input "array" size); [| | | |lia].
  - intros lo input t Ht. exists input, (t + length_cost input).
    split; [reflexivity|]. pose proof (length_cost_nonneg input).
    unfold since in *. cbn [elapsed slow_monotone] in *. lra.
  - intros t. cbn. lra.
  - reflexivity.
  - intros size input e -> t <-. eexists _, _. split; [reflexivity|].
    cbn [elapsed slow_monotone]. split; [reflexivity | lra].
Defined.
