(* ===== verification/Algorithms.v ===== *)
(** * The sample candidates

    The four functions of src/src/test_algorithms.js.  Each model returns
    the value the function returns together with the number of times the
    body of its innermost loop ran (one for [constantTime], which has no
    loop); that count is the cost the benchmarker is meant to recover.
    Arrays hold integers, as the arrays of [generateInputArray] do. *)

From Stdlib Require Import String.
From Stdlib Require Import QArith Lqa Lia ZArith List Bool Sorted.
From S2P Require Import Prelude.
From S2P Require Import Numeric.
From S2P Require Import JsArray.
From S2P Require Import Stats.
From S2P Require Import DataModel.
From S2P Require Import Benchmark.
Import ListNotations.

Local Open Scope Z_scope.

(** [arr[i]] for an index that is an integer: [undefined] out of range. *)
Definition at_index (arr : list Z) (i : Z) : option Z :=
  if i <? 0 then None else nth_error arr (Z.to_nat i).

(** [constantTime(arr)]: [arr[0]]. *)
Definition constantTime (arr : list Z) : option Z * nat :=
  (at_index arr 0, 1%nat).

(** [linearTime(arr)]: the sum of the elements. *)
Definition linearTime (arr : list Z) : Z * nat :=
  fold_left (fun st x => (fst st + x, S (snd st))) arr (0, O).

(** [logarithmicTime(arr, target)]: the [while] loop of the binary search,
    from the state [(low, high)]; [None] when the fuel runs out. *)
Fixpoint search_loop (fuel : nat) (arr : list Z) (target low high : Z)
    (steps : nat) : option (Z * nat) :=
  if low <=? high then
    match fuel with
    | O => None
    | S fuel' =>
        let mid := (low + high) / 2 in
        match at_index arr mid with
        | Some v =>
            if v =? target then Some (mid, S steps)
            else if v <? target then
              search_loop fuel' arr target (mid + 1) high (S steps)
            else search_loop fuel' arr target low (mid - 1) (S steps)
        | None => search_loop fuel' arr target low (mid - 1) (S steps)
        end
    end
  else Some (-1, steps).

Definition logarithmicTime (arr : list Z) (target : Z) : option (Z * nat) :=
  search_loop (length arr) arr target 0 (Z.of_nat (length arr) - 1) O.

(** [quadraticTime(arr)]: the two nested loops over the indices. *)
Definition quadraticTime (arr : list Z) : Z * nat :=
  fold_left
    (fun st _ => fold_left (fun st' _ => (fst st' + 1, S (snd st'))) arr st)
    arr (0, O).

(** What a candidate sees when it is given a number where it expects an
    array: [arr.length] and [arr[0]] are [undefined], so the loops do not
    run, as on the empty array. *)
Definition as_array (input : Input) : list Z :=
  match input with
  | InArray a => a
  | InNumber _ => []
  end.

(** The export list of the module, in the order of [module.exports]. *)
Definition algorithm_names : list string :=
  ["constantTime"; "linearTime"; "quadraticTime"; "logarithmicTime"]%string.

(** ** Sums and counts *)

Lemma linearTime_acc arr : forall sum steps,
  fold_left (fun st x => (fst st + x, S (snd st))) arr (sum, steps)
  = (sum + fold_right Z.add 0 arr, (steps + length arr)%nat).
Proof.
  induction arr as [|x arr IH]; intros sum steps; cbn [fold_left fold_right length fst snd].
  - f_equal; lia.
  - rewrite IH. f_equal; lia.
Qed.

Lemma count_acc {A} (arr : list A) : forall count steps,
  fold_left (fun st' _ => (fst st' + 1, S (snd st'))) arr (count, steps)
  = (count + Z.of_nat (length arr), (steps + length arr)%nat).
Proof.
  induction arr as [|x arr IH]; intros count steps; cbn [fold_left length fst snd].
  - f_equal; lia.
  - rewrite IH. f_equal; lia.
Qed.

Lemma quadratic_acc {A} (inner : list A) (outer : list A) : forall count steps,
  fold_left
    (fun st _ => fold_left (fun st' _ => (fst st' + 1, S (snd st'))) inner st)
    outer (count, steps)
  = (count + Z.of_nat (length outer * length inner),
     (steps + length outer * length inner)%nat).
Proof.
  induction outer as [|x outer IH]; intros count steps; cbn [fold_left length].
  - f_equal; lia.
  - rewrite count_acc, IH. f_equal; lia.
Qed.

(** ** The binary search *)

Lemma mid_bounds low high : low <= high -> low <= (low + high) / 2 <= high.
Proof. intros H. split; [apply Z.div_le_lower_bound | apply Z.div_le_upper_bound]; lia. Qed.

(** The loop returns when the fuel covers the interval. *)
Lemma search_loop_enough fuel arr target : forall low high steps,
  high - low + 1 <= Z.of_nat fuel ->
  exists r, search_loop fuel arr target low high steps = Some r.
Proof.
  induction fuel as [|fuel IH]; intros low high steps Hf; cbn [search_loop];
    destruct (Z.leb_spec low high) as [Hle|Hgt]; try (now eexists); try lia.
  pose proof (mid_bounds low high Hle).
  destruct (at_index arr ((low + high) / 2)) as [v|]; [|apply IH; lia].
  destruct (v =? target); [now eexists|].
  destruct (v <? target); apply IH; lia.
Qed.

Lemma log2_half a : 2 <= a -> Z.log2 (a / 2) = Z.log2 a - 1.
Proof.
  intros H. pose proof (Z.div_mod a 2 ltac:(lia)) as E.
  pose proof (Z.mod_pos_bound a 2 ltac:(lia)) as B.
  assert (Hq : 0 < a / 2) by (apply Z.div_str_pos; lia).
  assert (C : a mod 2 = 0 \/ a mod 2 = 1) by lia.
  destruct C as [C|C]; rewrite C in E; rewrite E at 2.
  - rewrite Z.add_0_r, Z.log2_double by assumption. lia.
  - rewrite Z.log2_succ_double by assumption. lia.
Qed.

(** The number of iterations the loop can take on an interval of [m]
    indices. *)
Definition search_bound (m : Z) : Z := if m <=? 0 then 0 else Z.log2 m + 1.

Lemma search_bound_nonneg m : 0 <= search_bound m.
Proof.
  unfold search_bound. destruct (m <=? 0); [lia|].
  pose proof (Z.log2_nonneg m). lia.
Qed.

Lemma search_bound_step m m' :
  1 <= m -> m' <= m / 2 -> 1 + search_bound m' <= search_bound m.
Proof.
  intros Hm Hm'. unfold search_bound.
  destruct (Z.leb_spec m 0); [lia|].
  destruct (Z.leb_spec m' 0); [pose proof (Z.log2_nonneg m); lia|].
  assert (2 <= m)
    by (destruct (Z.le_gt_cases 2 m); [assumption|];
        assert (m = 1) as -> by lia; cbn in Hm'; lia).
  pose proof (Z.log2_le_mono m' (m / 2) Hm') as Hmono.
  rewrite log2_half in Hmono by assumption. lia.
Qed.

(** Every run of the loop takes at most [search_bound] iterations. *)
Lemma search_loop_steps fuel arr target : forall low high steps r steps',
  search_loop fuel arr target low high steps = Some (r, steps') ->
  Z.of_nat steps' <= Z.of_nat steps + search_bound (high - low + 1).
Proof.
  induction fuel as [|fuel IH]; intros low high steps r steps' H;
    cbn [search_loop] in H;
    destruct (Z.leb_spec low high) as [Hle|Hgt]; try discriminate;
    try (inv H; pose proof (search_bound_nonneg (high - low + 1)); lia).
  pose proof (mid_bounds low high Hle) as Hmid.
  assert (Hl : (low + high) / 2 - 1 - low + 1 <= (high - low + 1) / 2)
    by (apply Z.div_le_lower_bound; [lia|];
        pose proof (Z.mul_div_le (low + high) 2); lia).
  assert (Hr : high - ((low + high) / 2 + 1) + 1 <= (high - low + 1) / 2)
    by (apply Z.div_le_lower_bound; [lia|];
        pose proof (Z.mul_succ_div_gt (low + high) 2); lia).
  pose proof (search_bound_step (high - low + 1) _ ltac:(lia) Hl) as Bl.
  pose proof (search_bound_step (high - low + 1) _ ltac:(lia) Hr) as Br.
  destruct (at_index arr ((low + high) / 2)) as [v|].
  - destruct (v =? target).
    + inv H. pose proof (search_bound_nonneg ((low + high) / 2 - 1 - low + 1)). lia.
    + destruct (v <? target); apply IH in H; lia.
  - apply IH in H. lia.
Qed.

(** What the loop returns is [-1] or an index that holds the target. *)
Lemma search_loop_sound fuel arr target : forall low high steps r steps',
  search_loop fuel arr target low high steps = Some (r, steps') ->
  r = -1 \/ at_index arr r = Some target.
Proof.
  induction fuel as [|fuel IH]; intros low high steps r steps' H;
    cbn [search_loop] in H;
    destruct (low <=? high); try discriminate; try (inv H; now left).
  destruct (at_index arr ((low + high) / 2)) as [v|] eqn:Hv; [|eauto].
  destruct (Z.eqb_spec v target) as [->|_]; [inv H; now right|].
  destruct (v <? target); eauto.
Qed.

Lemma at_index_Some arr i v :
  at_index arr i = Some v <-> 0 <= i /\ nth_error arr (Z.to_nat i) = Some v.
Proof.
  unfold at_index. destruct (Z.ltb_spec i 0); split.
  - discriminate.
  - intros [Hi _]. lia.
  - intros Hi. split; [lia | assumption].
  - tauto.
Qed.

Lemma at_index_range arr i v :
  at_index arr i = Some v -> 0 <= i < Z.of_nat (length arr).
Proof.
  intros H. apply at_index_Some in H as [H0 H].
  assert (nth_error arr (Z.to_nat i) <> None) as Hn by congruence.
  apply nth_error_Some in Hn. lia.
Qed.

Lemma at_index_In arr i v : at_index arr i = Some v -> In v arr.
Proof. intros H. apply at_index_Some in H as [_ H]. eapply nth_error_In, H. Qed.

Lemma at_index_in_range arr i :
  0 <= i < Z.of_nat (length arr) -> exists v, at_index arr i = Some v.
Proof.
  intros H. destruct (nth_error arr (Z.to_nat i)) as [v|] eqn:E.
  - exists v. apply at_index_Some. split; [lia | assumption].
  - apply nth_error_None in E. lia.
Qed.

Lemma In_at_index arr v : In v arr -> exists i, at_index arr i = Some v.
Proof.
  intros H. apply In_nth_error in H as [k H]. exists (Z.of_nat k).
  apply at_index_Some. split; [lia | now rewrite Nat2Z.id].
Qed.

(** In a sorted array the values follow the indices. *)
Lemma sorted_nth_error arr :
  StronglySorted Z.le arr ->
  forall i j a b, (i <= j)%nat ->
    nth_error arr i = Some a -> nth_error arr j = Some b -> a <= b.
Proof.
  induction 1 as [|x arr Hs IH Hx]; intros i j a b Hij Ha Hb.
  - destruct i; discriminate.
  - destruct i as [|i], j as [|j]; cbn in Ha, Hb; try lia.
    + inv Ha. inv Hb. lia.
    + inv Ha. apply nth_error_In in Hb.
      now apply (proj1 (Forall_forall _ _) Hx).
    + apply (IH i j); [lia | assumption..].
Qed.

Lemma sorted_at_index arr i j a b :
  StronglySorted Z.le arr -> i <= j ->
  at_index arr i = Some a -> at_index arr j = Some b -> a <= b.
Proof.
  intros Hs Hij Ha Hb.
  apply at_index_Some in Ha as [Hi Ha]. apply at_index_Some in Hb as [Hj Hb].
  apply (sorted_nth_error arr Hs (Z.to_nat i) (Z.to_nat j)); [lia | assumption..].
Qed.

(** On a sorted array, if every index that holds the target is inside the
    interval, the loop returns [-1] only when no index holds it. *)
Lemma search_loop_complete fuel arr target :
  StronglySorted Z.le arr ->
  forall low high steps steps',
    0 <= low ->
    (forall i, at_index arr i = Some target -> low <= i <= high) ->
    search_loop fuel arr target low high steps = Some (-1, steps') ->
    ~ In target arr.
Proof.
  intros Hs. induction fuel as [|fuel IH]; intros low high steps steps' H0 Hinv H;
    cbn [search_loop] in H;
    destruct (Z.leb_spec low high) as [Hle|Hgt]; try discriminate;
    try (intros Hin; apply In_at_index in Hin as [i Hi]; apply Hinv in Hi; lia).
  pose proof (mid_bounds low high Hle) as Hmid.
  destruct (at_index arr ((low + high) / 2)) as [v|] eqn:Hv.
  - destruct (Z.eqb_spec v target) as [->|Hne]; [inv H; lia|].
    destruct (Z.ltb_spec v target) as [Hlt|Hge];
      (eapply IH; [| |exact H]; [lia|]); intros i Hi;
      pose proof (Hinv i Hi);
      destruct (Z.le_gt_cases i ((low + high) / 2)) as [C|C];
      try lia.
    + pose proof (sorted_at_index arr _ _ _ _ Hs C Hi Hv). lia.
    + assert (i = (low + high) / 2 \/ i <= (low + high) / 2 - 1) as [->|] by lia;
        [congruence | lia].
    + assert (C' : (low + high) / 2 <= i) by lia.
      pose proof (sorted_at_index arr _ _ _ _ Hs C' Hv Hi). lia.
  - eapply IH; [| |exact H]; [lia|]. intros i Hi. pose proof (Hinv i Hi).
    pose proof (at_index_range _ _ _ Hi).
    destruct (Z.le_gt_cases (Z.of_nat (length arr)) ((low + high) / 2)); [lia|].
    destruct (at_index_in_range arr ((low + high) / 2)) as [v Ev]; [lia|congruence].
Qed.

(** When every element is above the target the loop always goes left, and
    the count of its iterations is exact. *)
Lemma search_loop_all_above fuel arr target :
  Forall (fun v => target < v) arr ->
  forall high steps,
    -1 <= high < Z.of_nat (length arr) -> high + 1 <= Z.of_nat fuel ->
    exists steps',
      search_loop fuel arr target 0 high steps = Some (-1, steps')
      /\ Z.of_nat steps' = Z.of_nat steps + Z.log2 (high + 2).
Proof.
  intros Hall. induction fuel as [|fuel IH]; intros high steps Hh Hf;
    cbn [search_loop]; destruct (Z.leb_spec 0 high) as [Hle|Hgt]; try lia;
    try (exists steps; split; [reflexivity|];
         replace high with (-1) by lia; cbn; lia).
  pose proof (mid_bounds 0 high Hle) as Hmid. cbn [Z.add] in *.
  destruct (at_index_in_range arr (high / 2)) as [v Hv]; [lia|].
  rewrite Hv. pose proof (proj1 (Forall_forall _ _) Hall v (at_index_In _ _ _ Hv)) as Hlt.
  cbv beta in Hlt.
  destruct (Z.eqb_spec v target); [lia|]. destruct (Z.ltb_spec v target); [lia|].
  destruct (IH (high / 2 - 1) (S steps)) as (steps' & -> & E); [lia..|].
  exists steps'. split; [reflexivity|]. rewrite E.
  replace (high / 2 - 1 + 2) with ((high + 2) / 2)
    by (replace (high + 2) with (high + 1 * 2) by lia; rewrite Z.div_add; lia).
  rewrite log2_half by lia. lia.
Qed.

(** * The candidates and their growth *)

(** The four exported functions, as the harnesses call them: the search is
    called with the target [-1], which no generated array holds. *)
Inductive sample : Type :=
| ConstantTime
| LinearTime
| QuadraticTime
| LogarithmicTime.

(** The iterations a call makes. *)
Definition steps (a : sample) (arr : list Z) : nat :=
  match a with
  | ConstantTime => snd (constantTime arr)
  | LinearTime => snd (linearTime arr)
  | QuadraticTime => snd (quadraticTime arr)
  | LogarithmicTime =>
      match logarithmicTime arr (-1) with
      | Some (_, s) => s
      | None => O
      end
  end.

(** The growth each function is named after. *)
Definition growth (a : sample) (size : Z) : Z :=
  match a with
  | ConstantTime => 1
  | LinearTime => size
  | QuadraticTime => size * size
  | LogarithmicTime => Z.log2 (size + 1)
  end.

(** A call on the ideal clock: [unit] milliseconds per iteration. *)
Definition cost_of (a : sample) (unit : Q) (input : Input) : Q :=
  (unit * inject_Z (Z.of_nat (steps a (as_array input))))%Q.

Lemma generateInputArray_nonneg size :
  Forall (fun v => -1 < v) (generateInputArray size).
Proof.
  unfold generateInputArray, array_from. apply Forall_forall.
  intros v Hv. apply in_map_iff in Hv as (k & <- & _). lia.
Qed.

Lemma generateInputArray_sorted size :
  StronglySorted Z.le (generateInputArray size).
Proof.
  unfold generateInputArray, array_from. generalize (Z.to_nat size) as k.
  intros k. generalize O as start. induction k as [|k IH]; intros start; cbn.
  - constructor.
  - constructor; [apply IH|]. apply Forall_forall.
    intros v Hv. apply in_map_iff in Hv as (j & <- & Hj).
    apply in_seq in Hj. lia.
Qed.

Section Theorems.

(** [linearTime] returns the sum of the array after one iteration per
    element. *)
Theorem linearTime_spec arr :
  linearTime arr = (fold_right Z.add 0 arr, length arr).
Proof. unfold linearTime. now rewrite linearTime_acc. Qed.

(** [quadraticTime] returns the square of the length, after that many
    iterations of its inner loop. *)
Theorem quadraticTime_spec arr :
  quadraticTime arr
  = (Z.of_nat (length arr * length arr), (length arr * length arr)%nat).
Proof. unfold quadraticTime. now rewrite quadratic_acc. Qed.

(** C19. On a sorted array the binary search returns (the fuel of its
    model is enough), after at most [floor(log2 n) + 1] iterations, and it
    returns either [-1] when the target is not in the array or an index that
    holds the target. *)
Theorem logarithmicTime_correct arr target :
  StronglySorted Z.le arr ->
  exists r s,
    logarithmicTime arr target = Some (r, s)
    /\ Z.of_nat s <= search_bound (Z.of_nat (length arr))
    /\ ((r = -1 /\ ~ In target arr) \/ at_index arr r = Some target).
Proof.
  intros Hs. unfold logarithmicTime.
  destruct (search_loop_enough (length arr) arr target 0
              (Z.of_nat (length arr) - 1) O) as ([r s] & H); [lia|].
  exists r, s. split; [exact H|]. split.
  - apply search_loop_steps in H.
    now replace (Z.of_nat (length arr) - 1 - 0 + 1) with (Z.of_nat (length arr)) in H by lia.
  - destruct (search_loop_sound _ _ _ _ _ _ _ _ H) as [->|Hr]; [left|now right].
    split; [reflexivity|].
    eapply search_loop_complete; [exact Hs| | |exact H]; [lia|].
    intros i Hi. apply at_index_range in Hi. lia.
Qed.

(** C20. When no element is as small as the target, the search on an array
    of [n] elements returns [-1] after exactly [floor(log2 (n + 1))]
    iterations: the worst case the harnesses measure. *)
Theorem logarithmicTime_worst_case arr target :
  Forall (fun v => target < v) arr ->
  exists s, logarithmicTime arr target = Some (-1, s)
    /\ Z.of_nat s = Z.log2 (Z.of_nat (length arr) + 1).
Proof.
  intros Hall. unfold logarithmicTime.
  destruct (search_loop_all_above (length arr) arr target Hall
              (Z.of_nat (length arr) - 1) O) as (s & H & E); [lia..|].
  exists s. split; [exact H|]. rewrite E.
  replace (Z.of_nat (length arr) - 1 + 2) with (Z.of_nat (length arr) + 1) by lia.
  reflexivity.
Qed.

End Theorems.

(** The iterations of each candidate on the generated array of a size. *)
Lemma steps_growth a size :
  0 <= size -> Z.of_nat (steps a (generateInputArray size)) = growth a size.
Proof.
  intros Hsize. pose proof (generateInputArray_length size) as Hlen.
  destruct a; cbn [steps growth].
  - reflexivity.
  - unfold linearTime. rewrite linearTime_acc. cbn [snd]. lia.
  - unfold quadraticTime. rewrite quadratic_acc. cbn [snd]. nia.
  - unfold logarithmicTime.
    destruct (search_loop_all_above (length (generateInputArray size))
                (generateInputArray size) (-1) (generateInputArray_nonneg size)
                (Z.of_nat (length (generateInputArray size)) - 1) O)
      as (s & -> & E); [lia..|].
    rewrite E, Hlen.
    replace (Z.of_nat (Z.to_nat size) - 1 + 2) with (size + 1) by lia.
    reflexivity.
Qed.

(** What the benchmarker must report for a candidate on the ideal clock. *)
Definition measures_growth (a : sample) (unit : Q) (d : DataPoint) (size : Z)
  : Prop :=
  n d = size
  /\ exists q, time d = Fin q /\ (q == unit * inject_Z (growth a size))%Q.

Lemma measures_cost_growth a unit d size :
  measures_cost (cost_of a unit) "array" d size -> 0 <= size ->
  measures_growth a unit d size.
Proof.
  intros [Hn (q & Ht & Hq)] Hsize. split; [exact Hn|].
  exists q. split; [exact Ht|]. rewrite Hq. unfold cost_of.
  change (make_input "array" size) with (InArray (generateInputArray size)).
  cbn [as_array]. now rewrite steps_growth.
Qed.

(** On the ideal clock, with [unit] milliseconds per iteration, the
    benchmarker returns for each of the four sample candidates and each
    size exactly [unit] times the growth the candidate is named after:
    1, n, n * n and floor(log2 (n + 1)). *)
Theorem runAnalysis_growth a unit inputSizes iterations t0 :
  (0 <= unit)%Q -> 1 <= iterations -> Forall (fun size => 0 <= size) inputSizes ->
  exists r t',
    runAnalysis (clock := ideal_clock) (ideal_algorithm (cost_of a unit))
      inputSizes (of_Z iterations) "array" t0 = Ok (r, t')
    /\ Forall2 (measures_growth a unit) r inputSizes.
Proof.
  intros Hunit Hit Hsizes.
  assert (Hcost : forall input, (0 <= cost_of a unit input)%Q).
  { intros input. unfold cost_of. apply Qmult_le_0_compat; [assumption|].
    change 0%Q with (inject_Z 0). rewrite <- Zle_Qle. lia. }
  unfold runAnalysis.
  destruct (ideal_warmup (cost_of a unit) inputSizes "array" t0) as (t1 & H1).
  rewrite (io_bind_ok _ _ _ _ _ H1).
  destruct (ideal_analyse_all _ Hcost iterations "array" inputSizes Hit [] t1)
    as (r & t' & H & Hall).
  exists r, t'. split; [exact H|].
  eapply Forall2_impl_r; [|exact Hall|exact Hsizes].
  intros d size. apply measures_cost_growth.
Qed.

(** * The theorems at concrete inputs *)

Lemma logarithmicTime_correct_witness :
  exists r s,
    logarithmicTime [1; 3; 5; 7] 5 = Some (r, s)
    /\ Z.of_nat s <= search_bound (Z.of_nat (length [1; 3; 5; 7]))
    /\ ((r = -1 /\ ~ In 5 [1; 3; 5; 7]) \/ at_index [1; 3; 5; 7] r = Some 5).
Proof.
  apply (logarithmicTime_correct [1; 3; 5; 7] 5).
  repeat (apply SSorted_cons; [|repeat (apply Forall_cons; [lia|]); apply Forall_nil]).
  apply SSorted_nil.
Defined.

Lemma logarithmicTime_worst_case_witness :
  exists s, logarithmicTime [0; 1; 2; 3; 4; 5; 6] (-1) = Some (-1, s)
    /\ Z.of_nat s = Z.log2 (Z.of_nat (length [0; 1; 2; 3; 4; 5; 6]) + 1).
Proof.
  apply (logarithmicTime_worst_case [0; 1; 2; 3; 4; 5; 6] (-1)).
  repeat (apply Forall_cons; [lia|]). apply Forall_nil.
Defined.

Lemma runAnalysis_growth_witness :
  exists r t',
    runAnalysis (clock := ideal_clock)
      (ideal_algorithm (cost_of QuadraticTime (1 # 1000)))
      [100; 200; 500] (of_Z 10) "array" 0%Q = Ok (r, t')
    /\ Forall2 (measures_growth QuadraticTime (1 # 1000)) r [100; 200; 500].
Proof.
  apply (runAnalysis_growth QuadraticTime (1 # 1000) [100; 200; 500] 10 0%Q).
  - lra.
  - lia.
  - repeat (apply Forall_cons; [lia|]). apply Forall_nil.
Defined.
