(* ===== verification/Pipeline.v ===== *)
(** * The whole analysis on the ideal clock

    [runSingleAnalysis] composes the benchmarker and the classifier.  On
    the ideal clock the benchmarker returns the cost of one call
    ([Algorithms.runAnalysis_growth]); for the sample candidates whose
    growth is one of the regression models, the classifier then sees
    samples that lie exactly on that model.  This file states what the
    composition returns. *)

From Stdlib Require Import String.
From Stdlib Require Import QArith Lqa Lia ZArith List Bool.
From S2P Require Import Prelude.
From S2P Require Import Numeric.
From S2P Require Import JsArray.
From S2P Require Import Stats.
From S2P Require Import DataModel.
From S2P Require Import Classifier.
From S2P Require Import Benchmark.
From S2P Require Import Facade.
From S2P Require Import Algorithms.
Import ListNotations.

Local Open Scope Q_scope.
Local Open Scope js_scope.

Section Pipeline.
Context {M : MathLib} {L : MathLibLaws M}.

(** The regression model a sample candidate lies on: its label and its
    covariate.  [constantTime] lies on the constant model, which is not a
    regression, and the iterations of [logarithmicTime] are a step
    function. *)
Definition model_of (a : sample) : option (string * (Z -> Q)) :=
  match a with
  | LinearTime => Some (O_n, q_linear)
  | QuadraticTime => Some (O_n2, q_quadratic)
  | ConstantTime | LogarithmicTime => None
  end.

(** The samples the benchmarker is meant to return: [unit] milliseconds
    per iteration. *)
Definition ideal_samples (a : sample) (unit : Q) (inputSizes : list Z)
  : list (Z * Q) :=
  map (fun size => (size, unit * inject_Z (growth a size))) inputSizes.

Lemma ideal_samples_sizes a unit inputSizes :
  map fst (ideal_samples a unit inputSizes) = inputSizes.
Proof. unfold ideal_samples. rewrite map_map. apply map_id. Qed.

(** What was measured is, up to the equality of rationals, what was
    expected. *)
Lemma measured_samples a unit r inputSizes :
  Forall2 (measures_growth a unit) r inputSizes ->
  exists pts, r = map dataPoint pts
    /\ Forall2 same_measure (ideal_samples a unit inputSizes) pts.
Proof.
  induction 1 as [|d size r sizes [Hn (q & Ht & Hq)] _ (pts & -> & IH)].
  - exists []. split; constructor.
  - exists ((size, q) :: pts). split.
    + cbn [map]. f_equal. destruct d as [dn dt]. cbn in Hn, Ht. now subst.
    + constructor; [split; [reflexivity | symmetry; exact Hq] | exact IH].
Qed.

Lemma model_on_line a label tq unit inputSizes :
  model_of a = Some (label, tq) ->
  In (label, tq) regressions
  /\ Forall (fun p => snd p == unit * tq (fst p) + 0) (ideal_samples a unit inputSizes).
Proof.
  intros Hm. destruct a; try discriminate Hm; injection Hm as <- <-;
    (split; [unfold regressions; cbn; tauto|]);
    apply Forall_map_iff, Forall_forall; intros size _; cbn [fst snd growth];
    unfold q_linear, q_quadratic; rewrite ?inject_Z_mult; ring.
Qed.

(** C13. The analysis of [linearTime] or [quadraticTime] on the ideal
    clock, on valid sizes, with a mean time out of the ultra-fast regime
    and the other models' RMSE on the expected samples at least
    [0.15 * 1e-9], returns the candidate's own class with confidence
    100. *)
Theorem ideal_analysis_classified a label tq unit inputSizes (iterations : Z) t0 :
  model_of a = Some (label, tq) -> 0 <= unit -> (1 <= iterations)%Z ->
  valid_samples (ideal_samples a unit inputSizes) ->
  1e-4 <= Qmean (Qtimes (ideal_samples a unit inputSizes)) ->
  Forall (fun m => type m <> label -> clear m)
         (Qfits (ideal_samples a unit inputSizes)) ->
  exists r t',
    runSingleAnalysis (clock := ideal_clock) (ideal_algorithm (cost_of a unit))
      inputSizes (of_Z iterations) "array" t0 = Ok (r, t')
    /\ bestFit r = label /\ confidence r = of_Z 100.
Proof.
  intros Hm Hu Hit Hv Hmu Hclear.
  pose proof (vs_sizes _ Hv) as Hpos. apply Forall_map_iff in Hpos.
  rewrite ideal_samples_sizes in Hpos.
  destruct (runAnalysis_growth a unit inputSizes iterations t0 Hu Hit)
    as (d & t' & Hrun & Hall);
    [eapply Forall_impl; [|exact Hpos]; intros size; cbv beta; lia|].
  destruct (measured_samples a unit d inputSizes Hall) as (pts & -> & Hsame).
  destruct (model_on_line a label tq unit inputSizes Hm) as (Hreg & Hline).
  destruct (exact_data_classified_same _ pts Hsame label tq unit 0
              Hv Hreg Hline Hclear Hmu) as (r & Hr & Hb & Hc).
  assert (H2 : (2 <= length inputSizes)%nat)
    by (pose proof (vs_two _ Hv) as H2; unfold ideal_samples in H2;
        now rewrite length_map in H2).
  exists r, t'. split; [|now split].
  now rewrite (runSingleAnalysis_run _ _ _ _ _ _ _ H2 Hrun), Hr.
Qed.

End Pipeline.

(** * The theorem at a concrete input *)

Lemma ideal_analysis_classified_witness :
  exists r t',
    runSingleAnalysis (clock := ideal_clock)
      (ideal_algorithm (cost_of LinearTime (1 # 1000)))
      [1000; 2000; 4000]%Z (of_Z 10) "array" 0 = Ok (r, t')
    /\ bestFit r = O_n /\ confidence r = of_Z 100.
Proof.
  apply (ideal_analysis_classified LinearTime O_n q_linear (1 # 1000)
           [1000; 2000; 4000]%Z 10 0);
    [reflexivity | lra | lia | | vm_compute; discriminate |].
  - unfold ideal_samples. cbn [map growth]. constructor;
      [ simpl; lia
      | repeat (apply Forall_cons; [apply Qle_bool_imp_le; reflexivity|]); apply Forall_nil
      | repeat (apply Forall_cons; [cbn [fst]; lia|]); apply Forall_nil
      | simpl; repeat (apply NoDup_cons; [simpl; intuition lia|]); apply NoDup_nil ].
  - unfold Qfits, ideal_samples. cbn [map growth].
    repeat (apply Forall_cons;
            [intros H;
             first [exfalso; apply H; reflexivity
                   | eapply ref_clear; [reflexivity | vm_compute; reflexivity]]|]).
    apply Forall_nil.
Defined.
