(* ===== verification/Frontend.v ===== *)
(** * The web front end

    The state of the React component of src/web-frontend/src/App.js: its
    initial state, its reducer, the sizes that [handleSubmit] sends to the
    server, the actions it dispatches on each outcome of the request, the
    actions of the form's [onChange] handlers and what the component shows.
    The numeric fields are read with [parseInt] of the file Text.
    The request itself is a function from the payload to a response; the
    server is not part of the sources.

    The loop of the [linear] growth strategy has no bound in the source; its
    model takes fuel, and the theorems say when fuel suffices and when no
    amount does. *)

From Stdlib Require Import Ascii String.
From Stdlib Require Import QArith Qround Lqa Lia ZArith List Bool.
From S2P Require Import Prelude.
From S2P Require Import Numeric.
From S2P Require Import Text.
From S2P Require Import JsArray.
Import ListNotations.

Local Open Scope string_scope.
Local Open Scope list_scope.

Module App.

(** The body of a successful response, as the component reads it. *)
Record Payload : Type := {
  bigO : string;
  confidence : num;
  rmse : num;
  graphBase64 : string
}.

(** The state of the reducer. *)
Record State : Type := {
  code : string;
  algoName : string;
  inputMode : string;
  growthStrategy : string;
  useSuperRange : bool;
  powersOf10Count : num;
  doublingStart : num;
  doublingCount : num;
  linearStart : num;
  linearEnd : num;
  linearStep : num;
  result : option Payload;
  error : option string;
  isLoading : bool;
  isBigOVisible : bool
}.

Definition functionTemplate : string :=
  "/**
* Paste your algorithm here.
* Function name MUST be 'functionToTest'.
*/
function functionToTest(input) {
  // Your code here
}".

Definition initialState : State := {|
  code := functionTemplate;
  algoName := "";
  inputMode := "array";
  growthStrategy := "powersOf10";
  useSuperRange := false;
  powersOf10Count := of_Z 4;
  doublingStart := of_Z 1;
  doublingCount := of_Z 10;
  linearStart := of_Z 100;
  linearEnd := of_Z 1000;
  linearStep := of_Z 100;
  result := None;
  error := None;
  isLoading := false;
  isBigOVisible := false
|}.

(** A field of the state with a value for it: the [field] and [value] of a
    [SET_FIELD] action. *)
Inductive FieldValue : Type :=
| F_code (v : string)
| F_algoName (v : string)
| F_inputMode (v : string)
| F_growthStrategy (v : string)
| F_useSuperRange (v : bool)
| F_powersOf10Count (v : num)
| F_doublingStart (v : num)
| F_doublingCount (v : num)
| F_linearStart (v : num)
| F_linearEnd (v : num)
| F_linearStep (v : num)
| F_result (v : option Payload)
| F_error (v : option string)
| F_isLoading (v : bool)
| F_isBigOVisible (v : bool).

Inductive Action : Type :=
| SET_FIELD (fv : FieldValue)
| START_ANALYSIS
| ANALYSIS_SUCCESS (payload : Payload)
| ANALYSIS_ERROR (payload : option string)
| OTHER (type : string).

(** [{ ...state, [field]: value }]. *)
Definition set_field (s : State) (fv : FieldValue) : State :=
  let '{| code := c; algoName := a; inputMode := im; growthStrategy := g;
          useSuperRange := u; powersOf10Count := pc; doublingStart := ds;
          doublingCount := dc; linearStart := ls; linearEnd := le;
          linearStep := lp; result := r; error := e; isLoading := l;
          isBigOVisible := v |} := s in
  match fv with
  | F_code x => Build_State x a im g u pc ds dc ls le lp r e l v
  | F_algoName x => Build_State c x im g u pc ds dc ls le lp r e l v
  | F_inputMode x => Build_State c a x g u pc ds dc ls le lp r e l v
  | F_growthStrategy x => Build_State c a im x u pc ds dc ls le lp r e l v
  | F_useSuperRange x => Build_State c a im g x pc ds dc ls le lp r e l v
  | F_powersOf10Count x => Build_State c a im g u x ds dc ls le lp r e l v
  | F_doublingStart x => Build_State c a im g u pc x dc ls le lp r e l v
  | F_doublingCount x => Build_State c a im g u pc ds x ls le lp r e l v
  | F_linearStart x => Build_State c a im g u pc ds dc x le lp r e l v
  | F_linearEnd x => Build_State c a im g u pc ds dc ls x lp r e l v
  | F_linearStep x => Build_State c a im g u pc ds dc ls le x r e l v
  | F_result x => Build_State c a im g u pc ds dc ls le lp x e l v
  | F_error x => Build_State c a im g u pc ds dc ls le lp r x l v
  | F_isLoading x => Build_State c a im g u pc ds dc ls le lp r e x v
  | F_isBigOVisible x => Build_State c a im g u pc ds dc ls le lp r e l x
  end.

(** [reducer(state, action)]. *)
Definition reducer (state : State) (action : Action) : State :=
  match action with
  | SET_FIELD fv => set_field state fv
  | START_ANALYSIS =>
      set_field (set_field (set_field state (F_isLoading true)) (F_error None))
        (F_result None)
  | ANALYSIS_SUCCESS payload =>
      set_field
        (set_field (set_field state (F_isLoading false)) (F_result (Some payload)))
        (F_isBigOVisible (nge (confidence payload) (of_Z 75)))
  | ANALYSIS_ERROR payload =>
      set_field (set_field state (F_isLoading false)) (F_error payload)
  | OTHER _ => state
  end.

(** ** The sizes of [handleSubmit] *)

(** The length [Array.from({ length: x })] gives the array: [NaN] and
    negative numbers give the empty array. *)
Definition to_length (x : num) : Z :=
  match x with
  | Fin q => Z.max 0 (Qfloor q)
  | NaN => 0%Z
  end.

Definition superRange : list num :=
  array_from 100 (fun i => of_Z ((Z.of_nat i + 1) * 10)).

Definition powersOf10 (powersOf10Count : num) : list num :=
  array_from (to_length powersOf10Count) (fun i => of_Z (10 ^ (Z.of_nat i + 1))).

Definition doubling (doublingStart doublingCount : num) : list num :=
  array_from (to_length doublingCount)
    (fun i => nmul doublingStart (of_Z (2 ^ Z.of_nat i))).

(** [for (let i = linearStart; i <= linearEnd; i += linearStep)
    inputSizes.push(i)]; [None] when the fuel runs out. *)
Fixpoint linear_loop (fuel : nat) (i linearEnd linearStep : num)
    (inputSizes : list num) : option (list num) :=
  if nle i linearEnd then
    match fuel with
    | O => None
    | S fuel' =>
        linear_loop fuel' (nadd i linearStep) linearEnd linearStep
          (inputSizes ++ [i])
    end
  else Some inputSizes.

Definition defaultSizes : list num := [of_Z 10; of_Z 100; of_Z 1000; of_Z 10000].

(** The [inputSizes] that [handleSubmit] computes from the state. *)
Definition inputSizes (fuel : nat) (s : State) : option (list num) :=
  if useSuperRange s then Some superRange
  else if String.eqb (growthStrategy s) "powersOf10" then
    Some (powersOf10 (powersOf10Count s))
  else if String.eqb (growthStrategy s) "doubling" then
    Some (doubling (doublingStart s) (doublingCount s))
  else if String.eqb (growthStrategy s) "linear" then
    linear_loop fuel (linearStart s) (linearEnd s) (linearStep s) []
  else Some defaultSizes.

(** ** The request *)

(** The body of the POST request. *)
Record Request : Type := {
  req_code : string;
  req_algoName : string;
  req_inputMode : string;
  req_inputSizes : list num
}.

(** What [fetch] and [response.json()] end with: a body and [response.ok],
    or a rejected promise. *)
Inductive Response : Type :=
| Responded_ok (data : Payload)
| Responded_error (data_error : option string)
| Rejected.

(** The action [handleSubmit] dispatches when the request ends. *)
Definition completion (r : Response) : Action :=
  match r with
  | Responded_ok data => ANALYSIS_SUCCESS data
  | Responded_error data_error => ANALYSIS_ERROR data_error
  | Rejected => ANALYSIS_ERROR (Some "Failed to connect to the server.")
  end.

(** [handleSubmit]: the actions it dispatches, in order, for a server that
    answers [server payload]; [None] when the size loop does not end within
    the fuel (the handler then never reaches the request). *)
Definition handleSubmit (fuel : nat) (server : Request -> Response) (s : State)
  : list Action * option Request :=
  match inputSizes fuel s with
  | None => ([START_ANALYSIS], None)
  | Some sizes =>
      let payload := {| req_code := code s; req_algoName := algoName s;
                        req_inputMode := inputMode s; req_inputSizes := sizes |} in
      ([START_ANALYSIS; completion (server payload)], Some payload)
  end.

(** The state after the actions of a list, dispatched in order. *)
Definition dispatch_all (s : State) (actions : list Action) : State :=
  fold_left reducer actions s.

(** ** The form *)

(** What the user can do to the form; the text or flag is
    [e.target.value] or [e.target.checked]. *)
Inductive UiEvent : Type :=
| AlgoNameChanged (value : string)
| CodeChanged (value : string)
| InputModeChosen (value : string)
| GrowthStrategyChosen (value : string)
| PowersOf10CountChanged (value : string)
| DoublingStartChanged (value : string)
| DoublingCountChanged (value : string)
| LinearStartChanged (value : string)
| LinearEndChanged (value : string)
| LinearStepChanged (value : string)
| SuperRangeToggled (checked : bool)
| RevealClicked.

(** The [setField] call of each handler of the form. *)
Definition setField (e : UiEvent) : Action :=
  SET_FIELD
    match e with
    | AlgoNameChanged value => F_algoName value
    | CodeChanged value => F_code value
    | InputModeChosen value => F_inputMode value
    | GrowthStrategyChosen value => F_growthStrategy value
    | PowersOf10CountChanged value => F_powersOf10Count (parseInt value)
    | DoublingStartChanged value => F_doublingStart (parseInt value)
    | DoublingCountChanged value => F_doublingCount (parseInt value)
    | LinearStartChanged value => F_linearStart (parseInt value)
    | LinearEndChanged value => F_linearEnd (parseInt value)
    | LinearStepChanged value => F_linearStep (parseInt value)
    | SuperRangeToggled checked => F_useSuperRange checked
    | RevealClicked => F_isBigOVisible true
    end.

(** ** What the component shows *)

(** The line that carries the answer: the label, or the notice to click. *)
Inductive BigOLine : Type :=
| Shown (bigO : string)
| LowConfidence.

Record Results : Type := {
  bigO_line : BigOLine;
  confidence_shown : string;
  rmse_shown : string;
  graph : string
}.

Record View : Type := {
  growthStrategy_disabled : bool;
  option_inputs : list string;
  submit_disabled : bool;
  submit_label : string;
  error_shown : option string;
  results_shown : option Results
}.

(** The inputs of the option group that is on screen. *)
Definition optionInputs (s : State) : list string :=
  if useSuperRange s then []
  else
    (if String.eqb (growthStrategy s) "powersOf10" then ["powersOf10Count"] else [])
    ++ (if String.eqb (growthStrategy s) "doubling"
        then ["doublingStart"; "doublingCount"] else [])
    ++ (if String.eqb (growthStrategy s) "linear"
        then ["linearStart"; "linearEnd"; "linearStep"] else []).

(** The [return (...)] of the component. *)
Definition render (s : State) : View := {|
  growthStrategy_disabled := useSuperRange s;
  option_inputs := optionInputs s;
  submit_disabled := isLoading s;
  submit_label := if isLoading s then "Analyzing..." else "Analyze";
  error_shown :=
    match error s with
    | Some "" => None
    | e => e
    end;
  results_shown :=
    match result s with
    | None => None
    | Some r =>
        Some {| bigO_line := if isBigOVisible s then Shown (bigO r)
                             else LowConfidence;
                confidence_shown := toFixed 2 (confidence r);
                rmse_shown := toFixed 4 (rmse r);
                graph := graphBase64 r |}
    end
|}.

(** ** The component as a transition system

    A step is a change of the form, a submission (the button is disabled
    while a request is pending) or the end of the pending request. *)
Inductive step : State -> State -> Prop :=
| step_ui s e : step s (reducer s (setField e))
| step_submit s :
    isLoading s = false -> step s (reducer s START_ANALYSIS)
| step_complete s r :
    isLoading s = true -> step s (reducer s (completion r)).

Inductive reachable : State -> Prop :=
| reachable_init : reachable initialState
| reachable_step s s' : reachable s -> step s s' -> reachable s'.

(** At most one of the result and the error is on screen, and neither while
    a request is pending. *)
Definition consistent (s : State) : Prop :=
  (isLoading s = true -> result s = None /\ error s = None)
  /\ (result s = None \/ error s = None).

(** ** The reducer *)

Lemma reducer_start s :
  let s' := reducer s START_ANALYSIS in
  isLoading s' = true /\ result s' = None /\ error s' = None.
Proof. destruct s. cbn. auto. Qed.

Lemma reducer_success s payload :
  let s' := reducer s (ANALYSIS_SUCCESS payload) in
  isLoading s' = false /\ result s' = Some payload /\ error s' = error s
  /\ isBigOVisible s' = nge (confidence payload) (of_Z 75).
Proof. destruct s. cbn. auto. Qed.

Lemma reducer_error s payload :
  let s' := reducer s (ANALYSIS_ERROR payload) in
  isLoading s' = false /\ result s' = result s /\ error s' = payload.
Proof. destruct s. cbn. auto. Qed.

(** A change of the form leaves the request's fields alone. *)
Lemma reducer_setField s e :
  let s' := reducer s (setField e) in
  isLoading s' = isLoading s /\ result s' = result s /\ error s' = error s.
Proof. destruct s, e; cbn; auto. Qed.

Lemma consistent_step s s' : consistent s -> step s s' -> consistent s'.
Proof.
  intros [Hl Hre] Hstep. unfold consistent.
  destruct Hstep as [s e|s Hidle|s r Hbusy].
  - destruct (reducer_setField s e) as (-> & -> & ->). now split.
  - destruct (reducer_start s) as (_ & -> & ->). split; auto.
  - destruct (Hl Hbusy) as [Hr He]. destruct r as [data|data_error|]; cbn [completion].
    + destruct (reducer_success s data) as (-> & -> & -> & _).
      split; [discriminate | now right].
    + destruct (reducer_error s data_error) as (-> & -> & ->).
      split; [discriminate | now left].
    + destruct (reducer_error s (Some "Failed to connect to the server."))
        as (-> & -> & ->).
      split; [discriminate | now left].
Qed.

(** ** The linear plan *)

Lemma linear_loop_exit fuel i linearEnd linearStep inputSizes :
  nle i linearEnd = false ->
  linear_loop fuel i linearEnd linearStep inputSizes = Some inputSizes.
Proof. intros H. destruct fuel; cbn [linear_loop]; now rewrite H. Qed.

Lemma nle_Fin x y : nle (Fin x) (Fin y) = true <-> (x <= y)%Q.
Proof. cbn. apply Qle_bool_iff. Qed.

Lemma nle_Fin_false x y : nle (Fin x) (Fin y) = false <-> (y < x)%Q.
Proof.
  cbn. destruct (Qle_bool x y) eqn:E.
  - apply Qle_bool_iff in E. split; [discriminate | intros H; lra].
  - split; [intros _ | reflexivity].
    apply Qnot_le_lt. intros H. apply Qle_bool_iff in H. congruence.
Qed.

(** With a step that is not positive the loop never leaves an interval it
    has entered. *)
Lemma linear_loop_stuck fuel linearEnd linearStep : forall i inputSizes,
  (i <= linearEnd)%Q -> (linearStep <= 0)%Q ->
  linear_loop fuel (Fin i) (Fin linearEnd) (Fin linearStep) inputSizes = None.
Proof.
  induction fuel as [|fuel IH]; intros i inputSizes Hi Hstep; cbn [linear_loop];
    rewrite (proj2 (nle_Fin i linearEnd) Hi); [reflexivity|].
  cbn [nadd]. apply IH; lra.
Qed.

(** The sizes of a positive step: [count] values from [i], [linearStep]
    apart. *)
Definition arithmetic (l : list num) (i linearStep : Q) : Prop :=
  forall k, (k < length l)%nat ->
    exists q, nth_error l k = Some (Fin q)
      /\ (q == i + inject_Z (Z.of_nat k) * linearStep)%Q.

Lemma arithmetic_cons i linearStep l :
  arithmetic l (i + linearStep) linearStep -> arithmetic (Fin i :: l) i linearStep.
Proof.
  intros H [|k] Hk.
  - exists i. split; [reflexivity|]. cbn. ring.
  - destruct (H k) as (q & Hq & E); [cbn in Hk; lia|].
    exists q. split; [exact Hq|]. rewrite E.
    rewrite Nat2Z.inj_succ, <- Z.add_1_r, inject_Z_plus.
    change (inject_Z 1) with 1%Q. ring.
Qed.

Lemma linear_loop_run linearEnd linearStep : forall count fuel i inputSizes,
  (0 < linearStep)%Q ->
  (i + inject_Z (Z.of_nat count) * linearStep > linearEnd)%Q ->
  (count = O \/ i + inject_Z (Z.of_nat count - 1) * linearStep <= linearEnd)%Q ->
  (count <= fuel)%nat ->
  exists l,
    linear_loop fuel (Fin i) (Fin linearEnd) (Fin linearStep) inputSizes
      = Some (inputSizes ++ l)
    /\ length l = count /\ arithmetic l i linearStep.
Proof.
  induction count as [|count IH]; intros fuel i inputSizes Hstep Hover Hlast Hfuel.
  - exists []. rewrite app_nil_r. split; [|split; [reflexivity | intros k Hk; inv Hk]].
    apply linear_loop_exit, nle_Fin_false.
    change (inject_Z (Z.of_nat 0)) with 0%Q in Hover. lra.
  - destruct fuel as [|fuel]; [lia|].
    rewrite Nat2Z.inj_succ, <- Z.add_1_r in *.
    destruct Hlast as [Hlast|Hlast]; [discriminate|].
    replace (Z.of_nat count + 1 - 1)%Z with (Z.of_nat count) in Hlast by lia.
    rewrite inject_Z_plus in Hover. change (inject_Z 1) with 1%Q in Hover.
    assert (Hc : (0 <= inject_Z (Z.of_nat count))%Q)
      by (change 0%Q with (inject_Z 0); rewrite <- Zle_Qle; lia).
    cbn [linear_loop]. rewrite (proj2 (nle_Fin i linearEnd)) by nra.
    cbn [nadd].
    destruct (IH fuel (i + linearStep)%Q (inputSizes ++ [Fin i]) Hstep)
      as (l & -> & Hlen & Harith); [lra | | lia |].
    + destruct count as [|count]; [now left | right].
      rewrite Nat2Z.inj_succ, <- Z.add_1_r in *.
      replace (Z.of_nat count + 1 - 1)%Z with (Z.of_nat count) by lia.
      rewrite inject_Z_plus in Hlast. change (inject_Z 1) with 1%Q in Hlast. lra.
    + exists (Fin i :: l). rewrite <- app_assoc. split; [reflexivity|].
      split; [cbn; lia | now apply arithmetic_cons].
Qed.

(** The number of sizes of the linear plan. *)
Definition linear_count (a b c : Q) : nat := Z.to_nat (Qfloor ((b - a) / c) + 1).

Lemma linear_count_bounds a b c :
  (a <= b)%Q -> (0 < c)%Q ->
  (a + inject_Z (Z.of_nat (linear_count a b c)) * c > b)%Q
  /\ (a + inject_Z (Z.of_nat (linear_count a b c) - 1) * c <= b)%Q.
Proof.
  intros Hab Hc. unfold linear_count.
  assert (Hx : (0 <= (b - a) / c)%Q) by (apply Qdiv_nonneg; lra).
  assert (Hf : (0 <= Qfloor ((b - a) / c))%Z)
    by (change 0%Z with (Qfloor 0); now apply Qfloor_resp_le).
  rewrite Z2Nat.id by lia.
  pose proof (Qfloor_le ((b - a) / c)) as Hlo.
  pose proof (Qlt_floor ((b - a) / c)) as Hhi.
  replace (Qfloor ((b - a) / c) + 1 - 1)%Z with (Qfloor ((b - a) / c)) by lia.
  assert (E : ((b - a) / c * c == b - a)%Q) by (field; lra).
  assert (H : ((b - a) / c * c < inject_Z (Qfloor ((b - a) / c) + 1) * c)%Q)
    by (apply Qmult_lt_compat_r; assumption).
  assert (H' : (inject_Z (Qfloor ((b - a) / c)) * c <= (b - a) / c * c)%Q)
    by (apply Qmult_le_compat_r; [assumption | lra]).
  split; lra.
Qed.

(** ** The properties of the front end *)

(** C21. In every state the component can reach, a result and an error are
    never on screen together, and while a request is pending neither is. *)
Theorem reachable_consistent s : reachable s -> consistent s.
Proof.
  induction 1 as [|s s' _ IH Hstep].
  - split; [discriminate | now left].
  - exact (consistent_step s s' IH Hstep).
Qed.

(** After a successful analysis the label is on screen exactly when
    the confidence is at least 75; below that the notice of low confidence
    takes its place. *)
Theorem render_after_success s payload q :
  confidence payload = Fin q ->
  results_shown (render (reducer s (ANALYSIS_SUCCESS payload)))
  = Some {| bigO_line := if Qle_bool 75 q then Shown (bigO payload)
                         else LowConfidence;
            confidence_shown := toFixed 2 (Fin q);
            rmse_shown := toFixed 4 (rmse payload);
            graph := graphBase64 payload |}.
Proof.
  intros Hq. destruct (reducer_success s payload) as (_ & Hr & _ & Hv).
  unfold render. cbn [results_shown]. rewrite Hr, Hv, Hq. reflexivity.
Qed.

(** C22. With the linear strategy, a start that is not above the end and a
    step that is zero or negative, the size loop of [handleSubmit] never
    ends: no amount of fuel gives the sizes, and the request is never
    sent. *)
Theorem linear_plan_diverges s a b c server fuel :
  useSuperRange s = false -> growthStrategy s = "linear" ->
  linearStart s = Fin a -> linearEnd s = Fin b -> linearStep s = Fin c ->
  (a <= b)%Q -> (c <= 0)%Q ->
  inputSizes fuel s = None
  /\ handleSubmit fuel server s = ([START_ANALYSIS], None).
Proof.
  intros Hu Hg Ha Hb Hc Hab Hc0.
  assert (H : inputSizes fuel s = None).
  { unfold inputSizes. rewrite Hu, Hg, Ha, Hb, Hc. cbn [String.eqb].
    now apply linear_loop_stuck. }
  split; [exact H|]. unfold handleSubmit. now rewrite H.
Qed.

(** C23. With the linear strategy, a start that is not above the end and a
    positive step, the size loop ends: with fuel for
    [floor((end - start) / step) + 1] iterations it returns that many sizes,
    from the start, one step apart. *)
Theorem linear_plan_terminates s a b c fuel :
  useSuperRange s = false -> growthStrategy s = "linear" ->
  linearStart s = Fin a -> linearEnd s = Fin b -> linearStep s = Fin c ->
  (a <= b)%Q -> (0 < c)%Q -> (linear_count a b c <= fuel)%nat ->
  exists l, inputSizes fuel s = Some l
    /\ length l = linear_count a b c /\ arithmetic l a c.
Proof.
  intros Hu Hg Ha Hb Hc Hab Hc0 Hfuel.
  unfold inputSizes. rewrite Hu, Hg, Ha, Hb, Hc. cbn [String.eqb].
  destruct (linear_count_bounds a b c Hab Hc0) as [Hover Hlast].
  destruct (linear_loop_run b c (linear_count a b c) fuel a [] Hc0 Hover
              (or_intror Hlast) Hfuel) as (l & H & Hlen & Har).
  now exists l.
Qed.

(** C27. The numeric fields are read with [parseInt]: a step typed as an
    integer that is not positive, followed by anything that is not a
    digit (so 0.5, which a number field accepts, is the step 0), makes
    the size loop of the linear strategy run for ever when the start is
    not above the end, and the request is never sent. *)
Theorem typed_step_hangs s a b (z : Z) suffix server fuel :
  useSuperRange s = false -> growthStrategy s = "linear" ->
  linearStart s = Fin a -> linearEnd s = Fin b -> (a <= b)%Q ->
  (z <= 0)%Z -> ends_number suffix = true ->
  let s' := reducer s (setField (LinearStepChanged (Z_toString z ++ suffix))) in
  linearStep s' = of_Z z
  /\ inputSizes fuel s' = None
  /\ handleSubmit fuel server s' = ([START_ANALYSIS], None).
Proof.
  intros Hu Hg Ha Hb Hab Hz He. cbn [setField reducer].
  rewrite (parseInt_prefix z suffix He). destruct s. cbn in Hu, Hg, Ha, Hb |- *.
  subst. cbv zeta.
  assert (H : inputSizes fuel
                (Build_State code0 algoName0 inputMode0 "linear" false powersOf10Count0
                   doublingStart0 doublingCount0 (Fin a) (Fin b) (of_Z z) result0 error0
                   isLoading0 isBigOVisible0) = None).
  { unfold inputSizes. cbn [useSuperRange growthStrategy linearStart linearEnd linearStep
                           String.eqb Ascii.eqb Bool.eqb].
    apply linear_loop_stuck; [exact Hab|].
    change 0%Q with (inject_Z 0). now rewrite <- Zle_Qle. }
  split; [reflexivity|]. split; [exact H|]. unfold handleSubmit. now rewrite H.
Qed.

(** C24. A submission from an idle state ends idle, with the response's
    payload as the result and no error, or with an error and no result. *)
Theorem handleSubmit_outcome fuel server s sizes :
  inputSizes fuel s = Some sizes ->
  let request := {| req_code := code s; req_algoName := algoName s;
                    req_inputMode := inputMode s; req_inputSizes := sizes |} in
  let s' := dispatch_all s (fst (handleSubmit fuel server s)) in
  snd (handleSubmit fuel server s) = Some request
  /\ isLoading s' = false
  /\ match server request with
     | Responded_ok data => result s' = Some data /\ error s' = None
     | Responded_error data_error => result s' = None /\ error s' = data_error
     | Rejected =>
         result s' = None /\ error s' = Some "Failed to connect to the server."
     end.
Proof.
  intros Hs. unfold handleSubmit. rewrite Hs. cbn [fst snd dispatch_all fold_left].
  split; [reflexivity|].
  destruct (reducer_start s) as (_ & Hr & He).
  destruct (server _) as [data|data_error|]; cbn [completion].
  - destruct (reducer_success (reducer s START_ANALYSIS) data) as (-> & -> & -> & _).
    auto.
  - destruct (reducer_error (reducer s START_ANALYSIS) data_error) as (-> & -> & ->).
    auto.
  - destruct (reducer_error (reducer s START_ANALYSIS)
                (Some "Failed to connect to the server.")) as (-> & -> & ->).
    auto.
Qed.

(** The plan of the initial state is the list the [default] branch
    also gives: 10, 100, 1000, 10000. *)
Theorem initial_plan fuel : inputSizes fuel initialState = Some defaultSizes.
Proof. reflexivity. Qed.

(** The super range is the hundred sizes 10, 20, ..., 1000. *)
Theorem superRange_spec i :
  (i < 100)%nat ->
  length superRange = 100%nat
  /\ nth_error superRange i = Some (of_Z (10 * (Z.of_nat i + 1))).
Proof.
  intros Hi. unfold superRange. rewrite array_from_length.
  split; [reflexivity|].
  rewrite array_from_nth by (cbn; lia). do 2 f_equal. lia.
Qed.

End App.

(** * The theorems at concrete inputs *)

Import App.

Definition low_confidence_payload : Payload :=
  {| bigO := "O(n)"; confidence := of_Z 60; rmse := of_Z 0; graphBase64 := "" |}.

(** The form after the user has chosen the linear strategy with step 0. *)
Definition zero_step : State :=
  dispatch_all initialState
    [setField (GrowthStrategyChosen "linear"); setField (LinearStepChanged "0")].

Definition initialState_linear : State :=
  reducer initialState (setField (GrowthStrategyChosen "linear")).

Definition always_ok (r : Request) : Response := Responded_ok low_confidence_payload.

Lemma reachable_consistent_witness : consistent zero_step.
Proof.
  apply (reachable_consistent zero_step).
  apply (reachable_step (reducer initialState (setField (GrowthStrategyChosen "linear")))).
  - apply (reachable_step initialState); [apply reachable_init | apply step_ui].
  - apply step_ui.
Defined.

Lemma render_after_success_witness :
  results_shown (render (reducer initialState (ANALYSIS_SUCCESS low_confidence_payload)))
  = Some {| bigO_line := if Qle_bool 75 (inject_Z 60) then Shown "O(n)"
                         else LowConfidence;
            confidence_shown := "60.00";
            rmse_shown := "0.0000";
            graph := "" |}.
Proof.
  apply (render_after_success initialState low_confidence_payload (inject_Z 60)).
  reflexivity.
Defined.

Lemma linear_plan_diverges_witness :
  inputSizes 1000 zero_step = None
  /\ handleSubmit 1000 always_ok zero_step = ([START_ANALYSIS], None).
Proof.
  apply (linear_plan_diverges zero_step 100 1000 0 always_ok 1000);
    try reflexivity; lra.
Defined.

(** The step 0.5, typed into the form with the linear strategy. *)
Lemma typed_step_hangs_witness :
  let s' := reducer initialState_linear (setField (LinearStepChanged "0.5")) in
  linearStep s' = of_Z 0
  /\ inputSizes 1000 s' = None
  /\ handleSubmit 1000 always_ok s' = ([START_ANALYSIS], None).
Proof.
  apply (typed_step_hangs initialState_linear 100 1000 0 ".5" always_ok 1000);
    try reflexivity; lra || lia.
Defined.

Lemma linear_plan_terminates_witness :
  exists l, inputSizes 10 initialState_linear = Some l
    /\ length l = linear_count 100 1000 100 /\ arithmetic l 100 100.
Proof.
  apply (linear_plan_terminates initialState_linear 100 1000 100 10);
    try reflexivity; lra.
Defined.

Lemma handleSubmit_outcome_witness :
  snd (handleSubmit 0 always_ok initialState)
  = Some {| req_code := functionTemplate; req_algoName := "";
            req_inputMode := "array"; req_inputSizes := defaultSizes |}
  /\ isLoading (dispatch_all initialState (fst (handleSubmit 0 always_ok initialState)))
     = false
  /\ result (dispatch_all initialState (fst (handleSubmit 0 always_ok initialState)))
     = Some low_confidence_payload
  /\ error (dispatch_all initialState (fst (handleSubmit 0 always_ok initialState)))
     = None.
Proof.
  pose proof (handleSubmit_outcome 0 always_ok initialState defaultSizes eq_refl) as H.
  cbv zeta in H. exact H.
Defined.

Lemma superRange_spec_witness :
  length superRange = 100%nat
  /\ nth_error superRange 99 = Some (of_Z (10 * (Z.of_nat 99 + 1))).
Proof. apply (superRange_spec 99). lia. Defined.
