(* ===== verification/Harness.v ===== *)
(** * The verification harnesses

    The two scripts that run the tool on the sample candidates:
    src/src/verify_all_algos.js ([tests], the loop of [verify] and its exit
    code) and src/verifyAlg.js (the strategies, [formatResult] and the table
    that [main] fills).  What the scripts print is a list of [Line]s; how a
    number is printed is the class [NumberFormat].  The sample candidates
    run in the world as [candidate] says. *)

From Stdlib Require Import Ascii String.
From Stdlib Require Import QArith Qround Lqa Lia ZArith List Bool.
From S2P Require Import Prelude.
From S2P Require Import Numeric.
From S2P Require Import Text.
From S2P Require Import JsArray.
From S2P Require Import Stats.
From S2P Require Import DataModel.
From S2P Require Import Classifier.
From S2P Require Import Benchmark.
From S2P Require Import Facade.
From S2P Require Import Algorithms.
Import ListNotations.

Local Open Scope string_scope.
Local Open Scope list_scope.
Local Open Scope js_scope.

(** ** verify_all_algos.js *)

(** An entry of [tests]. *)
Record Test : Type := {
  name : string;
  fn : sample;
  expected : string;
  inputs : list Z
}.

Definition tests : list Test := [
  {| name := "constantTime"; fn := ConstantTime; expected := "O(1) - Constant";
     inputs := [1000; 10000; 100000; 1000000; 5000000]%Z |};
  {| name := "linearTime"; fn := LinearTime; expected := "O(n) - Linear";
     inputs := [1000; 10000; 100000; 1000000; 2000000]%Z |};
  {| name := "quadraticTime"; fn := QuadraticTime; expected := "O(n^2) - Quadratic";
     inputs := [100; 200; 500; 1000; 1500]%Z |};
  {| name := "logarithmicTime"; fn := LogarithmicTime;
     expected := "O(log n) - Logarithmic";
     inputs := [1000; 10000; 100000; 1000000; 10000000]%Z |}
].

(** What the script prints. *)
Inductive Line (E : Type) : Type :=
| Starting
| Testing (name : string)
| Detected (bestFit : string)
| Pass
| Fail (expected : string)
| Debug (results : list (string * num))
| Errored (e : exn E)
| Blank
| Summary (passed total : nat).

Arguments Starting {E}.
Arguments Testing {E} name.
Arguments Detected {E} bestFit.
Arguments Pass {E}.
Arguments Fail {E} expected.
Arguments Debug {E} results.
Arguments Errored {E} e.
Arguments Blank {E}.
Arguments Summary {E} passed total.

Section Verify.
Context {M : MathLib} {W E : Type} {clock : Clock W}.
Variable candidate : sample -> Algorithm (W := W) (E := E).

(** The [try] block of the loop: the analysis, the classification and the
    comparison with the expected label. *)
Definition attempt (test : Test) (passed : nat)
  : io W (exn E) (nat * list (Line E)) :=
  data <- runAnalysis (candidate (fn test)) (inputs test) (of_Z 10)
            default_inputMode ;;
  match determineComplexity data with
  | Throw err => io_throw (Internal err)
  | Ok result =>
      if String.eqb (bestFit result) (expected test)
      then io_ret (S passed, [Detected (bestFit result); Pass])
      else io_ret (passed, [Detected (bestFit result); Fail (expected test);
                            Debug (results result)])
  end.

(** The body of the loop over [tests]. *)
Definition run_test (st : nat * list (Line E)) (test : Test)
  : io W (exn E) (nat * list (Line E)) :=
  r <- io_catch (attempt test (fst st))
         (fun e => io_ret (fst st, [Errored e])) ;;
  io_ret (fst r, snd st ++ [Testing (name test)] ++ snd r ++ [Blank]).

Fixpoint run_tests (ts : list Test) (st : nat * list (Line E))
  : io W (exn E) (nat * list (Line E)) :=
  match ts with
  | [] => io_ret st
  | test :: rest => st' <- run_test st test ;; run_tests rest st'
  end.

(** [verify()]: the exit code of the process and what was printed. *)
Definition verify : io W (exn E) (Z * list (Line E)) :=
  st <- run_tests tests (O, [Starting]) ;;
  let passed := fst st in
  let log := snd st ++ [Summary passed (length tests)] in
  if (passed =? length tests)%nat then io_ret (0%Z, log) else io_ret (1%Z, log).

End Verify.

(** ** verifyAlg.js *)

Definition standardStrategies : list (string * list Z) := [
  ("Standard Powers of 10", [10; 100; 1000; 10000]%Z);
  ("Standard Linear", [2000; 4000; 6000; 8000]%Z)
].

Definition highPrecisionStrategy : list (string * list Z) := [
  ("High-Precision", [10; 1000; 100000; 10000000]%Z)
].

Definition SLOW_ALGO_THRESHOLD : Z := 8001.

(** How a number is printed inside a template literal. *)
Class NumberFormat : Type := number_toString : num -> string.

(** [s.split(' ')[0]]: the text before the first blank. *)
Fixpoint first_word (s : string) : string :=
  match s with
  | EmptyString => EmptyString
  | String c s' => if Ascii.eqb c " "%char then EmptyString else String c (first_word s')
  end.

(** [formatResult(complexity)]. *)
Definition formatResult {F : NumberFormat} (complexity : Complexity) : string :=
  let resultString := first_word (bestFit complexity) in
  if nle (confidence complexity) (of_Z 75)
  then (resultString ++ " (Conf: " ++ number_toString (confidence complexity)
        ++ "%)")%string
  else resultString.

(** The sample behind a key of the module [algorithms]. *)
Definition sample_of (algoName : string) : option sample :=
  if String.eqb algoName "constantTime" then Some ConstantTime
  else if String.eqb algoName "linearTime" then Some LinearTime
  else if String.eqb algoName "quadraticTime" then Some QuadraticTime
  else if String.eqb algoName "logarithmicTime" then Some LogarithmicTime
  else None.

Section Main.
Context {M : MathLib} {F : NumberFormat} {W E : Type} {clock : Clock W}.
Variable candidate : sample -> Algorithm (W := W) (E := E).

(** The sizes of a standard strategy for an algorithm. *)
Definition sizes_for (algoName : string) (generated : list Z) : list Z :=
  if String.eqb algoName "quadraticTime"
  then filter (fun size => (size <? SLOW_ALGO_THRESHOLD)%Z) generated
  else generated.

(** One run of a strategy: the entry it adds to the row. *)
Definition run_strategy (a : sample) (strategyName : string) (inputSizes : list Z)
    (row : list (string * string)) : io W (exn E) (list (string * string)) :=
  complexity <- runSingleAnalysis (candidate a) inputSizes default_iterations
                  default_inputMode ;;
  io_ret (row ++ [(strategyName, formatResult complexity)]).

Fixpoint run_standard (algoName : string) (a : sample)
    (strategies : list (string * list Z)) (row : list (string * string))
  : io W (exn E) (list (string * string)) :=
  match strategies with
  | [] => io_ret row
  | (strategyName, generated) :: rest =>
      row' <- run_strategy a strategyName (sizes_for algoName generated) row ;;
      run_standard algoName a rest row'
  end.

(** The body of the loop over the algorithms: the row of one algorithm. *)
Definition run_algorithm (algoName : string) (a : sample)
  : io W (exn E) (list (string * string)) :=
  row <- run_standard algoName a standardStrategies [] ;;
  if existsb (String.eqb algoName) ["constantTime"; "logarithmicTime"]
  then
    match highPrecisionStrategy with
    | (strategyName, hpInputSizes) :: _ =>
        run_strategy a strategyName hpInputSizes row
    | [] => io_ret row
    end
  else io_ret row.

Fixpoint run_algorithms (names : list string)
    (finalResults : list (string * list (string * string)))
  : io W (exn E) (list (string * list (string * string))) :=
  match names with
  | [] => io_ret finalResults
  | algoName :: rest =>
      match sample_of algoName with
      | None => io_throw (Internal (TypeError "algorithmToTest is not a function"))
      | Some a =>
          row <- run_algorithm algoName a ;;
          run_algorithms rest (finalResults ++ [(algoName, row)])
      end
  end.

(** [main()]: the table [finalResults]. *)
Definition main : io W (exn E) (list (string * list (string * string))) :=
  run_algorithms algorithm_names [].

End Main.

(** * Facts *)

Definition is_pass {E} (l : Line E) : bool :=
  match l with Pass => true | _ => false end.

Definition count_pass {E} (log : list (Line E)) : nat :=
  length (filter is_pass log).

Lemma count_pass_app {E} (l1 l2 : list (Line E)) :
  count_pass (l1 ++ l2) = (count_pass l1 + count_pass l2)%nat.
Proof. unfold count_pass. now rewrite filter_app, length_app. Qed.

Section VerifyFacts.
Context {M : MathLib} {W E : Type} {clock : Clock W}.
Variable candidate : sample -> Algorithm (W := W) (E := E).

(** What a [try] block that completes has counted and printed. *)
Lemma attempt_cases test passed w r w' :
  attempt candidate test passed w = Ok (r, w') ->
  (fst r = S passed /\ count_pass (snd r) = 1%nat)
  \/ (fst r = passed /\ count_pass (snd r) = O).
Proof.
  unfold attempt. intros H.
  apply io_bind_inv_ok in H as (data & w1 & _ & H).
  destruct (determineComplexity data) as [result|err]; [|discriminate].
  destruct (String.eqb (bestFit result) (expected test)); inv H; auto.
Qed.

(** The loop body returns whatever the candidate does, and counts a pass
    exactly when it prints one. *)
Lemma run_test_spec st test w :
  exists st' w',
    run_test candidate st test w = Ok (st', w')
    /\ ((fst st' = S (fst st) /\ count_pass (snd st') = S (count_pass (snd st)))
        \/ (fst st' = fst st /\ count_pass (snd st') = count_pass (snd st))).
Proof.
  unfold run_test, io_bind, io_catch.
  destruct (attempt candidate test (fst st) w) as [[r w1]|[e w1]] eqn:Ha;
    cbn [io_ret fst snd]; eexists _, _; (split; [reflexivity|]);
    cbn [fst snd]; rewrite !count_pass_app;
    change (count_pass [Testing (name test)]) with O;
    change (count_pass [@Blank E]) with O.
  - destruct (attempt_cases _ _ _ _ _ Ha) as [[-> ->]|[-> ->]]; [left|right];
      split; (reflexivity || lia).
  - change (count_pass [Errored e]) with O. right. split; (reflexivity || lia).
Qed.

Lemma run_tests_spec ts : forall st w,
  exists st' w',
    run_tests candidate ts st w = Ok (st', w')
    /\ (fst st' - fst st = count_pass (snd st') - count_pass (snd st))%nat
    /\ (fst st <= fst st' <= fst st + length ts)%nat
    /\ (count_pass (snd st) <= count_pass (snd st'))%nat.
Proof.
  induction ts as [|test rest IH]; intros st w; cbn [run_tests].
  - exists st, w. repeat split; cbn; lia.
  - destruct (run_test_spec st test w) as (st1 & w1 & H1 & Hc).
    rewrite (io_bind_ok _ _ _ _ _ H1).
    destruct (IH st1 w1) as (st' & w' & -> & Hd & Hb & Hm).
    exists st', w'. split; [reflexivity|]. cbn [length].
    destruct Hc as [[E1 E2]|[E1 E2]]; rewrite E1, E2 in *; repeat split; lia.
Qed.

End VerifyFacts.

Lemma nle_of_Z a b : nle (of_Z a) (of_Z b) = (a <=? b)%Z.
Proof.
  unfold of_Z. cbn [nle]. destruct (Z.leb_spec a b) as [H|H].
  - apply Qle_bool_iff. now rewrite <- Zle_Qle.
  - destruct (Qle_bool (inject_Z a) (inject_Z b)) eqn:E; [|reflexivity].
    apply Qle_bool_iff in E. rewrite <- Zle_Qle in E. lia.
Qed.

Section MainFacts.
Context {M : MathLib} {F : NumberFormat} {W E : Type} {clock : Clock W}.
Variable candidate : sample -> Algorithm (W := W) (E := E).

Lemma run_strategy_names a strategyName inputSizes row w row' w' :
  run_strategy candidate a strategyName inputSizes row w = Ok (row', w') ->
  map fst row' = map fst row ++ [strategyName].
Proof.
  unfold run_strategy. intros H.
  apply io_bind_inv_ok in H as (complexity & w1 & _ & H). inv H.
  now rewrite map_app.
Qed.

Lemma run_standard_names algoName a strategies : forall row w row' w',
  run_standard candidate algoName a strategies row w = Ok (row', w') ->
  map fst row' = map fst row ++ map fst strategies.
Proof.
  induction strategies as [|[strategyName generated] rest IH];
    intros row w row' w' H; cbn [run_standard] in H.
  - inv H. now rewrite app_nil_r.
  - apply io_bind_inv_ok in H as (row1 & w1 & H1 & H).
    apply run_strategy_names in H1. apply IH in H.
    rewrite H, H1, <- app_assoc. reflexivity.
Qed.

(** The strategies a row of the table has entries for. *)
Definition strategies_of (algoName : string) : list string :=
  map fst standardStrategies
  ++ (if existsb (String.eqb algoName) ["constantTime"; "logarithmicTime"]
      then map fst highPrecisionStrategy else []).

Lemma run_algorithm_names algoName a w row w' :
  run_algorithm candidate algoName a w = Ok (row, w') ->
  map fst row = strategies_of algoName.
Proof.
  unfold run_algorithm, strategies_of. intros H.
  apply io_bind_inv_ok in H as (row1 & w1 & H1 & H).
  apply run_standard_names in H1. cbn [map app] in H1.
  destruct (existsb (String.eqb algoName) ["constantTime"; "logarithmicTime"]).
  - cbn [highPrecisionStrategy] in H. apply run_strategy_names in H.
    now rewrite H, H1.
  - inv H. now rewrite H1, app_nil_r.
Qed.

Lemma run_algorithms_names names : forall finalResults w table w',
  run_algorithms candidate names finalResults w = Ok (table, w') ->
  map fst table = map fst finalResults ++ names
  /\ map (fun row => map fst (snd row)) table
     = map (fun row => map fst (snd row)) finalResults ++ map strategies_of names.
Proof.
  induction names as [|algoName rest IH]; intros finalResults w table w' H;
    cbn [run_algorithms] in H.
  - inv H. now rewrite !app_nil_r.
  - destruct (sample_of algoName) as [a|]; [|discriminate].
    apply io_bind_inv_ok in H as (row & w1 & H1 & H).
    apply run_algorithm_names in H1. apply IH in H as [Hn Hs].
    rewrite Hn, Hs, !map_app, <- !app_assoc. cbn [map fst snd app].
    now rewrite H1.
Qed.

(** ** Totality *)

Section MainTotal.
Hypothesis returns :
  forall a i w0, exists i' w1, candidate a i w0 = Ok (i', w1).

Lemma run_strategy_total a strategyName inputSizes row w :
  exists row' w',
    run_strategy candidate a strategyName inputSizes row w = Ok (row', w').
Proof.
  unfold run_strategy.
  destruct (runSingleAnalysis_total (candidate a) inputSizes 10 default_inputMode w
              (returns a) ltac:(lia)) as (r & w' & H).
  unfold default_iterations. rewrite (io_bind_ok _ _ _ _ _ H). now eexists _, _.
Qed.

Lemma run_standard_total algoName a strategies : forall row w,
  exists row' w',
    run_standard candidate algoName a strategies row w = Ok (row', w').
Proof.
  induction strategies as [|[strategyName generated] rest IH]; intros row w;
    cbn [run_standard]; [now eexists _, _|].
  destruct (run_strategy_total a strategyName (sizes_for algoName generated) row w)
    as (row1 & w1 & H).
  rewrite (io_bind_ok _ _ _ _ _ H). apply IH.
Qed.

Lemma run_algorithm_total algoName a w :
  exists row w', run_algorithm candidate algoName a w = Ok (row, w').
Proof.
  unfold run_algorithm.
  destruct (run_standard_total algoName a standardStrategies [] w) as (row & w1 & H).
  rewrite (io_bind_ok _ _ _ _ _ H).
  destruct (existsb _ _); [|now eexists _, _].
  cbn [highPrecisionStrategy]. apply run_strategy_total.
Qed.

Lemma run_algorithms_total names :
  Forall (fun algoName => sample_of algoName <> None) names ->
  forall finalResults w, exists table w',
    run_algorithms candidate names finalResults w = Ok (table, w').
Proof.
  induction 1 as [|algoName rest Hs _ IH]; intros finalResults w;
    cbn [run_algorithms]; [now eexists _, _|].
  destruct (sample_of algoName) as [a|]; [|congruence].
  destruct (run_algorithm_total algoName a w) as (row & w1 & H).
  rewrite (io_bind_ok _ _ _ _ _ H). apply IH.
Qed.

End MainTotal.

End MainFacts.

(** * The properties of the harnesses *)

Section HarnessTheorems.
Context {M : MathLib} {F : NumberFormat} {W E : Type} {clock : Clock W}.
Variable candidate : sample -> Algorithm (W := W) (E := E).

(** C36. [verify] never throws, whatever the candidates do: every
    exception of a test is caught and printed.  Its exit code is 0 or 1, and
    it is 0 exactly when a pass was printed for each of the four tests. *)
Theorem verify_exit_code w :
  exists code log w',
    verify candidate w = Ok ((code, log), w')
    /\ (code = 0%Z \/ code = 1%Z)
    /\ (code = 0%Z <-> count_pass log = length tests).
Proof.
  unfold verify.
  destruct (run_tests_spec candidate tests (O, [Starting]) w)
    as (st & w' & H & Hd & Hb & Hm).
  rewrite (io_bind_ok _ _ _ _ _ H). cbn [fst snd count_pass filter is_pass length] in *.
  assert (Hc : count_pass (snd st ++ [Summary (fst st) (length tests)]) = fst st)
    by (rewrite count_pass_app; cbn; unfold count_pass in *; lia).
  destruct (Nat.eqb_spec (fst st) (length tests)) as [Heq|Hne];
    eexists _, _, _; (split; [reflexivity|]); rewrite Hc.
  - split; [now left | tauto].
  - split; [now right|]. split; [discriminate | contradiction].
Qed.

(** Whether [formatResult] adds the confidence to the label is
    decided by [confidence <= 75]: a confidence of exactly 75 is reported
    as low. *)
Theorem formatResult_spec complexity z :
  confidence complexity = of_Z z ->
  formatResult complexity =
  if (z <=? 75)%Z
  then (first_word (bestFit complexity) ++ " (Conf: "
        ++ number_toString (of_Z z) ++ "%)")%string
  else first_word (bestFit complexity).
Proof. intros Hz. unfold formatResult. now rewrite Hz, nle_of_Z. Qed.

(** Every standard strategy leaves at least three sizes for every
    algorithm, so no run of [main] falls into the short-circuit of the
    facade; for [quadraticTime] the sizes are those below
    [SLOW_ALGO_THRESHOLD], for the others all of them. *)
Theorem sizes_for_standard algoName strategyName generated :
  In (strategyName, generated) standardStrategies ->
  (3 <= length (sizes_for algoName generated))%nat
  /\ (algoName = "quadraticTime" ->
      Forall (fun size => (size < SLOW_ALGO_THRESHOLD)%Z) (sizes_for algoName generated))
  /\ (algoName <> "quadraticTime" -> sizes_for algoName generated = generated).
Proof.
  intros [H|[H|[]]]; inv H; unfold sizes_for;
    destruct (String.eqb_spec algoName "quadraticTime") as [->|Hne];
    (split; [cbn; lia|]); (split; [intros Hq | intros Hq]);
    try congruence; try reflexivity;
    cbn; repeat (apply Forall_cons; [unfold SLOW_ALGO_THRESHOLD; lia|]);
    apply Forall_nil.
Qed.

(** When [main] returns, its table has one row per exported algorithm, in
    the order of the export list; the rows of [constantTime] and
    [logarithmicTime] have the two standard strategies and the
    high-precision one, the other rows the two standard strategies. *)
Lemma main_table w table w' :
  main candidate w = Ok (table, w') ->
  map fst table = algorithm_names
  /\ map (fun row => map fst (snd row)) table = map strategies_of algorithm_names.
Proof. intros H. now apply run_algorithms_names in H. Qed.

(** C37. If the sample candidates return, [main] returns its table: every
    key of the export list names a sample, every run has enough sizes and
    at least one iteration, and the classifier does not throw on what the
    benchmark returns.  The table has one row per exported algorithm, in
    the order of the export list; the rows of [constantTime] and
    [logarithmicTime] have the two standard strategies and the
    high-precision one, the other rows the two standard strategies. *)
Theorem main_returns w :
  (forall a i w0, exists i' w1, candidate a i w0 = Ok (i', w1)) ->
  exists table w',
    main candidate w = Ok (table, w')
    /\ map fst table = algorithm_names
    /\ map (fun row => map fst (snd row)) table = map strategies_of algorithm_names.
Proof.
  intros Hret.
  destruct (run_algorithms_total candidate Hret algorithm_names) with
    (finalResults := @nil (string * list (string * string))) (w := w)
    as (table & w' & H).
  - unfold algorithm_names. repeat (apply Forall_cons; [discriminate|]).
    apply Forall_nil.
  - exists table, w'. split; [exact H | exact (main_table w table w' H)].
Qed.

End HarnessTheorems.

(** * The theorems at concrete inputs *)

(** Integers in base ten; the harness prints nothing else. *)
Definition decimal : NumberFormat := fun a =>
  match a with
  | NaN => "NaN"
  | Fin q => Z_toString (Qfloor q)
  end.

Definition exactly_75 : Complexity :=
  {| bestFit := O_n; confidence := of_Z 75; results := [] |}.

Lemma formatResult_spec_witness :
  formatResult (F := decimal) exactly_75 = "O(n) (Conf: 75%)".
Proof. apply (formatResult_spec (F := decimal) exactly_75 75). reflexivity. Defined.

Lemma sizes_for_standard_witness :
  (3 <= length (sizes_for "quadraticTime" [10; 100; 1000; 10000]%Z))%nat
  /\ ("quadraticTime" = "quadraticTime" ->
      Forall (fun size => (size < SLOW_ALGO_THRESHOLD)%Z)
        (sizes_for "quadraticTime" [10; 100; 1000; 10000]%Z))
  /\ ("quadraticTime" <> "quadraticTime" ->
      sizes_for "quadraticTime" [10; 100; 1000; 10000]%Z = [10; 100; 1000; 10000]%Z).
Proof.
  apply (sizes_for_standard "quadraticTime" "Standard Powers of 10").
  left. reflexivity.
Defined.

(** The sample candidates on the ideal clock, a microsecond an iteration. *)
Definition ideal_candidate (a : sample) : Algorithm (W := Q) (E := Empty_set) :=
  ideal_algorithm (cost_of a (1 # 1000)).

Lemma ideal_candidate_returns a i w0 :
  exists i' w1, ideal_candidate a i w0 = Ok (i', w1).
Proof. now eexists _, _. Qed.

Lemma main_returns_witness :
  exists table w',
    main (F := decimal) (clock := ideal_clock) ideal_candidate 0%Q = Ok (table, w')
    /\ map fst table = algorithm_names
    /\ map (fun row => map fst (snd row)) table = map strategies_of algorithm_names.
Proof.
  apply (main_returns (F := decimal) (clock := ideal_clock) ideal_candidate 0%Q).
  exact ideal_candidate_returns.
Defined.
