(* ===== verification/Legacy.v ===== *)
(** * The earlier calculator

    The first version of src/calculator.js, which the repository still
    holds (src/unnamed/part_001, lines 1 to 141): a benchmarker without
    calibration or batches, which makes a fresh array for every call it
    times, and a classifier that ranks four regression models by their
    coefficient of determination.  The module [V1] keeps the names of the
    source; [rSquared] is the function of simple-statistics, modelled from
    its documented behaviour.

    The benchmarker of the current version is checked against this one:
    on the ideal clock they return the same samples.  For every candidate
    that returns the earlier benchmarker returns a sample per size, and
    the earlier classifier returns on every list of samples, the empty
    one included. *)

From Stdlib Require Import String.
From Stdlib Require Import QArith Qround Lqa Lia ZArith List Bool Permutation.
From S2P Require Import Prelude.
From S2P Require Import Numeric.
From S2P Require Import JsArray.
From S2P Require Import Stats.
From S2P Require Import DataModel.
From S2P Require Import Benchmark.
Import ListNotations.

Local Open Scope Q_scope.
Local Open Scope js_scope.

Module V1.

(** ** The benchmarker *)

Section Benchmark.
Context {W E : Type} {clock : Clock W}.
Variable algorithm : Algorithm (W := W) (E := E).

(** The warm-up: five calls on the array of the first size. *)
Definition warmup (inputSizes : list Z) : io W (exn E) unit :=
  match inputSizes with
  | [] => io_ret tt
  | warmupSize :: _ =>
      let warmupArray := InArray (generateInputArray warmupSize) in
      _ <- io_repeat 5 algorithm warmupArray ;;
      io_ret tt
  end.

(** One timed call on a fresh array. *)
Definition measure_once (size : Z) : io W (exn E) num :=
  let array := InArray (generateInputArray size) in
  start <- now ;;
  _ <- algorithm array ;;
  end_ <- now ;;
  io_ret (Fin (end_ - start)).

Fixpoint measure (k : nat) (size : Z) (times : list num)
  : io W (exn E) (list num) :=
  match k with
  | O => io_ret times
  | S k' => t <- measure_once size ;; measure k' size (times ++ [t])
  end.

Definition analyse_size (iterations : num) (size : Z) : io W (exn E) DataPoint :=
  times <- measure (loop_count iterations) size [] ;;
  match mean times with
  | Ok avgTime => io_ret {| n := size; time := avgTime |}
  | Throw err => io_throw (Internal err)
  end.

Fixpoint analyse_all (iterations : num) (inputSizes : list Z)
    (dataPoints : list DataPoint) : io W (exn E) (list DataPoint) :=
  match inputSizes with
  | [] => io_ret dataPoints
  | size :: rest =>
      d <- analyse_size iterations size ;;
      analyse_all iterations rest (dataPoints ++ [d])
  end.

(** [runAnalysis(algorithm, inputSizes, iterations)]. *)
Definition runAnalysis (inputSizes : list Z) (iterations : num)
  : io W (exn E) (list DataPoint) :=
  _ <- warmup inputSizes ;;
  analyse_all iterations inputSizes [].

End Benchmark.

(** ** The classifier *)

(** An entry of [models]. *)
Record R2Model : Type := { type : string; r2 : num }.

(** What [determineComplexity] returns. *)
Record Result : Type := { bestFit : string; results : list R2Model }.

(** [ss.rSquared(data, func)]: one minus the ratio of the squared error of
    [func] to the squared deviation from the mean; 1 for fewer than two
    points. *)
Definition rSquared (data : list (num * num)) (func : num -> num) : num :=
  if (length data <? 2)%nat then of_Z 1
  else
    let sum := fold_left (fun acc p => nadd acc (snd p)) data (of_Z 0) in
    let average := ndiv sum (of_nat (length data)) in
    let sumOfSquares :=
      fold_left (fun acc p => nadd acc (nsq (nsub average (snd p)))) data (of_Z 0) in
    let err :=
      fold_left (fun acc p => nadd acc (nsq (nsub (snd p) (func (fst p))))) data
        (of_Z 0) in
    nsub (of_Z 1) (ndiv err sumOfSquares).

Section Classifier.
Context {M : MathLib}.

(** The R-squared of the regression of the times on a covariate. *)
Definition regressionR2 (dataPoints : list DataPoint) (transformFn : num -> num)
  : num :=
  let data := map (fun d => (transformFn (of_Z (n d)), time d)) dataPoints in
  let model := linearRegression data in
  let line := linearRegressionLine model in
  rSquared data line.

(** [models] before the sort. *)
Definition fits (dataPoints : list DataPoint) : list R2Model :=
  [ {| type := O_n; r2 := regressionR2 dataPoints (fun x => x) |};
    {| type := O_n2; r2 := regressionR2 dataPoints nsq |};
    {| type := O_log_n; r2 := regressionR2 dataPoints nlog |};
    {| type := O_n_log_n; r2 := regressionR2 dataPoints (fun x => nmul x (nlog x)) |} ].

Definition tolerance : num := Fin 0.01.

(** One of the two simplicity checks: the model labelled [label] takes the
    place of the best model when its R-squared is within the tolerance. *)
Definition prefer (label : string) (models : list R2Model) (bestModel : R2Model)
  : R2Model :=
  match js_find (fun m => String.eqb (type m) label) models with
  | Some simple =>
      if negb (String.eqb (type bestModel) label) then
        if nlt (nsub (r2 bestModel) (r2 simple)) tolerance then simple
        else bestModel
      else bestModel
  | None => bestModel
  end.

(** [determineComplexity(dataPoints)]. *)
Definition determineComplexity (dataPoints : list DataPoint)
  : res jserror Result :=
  let models := js_sort (fun a b => nsub (r2 b) (r2 a)) (fits dataPoints) in
  match models with
  | [] => Throw (TypeError "Cannot read properties of undefined")
  | m0 :: _ =>
      let bestModel := m0 in
      let bestModel := prefer O_n models bestModel in
      let bestModel := prefer O_log_n models bestModel in
      Ok {| bestFit := type bestModel; results := models |}
  end.

End Classifier.

(** ** The earlier benchmarker on the ideal clock *)

Section Ideal.
Variable cost : Input -> Q.
Hypothesis cost_nonneg : forall input, 0 <= cost input.

#[local] Existing Instance ideal_clock.

Lemma v1_ideal_measure_once size t :
  exists q t', measure_once (ideal_algorithm cost) size t = Ok (Fin q, t')
    /\ q == cost (make_input "array" size).
Proof.
  exists (t + cost (InArray (generateInputArray size)) - t),
         (t + cost (InArray (generateInputArray size))).
  split; [reflexivity|].
  change (make_input "array" size) with (InArray (generateInputArray size)). ring.
Qed.

Lemma v1_ideal_measure size k : forall qs t,
  Forall (fun q => q == cost (make_input "array" size)) qs ->
  exists qs' t',
    measure (ideal_algorithm cost) k size (map Fin qs) t = Ok (map Fin qs', t')
    /\ Forall (fun q => q == cost (make_input "array" size)) qs'
    /\ length qs' = (length qs + k)%nat.
Proof.
  induction k as [|k IH]; intros qs t Hqs; cbn [measure].
  - exists qs, t. repeat split; [assumption | lia].
  - destruct (v1_ideal_measure_once size t) as (q & t1 & H & Hq).
    rewrite (io_bind_ok _ _ _ _ _ H).
    change [Fin q] with (map Fin [q]). rewrite <- map_app.
    destruct (IH (qs ++ [q]) t1) as (qs' & t' & H' & Hall & Hlen).
    + apply Forall_app. split; [assumption | now constructor].
    + exists qs', t'. repeat split; try assumption.
      rewrite Hlen, length_app. cbn. lia.
Qed.

Lemma v1_ideal_analyse_size (iterations : Z) size t :
  (1 <= iterations)%Z ->
  exists q t',
    analyse_size (ideal_algorithm cost) (of_Z iterations) size t
      = Ok ({| n := size; time := Fin q |}, t')
    /\ q == cost (make_input "array" size).
Proof.
  intros Hit. unfold analyse_size.
  destruct (v1_ideal_measure size (loop_count (of_Z iterations)) [] t (Forall_nil _))
    as (qs & t' & Hm & Hall & Hlen).
  change (@nil num) with (map Fin []).
  rewrite (io_bind_ok _ _ _ _ _ Hm).
  assert (Hne : qs <> []).
  { rewrite loop_count_of_Z in Hlen. destruct qs; [cbn in Hlen; lia | congruence]. }
  rewrite (mean_fin qs Hne). eexists _, t'. split; [reflexivity|].
  now apply Qmean_const.
Qed.

Lemma v1_ideal_analyse_all (iterations : Z) inputSizes :
  (1 <= iterations)%Z ->
  forall dataPoints t, exists r t',
    analyse_all (ideal_algorithm cost) (of_Z iterations) inputSizes dataPoints t
      = Ok (dataPoints ++ r, t')
    /\ Forall2 (measures_cost cost "array") r inputSizes.
Proof.
  intros Hit. induction inputSizes as [|size rest IH]; intros dataPoints t;
    cbn [analyse_all].
  - exists [], t. rewrite app_nil_r. now split.
  - destruct (v1_ideal_analyse_size iterations size t Hit) as (q & t1 & H & Hq).
    rewrite (io_bind_ok _ _ _ _ _ H).
    destruct (IH (dataPoints ++ [{| n := size; time := Fin q |}]) t1)
      as (r & t' & H' & Hall).
    exists ({| n := size; time := Fin q |} :: r), t'. split.
    + now rewrite H', <- app_assoc.
    + constructor; [|assumption]. split; [reflexivity | now exists q].
Qed.

Lemma v1_ideal_runAnalysis inputSizes (iterations : Z) t :
  (1 <= iterations)%Z ->
  exists r t',
    runAnalysis (ideal_algorithm cost) inputSizes (of_Z iterations) t = Ok (r, t')
    /\ Forall2 (measures_cost cost "array") r inputSizes.
Proof.
  intros Hit. unfold runAnalysis.
  assert (Hw : exists t1, warmup (ideal_algorithm cost) inputSizes t = Ok (tt, t1)).
  { destruct inputSizes as [|size rest]; cbn [warmup]; [now eexists|].
    destruct (ideal_repeat cost 5 (InArray (generateInputArray size)) t)
      as (t1 & H & _).
    rewrite (io_bind_ok _ _ _ _ _ H). now eexists. }
  destruct Hw as (t1 & Hw). rewrite (io_bind_ok _ _ _ _ _ Hw).
  destruct (v1_ideal_analyse_all iterations inputSizes Hit [] t1) as (r & t' & H & Hall).
  now exists r, t'.
Qed.

End Ideal.

(** Two samples that agree: the same size, equal times. *)
Definition same_sample (d d' : DataPoint) : Prop :=
  n d = n d' /\ num_eq (time d) (time d').

Lemma measures_cost_same cost inputMode r r' inputSizes :
  Forall2 (measures_cost cost inputMode) r inputSizes ->
  Forall2 (measures_cost cost inputMode) r' inputSizes ->
  Forall2 same_sample r r'.
Proof.
  intros H. revert r'. induction H as [|d size r sizes Hd _ IH]; intros r' H';
    inv H'; constructor.
  - destruct Hd as [Hn (q & Ht & Hq)].
    match goal with H : measures_cost _ _ _ _ |- _ =>
      destruct H as [Hn' (q' & Ht' & Hq')] end.
    split; [congruence|]. rewrite Ht, Ht'. cbn. now rewrite Hq, Hq'.
  - now apply IH.
Qed.

(** ** The classifier: what it can answer *)

Section ClassifierFacts.
Context {M : MathLib}.

Lemma prefer_cases label models bestModel :
  prefer label models bestModel = bestModel
  \/ In (prefer label models bestModel) models.
Proof.
  unfold prefer.
  destruct (js_find _ models) as [simple|] eqn:Hf; [|now left].
  destruct (negb _); [|now left].
  destruct (nlt _ _); [right | now left].
  unfold js_find in Hf. apply find_some in Hf. tauto.
Qed.

Lemma v1_fits_types dataPoints :
  map type (fits dataPoints) = [O_n; O_n2; O_log_n; O_n_log_n].
Proof. reflexivity. Qed.

(** The earlier classifier always returns; its results are the four
    regression models, each once, and its answer is one of them: it can
    never answer the constant model. *)
Lemma determineComplexity_four_models dataPoints :
  exists r, determineComplexity dataPoints = Ok r
    /\ Permutation (map type (results r)) [O_n; O_n2; O_log_n; O_n_log_n]
    /\ In (bestFit r) [O_n; O_n2; O_log_n; O_n_log_n]
    /\ bestFit r <> O_1.
Proof.
  unfold determineComplexity.
  pose proof (js_sort_perm (fun a b => nsub (r2 b) (r2 a)) (fits dataPoints)) as Hp.
  destruct (js_sort _ (fits dataPoints)) as [|m0 rest] eqn:Hs.
  - apply Permutation_length in Hp. discriminate Hp.
  - set (models := m0 :: rest) in *.
    assert (Hin : In (prefer O_log_n models (prefer O_n models m0)) models).
    { destruct (prefer_cases O_log_n models (prefer O_n models m0)) as [->|H];
        [|exact H].
      destruct (prefer_cases O_n models m0) as [->|H]; [now left | exact H]. }
    assert (Ht : Permutation (map type models) [O_n; O_n2; O_log_n; O_n_log_n])
      by (rewrite (Permutation_map type Hp); reflexivity).
    assert (Hb : In (type (prefer O_log_n models (prefer O_n models m0)))
                    [O_n; O_n2; O_log_n; O_n_log_n])
      by (eapply Permutation_in; [exact Ht | now apply in_map]).
    eexists. split; [reflexivity|]. cbn [results bestFit].
    split; [exact Ht|]. split; [exact Hb|].
    intros E. rewrite E in Hb. cbn in Hb.
    repeat (destruct Hb as [Hb|Hb]; [discriminate Hb|]). exact Hb.
Qed.

(** With fewer than two samples every model has the score 1, and the two
    simplicity checks end on the logarithmic model. *)
Lemma determineComplexity_few_samples dataPoints :
  (length dataPoints <= 1)%nat ->
  determineComplexity dataPoints
  = Ok {| bestFit := O_log_n;
          results := map (fun label => {| type := label; r2 := of_Z 1 |})
                       [O_n; O_n2; O_log_n; O_n_log_n] |}.
Proof.
  intros Hlen.
  assert (Hr : forall transformFn, regressionR2 dataPoints transformFn = of_Z 1).
  { intros transformFn. unfold regressionR2, rSquared. rewrite length_map.
    now rewrite (proj2 (Nat.ltb_lt _ _)) by lia. }
  unfold determineComplexity, fits. rewrite !Hr. reflexivity.
Qed.

End ClassifierFacts.

(** ** The earlier benchmarker returns *)

Section Total.
Context {W E : Type} {clock : Clock W}.
Variable algorithm : Algorithm (W := W) (E := E).
Hypothesis returns : forall i w0, exists i' w1, algorithm i w0 = Ok (i', w1).

Lemma v1_call_spec i :
  io_spec (fun _ => True) (algorithm i) (fun _ _ => True).
Proof. intros w _. destruct (returns i w) as (i' & w' & H). now exists i', w'. Qed.

Lemma v1_now_spec :
  io_spec (E := exn E) (fun _ : W => True) now (fun _ _ => True).
Proof.
  intros w _. unfold now. destruct (performance_now w) as [t w']. now exists t, w'.
Qed.

Lemma v1_measure_once_spec size :
  io_spec (fun _ => True) (measure_once algorithm size) (fun _ _ => True).
Proof.
  unfold measure_once.
  eapply io_spec_bind; [apply v1_now_spec|]. intros start.
  eapply io_spec_bind; [apply v1_call_spec|]. intros i.
  eapply io_spec_bind; [apply v1_now_spec|]. intros end_ w _. now eexists _, _.
Qed.

Lemma v1_measure_spec k size : forall times,
  io_spec (fun _ => True) (measure algorithm k size times)
          (fun r _ => length r = (length times + k)%nat).
Proof.
  induction k as [|k IH]; intros times; cbn [measure].
  - intros w _. exists times, w. split; [reflexivity | lia].
  - eapply io_spec_bind; [apply v1_measure_once_spec|]. intros t.
    eapply io_spec_weaken; [apply IH | trivial|].
    intros r _ ->. rewrite length_app. cbn [length]. lia.
Qed.

Lemma v1_analyse_size_spec (iterations : Z) size :
  (1 <= iterations)%Z ->
  io_spec (fun _ => True) (analyse_size algorithm (of_Z iterations) size)
          (fun d _ => n d = size).
Proof.
  intros Hit. unfold analyse_size.
  eapply io_spec_bind; [apply v1_measure_spec|]. intros times w Hlen.
  rewrite loop_count_of_Z in Hlen. cbn [length] in Hlen.
  destruct (mean times) as [avgTime|e] eqn:Hmean; [now eexists _, _|].
  assert (Hok : is_ok (mean times) = true)
    by (apply mean_ok_iff; destruct times; [cbn in Hlen; lia | discriminate]).
  rewrite Hmean in Hok. discriminate Hok.
Qed.

Lemma v1_analyse_all_spec (iterations : Z) inputSizes :
  (1 <= iterations)%Z -> forall dataPoints,
  io_spec (fun _ => True) (analyse_all algorithm (of_Z iterations) inputSizes dataPoints)
          (fun r _ => map n r = map n dataPoints ++ inputSizes).
Proof.
  intros Hit. induction inputSizes as [|size rest IH]; intros dataPoints;
    cbn [analyse_all].
  - intros w _. exists dataPoints, w. now rewrite app_nil_r.
  - eapply io_spec_bind; [apply (v1_analyse_size_spec iterations size Hit)|].
    intros d w Hd. destruct (IH (dataPoints ++ [d]) w I) as (r & w' & H & Hr).
    exists r, w'. split; [exact H|].
    rewrite Hr, map_app, <- app_assoc. cbn [map app]. now rewrite Hd.
Qed.

(** The earlier [runAnalysis] on a candidate that returns: a sample for
    every size, in order. *)
Lemma v1_runAnalysis_spec (iterations : Z) inputSizes :
  (1 <= iterations)%Z ->
  io_spec (fun _ => True) (runAnalysis algorithm inputSizes (of_Z iterations))
          (fun r _ => map n r = inputSizes).
Proof.
  intros Hit. unfold runAnalysis.
  eapply io_spec_bind with (Q := fun _ _ => True).
  - destruct inputSizes as [|warmupSize rest]; cbn [warmup];
      [intros w _; now eexists _, _|].
    eapply io_spec_bind;
      [apply (io_spec_repeat (fun _ => True)); intros a; apply v1_call_spec|].
    intros i w _. now eexists _, _.
  - intros _. apply (v1_analyse_all_spec iterations inputSizes Hit []).
Qed.

End Total.

(** C18. On the ideal clock the batched benchmarker of the current version
    and the unbatched one of the first version return the same samples:
    calibration and batching change how long the measurement takes, not
    what is measured. *)
Theorem batched_agrees_with_unbatched cost inputSizes (iterations : Z) t0 t1 :
  (forall input, 0 <= cost input) -> (1 <= iterations)%Z ->
  exists r r' t t',
    Benchmark.runAnalysis (clock := ideal_clock) (ideal_algorithm cost)
      inputSizes (of_Z iterations) "array" t0 = Ok (r, t)
    /\ runAnalysis (clock := ideal_clock) (ideal_algorithm cost)
         inputSizes (of_Z iterations) t1 = Ok (r', t')
    /\ Forall2 same_sample r r'.
Proof.
  intros Hcost Hit.
  destruct (v1_ideal_runAnalysis cost inputSizes iterations t1 Hit)
    as (r' & t' & H' & Hall').
  destruct (ideal_warmup cost inputSizes "array" t0) as (t2 & Hw).
  destruct (Benchmark.ideal_analyse_all cost Hcost iterations "array" inputSizes
              Hit [] t2) as (r & t & H & Hall).
  exists r, r', t, t'. split; [|split; [exact H'|]].
  - unfold Benchmark.runAnalysis. now rewrite (io_bind_ok _ _ _ _ _ Hw).
  - exact (measures_cost_same cost "array" r r' inputSizes Hall Hall').
Qed.

End V1.

(** * The theorems at concrete inputs *)

Lemma batched_agrees_with_unbatched_witness :
  exists r r' t t',
    Benchmark.runAnalysis (clock := ideal_clock) (ideal_algorithm cost5)
      [2; 3]%Z (of_Z 3) "array" 0 = Ok (r, t)
    /\ V1.runAnalysis (clock := ideal_clock) (ideal_algorithm cost5)
         [2; 3]%Z (of_Z 3) 7 = Ok (r', t')
    /\ Forall2 V1.same_sample r r'.
Proof.
  apply (V1.batched_agrees_with_unbatched cost5 [2; 3]%Z 3 0 7).
  - intros input. unfold cost5. lra.
  - lia.
Defined.
