(* ===== verification/Cli.v ===== *)
(** * The command-line front end

    src/utils/input.js (src/unnamed/part_000, lines 1 to 51) and the current
    src/index.js (src/unnamed/part_001, lines 220 to 386).  The user is a
    record of answers ([Session]): what readline-sync returns for each
    question that [main] can ask, the text typed at the numeric questions
    included, and what [require] gives for the file of a custom function
    ([Exports]).  [Number] and [parseInt] are the functions of the file
    Text.  The benchmarker takes integer sizes; an answer [Infinity] gives
    sizes that are not numbers, an outcome of its own ([NaNSizes]).  What is
    printed is a list of [Shown] lines, without colours and without the
    chart, whose module is not among the sources. *)

From Stdlib Require Import String.
From Stdlib Require Import QArith Qround Qabs Lqa Lia ZArith List Bool.
From S2P Require Import Prelude.
From S2P Require Import Numeric.
From S2P Require Import Text.
From S2P Require Import JsArray.
From S2P Require Import Stats.
From S2P Require Import DataModel.
From S2P Require Import Classifier.
From S2P Require Import Benchmark.
From S2P Require Import Monotone.
From S2P Require Import Algorithms.
From S2P Require Import Harness.
Import ListNotations.

Local Open Scope string_scope.
Local Open Scope list_scope.
Local Open Scope js_scope.

(** ** src/utils/input.js *)

Module Index.

(** [getNumberFromConsole]: from what [readlineSync.question] returned.
    [isNaN] lets the infinities through, and [parseInt] of an infinity is
    [NaN]. *)
Definition getNumberFromConsole (userInput : option string) : option num :=
  match userInput with
  | None => None
  | Some "" => None
  | Some text =>
      match Number_of text with
      | JNaN => None
      | JFin number => Some (parseInt_number number)
      | JInf _ => Some NaN
      end
  end.

(** [getOptionFromConsole]: from the index [readlineSync.keyInSelect]
    returned. *)
Definition getOptionFromConsole (index : Z) (options : list string)
  : option string :=
  if (index =? -1)%Z then None else nth_error options (Z.to_nat index).

(** [getStringFromConsole]. *)
Definition getStringFromConsole (userInput : option string) : option string :=
  match userInput with
  | None => None
  | Some "" => None
  | Some text => Some text
  end.

(** [getYesNoFromConsole]: what [readlineSync.keyInYN] returned. *)
Definition getYesNoFromConsole (response : bool) : bool := response.

(** ** The growth strategies of [main] *)

Definition growthStrategies : list string :=
  ["Powers of 10 (10, 100, 1000...)"; "Doubling (100, 200, 400...)";
   "Linear Steps (1000, 2000, 3000...)"].

(** [s.startsWith(prefix)]. *)
Definition startsWith (s prefix : string) : bool := String.prefix prefix s.

(** [for (let i = 1; i <= maxPower; i++) inputSizes.push(10 ** i)]. *)
Definition powers (maxPower : num) : list num :=
  match maxPower with
  | Fin q => map (fun i => of_Z (10 ^ Z.of_nat i)) (seq 1 (Z.to_nat (Qfloor q)))
  | NaN => []
  end.

(** The doubling loop: [steps] sizes from [startSize]. *)
Fixpoint doubling_loop (k : nat) (current : num) (inputSizes : list num)
  : list num :=
  match k with
  | O => inputSizes
  | S k' => doubling_loop k' (nmul current (of_Z 2)) (inputSizes ++ [current])
  end.

Definition doublingSizes (startSize steps : num) : list num :=
  doubling_loop (loop_count steps) startSize [].

(** [for (let i = 0; i < count; i++) inputSizes.push(startSize + i * stepSize)]. *)
Definition linearSteps (startSize stepSize count : num) : list num :=
  map (fun i => nadd startSize (nmul (of_nat i) stepSize)) (seq 0 (loop_count count)).

(** What is typed at the questions of a strategy, in the order they are
    asked. *)
Record Numbers : Type := {
  first : option string;
  second : option string;
  third : option string
}.

(** The sizes of the selected strategy; [None] when an answer is missing
    and [main] returns. *)
Definition inputSizes (selectedStrategy : string) (a : Numbers)
  : option (list num) :=
  if startsWith selectedStrategy "Powers of 10" then
    match getNumberFromConsole (first a) with
    | None => None
    | Some maxPower => Some (powers maxPower)
    end
  else if startsWith selectedStrategy "Doubling" then
    match getNumberFromConsole (first a), getNumberFromConsole (second a) with
    | Some startSize, Some steps => Some (doublingSizes startSize steps)
    | _, _ => None
    end
  else if startsWith selectedStrategy "Linear Steps" then
    match getNumberFromConsole (first a), getNumberFromConsole (second a),
          getNumberFromConsole (third a) with
    | Some startSize, Some stepSize, Some count =>
        Some (linearSteps startSize stepSize count)
    | _, _, _ => None
    end
  else Some [].

(** ** Display and re-run *)

(** What [displayAnalysis] prints. *)
Inductive Shown : Type :=
| Header
| MostLikely (bestFit : string)
| ConfidenceLine (green : bool) (confidence : num)
| LowConfidenceWarning
| FitHeader
| Fit (type : string) (rmse : string).

(** [displayAnalysis(complexity, dataPoints)], without the chart. *)
Definition displayAnalysis (complexity : Complexity) : list Shown :=
  [Header; MostLikely (bestFit complexity);
   ConfidenceLine (ngt (confidence complexity) (of_Z 75)) (confidence complexity)]
  ++ (if nle (confidence complexity) (of_Z 75) then [LowConfidenceWarning] else [])
  ++ [FitHeader]
  ++ map (fun res => Fit (fst res) (toFixed 6 (snd res))) (results complexity).

Definition isFastIsh (bestFit : string) : bool :=
  includes bestFit "O(1)" || includes bestFit "O(log n)"
  || includes bestFit "O(n)" || includes bestFit "O(n log n)".

Definition isSlow (bestFit : string) : bool := includes bestFit "O(n^2)".

(** Whether the high-precision analysis is run, given what the user would
    answer to the question. *)
Definition userWantsRerun (initialComplexity : Complexity) (answer : bool) : bool :=
  if nle (confidence initialComplexity) (of_Z 75) then
    if isFastIsh (bestFit initialComplexity) then getYesNoFromConsole answer
    else if isSlow (bestFit initialComplexity) then getYesNoFromConsole answer
    else false
  else false.

Definition highPrecisionInputSizes : list Z := [10; 1000; 100000; 10000000]%Z.

(** The sizes as integers, when they all are. *)
Definition integral (sizes : list num) : option (list Z) :=
  fold_right
    (fun x acc =>
       match x, acc with
       | Fin q, Some l =>
           if Qeq_bool q (inject_Z (Qfloor q)) then Some (Qfloor q :: l) else None
       | _, _ => None
       end)
    (Some []) sizes.

Section Main.
Context {M : MathLib} {W E : Type} {clock : Clock W}.

(** [runAndDisplayAnalysis]: the result and what was printed for it. *)
Definition runAndDisplayAnalysis (algorithm : Algorithm (W := W) (E := E))
    (inputSizes : list Z) (inputMode : string)
  : io W (exn E) (Complexity * list Shown) :=
  dataPoints <- runAnalysis algorithm inputSizes (of_Z 10) inputMode ;;
  match determineComplexity dataPoints with
  | Throw err => io_throw (Internal err)
  | Ok complexity => io_ret (complexity, displayAnalysis complexity)
  end.

(** Steps 3 and 4 of [main]: the first analysis and, on a low confidence
    and a yes, the high-precision one.  The result is what was printed for
    each analysis that ran. *)
Definition analyse (algorithm : Algorithm (W := W) (E := E))
    (inputSizes : list Z) (inputMode : string) (answer : bool)
  : io W (exn E) (list (list Shown)) :=
  r <- runAndDisplayAnalysis algorithm inputSizes inputMode ;;
  if userWantsRerun (fst r) answer then
    r' <- runAndDisplayAnalysis algorithm highPrecisionInputSizes inputMode ;;
    io_ret [snd r; snd r']
  else io_ret [snd r].

(** ** The algorithm under test *)

(** A function as [main] holds it: called with one argument, or with a
    second one. *)
Definition Callable : Type := option Z -> Algorithm (W := W) (E := E).

(** The value of [require(absolutePath)], by what [typeof] says of it.
    Of an object, [functions] are the keys whose values are functions, in
    the order of [Object.keys], with their values. *)
Inductive Exports : Type :=
| ExportsFunction (name : string) (f : Callable)
| ExportsObject (functions : list (string * Callable))
| ExportsNull
| ExportsOther.

(** The answers of a session. *)
Record Session : Type := {
  sourceIndex : Z;
  algoIndex : Z;
  filePath : option string;
  required : res string Exports;
  exportIndex : Z;
  modeIndex : Z;
  strategyIndex : Z;
  numbers : Numbers;
  rerun : bool
}.

Definition sourceOptions : list string :=
  ["Built-in Algorithms"; "Load Custom Function from File"].

Definition inputModeOptions : list string :=
  ["Array of n items (for sorting, iteration, etc.)";
   "The number n itself (for mathematical, digit-based functions, etc.)"].

(** How the selection of the algorithm ends: [main] returns, the file
    could not be used, or there is an algorithm with its name and its
    input mode. *)
Inductive Selection : Type :=
| Cancelled
| LoadFailed (message : string)
| Selected (selectedAlgoName : string) (algorithm : Callable) (inputMode : string).

(** The question on how the input is passed. *)
Definition select_mode (s : Session) (selectedAlgoName : string)
    (algorithm : Callable) : Selection :=
  match getOptionFromConsole (modeIndex s) inputModeOptions with
  | None => Cancelled
  | Some selectedModeDescription =>
      Selected selectedAlgoName algorithm
        (if includes selectedModeDescription "Array" then "array" else "number")
  end.

(** [customModule[selectedAlgoName]]. *)
Definition property (functions : list (string * Callable)) (key : string)
  : option Callable :=
  option_map snd (find (fun p => String.eqb (fst p) key) functions).

(** The branch 'Load Custom Function from File': the [try] block and its
    [catch]. *)
Definition load (s : Session) : Selection :=
  match filePath s with
  | None => Cancelled
  | Some "" => Cancelled
  | Some _ =>
      match required s with
      | Throw message => LoadFailed message
      | Ok (ExportsFunction name f) =>
          select_mode s (if String.eqb name "" then "Custom Function" else name) f
      | Ok (ExportsObject []) =>
          LoadFailed "No exported functions found in that file."
      | Ok (ExportsObject functions) =>
          match getOptionFromConsole (exportIndex s) (map fst functions) with
          | None => Cancelled
          | Some "" => Cancelled
          | Some selectedAlgoName =>
              match property functions selectedAlgoName with
              | Some f => select_mode s selectedAlgoName f
              | None => Cancelled
              end
          end
      | Ok ExportsNull => LoadFailed "Cannot convert undefined or null to object"
      | Ok ExportsOther => LoadFailed "Module does not export a function or object."
      end
  end.

(** The functions of src/test_algorithms.js. *)
Variable algorithms : sample -> Callable.

(** Step 1 of [main]: the source, then the algorithm. *)
Definition select (s : Session) : Selection :=
  match getOptionFromConsole (sourceIndex s) sourceOptions with
  | None => Cancelled
  | Some source =>
      if String.eqb source "Built-in Algorithms" then
        match getOptionFromConsole (algoIndex s) algorithm_names with
        | None => Cancelled
        | Some selectedAlgoName =>
            match sample_of selectedAlgoName with
            | Some a => Selected selectedAlgoName (algorithms a) "array"
            | None => Cancelled
            end
        end
      else load s
  end.

(** The special handling of [logarithmicTime]: a target that is not in
    the array. *)
Definition wrap (selectedAlgoName : string) (algorithm : Callable)
  : Algorithm (W := W) (E := E) :=
  if String.eqb selectedAlgoName "logarithmicTime" then algorithm (Some (-1)%Z)
  else algorithm None.

(** How [main] ends: it returns before an analysis, it reports that the
    file could not be loaded, the sizes are not numbers, or it runs the
    analyses of [run]. *)
Inductive Outcome : Type :=
| Returned
| LoadError (message : string)
| NaNSizes
| Analysis (selectedAlgoName : string) (run : io W (exn E) (list (list Shown))).

(** [main()]. *)
Definition main (s : Session) : Outcome :=
  match select s with
  | Cancelled => Returned
  | LoadFailed message => LoadError message
  | Selected selectedAlgoName algorithm inputMode =>
      match getOptionFromConsole (strategyIndex s) growthStrategies with
      | None => Returned
      | Some selectedStrategy =>
          match inputSizes selectedStrategy (numbers s) with
          | None => Returned
          | Some sizes =>
              match integral sizes with
              | None => NaNSizes
              | Some l =>
                  Analysis selectedAlgoName
                    (analyse (wrap selectedAlgoName algorithm) l inputMode (rerun s))
              end
          end
      end
  end.

End Main.

(** * Facts *)

Lemma integral_of_Z (l : list Z) : integral (map of_Z l) = Some l.
Proof.
  induction l as [|z l IH]; [reflexivity|].
  cbn [map integral fold_right]. fold (integral (map of_Z l)). rewrite IH.
  unfold of_Z. rewrite Qfloor_Z.
  now rewrite (proj2 (Qeq_bool_iff _ _) (Qeq_refl _)).
Qed.

(** Integers that are equal as numbers. *)
Lemma integral_eq (sizes : list num) (l : list Z) :
  Forall2 (fun x z => num_eq x (of_Z z)) sizes l -> integral sizes = Some l.
Proof.
  induction 1 as [|x z sizes l Hx _ IH]; [reflexivity|].
  cbn [integral fold_right]. fold (integral sizes). rewrite IH.
  destruct x as [q|]; [|contradiction]. cbn in Hx.
  assert (E : Qfloor q = z) by (rewrite (Qfloor_comp _ _ Hx); apply Qfloor_Z).
  rewrite E. now rewrite (proj2 (Qeq_bool_iff _ _) Hx).
Qed.

Lemma powers_of_Z (k : Z) :
  powers (of_Z k) = map of_Z (map (fun i => 10 ^ Z.of_nat i)%Z (seq 1 (Z.to_nat k))).
Proof. unfold powers, of_Z. now rewrite Qfloor_Z, map_map. Qed.

(** A strictly increasing list has no duplicate. *)
Lemma increasing_NoDup (l : list Z) : Sorted.StronglySorted Z.lt l -> NoDup l.
Proof.
  induction 1 as [|z l _ IH Hz]; constructor; [|exact IH].
  intros Hin. apply (proj1 (Forall_forall _ _) Hz) in Hin. lia.
Qed.

Lemma powers_increasing start k :
  Sorted.StronglySorted Z.lt (map (fun i => 10 ^ Z.of_nat i)%Z (seq start k)).
Proof.
  revert start. induction k as [|k IH]; intros start; cbn [seq map]; constructor.
  - apply IH.
  - apply Forall_forall. intros z Hz. apply in_map_iff in Hz as (j & <- & Hj).
    apply in_seq in Hj. apply Z.pow_lt_mono_r; lia.
Qed.

Lemma linearSteps_zero (a c : Z) :
  Forall2 (fun x z => num_eq x (of_Z z))
    (linearSteps (of_Z a) (of_Z 0) (of_Z c)) (repeat a (Z.to_nat c)).
Proof.
  unfold linearSteps. rewrite loop_count_of_Z. generalize (Z.to_nat c) as k.
  intros k. generalize O as start. induction k as [|k IH]; intros start;
    cbn [seq map repeat]; constructor; [|apply IH].
  unfold of_nat, of_Z. cbn. change (inject_Z 0) with 0%Q. ring.
Qed.

(** ** The console *)

(** [isNaN] lets the infinities through, and [parseInt] makes them [NaN]. *)
Lemma getNumberFromConsole_infinity :
  getNumberFromConsole (Some "Infinity") = Some NaN.
Proof. reflexivity. Qed.

(** A blank answer is the number 0. *)
Lemma getNumberFromConsole_blank : getNumberFromConsole (Some " ") = Some (of_Z 0).
Proof. reflexivity. Qed.

Lemma getNumberFromConsole_text text :
  text <> "" ->
  getNumberFromConsole (Some text)
  = match Number_of text with
    | JNaN => None
    | JFin number => Some (parseInt_number number)
    | JInf _ => Some NaN
    end.
Proof. destruct text; [contradiction | reflexivity]. Qed.

(** Every number read from the console is an integer or [NaN]. *)
Lemma getNumberFromConsole_integral userInput a :
  getNumberFromConsole userInput = Some a -> a = NaN \/ exists z, a = of_Z z.
Proof.
  destruct userInput as [[|c text]|]; cbn [getNumberFromConsole]; try discriminate.
  destruct (Number_of _) as [q| |]; intros [= <-]; [right | left; reflexivity].
  apply parseInt_number_integral.
Qed.

(** * The properties of the command-line front end *)

(** The strategy 'Powers of 10' with a maximal power of at least 2
    gives integer sizes that are positive, strictly increasing and without
    duplicate: the sizes the classifier requires. *)
Theorem powers_valid (k : Z) :
  (2 <= k)%Z ->
  exists l, integral (powers (of_Z k)) = Some l
    /\ length l = Z.to_nat k
    /\ Forall (fun size => 0 < size)%Z l
    /\ Sorted.StronglySorted Z.lt l /\ NoDup l.
Proof.
  intros Hk. rewrite powers_of_Z, integral_of_Z. eexists. split; [reflexivity|].
  split; [now rewrite length_map, length_seq|].
  split; [|split; [apply powers_increasing | apply increasing_NoDup, powers_increasing]].
  apply Forall_forall. intros z Hz. apply in_map_iff in Hz as (j & <- & _).
  apply Z.pow_pos_nonneg; lia.
Qed.

(** The strategy 'Linear Steps' accepts a step of 0 and then gives the
    start size [count] times: sizes that are all equal, on which no
    regression is defined. *)
Lemma linearSteps_zero_step (answers : Numbers) (a c : Z) :
  getNumberFromConsole (first answers) = Some (of_Z a) ->
  getNumberFromConsole (second answers) = Some (of_Z 0) ->
  getNumberFromConsole (third answers) = Some (of_Z c) ->
  exists sizes,
    inputSizes "Linear Steps (1000, 2000, 3000...)" answers = Some sizes
    /\ integral sizes = Some (repeat a (Z.to_nat c)).
Proof.
  intros H1 H2 H3. unfold inputSizes. cbn [startsWith String.prefix].
  cbv beta iota. rewrite H1, H2, H3. eexists. split; [reflexivity|].
  apply integral_eq, linearSteps_zero.
Qed.

(** C26. An integer below [1e21] in absolute value, typed in decimal, is
    read from the console as itself. *)
Theorem getNumberFromConsole_printed (z : Z) :
  (Z.abs z < 10 ^ 21)%Z ->
  getNumberFromConsole (Some (Z_toString z)) = Some (of_Z z).
Proof.
  intros Hz. rewrite getNumberFromConsole_text by apply Z_toString_nonempty.
  now rewrite Number_toString, parseInt_number_integer.
Qed.

(** C25. A number that the language prints with an exponent, one below
    [1e-6] or from [1e21] on in absolute value, is read from the console
    as its first significant digit with its sign, whatever the exponent:
    when the number typed is [digit] times [10 ^ e] and less than the
    next digit at that place, with [e] below -6 or from 21 on,
    [getNumberFromConsole] returns [digit], negated for a negative
    number.  The text 0.0000005 is read as 5.  [getNumberFromConsole]
    calls [parseInt] on the number, which prints it first. *)
Theorem getNumberFromConsole_exponent (text : string) (number : Q) (digit e : Z) :
  Number_of text = JFin number ->
  first_digit (Qabs number) digit e ->
  (e < -6 \/ 21 <= e)%Z ->
  getNumberFromConsole (Some text)
  = Some (of_Z (if Qltb number 0 then - digit else digit)).
Proof.
  intros Hn Hf He.
  rewrite getNumberFromConsole_text, Hn, (parseInt_number_exponent number digit e Hf He);
    [reflexivity|].
  intros ->. injection Hn as <-. now apply first_digit_pos in Hf.
Qed.

(** C28. The error of every fit is printed with six decimals: for each
    model of the result whose error is below [1e21], [displayAnalysis]
    prints a line with the model's label and a text that [Number] reads
    back to within half a millionth of the error. *)
Theorem displayAnalysis_fits (complexity : Complexity) (type : string) (q : Q) :
  In (type, Fin q) (results complexity) ->
  (Qabs q < inject_Z (10 ^ 21))%Q ->
  exists text q',
    In (Fit type text) (displayAnalysis complexity)
    /\ Number_of text = JFin q'
    /\ (Qabs (q' - q) <= (1 # 2) / inject_Z (10 ^ Z.of_nat 6))%Q.
Proof.
  intros Hin Hq. destruct (toFixed_parsed 6 q Hq) as (q' & H & Hb).
  exists (toFixed 6 (Fin q)), q'. split; [|now split].
  unfold displayAnalysis. rewrite !in_app_iff. do 3 right.
  apply in_map_iff. exists (type, Fin q). split; [cbn [fst snd]; reflexivity | exact Hin].
Qed.

(** C35. Whether the high-precision analysis is run: for every label of
    the catalog it is the user's answer when the confidence is at most 75,
    and the question is not asked otherwise. *)
Theorem userWantsRerun_spec (c : Complexity) (z : Z) (answer : bool) :
  In (bestFit c) labels -> confidence c = of_Z z ->
  userWantsRerun c answer = (z <=? 75)%Z && answer.
Proof.
  intros Hl Hz. unfold userWantsRerun, getYesNoFromConsole.
  rewrite Hz, nle_of_Z. destruct (z <=? 75)%Z; [|reflexivity]. cbn [andb].
  cbn [labels In] in Hl.
  destruct Hl as [<-|[<-|[<-|[<-|[<-|[]]]]]]; reflexivity.
Qed.

(** ** The analyses of a session *)

Section Session.
Context {M : MathLib} {W E : Type} {clock : Clock W}.

Section Candidate.
Variable algorithm : Algorithm (W := W) (E := E).
Hypothesis returns : forall i w0, exists i' w1, algorithm i w0 = Ok (i', w1).

Lemma runAndDisplayAnalysis_total inputSizes inputMode w :
  inputSizes <> [] ->
  exists complexity w',
    runAndDisplayAnalysis algorithm inputSizes inputMode w
    = Ok ((complexity, displayAnalysis complexity), w').
Proof.
  intros Hne. unfold runAndDisplayAnalysis.
  destruct (runAnalysis_total algorithm returns inputSizes 10 inputMode w ltac:(lia))
    as (dataPoints & w' & H).
  rewrite (io_bind_ok _ _ _ _ _ H).
  destruct (determineComplexity_returns dataPoints) as (r & -> & _); [|now eexists _, _].
  apply runAnalysis_sizes_length in H.
  destruct dataPoints, inputSizes; cbn in H; congruence.
Qed.

Lemma analyse_total inputSizes inputMode answer w :
  inputSizes <> [] ->
  exists complexity out w',
    analyse algorithm inputSizes inputMode answer w = Ok (out, w')
    /\ hd_error out = Some (displayAnalysis complexity)
    /\ length out = if userWantsRerun complexity answer then 2%nat else 1%nat.
Proof.
  intros Hne. unfold analyse.
  destruct (runAndDisplayAnalysis_total inputSizes inputMode w Hne) as (c & w1 & H).
  rewrite (io_bind_ok _ _ _ _ _ H). cbn [fst snd]. exists c.
  destruct (userWantsRerun c answer); [|now eexists _, _].
  destruct (runAndDisplayAnalysis_total highPrecisionInputSizes inputMode w1)
    as (c' & w2 & H'); [discriminate|].
  rewrite (io_bind_ok _ _ _ _ _ H'). now eexists _, _.
Qed.

(** An analysis is the classification of what the benchmark returned. *)
Lemma runAndDisplayAnalysis_run inputSizes inputMode w dataPoints w1 complexity :
  runAnalysis algorithm inputSizes (of_Z 10) inputMode w = Ok (dataPoints, w1) ->
  determineComplexity dataPoints = Ok complexity ->
  runAndDisplayAnalysis algorithm inputSizes inputMode w
  = Ok ((complexity, displayAnalysis complexity), w1).
Proof.
  intros Hrun Hc. unfold runAndDisplayAnalysis.
  now rewrite (io_bind_ok _ _ _ _ _ Hrun), Hc.
Qed.

Lemma analyse_first inputSizes inputMode answer w dataPoints w1 complexity :
  runAnalysis algorithm inputSizes (of_Z 10) inputMode w = Ok (dataPoints, w1) ->
  determineComplexity dataPoints = Ok complexity ->
  exists out w',
    analyse algorithm inputSizes inputMode answer w = Ok (out, w')
    /\ hd_error out = Some (displayAnalysis complexity).
Proof.
  intros Hrun Hc. unfold analyse.
  rewrite (io_bind_ok _ _ _ _ _ (runAndDisplayAnalysis_run _ _ _ _ _ _ Hrun Hc)).
  cbn [fst snd]. destruct (userWantsRerun complexity answer); [|now eexists _, _].
  destruct (runAndDisplayAnalysis_total highPrecisionInputSizes inputMode w1)
    as (c' & w2 & H'); [discriminate|].
  rewrite (io_bind_ok _ _ _ _ _ H'). now eexists _, _.
Qed.

Lemma analyse_no_sizes inputMode answer w :
  analyse algorithm [] inputMode answer w
  = Throw (Internal (Error "mean requires at least one data point"), w).
Proof. reflexivity. Qed.

End Candidate.

Variable algorithms : sample -> Callable (W := W) (E := E).

(** *** The selection of the algorithm *)

(** The built-in algorithms are analysed on arrays. *)
Lemma select_builtin (s : Session) :
  sourceIndex s = 0%Z -> (0 <= algoIndex s < 4)%Z ->
  exists selectedAlgoName a,
    sample_of selectedAlgoName = Some a
    /\ select algorithms s = Selected selectedAlgoName (algorithms a) "array".
Proof.
  intros Hs Ha. unfold select. rewrite Hs. cbn [getOptionFromConsole].
  assert (Hi : (algoIndex s = 0 \/ algoIndex s = 1 \/ algoIndex s = 2 \/ algoIndex s = 3)%Z)
    by lia.
  destruct Hi as [-> | [-> | [-> | ->]]]; eexists _, _; (split; [|reflexivity]); reflexivity.
Qed.

(** The second source is the custom branch. *)
Lemma select_custom (s : Session) :
  sourceIndex s = 1%Z -> select algorithms s = load s.
Proof. intros Hs. unfold select. now rewrite Hs. Qed.

(** A file that exports one function: the function is selected under its
    name, or as 'Custom Function' when it has none. *)
Lemma select_custom_function (s : Session) path name f :
  sourceIndex s = 1%Z -> filePath s = Some path -> path <> "" ->
  required s = Ok (ExportsFunction name f) -> (0 <= modeIndex s < 2)%Z ->
  select algorithms s
  = Selected (if String.eqb name "" then "Custom Function" else name) f
      (if (modeIndex s =? 0)%Z then "array" else "number").
Proof.
  intros Hs Hp Hne Hr Hm. rewrite (select_custom s Hs). unfold load. rewrite Hp, Hr. destruct path; [contradiction|]. unfold select_mode.
  assert (Hi : (modeIndex s = 0 \/ modeIndex s = 1)%Z) by lia.
  destruct Hi as [-> | ->]; reflexivity.
Qed.

(** The question on the input mode never fails. *)
Lemma select_mode_not_failed (s : Session (W := W) (E := E)) name f message :
  select_mode s name f <> LoadFailed message.
Proof. unfold select_mode. now destruct (getOptionFromConsole _ _). Qed.

(** *** The session from the strategy on *)

Lemma main_load_error (s : Session) message :
  main algorithms s = LoadError message <-> select algorithms s = LoadFailed message.
Proof.
  unfold main. destruct (select algorithms s) as [|m|name f mode].
  - split; discriminate.
  - split; intros [= ->]; reflexivity.
  - split; [|discriminate].
    destruct (getOptionFromConsole _ _) as [strategy|]; [|discriminate].
    destruct (inputSizes _ _) as [sizes|]; [|discriminate].
    destruct (integral sizes); discriminate.
Qed.

Lemma main_unfold (s : Session) name f inputMode selectedStrategy sizes l :
  select algorithms s = Selected name f inputMode ->
  getOptionFromConsole (strategyIndex s) growthStrategies = Some selectedStrategy ->
  inputSizes selectedStrategy (numbers s) = Some sizes ->
  integral sizes = Some l ->
  main algorithms s = Analysis name (analyse (wrap name f) l inputMode (rerun s)).
Proof.
  intros H1 H2 H3 H4. unfold main. rewrite H1, H2. cbv iota. rewrite H3.
  cbv iota. now rewrite H4.
Qed.

(** A session on the strategy 'Powers of 10' reaches the analysis. *)
Lemma main_powers (s : Session) name f inputMode (k : Z) :
  select algorithms s = Selected name f inputMode ->
  strategyIndex s = 0%Z ->
  getNumberFromConsole (first (numbers s)) = Some (of_Z k) ->
  main algorithms s
  = Analysis name
      (analyse (wrap name f)
         (map (fun i => 10 ^ Z.of_nat i)%Z (seq 1 (Z.to_nat k))) inputMode (rerun s)).
Proof.
  intros Hsel Hs Hn.
  eapply (main_unfold s name f inputMode _ (powers (of_Z k)) _ Hsel).
  - rewrite Hs. reflexivity.
  - unfold inputSizes. cbn [startsWith String.prefix]. cbv beta iota. now rewrite Hn.
  - rewrite powers_of_Z. apply integral_of_Z.
Qed.

(** The reasons for which a file cannot be used. *)
Inductive LoadFails : res string (Exports (W := W) (E := E)) -> string -> Prop :=
| require_throws message : LoadFails (Throw message) message
| no_function :
    LoadFails (Ok (ExportsObject [])) "No exported functions found in that file."
| null_module :
    LoadFails (Ok ExportsNull) "Cannot convert undefined or null to object"
| not_a_module :
    LoadFails (Ok ExportsOther) "Module does not export a function or object.".

Lemma load_failed (s : Session (W := W) (E := E)) path message :
  filePath s = Some path -> path <> "" ->
  load s = LoadFailed message <-> LoadFails (required s) message.
Proof.
  intros Hp Hne. unfold load. rewrite Hp. destruct path; [contradiction|].
  destruct (required s) as [[name f|[|p functions]| |]|m].
  - split; [intros H; now apply select_mode_not_failed in H | inversion 1].
  - split; [intros [= <-]; constructor | now inversion 1].
  - split; [|inversion 1].
    destruct (getOptionFromConsole _ _) as [[|c key]|]; try discriminate.
    destruct (property _ _); [|discriminate].
    intros H. now apply select_mode_not_failed in H.
  - split; [intros [= <-]; constructor | now inversion 1].
  - split; [intros [= <-]; constructor | now inversion 1].
  - split; [intros [= <-]; constructor | now inversion 1].
Qed.

(** C29. A session of the command-line front end in which an algorithm
    that returns was selected, built-in or loaded from a file, with the
    strategy 'Powers of 10' and a maximal power of at least 1, runs to its
    end: it prints one analysis, or two when the high-precision run was
    accepted. *)
Theorem cli_main_returns (s : Session) name f inputMode (k : Z) :
  select algorithms s = Selected name f inputMode ->
  (forall i w0, exists i' w1, wrap name f i w0 = Ok (i', w1)) ->
  strategyIndex s = 0%Z ->
  getNumberFromConsole (first (numbers s)) = Some (of_Z k) ->
  (1 <= k)%Z ->
  exists run, main algorithms s = Analysis name run
    /\ forall w, exists out w', run w = Ok (out, w') /\ (1 <= length out <= 2)%nat.
Proof.
  intros Hsel Hret Hs Hn Hk. rewrite (main_powers s name f inputMode k Hsel Hs Hn).
  eexists. split; [reflexivity|]. intros w.
  destruct (analyse_total (wrap name f) Hret
              (map (fun i => 10 ^ Z.of_nat i)%Z (seq 1 (Z.to_nat k))) inputMode (rerun s) w)
    as (cx & out & w' & H & _ & Hlen).
  - destruct (Z.to_nat k) eqn:Hz; [lia | discriminate].
  - exists out, w'. split; [exact H|]. destruct (userWantsRerun cx (rerun s)); lia.
Qed.

(** C31. With the strategy 'Powers of 10' and a maximal power below 1
    there is no size: the session ends with the uncaught error of
    [ss.mean], before anything is measured. *)
Theorem cli_main_no_sizes (s : Session) name f inputMode (k : Z) w :
  select algorithms s = Selected name f inputMode ->
  strategyIndex s = 0%Z ->
  getNumberFromConsole (first (numbers s)) = Some (of_Z k) ->
  (k <= 0)%Z ->
  exists run, main algorithms s = Analysis name run
    /\ run w = Throw (Internal (Error "mean requires at least one data point"), w).
Proof.
  intros Hsel Hs Hn Hk. rewrite (main_powers s name f inputMode k Hsel Hs Hn).
  eexists. split; [reflexivity|].
  replace (Z.to_nat k) with O by lia. apply analyse_no_sizes.
Qed.

(** C30. On a clock that does not run backwards, a session in which an
    algorithm that returns was selected, with the strategy 'Powers of 10'
    and a maximal power of at least 2, runs to its end, and the first
    analysis it prints is the classification of valid samples of the
    sizes 10, 100, ... up to the maximal power: the sizes of the strategy
    and the times of the benchmarker satisfy what the classifier
    requires. *)
Theorem cli_session_valid {mono : Monotone W} (s : Session) name f inputMode (k : Z) :
  select algorithms s = Selected name f inputMode ->
  (forall lo input, io_spec (since lo) (wrap name f input) (fun _ => since lo)) ->
  strategyIndex s = 0%Z ->
  getNumberFromConsole (first (numbers s)) = Some (of_Z k) ->
  (2 <= k)%Z ->
  exists run, main algorithms s = Analysis name run
    /\ forall w, exists pts complexity out w',
         run w = Ok (out, w')
         /\ valid_samples pts
         /\ map fst pts = map (fun i => 10 ^ Z.of_nat i)%Z (seq 1 (Z.to_nat k))
         /\ determineComplexity (map dataPoint pts) = Ok complexity
         /\ hd_error out = Some (displayAnalysis complexity).
Proof.
  intros Hsel Hadv Hs Hn Hk. rewrite (main_powers s name f inputMode k Hsel Hs Hn).
  eexists. split; [reflexivity|]. intros w.
  destruct (powers_valid k Hk) as (l & Hl & Hlen & Hpos & _ & Hnd).
  rewrite powers_of_Z, integral_of_Z in Hl. injection Hl as <-.
  destruct (runAnalysis_spec (wrap name f) Hadv
              (map (fun i => 10 ^ Z.of_nat i)%Z (seq 1 (Z.to_nat k))) 10 inputMode w
              ltac:(lia))
    as (pts & w1 & Hrun & Hsizes & Htimes).
  assert (Hne : map dataPoint pts <> [])
    by (destruct pts; [rewrite <- Hsizes in Hlen; cbn in Hlen; lia | discriminate]).
  destruct (determineComplexity_returns _ Hne) as (c & Hc & _).
  assert (Hret : forall i w0, exists i' w2, wrap name f i w0 = Ok (i', w2)).
  { intros i w0. destruct (Hadv (elapsed w0) i w0 (Qle_refl _)) as (i' & w2 & Hi & _).
    now exists i', w2. }
  destruct (analyse_first (wrap name f) Hret _ inputMode (rerun s) w _ w1 c Hrun Hc)
    as (out & w' & H & Hhd).
  exists pts, c, out, w'. split; [exact H|]. split; [|now split].
  rewrite <- Hsizes in Hlen, Hpos, Hnd. rewrite length_map in Hlen.
  constructor; [lia | exact Htimes | exact (proj1 (Forall_map_iff _ _ _) Hpos) | exact Hnd].
Qed.

(** C32. A session on a custom file ends with the message 'Error loading
    file' exactly when [require] throws, the module is [null], it is an
    object without a function, or it is neither a function nor an object;
    the message is the one of the error, and nothing is measured. *)
Theorem cli_load_error (s : Session) path message :
  sourceIndex s = 1%Z -> filePath s = Some path -> path <> "" ->
  main algorithms s = LoadError message <-> LoadFails (required s) message.
Proof.
  intros Hs Hp Hne.
  now rewrite main_load_error, (select_custom s Hs), (load_failed s path message Hp Hne).
Qed.

End Session.

End Index.

Import Index.

(** * The theorems at concrete inputs *)

Lemma powers_valid_witness :
  exists l, integral (powers (of_Z 3)) = Some l
    /\ length l = Z.to_nat 3
    /\ Forall (fun size => 0 < size)%Z l
    /\ Sorted.StronglySorted Z.lt l /\ NoDup l.
Proof. apply (powers_valid 3). lia. Defined.

Lemma getNumberFromConsole_printed_witness :
  getNumberFromConsole (Some (Z_toString 1000)) = Some (of_Z 1000).
Proof. apply (getNumberFromConsole_printed 1000). reflexivity. Defined.

(** Half a millionth is printed as 5e-7 and read as 5. *)
Lemma getNumberFromConsole_exponent_witness :
  getNumberFromConsole (Some "0.0000005") = Some (of_Z 5).
Proof.
  apply (getNumberFromConsole_exponent "0.0000005" (5 # 10000000) 5 (-7));
    [reflexivity | | lia].
  split; [lia|]. split; [now vm_compute | reflexivity].
Defined.

Definition one_fit : Complexity :=
  {| bestFit := O_n; confidence := of_Z 90; results := [(O_n, Fin (1234567 # 1000000))] |}.

Lemma displayAnalysis_fits_witness :
  exists text q',
    In (Fit O_n text) (displayAnalysis one_fit)
    /\ Number_of text = JFin q'
    /\ (Qabs (q' - (1234567 # 1000000)) <= (1 # 2) / inject_Z (10 ^ Z.of_nat 6))%Q.
Proof.
  apply (displayAnalysis_fits one_fit O_n (1234567 # 1000000));
    [left; reflexivity | reflexivity].
Defined.

Definition low_linear : Complexity :=
  {| bestFit := O_n; confidence := of_Z 75; results := [] |}.

Lemma userWantsRerun_spec_witness :
  userWantsRerun low_linear true = (75 <=? 75)%Z && true.
Proof.
  apply (userWantsRerun_spec low_linear 75 true); [|reflexivity].
  right. right. left. reflexivity.
Defined.

(** The sample candidates as [main] holds them. *)
Definition ideal_algorithms (a : sample) : Callable (W := Q) (E := Empty_set) :=
  fun _ => ideal_candidate a.

(** A session: linearTime, powers of 10 up to 10^3, no re-run. *)
Definition session3 : Session (W := Q) (E := Empty_set) :=
  {| sourceIndex := 0; algoIndex := 1; filePath := None;
     required := Throw "no file"; exportIndex := 0; modeIndex := 0;
     strategyIndex := 0;
     numbers := {| first := Some "3"; second := None; third := None |};
     rerun := false |}.

(** The same with a maximal power of 0. *)
Definition session0 : Session (W := Q) (E := Empty_set) :=
  {| sourceIndex := 0; algoIndex := 1; filePath := None;
     required := Throw "no file"; exportIndex := 0; modeIndex := 0;
     strategyIndex := 0;
     numbers := {| first := Some "0"; second := None; third := None |};
     rerun := false |}.

(** A session on a file whose module is an object without a function. *)
Definition session_empty : Session (W := Q) (E := Empty_set) :=
  {| sourceIndex := 1; algoIndex := 0; filePath := Some "./constants.js";
     required := Ok (ExportsObject []); exportIndex := 0; modeIndex := 0;
     strategyIndex := 0;
     numbers := {| first := Some "3"; second := None; third := None |};
     rerun := false |}.

Lemma cli_main_returns_witness :
  exists run,
    main (clock := ideal_clock) ideal_algorithms session3 = Analysis "linearTime" run
    /\ forall w, exists out w', run w = Ok (out, w') /\ (1 <= length out <= 2)%nat.
Proof.
  apply (cli_main_returns (clock := ideal_clock) ideal_algorithms session3
           "linearTime" (ideal_algorithms LinearTime) "array" 3);
    [reflexivity | intros i w0; apply ideal_candidate_returns
    | reflexivity | reflexivity | lia].
Defined.

Lemma ideal_algorithms_advance name a lo input :
  io_spec (since (mono := ideal_monotone) lo) (wrap name (ideal_algorithms a) input)
          (fun _ => since (mono := ideal_monotone) lo).
Proof.
  assert (H : io_spec (since (mono := ideal_monotone) lo) (ideal_candidate a input)
                      (fun _ => since (mono := ideal_monotone) lo)).
  { apply ideal_advances. intros i. unfold cost_of.
    apply Qmult_le_0_compat; [lra|]. change 0%Q with (inject_Z 0).
    rewrite <- Zle_Qle. lia. }
  unfold wrap. now destruct (String.eqb name _).
Qed.

Lemma cli_session_valid_witness :
  exists run,
    main (clock := ideal_clock) ideal_algorithms session3 = Analysis "linearTime" run
    /\ forall w, exists pts complexity out w',
         run w = Ok (out, w')
         /\ valid_samples pts
         /\ map fst pts = map (fun i => 10 ^ Z.of_nat i)%Z (seq 1 (Z.to_nat 3))
         /\ determineComplexity (map dataPoint pts) = Ok complexity
         /\ hd_error out = Some (displayAnalysis complexity).
Proof.
  apply (cli_session_valid (clock := ideal_clock) (mono := ideal_monotone)
           ideal_algorithms session3 "linearTime" (ideal_algorithms LinearTime) "array" 3);
    [reflexivity | intros lo input; apply ideal_algorithms_advance
    | reflexivity | reflexivity | lia].
Defined.

Lemma cli_main_no_sizes_witness :
  exists run,
    main (clock := ideal_clock) ideal_algorithms session0 = Analysis "linearTime" run
    /\ run 0%Q = Throw (Internal (Error "mean requires at least one data point"), 0%Q).
Proof.
  apply (cli_main_no_sizes (clock := ideal_clock) ideal_algorithms session0
           "linearTime" (ideal_algorithms LinearTime) "array" 0 0%Q);
    [reflexivity | reflexivity | reflexivity | lia].
Defined.

Lemma cli_load_error_witness :
  main (clock := ideal_clock) ideal_algorithms session_empty
    = LoadError "No exported functions found in that file."
  <-> LoadFails (required session_empty) "No exported functions found in that file.".
Proof.
  apply (cli_load_error (clock := ideal_clock) ideal_algorithms session_empty
           "./constants.js"); [reflexivity | reflexivity | discriminate].
Defined.
