(* ===== verification/FirstCli.v ===== *)
(** * The first command-line front end

    The first version of src/index.js, which the repository still holds
    (src/unnamed/part_001, lines 142 to 219), with the first version of
    src/utils/input.js (src/verifyAlg.js, lines 66 to 101).  It asks for
    one of the sample candidates and for a growth strategy, runs the
    earlier benchmarker ([V1.runAnalysis], ten iterations) and prints the
    answer of the earlier classifier with its four scores.  The sizes of a
    strategy are the loops of the current version, which the file Cli
    holds. *)

From Stdlib Require Import String.
From Stdlib Require Import QArith Qround Lqa Lia ZArith List Bool Permutation.
From S2P Require Import Prelude.
From S2P Require Import Numeric.
From S2P Require Import Text.
From S2P Require Import JsArray.
From S2P Require Import Stats.
From S2P Require Import DataModel.
From S2P Require Import Benchmark.
From S2P Require Import Algorithms.
From S2P Require Import Harness.
From S2P Require Import Legacy.
From S2P Require Import Cli.
Import ListNotations.

Local Open Scope string_scope.
Local Open Scope list_scope.
Local Open Scope js_scope.

Module IndexV1.

Import Index.

(** ** The first src/utils/input.js *)

(** [getNumberFromConsole]: from what [readlineSync.question] returned. *)
Definition getNumberFromConsole (userInput : option string) : option num :=
  match userInput with
  | None => None
  | Some "" => None
  | Some text =>
      match Number_of text with
      | JNaN => None
      | JFin number => Some (parseInt_number number)
      | JInf _ => Some NaN
      end
  end.

(** [getOptionFromConsole]: from the index [readlineSync.keyInSelect]
    returned. *)
Definition getOptionFromConsole (index : Z) (options : list string)
  : option string :=
  if (index =? -1)%Z then None else nth_error options (Z.to_nat index).

(** ** The first src/index.js *)

(** The sizes of the selected strategy; [None] when an answer is missing
    and [main] returns. *)
Definition inputSizes (selectedStrategy : string) (a : Numbers)
  : option (list num) :=
  if startsWith selectedStrategy "Powers of 10" then
    match getNumberFromConsole (first a) with
    | None => None
    | Some maxPower => Some (powers maxPower)
    end
  else if startsWith selectedStrategy "Doubling" then
    match getNumberFromConsole (first a), getNumberFromConsole (second a) with
    | Some startSize, Some steps => Some (doublingSizes startSize steps)
    | _, _ => None
    end
  else if startsWith selectedStrategy "Linear Steps" then
    match getNumberFromConsole (first a), getNumberFromConsole (second a),
          getNumberFromConsole (third a) with
    | Some startSize, Some stepSize, Some count =>
        Some (linearSteps startSize stepSize count)
    | _, _, _ => None
    end
  else Some [].

(** What step 5 of [main] prints. *)
Inductive Shown : Type :=
| Header
| MostLikely (bestFit : string)
| ScoresHeader
| Score (type : string) (r2 : string).

Definition display (complexity : V1.Result) : list Shown :=
  [Header; MostLikely (V1.bestFit complexity); ScoresHeader]
  ++ map (fun res => Score (V1.type res) (toFixed 4 (V1.r2 res))) (V1.results complexity).

Section Main.
Context {M : MathLib} {W E : Type} {clock : Clock W}.

(** Steps 3 to 5 of [main]. *)
Definition analyse (algorithm : Algorithm (W := W) (E := E)) (inputSizes : list Z)
  : io W (exn E) (list Shown) :=
  dataPoints <- V1.runAnalysis algorithm inputSizes (of_Z 10) ;;
  match V1.determineComplexity dataPoints with
  | Throw err => io_throw (Internal err)
  | Ok complexity => io_ret (display complexity)
  end.

(** The functions of src/test_algorithms.js. *)
Variable algorithms : sample -> Callable (W := W) (E := E).

(** The answers of a session. *)
Record Session : Type := {
  algoIndex : Z;
  strategyIndex : Z;
  numbers : Numbers
}.

(** How [main] ends: it returns before the analysis, the sizes are not
    numbers, or it runs the analysis of [run]. *)
Inductive Outcome : Type :=
| Returned
| NaNSizes
| Analysis (selectedAlgoName : string) (run : io W (exn E) (list Shown)).

(** [main()]. *)
Definition main (s : Session) : Outcome :=
  match getOptionFromConsole (algoIndex s) algorithm_names with
  | None => Returned
  | Some selectedAlgoName =>
      match sample_of selectedAlgoName with
      | None => Returned
      | Some a =>
          let algorithm := wrap selectedAlgoName (algorithms a) in
          match getOptionFromConsole (strategyIndex s) growthStrategies with
          | None => Returned
          | Some selectedStrategy =>
              match inputSizes selectedStrategy (numbers s) with
              | None => Returned
              | Some sizes =>
                  match integral sizes with
                  | None => NaNSizes
                  | Some l => Analysis selectedAlgoName (analyse algorithm l)
                  end
              end
          end
      end
  end.

End Main.

(** * Facts *)

(** The console helpers did not change between the two versions. *)
Lemma getNumberFromConsole_unchanged userInput :
  getNumberFromConsole userInput = Index.getNumberFromConsole userInput.
Proof. reflexivity. Qed.

Lemma inputSizes_unchanged selectedStrategy a :
  inputSizes selectedStrategy a = Index.inputSizes selectedStrategy a.
Proof. reflexivity. Qed.

Section Session.
Context {M : MathLib} {W E : Type} {clock : Clock W}.

Section Candidate.
Variable algorithm : Algorithm (W := W) (E := E).
Hypothesis returns : forall i w0, exists i' w1, algorithm i w0 = Ok (i', w1).

(** The analysis returns on every list of sizes, the empty one included,
    and prints an answer that is one of the four regression models. *)
Lemma first_analyse_total inputSizes w :
  exists dataPoints complexity w',
    map n dataPoints = inputSizes
    /\ V1.determineComplexity dataPoints = Ok complexity
    /\ analyse algorithm inputSizes w = Ok (display complexity, w').
Proof.
  destruct (V1.v1_runAnalysis_spec algorithm returns 10 inputSizes ltac:(lia) w I)
    as (dataPoints & w' & H & Hn).
  destruct (V1.determineComplexity_four_models dataPoints) as (c & Hc & _).
  exists dataPoints, c, w'. split; [exact Hn|]. split; [exact Hc|].
  unfold analyse. now rewrite (io_bind_ok _ _ _ _ _ H), Hc.
Qed.

End Candidate.

Variable algorithms : sample -> Callable (W := W) (E := E).

Lemma first_main_unfold (s : Session) selectedAlgoName a selectedStrategy sizes l :
  getOptionFromConsole (algoIndex s) algorithm_names = Some selectedAlgoName ->
  sample_of selectedAlgoName = Some a ->
  getOptionFromConsole (strategyIndex s) growthStrategies = Some selectedStrategy ->
  inputSizes selectedStrategy (numbers s) = Some sizes ->
  integral sizes = Some l ->
  main algorithms s
  = Analysis selectedAlgoName (analyse (wrap selectedAlgoName (algorithms a)) l).
Proof.
  intros H1 H2 H3 H4 H5. unfold main. rewrite H1. cbv iota. rewrite H2.
  cbv iota zeta. rewrite H3. cbv iota. rewrite H4. cbv iota. now rewrite H5.
Qed.

(** A session on the strategy 'Powers of 10' reaches the analysis. *)
Lemma first_main_powers (s : Session) (k : Z) :
  (0 <= algoIndex s < 4)%Z -> strategyIndex s = 0%Z ->
  Index.getNumberFromConsole (first (numbers s)) = Some (of_Z k) ->
  exists name a,
    main algorithms s
    = Analysis name
        (analyse (wrap name (algorithms a))
           (map (fun i => 10 ^ Z.of_nat i)%Z (seq 1 (Z.to_nat k)))).
Proof.
  intros Ha Hs Hn.
  assert (Hi : (algoIndex s = 0 \/ algoIndex s = 1 \/ algoIndex s = 2 \/ algoIndex s = 3)%Z)
    by lia.
  destruct Hi as [Hi | [Hi | [Hi | Hi]]]; eexists _, _;
    (eapply (first_main_unfold s _ _ _ (powers (of_Z k)));
     [rewrite Hi; reflexivity | reflexivity | rewrite Hs; reflexivity
     | rewrite inputSizes_unchanged; unfold Index.inputSizes;
       cbn [startsWith String.prefix]; cbv beta iota; now rewrite Hn
     | rewrite powers_of_Z; apply integral_of_Z]).
Qed.

(** C33. A session of the first command-line front end on a sample
    candidate that returns, with the strategy 'Powers of 10', runs to its
    end for every maximal power: it prints an answer, which is one of the
    four regression models and never the constant one, and four scores. *)
Theorem first_main_returns (s : Session) (k : Z) :
  (forall a x i w0, exists i' w1, algorithms a x i w0 = Ok (i', w1)) ->
  (0 <= algoIndex s < 4)%Z -> strategyIndex s = 0%Z ->
  Index.getNumberFromConsole (first (numbers s)) = Some (of_Z k) ->
  exists name run, main algorithms s = Analysis name run
    /\ forall w, exists out w' bestFit,
         run w = Ok (out, w') /\ length out = 7%nat
         /\ nth_error out 1 = Some (MostLikely bestFit)
         /\ In bestFit [O_n; O_n2; O_log_n; O_n_log_n].
Proof.
  intros Hret Ha Hs Hn.
  destruct (first_main_powers s k Ha Hs Hn) as (name & a & ->).
  eexists _, _. split; [reflexivity|]. intros w.
  edestruct (first_analyse_total (wrap name (algorithms a))) as (d & c & w' & _ & Hc & H).
  { intros i w0. unfold wrap. destruct (String.eqb name _); apply Hret. }
  destruct (V1.determineComplexity_four_models d) as (c' & Hc' & Hp & Hb & _).
  rewrite Hc in Hc'. injection Hc' as <-.
  exists (display c), w', (V1.bestFit c). split; [exact H|].
  split; [|split; [reflexivity | exact Hb]].
  unfold display. rewrite length_app, length_map, <- (length_map V1.type).
  now rewrite (Permutation_length Hp).
Qed.

(** C34. With a maximal power below 2 there are fewer than two sizes, and
    the first version answers O(log n) with the score 1.0000 for every
    model,
    whatever the candidate is. *)
Theorem first_main_few_sizes (s : Session) (k : Z) :
  (forall a x i w0, exists i' w1, algorithms a x i w0 = Ok (i', w1)) ->
  (0 <= algoIndex s < 4)%Z -> strategyIndex s = 0%Z ->
  Index.getNumberFromConsole (first (numbers s)) = Some (of_Z k) ->
  (k <= 1)%Z ->
  exists name run, main algorithms s = Analysis name run
    /\ forall w, exists w',
         run w = Ok ([Header; MostLikely O_log_n; ScoresHeader;
                      Score O_n "1.0000"; Score O_n2 "1.0000";
                      Score O_log_n "1.0000"; Score O_n_log_n "1.0000"], w').
Proof.
  intros Hret Ha Hs Hn Hk.
  destruct (first_main_powers s k Ha Hs Hn) as (name & a & ->).
  eexists _, _. split; [reflexivity|]. intros w.
  edestruct (first_analyse_total (wrap name (algorithms a))) as (d & c & w' & Hd & Hc & H).
  { intros i w0. unfold wrap. destruct (String.eqb name _); apply Hret. }
  exists w'. rewrite H. rewrite V1.determineComplexity_few_samples in Hc.
  - now injection Hc as <-.
  - rewrite <- (length_map n), Hd, length_map, length_seq. lia.
Qed.

End Session.

End IndexV1.

Import Index.
Import IndexV1.

(** * The theorems at concrete inputs *)

(** A session: linearTime, powers of 10 up to 10^3. *)
Definition first_session3 : IndexV1.Session :=
  {| IndexV1.algoIndex := 1; IndexV1.strategyIndex := 0;
     IndexV1.numbers := {| first := Some "3"; second := None; third := None |} |}.

(** The same with a maximal power of 1. *)
Definition first_session1 : IndexV1.Session :=
  {| IndexV1.algoIndex := 1; IndexV1.strategyIndex := 0;
     IndexV1.numbers := {| first := Some "1"; second := None; third := None |} |}.

Lemma first_main_returns_witness :
  exists name run,
    IndexV1.main (clock := ideal_clock) ideal_algorithms first_session3
    = IndexV1.Analysis name run
    /\ forall w, exists out w' bestFit,
         run w = Ok (out, w') /\ length out = 7%nat
         /\ nth_error out 1 = Some (IndexV1.MostLikely bestFit)
         /\ In bestFit [O_n; O_n2; O_log_n; O_n_log_n].
Proof.
  apply (first_main_returns (clock := ideal_clock) ideal_algorithms first_session3 3);
    [intros a x i w0; apply ideal_candidate_returns | cbn; lia | reflexivity
    | reflexivity].
Defined.

Lemma first_main_few_sizes_witness :
  exists name run,
    IndexV1.main (clock := ideal_clock) ideal_algorithms first_session1
    = IndexV1.Analysis name run
    /\ forall w, exists w',
         run w = Ok ([IndexV1.Header; IndexV1.MostLikely O_log_n; IndexV1.ScoresHeader;
                      IndexV1.Score O_n "1.0000"; IndexV1.Score O_n2 "1.0000";
                      IndexV1.Score O_log_n "1.0000"; IndexV1.Score O_n_log_n "1.0000"],
                     w').
Proof.
  apply (first_main_few_sizes (clock := ideal_clock) ideal_algorithms first_session1 1);
    [intros a x i w0; apply ideal_candidate_returns | cbn; lia | reflexivity
    | reflexivity | lia].
Defined.
